(** * Minion effects of hearthbreaker: a shallow embedding

    The effects of [hearthbreaker/effects/minion.py] are embedded as
    computations in a state-and-exception monad over an explicit object
    store.  Python objects (minions, effect instances, closures, [Filter]
    objects) are references into the store, so that aliasing and object
    identity are those of the source. *)

From stdpp Require Import gmap strings list fin_maps.
From Stdlib Require Import ZArith Lia.

(** ** Python values and exceptions *)

Inductive exn :=
| RuntimeError (msg : string)
| KeyError
| ValueError
| IndexError
| TypeError
| NameError (name : string)
| RecursionError.

Inductive result (A : Type) :=
| Ok (a : A)
| Raise (e : exn).
Arguments Ok {A} a.
Arguments Raise {A} e.

Inductive player_id := Player1 | Player2.

#[global] Instance player_id_eq_dec : EqDecision player_id.
Proof. solve_decision. Defined.

(** [player.opponent] *)
Definition opponent (p : player_id) : player_id :=
  match p with Player1 => Player2 | Player2 => Player1 end.

(** A card, as far as the effects look at it: [card.name], the base cost
    [card.mana], [card.minion_type], the answer of [c.is_spell()], and the
    kind of the card: whether it is a minion card, a secret, and whether the
    minion it creates has a battlecry.  The module imports neither
    [MinionCard] nor [SecretCard], so that its [isinstance] tests never get
    to read the kind: see [card_filter_matches] and
    [Buff_check_card_filter]. *)
Record Card := {
  card_name : string;
  mana : Z;
  minion_type : Z;
  is_minion_card : bool;
  is_spell : bool;
  is_secret_card : bool;
  has_battlecry : bool }.

#[global] Instance Card_eq_dec : EqDecision Card.
Proof. solve_decision. Defined.

(** Callables.  A bound method [e.f] is the pair of the instance [e] and
    the method, so two bound methods are equal exactly when they are the
    same method of the same instance.  The nested functions of
    [ChargeAura.give_charge_if_beast] are closures: every run of
    [give_permacharge_effect] or [watch_for_silence] makes new function
    objects, identified here by the allocation number [c], together with
    the variables they capture ([self] and [minion]).  [Native n] is a
    callable defined outside this file (a card's own deathrattle). *)
Inductive callback :=
| bound_KillMinion_die (self : nat)
| bound_SummonOnDeath_summon_replacement (self : nat)
| bound_Immune_remove_immunity (self : nat)
| bound_DrawOnMinion_check_minion_draw (self : nat)
| bound_ChargeAura_give_charge_if_beast (self : nat)
| closure_permacharge_silenced (c self minion : nat)
| closure_permacharge_target_silenced (c self minion : nat)
| closure_permacharge_copied (c self minion : nat)
| closure_watch_silenced (c self minion : nat)
| closure_watch_lambda (c self minion : nat)
| bound_DoubleDeathrattle_trigger_deathrattle (self : nat)
| bound_AddCardOnSpell_add_card (self : nat)
| bound_FreezeOnDamage_did_damage (self : nat)
| bound_Buff_check_minion_filter (self : nat)
| bound_Buff_check_card_filter (self : nat)
| bound_Buff_do_action (self : nat)
| bound_Resurrect_minion_died (self : nat)
| bound_Resurrect_turn_ended (self : nat)
| Native (n : nat).

#[global] Instance callback_eq_dec : EqDecision callback.
Proof. solve_decision. Defined.

Inductive value :=
| VNone
| VMinion (m : nat)
| VCard (c : Card)
| VInt (z : Z)
| VPlayer (p : player_id).

(** The listener table of an entity: event name to the ordered sequence of
    (callback, one-shot flag). *)
Abbreviation events := (gmap string (list (callback * bool))).

(** ** The object store *)

Record Minion := {
  card : Card;
  player : player_id;
  charge : bool;
  immune : bool;
  frozen : bool;
  dead : bool;
  attack : Z;
  health : Z;
  deathrattle : option callback;
  minion_events : events }.

(** The predicate of a mana filter: the four lambdas of [ManaFilter.apply]
    and the one of [IncreaseBattlecryMinionCost.apply]. *)
Inductive card_filter :=
| filter_minion
| filter_spell
| filter_secret
| filter_any
| filter_battlecry_minion.

#[global] Instance card_filter_eq_dec : EqDecision card_filter.
Proof. solve_decision. Defined.

(** An instance of the local class [Filter].  The class defines no
    [__eq__], so [list.remove] compares instances by identity: [filter_obj]
    is the allocation number of the instance. *)
Record Filter := {
  filter_obj : nat;
  amount : Z;
  min : Z;
  filter : card_filter }.

#[global] Instance Filter_eq_dec : EqDecision Filter.
Proof. solve_decision. Defined.

Record Player := {
  minions : list nat;
  hand : list Card;
  cards_drawn : nat;
  mana_filters : list Filter;
  effect_count : gmap string Z;
  heal_does_damage : bool;
  player_events : events }.

(** The instance state of each effect class: the constructor arguments and
    the attributes the methods assign. *)
Inductive effect_state :=
| KillMinion (when : string)
| SummonOnDeath (replacement : Card) (count : Z)
    (old_death_rattle : option callback)
| Immune
| DrawOnMinion (mtype : Z)
| ChargeAura (players : string) (mtype : Z)
    (affected_minions charged_minions : list nat)
| StatsAura (att hp : Z) (players : string) (mtype : Z)
| IncreaseBattlecryMinionCost (amt : Z) (mana_filter : option Filter)
| DoubleDeathrattle
| HealAsDamage
| ManaFilter (amt : Z) (filter_type : string) (minimum : Z)
    (plr : string) (filter_object : option Filter)
| AddCardOnSpell (crd : Card)
| FreezeOnDamage
| Buff (when minion_filter buff_target : string) (att hp : Z)
    (players : string)
| ResurrectFriendlyMinionsAtEndOfTurn (dead_minions : list Card).

Record Effect := {
  target : nat;
  state : effect_state }.

(** An aura registered through [Minion.add_aura]. *)
Record Aura := {
  aura_source : nat;
  aura_attack : Z;
  aura_health : Z;
  aura_players : list player_id;
  aura_filter : option Z }.

Record World := {
  player_one : Player;
  player_two : Player;
  current_player : player_id;
  minion_store : gmap nat Minion;
  effect_store : gmap nat Effect;
  next_object : nat;
  auras : list Aura;
  random_values : list nat;
  native_calls : list (nat * list value) }.

Definition default_card : Card :=
  {| card_name := ""; mana := 0; minion_type := 0; is_minion_card := true;
     is_spell := false; is_secret_card := false; has_battlecry := false |}.

Definition new_minion (c : Card) (p : player_id) : Minion :=
  {| card := c; player := p; charge := false; immune := false;
     frozen := false; dead := false; attack := 0; health := 0;
     deathrattle := None; minion_events := ∅ |}.

#[global] Instance Minion_inhabited : Inhabited Minion :=
  populate (new_minion default_card Player1).

#[global] Instance Effect_inhabited : Inhabited Effect :=
  populate {| target := 0; state := Immune |}.

(** ** Field updates *)

Definition with_charge (b : bool) (m : Minion) : Minion :=
  {| card := card m; player := player m; charge := b; immune := immune m;
     frozen := frozen m; dead := dead m; attack := attack m;
     health := health m; deathrattle := deathrattle m;
     minion_events := minion_events m |}.

Definition with_immune (b : bool) (m : Minion) : Minion :=
  {| card := card m; player := player m; charge := charge m; immune := b;
     frozen := frozen m; dead := dead m; attack := attack m;
     health := health m; deathrattle := deathrattle m;
     minion_events := minion_events m |}.

Definition with_frozen (b : bool) (m : Minion) : Minion :=
  {| card := card m; player := player m; charge := charge m;
     immune := immune m; frozen := b; dead := dead m; attack := attack m;
     health := health m; deathrattle := deathrattle m;
     minion_events := minion_events m |}.

Definition with_dead (b : bool) (m : Minion) : Minion :=
  {| card := card m; player := player m; charge := charge m;
     immune := immune m; frozen := frozen m; dead := b; attack := attack m;
     health := health m; deathrattle := deathrattle m;
     minion_events := minion_events m |}.

Definition with_attack (a : Z) (m : Minion) : Minion :=
  {| card := card m; player := player m; charge := charge m;
     immune := immune m; frozen := frozen m; dead := dead m; attack := a;
     health := health m; deathrattle := deathrattle m;
     minion_events := minion_events m |}.

Definition with_health (h : Z) (m : Minion) : Minion :=
  {| card := card m; player := player m; charge := charge m;
     immune := immune m; frozen := frozen m; dead := dead m;
     attack := attack m; health := h; deathrattle := deathrattle m;
     minion_events := minion_events m |}.

Definition with_deathrattle (d : option callback) (m : Minion) : Minion :=
  {| card := card m; player := player m; charge := charge m;
     immune := immune m; frozen := frozen m; dead := dead m;
     attack := attack m; health := health m; deathrattle := d;
     minion_events := minion_events m |}.

Definition with_minion_events (ev : events) (m : Minion) : Minion :=
  {| card := card m; player := player m; charge := charge m;
     immune := immune m; frozen := frozen m; dead := dead m;
     attack := attack m; health := health m; deathrattle := deathrattle m;
     minion_events := ev |}.

Definition with_minions (l : list nat) (p : Player) : Player :=
  {| minions := l; hand := hand p; cards_drawn := cards_drawn p;
     mana_filters := mana_filters p; effect_count := effect_count p;
     heal_does_damage := heal_does_damage p;
     player_events := player_events p |}.

Definition with_hand (l : list Card) (p : Player) : Player :=
  {| minions := minions p; hand := l; cards_drawn := cards_drawn p;
     mana_filters := mana_filters p; effect_count := effect_count p;
     heal_does_damage := heal_does_damage p;
     player_events := player_events p |}.

Definition with_cards_drawn (n : nat) (p : Player) : Player :=
  {| minions := minions p; hand := hand p; cards_drawn := n;
     mana_filters := mana_filters p; effect_count := effect_count p;
     heal_does_damage := heal_does_damage p;
     player_events := player_events p |}.

Definition with_mana_filters (l : list Filter) (p : Player) : Player :=
  {| minions := minions p; hand := hand p; cards_drawn := cards_drawn p;
     mana_filters := l; effect_count := effect_count p;
     heal_does_damage := heal_does_damage p;
     player_events := player_events p |}.

Definition with_effect_count (c : gmap string Z) (p : Player) : Player :=
  {| minions := minions p; hand := hand p; cards_drawn := cards_drawn p;
     mana_filters := mana_filters p; effect_count := c;
     heal_does_damage := heal_does_damage p;
     player_events := player_events p |}.

Definition with_heal_does_damage (b : bool) (p : Player) : Player :=
  {| minions := minions p; hand := hand p; cards_drawn := cards_drawn p;
     mana_filters := mana_filters p; effect_count := effect_count p;
     heal_does_damage := b; player_events := player_events p |}.

Definition with_player_events (ev : events) (p : Player) : Player :=
  {| minions := minions p; hand := hand p; cards_drawn := cards_drawn p;
     mana_filters := mana_filters p; effect_count := effect_count p;
     heal_does_damage := heal_does_damage p; player_events := ev |}.

Definition with_state (st : effect_state) (e : Effect) : Effect :=
  {| target := target e; state := st |}.

Definition get_player (p : player_id) (w : World) : Player :=
  match p with Player1 => player_one w | Player2 => player_two w end.

Definition set_player (p : player_id) (x : Player) (w : World) : World :=
  {| player_one := match p with Player1 => x | Player2 => player_one w end;
     player_two := match p with Player1 => player_two w | Player2 => x end;
     current_player := current_player w; minion_store := minion_store w;
     effect_store := effect_store w; next_object := next_object w;
     auras := auras w; random_values := random_values w;
     native_calls := native_calls w |}.

Definition set_minion_store (s : gmap nat Minion) (w : World) : World :=
  {| player_one := player_one w; player_two := player_two w;
     current_player := current_player w; minion_store := s;
     effect_store := effect_store w; next_object := next_object w;
     auras := auras w; random_values := random_values w;
     native_calls := native_calls w |}.

Definition set_effect_store (s : gmap nat Effect) (w : World) : World :=
  {| player_one := player_one w; player_two := player_two w;
     current_player := current_player w; minion_store := minion_store w;
     effect_store := s; next_object := next_object w;
     auras := auras w; random_values := random_values w;
     native_calls := native_calls w |}.

Definition set_next_object (n : nat) (w : World) : World :=
  {| player_one := player_one w; player_two := player_two w;
     current_player := current_player w; minion_store := minion_store w;
     effect_store := effect_store w; next_object := n;
     auras := auras w; random_values := random_values w;
     native_calls := native_calls w |}.

Definition set_auras (l : list Aura) (w : World) : World :=
  {| player_one := player_one w; player_two := player_two w;
     current_player := current_player w; minion_store := minion_store w;
     effect_store := effect_store w; next_object := next_object w;
     auras := l; random_values := random_values w;
     native_calls := native_calls w |}.

Definition set_random_values (l : list nat) (w : World) : World :=
  {| player_one := player_one w; player_two := player_two w;
     current_player := current_player w; minion_store := minion_store w;
     effect_store := effect_store w; next_object := next_object w;
     auras := auras w; random_values := l;
     native_calls := native_calls w |}.

Definition set_native_calls (l : list (nat * list value)) (w : World)
  : World :=
  {| player_one := player_one w; player_two := player_two w;
     current_player := current_player w; minion_store := minion_store w;
     effect_store := effect_store w; next_object := next_object w;
     auras := auras w; random_values := random_values w;
     native_calls := l |}.

(** ** The monad of effectful methods

    A method runs on the store and either returns or raises; the mutations
    made before an exception is raised stay in the store, as in Python. *)

Definition M (A : Type) : Type := World → result A * World.

#[global] Instance M_ret : MRet M := λ A a w, (Ok a, w).

#[global] Instance M_bind : MBind M := λ A B f m w,
  match m w with
  | (Ok a, w') => f a w'
  | (Raise e, w') => (Raise e, w')
  end.

Definition raise {A : Type} (e : exn) : M A := λ w, (Raise e, w).
Definition skip : M unit := mret tt.

(** [try: body except KeyError: pass] *)
Definition except_KeyError_pass (body : M unit) : M unit :=
  λ w, match body w with
       | (Raise KeyError, w') => (Ok tt, w')
       | r => r
       end.

Definition the_minion (m : nat) : M Minion :=
  λ w, (Ok (minion_store w !!! m), w).
Definition the_player (p : player_id) : M Player :=
  λ w, (Ok (get_player p w), w).
Definition the_effect (e : nat) : M Effect :=
  λ w, (Ok (effect_store w !!! e), w).
Definition the_current_player : M player_id :=
  λ w, (Ok (current_player w), w).

Definition update_minion (m : nat) (f : Minion → Minion) : M unit :=
  λ w, (Ok tt, set_minion_store (<[m := f (minion_store w !!! m)]>
                                   (minion_store w)) w).
Definition update_player (p : player_id) (f : Player → Player) : M unit :=
  λ w, (Ok tt, set_player p (f (get_player p w)) w).
Definition update_state (e : nat) (st : effect_state) : M unit :=
  λ w, (Ok tt, set_effect_store (<[e := with_state st (effect_store w !!! e)]>
                                   (effect_store w)) w).

(** Allocation of a new object (a minion, a closure, a [Filter]). *)
Definition new_object : M nat :=
  λ w, (Ok (next_object w), set_next_object (S (next_object w)) w).

(** [for x in l: body(x)] *)
Fixpoint for_each {A : Type} (l : list A) (body : A → M unit) : M unit :=
  match l with
  | [] => skip
  | x :: l' => body x ;; for_each l' body
  end.

(** [for i in range(0, n): body] *)
Fixpoint repeat_times (n : nat) (body : M unit) : M unit :=
  match n with
  | O => skip
  | S n' => body ;; repeat_times n' body
  end.

(** ** The event bus

    The class that gives players and minions [bind], [bind_once], [unbind]
    and [trigger] is not part of [effects/minion.py]; the bus is the one of
    the spec (section 4.1). *)

(** Modelled from the spec: the listeners of an event in a listener table,
    none for an event that has no entry. *)
Definition handlers (evs : events) (event : string)
  : list (callback * bool) :=
  default [] (evs !! event).

Fixpoint remove_first {A : Type} (P : A → bool) (l : list A) : list A :=
  match l with
  | [] => []
  | x :: l' => if P x then l' else x :: remove_first P l'
  end.

Definition is_callback (f : callback) (h : callback * bool) : bool :=
  bool_decide (h.1 = f).

Definition is_handler (h0 h : callback * bool) : bool :=
  bool_decide (h = h0).

(** Modelled from the spec: [bind(event, f)], missing from the source,
    appends (f, one-shot = false) to the listeners of the event; the same
    callable may be bound twice. *)
Definition events_bind (event : string) (f : callback) (evs : events)
  : events :=
  <[event := handlers evs event ++ [(f, false)]]> evs.

(** Modelled from the spec: [bind_once(event, f)], missing from the source,
    appends (f, one-shot = true). *)
Definition events_bind_once (event : string) (f : callback) (evs : events)
  : events :=
  <[event := handlers evs event ++ [(f, true)]]> evs.

(** Modelled from the spec: [unbind(event, f)], missing from the source,
    removes the first entry whose callable equals [f] and does nothing when
    there is none. *)
Definition events_unbind (event : string) (f : callback) (evs : events)
  : events :=
  match evs !! event with
  | None => evs
  | Some l => <[event := remove_first (is_callback f) l]> evs
  end.

(** Modelled from the spec: the removal of a one-shot entry after its
    invocation, a part of the missing [trigger]. *)
Definition events_remove_handler (event : string) (h : callback * bool)
    (evs : events) : events :=
  match evs !! event with
  | None => evs
  | Some l => <[event := remove_first (is_handler h) l]> evs
  end.

(** The entities that carry a listener table: players and minions. *)
Inductive entity :=
| player_entity (p : player_id)
| minion_entity (m : nat).

#[global] Instance entity_eq_dec : EqDecision entity.
Proof. solve_decision. Defined.

Definition entity_events (ent : entity) (w : World) : events :=
  match ent with
  | player_entity p => player_events (get_player p w)
  | minion_entity m => minion_events (minion_store w !!! m)
  end.

Definition listeners (ent : entity) (event : string) (w : World)
  : list (callback * bool) :=
  handlers (entity_events ent w) event.

Definition update_events (ent : entity) (f : events → events) : M unit :=
  match ent with
  | player_entity p =>
      update_player p (λ x, with_player_events (f (player_events x)) x)
  | minion_entity m =>
      update_minion m (λ x, with_minion_events (f (minion_events x)) x)
  end.

(** Modelled from the spec: [entity.bind(event, f)], missing from the
    source, on the listener table of the entity. *)
Definition bind (ent : entity) (event : string) (f : callback) : M unit :=
  update_events ent (events_bind event f).

(** Modelled from the spec: [entity.bind_once(event, f)], missing from the
    source. *)
Definition bind_once (ent : entity) (event : string) (f : callback)
  : M unit :=
  update_events ent (events_bind_once event f).

(** Modelled from the spec: [entity.unbind(event, f)], missing from the
    source. *)
Definition unbind (ent : entity) (event : string) (f : callback) : M unit :=
  update_events ent (events_unbind event f).

(** ** The collaborators of the effects

    The methods of minions, players, cards and the game that the effects
    call are defined outside [effects/minion.py]; the spec lists them as the
    entity capability contract (section 6).  Each is modelled by its direct
    effect on the store. *)

(** Modelled from the spec: [player.draw()], missing from the source,
    counted in [cards_drawn]. *)
Definition draw (p : player_id) : M unit :=
  update_player p (λ x, with_cards_drawn (S (cards_drawn x)) x).

(** Modelled from the spec: [minion.die(by)], missing from the source. *)
Definition die (m : nat) : M unit := update_minion m (with_dead true).

(** Modelled from the spec: [minion.freeze()], missing from the source. *)
Definition freeze (m : nat) : M unit := update_minion m (with_frozen true).

(** Modelled from the spec: [minion.change_attack(a)], missing from the
    source. *)
Definition change_attack (m : nat) (a : Z) : M unit :=
  update_minion m (λ x, with_attack (attack x + a) x).

(** Modelled from the spec: [minion.increase_health(h)], missing from the
    source. *)
Definition increase_health (m : nat) (h : Z) : M unit :=
  update_minion m (λ x, with_health (health x + h) x).

(** Modelled from the spec: [minion.decrease_health(h)], missing from the
    source. *)
Definition decrease_health (m : nat) (h : Z) : M unit :=
  update_minion m (λ x, with_health (health x - h) x).

(** Modelled from the spec: [minion.add_aura(attack, health, players,
    filter)], missing from the source, registers the aura. *)
Definition add_aura (m : nat) (a h : Z) (ps : list player_id)
    (f : option Z) : M unit :=
  λ w, (Ok tt, set_auras (auras w ++ [{| aura_source := m; aura_attack := a;
                                         aura_health := h; aura_players := ps;
                                         aura_filter := f |}]) w).

(** [list.insert(index, x)] for a non-negative index. *)
Definition list_insert_at {A : Type} (index : nat) (x : A) (l : list A)
  : list A :=
  take index l ++ x :: drop index l.

(** Modelled from the spec: [card.summon(player, game, index)], missing
    from the source: a new minion of the card, owned by [player], is placed
    on the player's board at [index]. *)
Definition summon (c : Card) (p : player_id) (index : nat) : M unit :=
  m ← new_object;
  update_minion m (λ _, new_minion c p) ;;
  update_player p (λ x, with_minions (list_insert_at index m (minions x)) x).

(** Modelled from the spec: [game.random(lo, hi)], missing from the source:
    the next value of the game's random source. *)
Definition random (lo hi : Z) : M nat :=
  λ w, match random_values w with
       | [] => (Ok (Z.to_nat lo), w)
       | r :: rs => (Ok r, set_random_values rs w)
       end.

(** [list.remove(x)]: removes the first occurrence, [ValueError] if there
    is none. *)
Definition list_remove {A : Type} `{EqDecision A} (x : A) (l : list A)
  : result (list A) :=
  if bool_decide (x ∈ l) then Ok (remove_first (λ y, bool_decide (y = x)) l)
  else Raise ValueError.

Definition lift {A : Type} (r : result A) : M A :=
  λ w, (r, w).

(** The constants of [hearthbreaker.constants.MINION_TYPE] that the effects
    use: the value [ALL], and [from_str], whose [KeyError] on an unknown
    name is [None] here. *)
Class MINION_TYPE := {
  ALL : Z;
  from_str : string → option Z }.

Section Effects.

Context `{MINION_TYPE}.

(** [self.target] and [self.target.player] *)
Definition self_target (self : nat) : M nat :=
  e ← the_effect self; mret (target e).

Definition self_target_player (self : nat) : M player_id :=
  t ← self_target self; m ← the_minion t; mret (player m).

(** [summon(self.target.player, self.target.game,
            len(self.target.player.minions))] *)
Definition summon_at_end (self : nat) (c : Card) : M unit :=
  p ← self_target_player self;
  pl ← the_player p;
  summon c p (length (minions pl)).

(** ** KillMinion *)

Definition KillMinion_apply (self : nat) : M unit :=
  e ← the_effect self;
  match state e with
  | KillMinion when =>
      p ← the_current_player;
      bind (player_entity p) when (bound_KillMinion_die self)
  | _ => raise TypeError
  end.

Definition KillMinion_unapply (self : nat) : M unit :=
  e ← the_effect self;
  match state e with
  | KillMinion when =>
      p ← the_current_player;
      unbind (player_entity p) when (bound_KillMinion_die self)
  | _ => raise TypeError
  end.

Definition KillMinion_die (self : nat) : M unit :=
  t ← self_target self; die t.

(** ** SummonOnDeath *)

Definition SummonOnDeath_apply (self : nat) : M unit :=
  e ← the_effect self;
  match state e with
  | SummonOnDeath replacement count _ =>
      m ← the_minion (target e);
      update_state self (SummonOnDeath replacement count (deathrattle m)) ;;
      update_minion (target e)
        (with_deathrattle (Some (bound_SummonOnDeath_summon_replacement self)))
  | _ => raise TypeError
  end.

Definition SummonOnDeath_unapply (self : nat) : M unit := skip.

(** [invoke] is the call of a callable: the method is closed under [call]
    below. *)
Definition SummonOnDeath_summon_replacement
    (invoke : callback → list value → M unit) (self : nat) (m : value)
  : M unit :=
  e ← the_effect self;
  match state e with
  | SummonOnDeath replacement count old_death_rattle =>
      match old_death_rattle with
      | Some f => invoke f [m]
      | None => skip
      end ;;
      repeat_times (Z.to_nat count) (summon_at_end self replacement)
  | _ => raise TypeError
  end.

(** ** Immune *)

Definition Immune_remove_immunity (self : nat) : M unit :=
  t ← self_target self; update_minion t (with_immune false).

Definition Immune_apply (self : nat) : M unit :=
  t ← self_target self;
  update_minion t (with_immune true) ;;
  p ← the_current_player;
  bind (player_entity p) "turn_ended" (bound_Immune_remove_immunity self).

Definition Immune_unapply (self : nat) : M unit :=
  Immune_remove_immunity self ;;
  p ← the_current_player;
  unbind (player_entity p) "turn_ended" (bound_Immune_remove_immunity self).

(** ** DrawOnMinion *)

Definition DrawOnMinion_apply (self : nat) : M unit :=
  p ← self_target_player self;
  bind (player_entity p) "minion_placed"
    (bound_DrawOnMinion_check_minion_draw self).

Definition DrawOnMinion_check_minion_draw (self new_minion : nat) : M unit :=
  e ← the_effect self;
  match state e with
  | DrawOnMinion mtype =>
      m ← the_minion new_minion;
      if (negb (bool_decide (mtype = ALL))
          && bool_decide (minion_type (card m) = mtype))
         && negb (bool_decide (new_minion = target e))
      then p ← self_target_player self; draw p
      else skip
  | _ => raise TypeError
  end.

Definition DrawOnMinion_unapply (self : nat) : M unit :=
  p ← self_target_player self;
  unbind (player_entity p) "minion_placed"
    (bound_DrawOnMinion_check_minion_draw self).

(** ** ChargeAura *)

(** [self.affected_minions.append(minion)] *)
Definition affected_minions_append (self minion : nat) : M unit :=
  e ← the_effect self;
  match state e with
  | ChargeAura players mtype affected charged =>
      update_state self (ChargeAura players mtype (affected ++ [minion]) charged)
  | _ => raise TypeError
  end.

(** [self.charged_minions.append(minion)] *)
Definition charged_minions_append (self minion : nat) : M unit :=
  e ← the_effect self;
  match state e with
  | ChargeAura players mtype affected charged =>
      update_state self (ChargeAura players mtype affected (charged ++ [minion]))
  | _ => raise TypeError
  end.

(** [self.charged_minions.remove(minion)] *)
Definition charged_minions_remove (self minion : nat) : M unit :=
  e ← the_effect self;
  match state e with
  | ChargeAura players mtype affected charged =>
      charged' ← lift (list_remove minion charged);
      update_state self (ChargeAura players mtype affected charged')
  | _ => raise TypeError
  end.

(** The nested function [give_permacharge_effect]; [c] identifies the
    three function objects [silenced], [target_silenced] and [copied] that
    this run defines. *)
Definition give_permacharge_effect (self minion : nat) : M unit :=
  c ← new_object;
  update_minion minion (with_charge true) ;;
  affected_minions_append self minion ;;
  bind (minion_entity minion) "silenced"
    (closure_permacharge_silenced c self minion) ;;
  bind (minion_entity minion) "copied"
    (closure_permacharge_copied c self minion) ;;
  t ← self_target self;
  bind_once (minion_entity t) "silenced"
    (closure_permacharge_target_silenced c self minion).

(** [silenced] of [give_permacharge_effect] *)
Definition permacharge_silenced (minion : nat) : M unit :=
  update_minion minion (with_charge true).

(** [target_silenced] of [give_permacharge_effect] *)
Definition permacharge_target_silenced (c self minion : nat) : M unit :=
  unbind (minion_entity minion) "silenced"
    (closure_permacharge_silenced c self minion) ;;
  unbind (minion_entity minion) "copied"
    (closure_permacharge_copied c self minion) ;;
  update_minion minion (with_charge false).

(** [copied] of [give_permacharge_effect] *)
Definition permacharge_copied (new_minion : nat) : M unit :=
  update_minion new_minion (with_charge false).

(** The nested function [watch_for_silence]; [c] identifies the function
    object [silenced] and the lambda that this run defines. *)
Definition watch_for_silence (self minion : nat) : M unit :=
  c ← new_object;
  bind_once (minion_entity minion) "silenced"
    (closure_watch_silenced c self minion) ;;
  t ← self_target self;
  bind_once (minion_entity t) "silenced"
    (closure_watch_lambda c self minion) ;;
  charged_minions_append self minion.

(** [silenced] of [watch_for_silence] *)
Definition watch_silenced (self minion : nat) : M unit :=
  charged_minions_remove self minion ;;
  give_permacharge_effect self minion.

(** [lambda: minion.unbind("silenced", silenced)] of [watch_for_silence] *)
Definition watch_lambda (c self minion : nat) : M unit :=
  unbind (minion_entity minion) "silenced"
    (closure_watch_silenced c self minion).

Definition ChargeAura_give_charge_if_beast (self played_minion : nat)
  : M unit :=
  e ← the_effect self;
  match state e with
  | ChargeAura players mtype _ _ =>
      m ← the_minion played_minion;
      if bool_decide (played_minion = target e)
         && (bool_decide (mtype = ALL)
             || bool_decide (minion_type (card m) = mtype))
      then update_minion (target e) (with_charge true)
      else
        if bool_decide (mtype = ALL)
           || bool_decide (minion_type (card m) = mtype)
        then
          if negb (charge m)
          then give_permacharge_effect self played_minion
          else watch_for_silence self played_minion
        else skip
  | _ => raise TypeError
  end.

Definition ChargeAura_apply (self : nat) : M unit :=
  e ← the_effect self;
  match state e with
  | ChargeAura players _ _ _ =>
      (if bool_decide (players = "friendly") || bool_decide (players = "both")
       then
         p ← self_target_player self;
         pl ← the_player p;
         for_each (minions pl) (ChargeAura_give_charge_if_beast self) ;;
         bind (player_entity p) "minion_played"
           (bound_ChargeAura_give_charge_if_beast self)
       else skip) ;;
      (if bool_decide (players = "enemy") || bool_decide (players = "both")
       then
         p ← self_target_player self;
         pl ← the_player (opponent p);
         for_each (minions pl) (ChargeAura_give_charge_if_beast self) ;;
         bind (player_entity (opponent p)) "minion_played"
           (bound_ChargeAura_give_charge_if_beast self)
       else skip)
  | _ => raise TypeError
  end.

Definition ChargeAura_unapply (self : nat) : M unit :=
  e ← the_effect self;
  match state e with
  | ChargeAura players _ _ _ =>
      (if bool_decide (players = "friendly") || bool_decide (players = "both")
       then
         p ← self_target_player self;
         unbind (player_entity p) "minion_played"
           (bound_ChargeAura_give_charge_if_beast self)
       else skip) ;;
      (if bool_decide (players = "enemy") || bool_decide (players = "both")
       then
         p ← self_target_player self;
         unbind (player_entity (opponent p)) "minion_played"
           (bound_ChargeAura_give_charge_if_beast self)
       else skip)
  | _ => raise TypeError
  end.

(** ** StatsAura *)

Definition StatsAura_apply (self : nat) : M unit :=
  e ← the_effect self;
  match state e with
  | StatsAura att hp players mtype =>
      p ← self_target_player self;
      let ps :=
        if bool_decide (players = "friendly") then [p]
        else if bool_decide (players = "enemy") then [opponent p]
        else [p; opponent p] in
      if bool_decide (mtype = ALL)
      then add_aura (target e) att hp ps None
      else add_aura (target e) att hp ps (Some mtype)
  | _ => raise TypeError
  end.

Definition StatsAura_unapply (self : nat) : M unit := skip.

(** ** Mana filters *)

(** [player.mana_filters.append(f)] and [player.mana_filters.remove(f)] *)
Definition mana_filters_append (p : player_id) (f : Filter) : M unit :=
  update_player p (λ x, with_mana_filters (mana_filters x ++ [f]) x).

Definition mana_filters_remove (p : player_id) (f : option Filter)
  : M unit :=
  pl ← the_player p;
  match f with
  | Some f =>
      l ← lift (list_remove f (mana_filters pl));
      update_player p (with_mana_filters l)
  | None => raise ValueError
  end.

Definition IncreaseBattlecryMinionCost_apply (self : nat) : M unit :=
  e ← the_effect self;
  match state e with
  | IncreaseBattlecryMinionCost amt _ =>
      o ← new_object;
      let f := {| filter_obj := o; amount := - amt; min := 0;
                  filter := filter_battlecry_minion |} in
      update_state self (IncreaseBattlecryMinionCost amt (Some f)) ;;
      p ← the_current_player;
      mana_filters_append p f ;;
      mana_filters_append (opponent p) f
  | _ => raise TypeError
  end.

Definition IncreaseBattlecryMinionCost_unapply (self : nat) : M unit :=
  e ← the_effect self;
  match state e with
  | IncreaseBattlecryMinionCost _ mana_filter =>
      p ← the_current_player;
      mana_filters_remove p mana_filter ;;
      mana_filters_remove (opponent p) mana_filter
  | _ => raise TypeError
  end.

Definition ManaFilter_apply (self : nat) : M unit :=
  e ← the_effect self;
  match state e with
  | ManaFilter amt filter_type minimum plr _ =>
      let my_filter :=
        if bool_decide (filter_type = "minion") then filter_minion
        else if bool_decide (filter_type = "spell") then filter_spell
        else if bool_decide (filter_type = "secret") then filter_secret
        else filter_any in
      o ← new_object;
      let f := {| filter_obj := o; amount := amt; min := minimum;
                  filter := my_filter |} in
      update_state self (ManaFilter amt filter_type minimum plr (Some f)) ;;
      p ← self_target_player self;
      (if bool_decide (plr = "friendly") || bool_decide (plr = "both")
       then mana_filters_append p f else skip) ;;
      (if bool_decide (plr = "enemy") || bool_decide (plr = "both")
       then mana_filters_append (opponent p) f else skip)
  | _ => raise TypeError
  end.

Definition ManaFilter_unapply (self : nat) : M unit :=
  e ← the_effect self;
  match state e with
  | ManaFilter _ _ _ plr filter_object =>
      p ← self_target_player self;
      (if bool_decide (plr = "friendly") || bool_decide (plr = "both")
       then mana_filters_remove p filter_object else skip) ;;
      (if bool_decide (plr = "enemy") || bool_decide (plr = "both")
       then mana_filters_remove (opponent p) filter_object else skip)
  | _ => raise TypeError
  end.

(** ** DoubleDeathrattle and HealAsDamage *)

(** [player.effect_count[K]], a dictionary keyed by the effect class; the
    class is named by its name. *)
Definition effect_count_of (p : player_id) (K : string) : M Z :=
  pl ← the_player p;
  match effect_count pl !! K with
  | Some n => mret n
  | None => raise KeyError
  end.

Definition DoubleDeathrattle_apply (self : nat) : M unit :=
  p ← self_target_player self;
  n ← effect_count_of p "DoubleDeathrattle";
  if bool_decide (n = 1%Z)
  then bind (player_entity p) "minion_died"
         (bound_DoubleDeathrattle_trigger_deathrattle self)
  else skip.

Definition DoubleDeathrattle_unapply (self : nat) : M unit :=
  p ← self_target_player self;
  n ← effect_count_of p "DoubleDeathrattle";
  if bool_decide (n = 0%Z)
  then unbind (player_entity p) "minion_died"
         (bound_DoubleDeathrattle_trigger_deathrattle self)
  else skip.

Definition DoubleDeathrattle_trigger_deathrattle
    (invoke : callback → list value → M unit) (minion : nat) : M unit :=
  m ← the_minion minion;
  match deathrattle m with
  | Some f => invoke f [VMinion minion]
  | None => raise TypeError
  end.

Definition HealAsDamage_apply (self : nat) : M unit :=
  p ← self_target_player self;
  n ← effect_count_of p "HealAsDamage";
  if bool_decide (n = 1%Z)
  then update_player p (with_heal_does_damage true)
  else skip.

Definition HealAsDamage_unapply (self : nat) : M unit :=
  p ← self_target_player self;
  n ← effect_count_of p "HealAsDamage";
  if bool_decide (n = 0%Z)
  then update_player p (with_heal_does_damage false)
  else skip.

(** ** AddCardOnSpell *)

Definition AddCardOnSpell_apply (self : nat) : M unit :=
  p ← self_target_player self;
  bind (player_entity p) "spell_cast" (bound_AddCardOnSpell_add_card self).

Definition AddCardOnSpell_unapply (self : nat) : M unit :=
  p ← self_target_player self;
  unbind (player_entity p) "spell_cast" (bound_AddCardOnSpell_add_card self).

Definition AddCardOnSpell_add_card (self : nat) : M unit :=
  e ← the_effect self;
  match state e with
  | AddCardOnSpell crd =>
      p ← self_target_player self;
      pl ← the_player p;
      if bool_decide (length (hand pl) < 10)
      then update_player p (λ x, with_hand (hand x ++ [crd]) x)
      else skip
  | _ => raise TypeError
  end.

(** ** FreezeOnDamage *)

Definition FreezeOnDamage_did_damage (damaged_minion : nat) : M unit :=
  freeze damaged_minion.

Definition FreezeOnDamage_apply (self : nat) : M unit :=
  t ← self_target self;
  bind (minion_entity t) "did_damage" (bound_FreezeOnDamage_did_damage self).

Definition FreezeOnDamage_unapply (self : nat) : M unit :=
  t ← self_target self;
  unbind (minion_entity t) "did_damage" (bound_FreezeOnDamage_did_damage self).

(** ** Buff *)

(** The list [players] that [Buff.apply] and [Buff.unapply] compute. *)
Definition Buff_players (self : nat) : M (list player_id) :=
  e ← the_effect self;
  match state e with
  | Buff _ _ _ _ _ players =>
      if bool_decide (players = "friendly")
      then p ← self_target_player self; mret [p]
      else if bool_decide (players = "enemy")
      then p ← self_target_player self; mret [opponent p]
      else if bool_decide (players = "both")
      then p ← self_target_player self; mret [p; opponent p]
      else raise (RuntimeError
        ("Required players to be 'friendly', 'enemy', or 'both', got '"
         +:+ players))
  | _ => raise TypeError
  end.

Definition Buff_apply (self : nat) : M unit :=
  players ← Buff_players self;
  e ← the_effect self;
  match state e with
  | Buff when minion_filter _ _ _ _ =>
      if bool_decide (when = "death") then
        for_each players (λ player, bind (player_entity player) "minion_died"
                                      (bound_Buff_check_minion_filter self))
      else if bool_decide (when = "damaged") then
        for_each players (λ player, bind (player_entity player) "minion_damaged"
                                      (bound_Buff_check_minion_filter self))
      else if bool_decide (when = "summoned") then
        for_each players (λ player, bind (player_entity player) "minion_summoned"
                                      (bound_Buff_check_minion_filter self))
      else if bool_decide (when = "played") then
        if bool_decide (minion_filter = "spell")
           || bool_decide (minion_filter = "secret")
           || bool_decide (minion_filter = "card")
        then
          for_each players (λ player, bind (player_entity player) "card_played"
                                        (bound_Buff_check_card_filter self))
        else
          for_each players (λ player, bind (player_entity player) "minion_played"
                                        (bound_Buff_check_minion_filter self))
      else if bool_decide (when = "turn_ended") then
        for_each players (λ player, bind (player_entity player) "turn_ended"
                                      (bound_Buff_do_action self))
      else if bool_decide (when = "turn_started") then
        for_each players (λ player, bind (player_entity player) "turn_started"
                                      (bound_Buff_do_action self))
      else skip
  | _ => raise TypeError
  end.

Definition Buff_unapply (self : nat) : M unit :=
  players ← Buff_players self;
  e ← the_effect self;
  match state e with
  | Buff when minion_filter _ _ _ _ =>
      if bool_decide (when = "death") then
        for_each players (λ player, unbind (player_entity player) "minion_died"
                                      (bound_Buff_check_minion_filter self))
      else if bool_decide (when = "damaged") then
        for_each players (λ player, unbind (player_entity player) "minion_damaged"
                                      (bound_Buff_check_minion_filter self))
      else if bool_decide (when = "summoned") then
        for_each players (λ player, unbind (player_entity player) "minion_summoned"
                                      (bound_Buff_check_minion_filter self))
      else if bool_decide (when = "played") then
        if bool_decide (minion_filter = "spell")
           || bool_decide (minion_filter = "secret")
           || bool_decide (minion_filter = "card")
        then
          for_each players (λ player, unbind (player_entity player) "card_played"
                                        (bound_Buff_check_card_filter self))
        else
          for_each players (λ player, unbind (player_entity player) "minion_played"
                                        (bound_Buff_check_minion_filter self))
      else if bool_decide (when = "turn_ended") then
        for_each players (λ player, unbind (player_entity player) "turn_ended"
                                      (bound_Buff_do_action self))
      else if bool_decide (when = "turn_started") then
        for_each players (λ player, unbind (player_entity player) "turn_started"
                                      (bound_Buff_do_action self))
      else skip
  | _ => raise TypeError
  end.

(** [targets[i]] *)
Definition list_index (targets : list nat) (i : nat) : M nat :=
  match targets !! i with
  | Some t => mret t
  | None => raise IndexError
  end.

Definition Buff_do_action (self : nat) : M unit :=
  e ← the_effect self;
  match state e with
  | Buff _ _ buff_target att hp _ =>
      tgt ← (if bool_decide (buff_target = "self") then mret (target e)
             else
               targets ←
                 (if bool_decide (buff_target = "random") then
                    p ← self_target_player self;
                    pl ← the_player p;
                    opl ← the_player (opponent p);
                    lift (list_remove (target e) (minions pl ++ minions opl))
                  else if bool_decide (buff_target = "random_friendly") then
                    p ← self_target_player self;
                    pl ← the_player p;
                    lift (list_remove (target e) (minions pl))
                  else if bool_decide (buff_target = "random_enemy") then
                    p ← self_target_player self;
                    opl ← the_player (opponent p);
                    mret (minions opl)
                  else raise (RuntimeError
                    ("Expected 'target' to be one of 'self', 'random', 'random_friendly' or 'random_enemy'.  Got '"
                     +:+ buff_target +:+ "'")));
               i ← random 0 (Z.of_nat (length targets) - 1);
               list_index targets i);
      (if bool_decide (0 < hp)%Z then increase_health tgt hp
       else if bool_decide (hp < 0)%Z then decrease_health tgt (- hp)
       else skip) ;;
      (if bool_decide (att ≠ 0%Z) then change_attack tgt att else skip)
  | _ => raise TypeError
  end.

Definition Buff_check_minion_filter (self minion : nat) : M unit :=
  e ← the_effect self;
  match state e with
  | Buff _ minion_filter _ _ _ _ =>
      if bool_decide (minion_filter = "self") then
        if bool_decide (minion = target e) then Buff_do_action self else skip
      else if bool_decide (minion_filter = "minion") then
        Buff_do_action self
      else
        m ← the_minion minion;
        if bool_decide (minion_filter = "deathrattle")
           && bool_decide (deathrattle m ≠ None)
        then Buff_do_action self
        else
          except_KeyError_pass
            (type_id ← match from_str minion_filter with
                       | Some t => mret t
                       | None => raise KeyError
                       end;
             if bool_decide (minion_type (card m) = type_id)
             then Buff_do_action self
             else skip)
  | _ => raise TypeError
  end.

(** [_check_card_filter].  The second test is
    [self.minion_filter == "secret" and isinstance(card, SecretCard)]; the
    module imports only [copy], [json], [MINION_TYPE] and [abc], so that the
    global name [SecretCard] is not defined: when the left operand of the
    [and] holds, looking the name up raises [NameError], whatever the card
    is; when it does not, the name is not evaluated. *)
Definition Buff_check_card_filter (self : nat) (c : Card) : M unit :=
  e ← the_effect self;
  match state e with
  | Buff _ minion_filter _ _ _ _ =>
      if bool_decide (minion_filter = "spell") && is_spell c
      then Buff_do_action self
      else if bool_decide (minion_filter = "secret")
      then raise (NameError "SecretCard")
      else skip
  | _ => raise TypeError
  end.

(** ** ResurrectFriendlyMinionsAtEndOfTurn *)

Definition Resurrect_apply (self : nat) : M unit :=
  p ← self_target_player self;
  bind (player_entity p) "minion_died" (bound_Resurrect_minion_died self) ;;
  bind (player_entity p) "turn_ended" (bound_Resurrect_turn_ended self) ;;
  bind (player_entity (opponent p)) "turn_ended"
    (bound_Resurrect_turn_ended self).

Definition Resurrect_unapply (self : nat) : M unit :=
  p ← self_target_player self;
  unbind (player_entity p) "minion_died" (bound_Resurrect_minion_died self) ;;
  unbind (player_entity p) "turn_ended" (bound_Resurrect_turn_ended self) ;;
  unbind (player_entity (opponent p)) "turn_ended"
    (bound_Resurrect_turn_ended self) ;;
  update_state self (ResurrectFriendlyMinionsAtEndOfTurn []).

Definition Resurrect_minion_died (self dead_minion : nat) : M unit :=
  e ← the_effect self;
  match state e with
  | ResurrectFriendlyMinionsAtEndOfTurn dead_minions =>
      m ← the_minion dead_minion;
      update_state self
        (ResurrectFriendlyMinionsAtEndOfTurn (dead_minions ++ [card m]))
  | _ => raise TypeError
  end.

Definition Resurrect_turn_ended (self : nat) : M unit :=
  e ← the_effect self;
  match state e with
  | ResurrectFriendlyMinionsAtEndOfTurn dead_minions =>
      for_each dead_minions (summon_at_end self)
  | _ => raise TypeError
  end.

(** ** Calling a callable

    [call depth f args] is the Python call of [f] on [args]; [depth] bounds the
    nesting of calls, and exceeding it is Python's [RecursionError].  A
    call with the wrong number of arguments is a [TypeError].  A [Native]
    callable records its call. *)
Fixpoint call (depth : nat) (f : callback) (args : list value) : M unit :=
  match depth with
  | O => raise RecursionError
  | S depth' =>
      match f, args with
      | bound_KillMinion_die self, [] => KillMinion_die self
      | bound_SummonOnDeath_summon_replacement self, [m] =>
          SummonOnDeath_summon_replacement (call depth') self m
      | bound_Immune_remove_immunity self, [] => Immune_remove_immunity self
      | bound_DrawOnMinion_check_minion_draw self, [VMinion new_minion] =>
          DrawOnMinion_check_minion_draw self new_minion
      | bound_ChargeAura_give_charge_if_beast self, [VMinion played_minion] =>
          ChargeAura_give_charge_if_beast self played_minion
      | closure_permacharge_silenced _ _ minion, [] =>
          permacharge_silenced minion
      | closure_permacharge_target_silenced c self minion, [] =>
          permacharge_target_silenced c self minion
      | closure_permacharge_copied _ _ _, [VMinion new_minion; _] =>
          permacharge_copied new_minion
      | closure_watch_silenced _ self minion, [] =>
          watch_silenced self minion
      | closure_watch_lambda c self minion, [] => watch_lambda c self minion
      | bound_DoubleDeathrattle_trigger_deathrattle _, [VMinion minion; _] =>
          DoubleDeathrattle_trigger_deathrattle (call depth') minion
      | bound_AddCardOnSpell_add_card self, [_] =>
          AddCardOnSpell_add_card self
      | bound_FreezeOnDamage_did_damage _, [_; VMinion damaged_minion] =>
          FreezeOnDamage_did_damage damaged_minion
      | bound_Buff_check_minion_filter self, VMinion minion :: _ =>
          Buff_check_minion_filter self minion
      | bound_Buff_check_card_filter self, [VCard c] =>
          Buff_check_card_filter self c
      | bound_Buff_do_action self, [] => Buff_do_action self
      | bound_Resurrect_minion_died self, [VMinion dead_minion; _] =>
          Resurrect_minion_died self dead_minion
      | bound_Resurrect_turn_ended self, [] => Resurrect_turn_ended self
      | Native n, _ =>
          λ w, (Ok tt, set_native_calls (native_calls w ++ [(n, args)]) w)
      | _, _ => raise TypeError
      end
  end.

(** Modelled from the spec: [trigger] is not part of [effects/minion.py].
    It calls every listener of the event in registration order, over the
    snapshot of the listeners taken when the event is published; a one-shot
    entry removes itself after its invocation and before the next entry of
    the snapshot is called; an exception aborts the remaining listeners. *)
Definition trigger (depth : nat) (ent : entity) (event : string)
    (args : list value) : M unit :=
  λ w, for_each (listeners ent event w)
         (λ h, call depth h.1 args ;;
               if h.2 then update_events ent (events_remove_handler event h)
               else skip) w.

(** ** The effect registry *)

(** The name of the class of an effect instance. *)
Definition class_name (st : effect_state) : string :=
  match st with
  | KillMinion _ => "KillMinion"
  | SummonOnDeath _ _ _ => "SummonOnDeath"
  | Immune => "Immune"
  | DrawOnMinion _ => "DrawOnMinion"
  | ChargeAura _ _ _ _ => "ChargeAura"
  | StatsAura _ _ _ _ => "StatsAura"
  | IncreaseBattlecryMinionCost _ _ => "IncreaseBattlecryMinionCost"
  | DoubleDeathrattle => "DoubleDeathrattle"
  | HealAsDamage => "HealAsDamage"
  | ManaFilter _ _ _ _ _ => "ManaFilter"
  | AddCardOnSpell _ => "AddCardOnSpell"
  | FreezeOnDamage => "FreezeOnDamage"
  | Buff _ _ _ _ _ _ => "Buff"
  | ResurrectFriendlyMinionsAtEndOfTurn _ =>
      "ResurrectFriendlyMinionsAtEndOfTurn"
  end.

(** [effect.apply()] and [effect.unapply()]: the method of the instance's
    class. *)
Definition apply (self : nat) : M unit :=
  e ← the_effect self;
  match state e with
  | KillMinion _ => KillMinion_apply self
  | SummonOnDeath _ _ _ => SummonOnDeath_apply self
  | Immune => Immune_apply self
  | DrawOnMinion _ => DrawOnMinion_apply self
  | ChargeAura _ _ _ _ => ChargeAura_apply self
  | StatsAura _ _ _ _ => StatsAura_apply self
  | IncreaseBattlecryMinionCost _ _ => IncreaseBattlecryMinionCost_apply self
  | DoubleDeathrattle => DoubleDeathrattle_apply self
  | HealAsDamage => HealAsDamage_apply self
  | ManaFilter _ _ _ _ _ => ManaFilter_apply self
  | AddCardOnSpell _ => AddCardOnSpell_apply self
  | FreezeOnDamage => FreezeOnDamage_apply self
  | Buff _ _ _ _ _ _ => Buff_apply self
  | ResurrectFriendlyMinionsAtEndOfTurn _ => Resurrect_apply self
  end.

Definition unapply (self : nat) : M unit :=
  e ← the_effect self;
  match state e with
  | KillMinion _ => KillMinion_unapply self
  | SummonOnDeath _ _ _ => SummonOnDeath_unapply self
  | Immune => Immune_unapply self
  | DrawOnMinion _ => DrawOnMinion_unapply self
  | ChargeAura _ _ _ _ => ChargeAura_unapply self
  | StatsAura _ _ _ _ => StatsAura_unapply self
  | IncreaseBattlecryMinionCost _ _ => IncreaseBattlecryMinionCost_unapply self
  | DoubleDeathrattle => DoubleDeathrattle_unapply self
  | HealAsDamage => HealAsDamage_unapply self
  | ManaFilter _ _ _ _ _ => ManaFilter_unapply self
  | AddCardOnSpell _ => AddCardOnSpell_unapply self
  | FreezeOnDamage => FreezeOnDamage_unapply self
  | Buff _ _ _ _ _ _ => Buff_unapply self
  | ResurrectFriendlyMinionsAtEndOfTurn _ => Resurrect_unapply self
  end.

(** Modelled from the spec: the registry that keeps [effect_count] is
    missing from the source.  A kind not counted yet counts zero. *)
Definition effect_count_add (K : string) (d : Z) (p : Player) : Player :=
  with_effect_count
    (<[K := (default 0 (effect_count p !! K) + d)%Z]> (effect_count p)) p.

(** Modelled from the spec: the registration of an effect, missing from the
    source: [effect_count[K]] of the owner of the target is incremented
    before [apply()] runs. *)
Definition add_effect (self : nat) : M unit :=
  e ← the_effect self;
  p ← self_target_player self;
  update_player p (effect_count_add (class_name (state e)) 1) ;;
  apply self.

(** Modelled from the spec: the removal of an effect, missing from the
    source: [effect_count[K]] is decremented before [unapply()] runs. *)
Definition remove_effect (self : nat) : M unit :=
  e ← the_effect self;
  p ← self_target_player self;
  update_player p (effect_count_add (class_name (state e)) (-1)) ;;
  unapply self.

(** ** The mana filter chain *)

(** The predicates [filter] of the [Filter] objects, called on a card.
    [lambda c: isinstance(c, MinionCard)], [lambda c: isinstance(c,
    SecretCard)] and the lambda of [IncreaseBattlecryMinionCost.apply],
    [isinstance(c, MinionCard) and c.create_minion(...).battlecry is not
    None], look up a global name that the module does not define (it imports
    only [copy], [json], [MINION_TYPE] and [abc]): creating the lambda
    succeeds, calling it raises [NameError] before the card is looked at.
    [lambda c: c.is_spell()] and [lambda c: True] answer. *)
Definition card_filter_matches (f : card_filter) (c : Card) : result bool :=
  match f with
  | filter_minion => Raise (NameError "MinionCard")
  | filter_spell => Ok (is_spell c)
  | filter_secret => Raise (NameError "SecretCard")
  | filter_any => Ok true
  | filter_battlecry_minion => Raise (NameError "MinionCard")
  end.

(** Modelled from the spec: the cost computation that reads the
    [mana_filters] of a player is not part of [effects/minion.py].  It
    starts with [cost = base_cost] and, for each filter in registration
    order whose predicate matches the card, sets
    [cost = max(cost + filter.amount, filter.minimum)].  An exception of a
    predicate ends the computation.  The sign is the spec's: the docstring
    of [ManaFilter] calls [amount] the amount to reduce mana by, and
    [IncreaseBattlecryMinionCost] stores [-amount]; the source holds no
    reader of [amount] that would decide between the two. *)
Fixpoint mana_cost_loop (filters : list Filter) (c : Card) (cost : Z)
    : result Z :=
  match filters with
  | [] => Ok cost
  | f :: rest =>
      match card_filter_matches (filter f) c with
      | Ok true => mana_cost_loop rest c (Z.max (cost + amount f) (min f))
      | Ok false => mana_cost_loop rest c cost
      | Raise e => Raise e
      end
  end.

(** Modelled from the spec: the cost of a card for a player, missing from
    the source: the chain over the player's [mana_filters], from the base
    cost of the card; the final result is additionally floored at 0. *)
Definition mana_cost (c : Card) (p : player_id) (w : World) : result Z :=
  match mana_cost_loop (mana_filters (get_player p w)) c (mana c) with
  | Ok cost => Ok (Z.max cost 0)
  | Raise e => Raise e
  end.

End Effects.

(** ** Running a computation *)

Definition outcome {A : Type} (m : M A) (w : World) : result A := (m w).1.
Definition exec {A : Type} (m : M A) (w : World) : World := (m w).2.

(** The count of kind [K] that the registry keeps for player [p]. *)
Definition counted (K : string) (p : player_id) (w : World) : Z :=
  default 0%Z (effect_count (get_player p w) !! K).

(** ** Concrete worlds

    The table of minion types and the worlds on which the statements below
    are evaluated. *)

Definition example_types : MINION_TYPE :=
  {| ALL := -1;
     from_str := λ s,
       if bool_decide (s = "BEAST") then Some 1%Z
       else if bool_decide (s = "MURLOC") then Some 5%Z
       else None |}.

Definition empty_player : Player :=
  {| minions := []; hand := []; cards_drawn := 0; mana_filters := [];
     effect_count := ∅; heal_does_damage := false; player_events := ∅ |}.

Definition beast_card : Card :=
  {| card_name := "River Crocolisk"; mana := 2; minion_type := 1;
     is_minion_card := true; is_spell := false; is_secret_card := false;
     has_battlecry := false |}.

Definition murloc_card : Card :=
  {| card_name := "Murloc Raider"; mana := 1; minion_type := 5;
     is_minion_card := true; is_spell := false; is_secret_card := false;
     has_battlecry := false |}.

Definition spell_card : Card :=
  {| card_name := "Arcane Missiles"; mana := 1; minion_type := 0;
     is_minion_card := false; is_spell := true; is_secret_card := false;
     has_battlecry := false |}.

(** Two minions of player one on the board, minion 2 of player two, and
    effect instances [effs] in the effect store. *)
Definition example_world (effs : list (nat * Effect)) : World :=
  {| player_one := with_minions [0; 1] empty_player;
     player_two := with_minions [2] empty_player;
     current_player := Player1;
     minion_store := <[0 := new_minion beast_card Player1]>
                     (<[1 := new_minion beast_card Player1]>
                     (<[2 := new_minion murloc_card Player2]> ∅));
     effect_store := list_to_map effs;
     next_object := 10; auras := []; random_values := [];
     native_calls := [] |}.

(** Two [DoubleDeathrattle] effects, on the two minions of player one. *)
Definition two_DoubleDeathrattle : World :=
  example_world [(0, {| target := 0; state := DoubleDeathrattle |});
                 (1, {| target := 1; state := DoubleDeathrattle |})].

(** One step of the fold over the entries of a player: an entry whose
    predicate matches the card replaces [cost] by
    [max (cost + amount) min]; an exception of a predicate is kept. *)
Definition mana_cost_step (c : Card) (cost : result Z) (f : Filter)
    : result Z :=
  match cost with
  | Ok cost =>
      match card_filter_matches (filter f) c with
      | Ok true => Ok (Z.max (cost + amount f) (min f))
      | Ok false => Ok cost
      | Raise e => Raise e
      end
  | Raise e => Raise e
  end.

(** The final floor of the cost system. *)
Definition floor_at_zero (cost : result Z) : result Z :=
  match cost with
  | Ok cost => Ok (Z.max cost 0)
  | Raise e => Raise e
  end.

(** Whether a mana filter with selector [plr], of an effect on a minion of
    [owner], is registered on player [q]: "friendly" and "both" select the
    owner, "enemy" and "both" the opponent. *)
Definition selects (plr : string) (owner q : player_id) : bool :=
  (bool_decide (plr = "friendly") || bool_decide (plr = "both"))
  && bool_decide (q = owner)
  || (bool_decide (plr = "enemy") || bool_decide (plr = "both"))
     && bool_decide (q = opponent owner).

(** The step of the fold that the [ManaFilter] effect [self] of the store
    [w] stands for, on the cost of card [c] for player [q]: when the effect
    selects [q] and its filter type accepts the card ("spell" asks
    [c.is_spell()], a filter type that is none of "minion", "spell" and
    "secret" accepts every card), the cost becomes
    [max (cost + amount) minimum]. *)
Definition ManaFilter_step (w : World) (c : Card) (q : player_id) (cost : Z)
    (self : nat) : Z :=
  let e := effect_store w !!! self in
  match state e with
  | ManaFilter amt filter_type minimum plr _ =>
      if selects plr (player (minion_store w !!! target e)) q
         && (if bool_decide (filter_type = "spell") then is_spell c else true)
      then Z.max (cost + amt) minimum
      else cost
  | _ => cost
  end.

(** An effect instance that is a [ManaFilter] whose predicate answers: its
    filter type is neither "minion" nor "secret". *)
Definition answering_ManaFilter (w : World) (self : nat) : Prop :=
  ∃ t amt filter_type minimum plr filter_object,
    effect_store w !!! self
    = {| target := t;
         state := ManaFilter amt filter_type minimum plr filter_object |}
    ∧ filter_type ≠ "minion" ∧ filter_type ≠ "secret".

(** A [Filter] object with the predicate [lambda c: True]. *)
Definition any_card_filter (o : nat) (a m : Z) : Filter :=
  {| filter_obj := o; amount := a; min := m; filter := filter_any |}.

(** Two [ManaFilter] effects on minion 0 of player one: (amount -2,
    minimum 1) and (amount 1, minimum 0). *)
Definition two_ManaFilter : World :=
  example_world
    [(0, {| target := 0;
            state := ManaFilter (-2) "card" 1 "friendly" None |});
     (1, {| target := 0;
            state := ManaFilter 1 "card" 0 "friendly" None |})].

(** A [ManaFilter] effect with a negative floor on minion 1 of player one:
    amount -5, minimum -3. *)
Definition negative_floor_ManaFilter : World :=
  example_world
    [(0, {| target := 1;
            state := ManaFilter (-5) "card" (-3) "friendly" None |})].

(** An [IncreaseBattlecryMinionCost(1)] effect on minion 0. *)
Definition one_IncreaseBattlecryMinionCost : World :=
  example_world
    [(0, {| target := 0; state := IncreaseBattlecryMinionCost 1 None |})].

Definition battlecry_card : Card :=
  {| card_name := "Elven Archer"; mana := 1; minion_type := 0;
     is_minion_card := true; is_spell := false; is_secret_card := false;
     has_battlecry := true |}.

(** The store after a minion of card [c] is summoned at the end of the
    board of player [p]. *)
Definition place_at_end (p : player_id) (w : World) (c : Card) : World :=
  let w1 := set_next_object (S (next_object w)) w in
  let w2 := set_minion_store
              (<[next_object w := new_minion c p]> (minion_store w1)) w1 in
  set_player p (with_minions (minions (get_player p w) ++ [next_object w])
                  (get_player p w2)) w2.

(** The cards of the minions on the board of player [p]. *)
Definition board_cards (p : player_id) (w : World) : list Card :=
  (λ m, card (minion_store w !!! m)) <$> minions (get_player p w).

(** Two [SummonOnDeath] effects on minion 0, whose card gave it the
    deathrattle [Native 7]. *)
Definition two_SummonOnDeath : World :=
  exec (update_minion 0 (with_deathrattle (Some (Native 7))))
    (example_world
       [(0, {| target := 0; state := SummonOnDeath beast_card 2 None |});
        (1, {| target := 0; state := SummonOnDeath murloc_card 1 None |})]).

(** A [DrawOnMinion] effect for any minion, on minion 0. *)
Definition one_DrawOnMinion : World :=
  example_world [(0, {| target := 0; state := DrawOnMinion (-1) |})].

(** An [AddCardOnSpell] effect on minion 0. *)
Definition one_AddCardOnSpell : World :=
  example_world [(0, {| target := 0; state := AddCardOnSpell spell_card |})].

(** A [ResurrectFriendlyMinionsAtEndOfTurn] effect on minion 0 that has
    recorded one death. *)
Definition one_Resurrect : World :=
  example_world
    [(0, {| target := 0;
            state := ResurrectFriendlyMinionsAtEndOfTurn [murloc_card] |})].

(** [Buff] effects on minion 0: an unknown minion filter, an unknown
    [players] selector, an unknown [target] selector. *)
Definition Buff_unknown_filter : World :=
  example_world
    [(0, {| target := 0;
            state := Buff "played" "GNOME" "self" 1 1 "friendly" |})].

Definition Buff_unknown_players : World :=
  example_world
    [(0, {| target := 0;
            state := Buff "turn_ended" "self" "self" 1 1 "friend" |})].

Definition Buff_unknown_target : World :=
  example_world
    [(0, {| target := 0;
            state := Buff "turn_ended" "self" "anyone" 1 1 "friendly" |})].

(** The other effects with a selector, each with an unknown value. *)
Definition StatsAura_unknown_players : World :=
  example_world [(0, {| target := 0; state := StatsAura 1 1 "friend" (-1) |})].

Definition ChargeAura_unknown_players : World :=
  example_world [(0, {| target := 0; state := ChargeAura "friend" (-1) [] [] |})].

Definition ManaFilter_unknown_player : World :=
  example_world
    [(0, {| target := 0; state := ManaFilter 1 "card" 0 "friend" None |})].

(** [self] is a [ChargeAura] on [t] with the given attributes. *)
Definition aura_at (w : World) (self t : nat) (players : string) (mtype : Z)
    (affected charged : list nat) : Prop :=
  effect_store w !!! self
  = {| target := t; state := ChargeAura players mtype affected charged |}.

(** The store after [give_permacharge_effect(minion)], whose function
    objects get the number [c]. *)
Definition permacharged (self t minion c : nat) (st : effect_state)
    (w : World) : World :=
  exec (bind_once (minion_entity t) "silenced"
          (closure_permacharge_target_silenced c self minion))
    (exec (bind (minion_entity minion) "copied"
             (closure_permacharge_copied c self minion))
       (exec (bind (minion_entity minion) "silenced"
                (closure_permacharge_silenced c self minion))
          (exec (update_state self st)
             (exec (update_minion minion (with_charge true))
                (exec new_object w))))).

(** The store after [watch_for_silence(minion)]. *)
Definition watched (self t minion c : nat) (st : effect_state) (w : World)
  : World :=
  exec (update_state self st)
    (exec (bind_once (minion_entity t) "silenced"
             (closure_watch_lambda c self minion))
       (exec (bind_once (minion_entity minion) "silenced"
                (closure_watch_silenced c self minion))
          (exec new_object w))).

(** The store after [target_silenced()] of [give_permacharge_effect]. *)
Definition charge_revoked (self minion c : nat) (w : World) : World :=
  exec (update_minion minion (with_charge false))
    (exec (unbind (minion_entity minion) "copied"
             (closure_permacharge_copied c self minion))
       (exec (unbind (minion_entity minion) "silenced"
                (closure_permacharge_silenced c self minion)) w)).

(** The test of [give_charge_if_beast] on the type of a minion. *)
Definition affects `{MINION_TYPE} (mtype : Z) (m : Minion) : bool :=
  bool_decide (mtype = ALL) || bool_decide (minion_type (card m) = mtype).

(** ** Comparing stores *)

(** The effect instance a callable belongs to. *)
Definition callback_self (f : callback) : option nat :=
  match f with
  | bound_KillMinion_die self
  | bound_SummonOnDeath_summon_replacement self
  | bound_Immune_remove_immunity self
  | bound_DrawOnMinion_check_minion_draw self
  | bound_ChargeAura_give_charge_if_beast self
  | closure_permacharge_silenced _ self _
  | closure_permacharge_target_silenced _ self _
  | closure_permacharge_copied _ self _
  | closure_watch_silenced _ self _
  | closure_watch_lambda _ self _
  | bound_DoubleDeathrattle_trigger_deathrattle self
  | bound_AddCardOnSpell_add_card self
  | bound_FreezeOnDamage_did_damage self
  | bound_Buff_check_minion_filter self
  | bound_Buff_check_card_filter self
  | bound_Buff_do_action self
  | bound_Resurrect_minion_died self
  | bound_Resurrect_turn_ended self => Some self
  | Native _ => None
  end.

(** No callable of the instance [self] is bound: the effect is not
    applied. *)
Definition not_bound (self : nat) (w : World) : Prop :=
  ∀ ent event,
    Forall (λ h, callback_self h.1 ≠ Some self) (listeners ent event w).

(** The objects that exist were allocated before: the next [Filter] object
    is none of those in the mana filter lists. *)
Definition filters_allocated (w : World) : Prop :=
  ∀ p, Forall (λ f, filter_obj f ≠ next_object w)
         (mana_filters (get_player p w)).

(** [w'] has the players and minions of [w] apart from their listeners: the
    boards, hands, mana filter lists, counts and flags of the players, the
    flags, stats and deathrattles of the minions, and the game. *)
Definition same_but_listeners (w w' : World) : Prop :=
  (∀ p, with_player_events ∅ (get_player p w')
        = with_player_events ∅ (get_player p w))
  ∧ (∀ m, with_minion_events ∅ (minion_store w' !!! m)
          = with_minion_events ∅ (minion_store w !!! m))
  ∧ current_player w' = current_player w
  ∧ auras w' = auras w
  ∧ random_values w' = random_values w
  ∧ native_calls w' = native_calls w.

(** [w'] has the players, minions and listeners of [w].  The attributes of
    the effect instances and the allocation counter are not compared. *)
Definition restored (w w' : World) : Prop :=
  same_but_listeners w w'
  ∧ ∀ ent event, listeners ent event w' = listeners ent event w.

(** A [ChargeAura] for all friendly minions on minion 0; minion 1 has no
    charge in the first world and charge of its own in the second. *)
Definition one_ChargeAura : World :=
  example_world
    [(0, {| target := 0; state := ChargeAura "friendly" (-1) [] [] |})].

Definition charged_minion_ChargeAura : World :=
  exec (update_minion 1 (with_charge true)) one_ChargeAura.

(** A [KillMinion], an [Immune], a [ManaFilter] for both players, a [Buff]
    for both players and a [FreezeOnDamage] on minion 0. *)
Definition five_effects : World :=
  example_world
    [(0, {| target := 0; state := KillMinion "turn_ended" |});
     (1, {| target := 0; state := Immune |});
     (2, {| target := 0; state := ManaFilter 1 "minion" 0 "both" None |});
     (3, {| target := 0; state := Buff "death" "minion" "self" 1 1 "both" |});
     (4, {| target := 0; state := FreezeOnDamage |})].

(** The event and the listener that [Buff.apply] subscribes and
    [Buff.unapply] unsubscribes, by [when] and [minion_filter]. *)
Definition Buff_subscription (self : nat) (when minion_filter : string)
  : option (string * callback) :=
  if bool_decide (when = "death")
  then Some ("minion_died", bound_Buff_check_minion_filter self)
  else if bool_decide (when = "damaged")
  then Some ("minion_damaged", bound_Buff_check_minion_filter self)
  else if bool_decide (when = "summoned")
  then Some ("minion_summoned", bound_Buff_check_minion_filter self)
  else if bool_decide (when = "played")
  then if bool_decide (minion_filter = "spell")
          || bool_decide (minion_filter = "secret")
          || bool_decide (minion_filter = "card")
       then Some ("card_played", bound_Buff_check_card_filter self)
       else Some ("minion_played", bound_Buff_check_minion_filter self)
  else if bool_decide (when = "turn_ended")
  then Some ("turn_ended", bound_Buff_do_action self)
  else if bool_decide (when = "turn_started")
  then Some ("turn_started", bound_Buff_do_action self)
  else None.

(** A listener that a [ChargeAura] binds on its source [t] for a minion:
    the lambda of [watch_for_silence] or the [target_silenced] of
    [give_permacharge_effect], one-shot, for a minion other than [t]. *)
Definition aura_source_listener (t : nat) (h : callback * bool) : Prop :=
  h.2 = true
  ∧ ∃ c self minion,
      minion ≠ t
      ∧ (h.1 = closure_watch_lambda c self minion
         ∨ h.1 = closure_permacharge_target_silenced c self minion).

(** What the call of one such listener leaves of the listeners [l] of
    [event] on the minion [m]. *)
Definition unbound_by_one (h : callback * bool) (m : nat) (event : string)
    (l : list (callback * bool)) : list (callback * bool) :=
  match h.1 with
  | closure_watch_lambda c self minion =>
      if bool_decide (minion = m ∧ event = "silenced")
      then remove_first (is_callback (closure_watch_silenced c self minion)) l
      else l
  | closure_permacharge_target_silenced c self minion =>
      if bool_decide (minion = m ∧ event = "silenced")
      then remove_first
             (is_callback (closure_permacharge_silenced c self minion)) l
      else if bool_decide (minion = m ∧ event = "copied")
      then remove_first
             (is_callback (closure_permacharge_copied c self minion)) l
      else l
  | _ => l
  end.

(** What the calls of the listeners [hs], in order, leave of [l]. *)
Definition unbound_by (hs : list (callback * bool)) (m : nat)
    (event : string) (l : list (callback * bool)) : list (callback * bool) :=
  fold_left (λ l h, unbound_by_one h m event l) hs l.

(** Whether [target_silenced] for the minion [m] is among the listeners. *)
Definition revokes (m : nat) (h : callback * bool) : bool :=
  match h.1 with
  | closure_permacharge_target_silenced _ _ minion => bool_decide (minion = m)
  | _ => false
  end.

(** ** The turn

    [game.current_player] is the player whose turn it is; the game changes it
    when a turn ends.  No effect assigns it. *)
Definition set_current_player (p : player_id) (w : World) : World :=
  {| player_one := player_one w; player_two := player_two w;
     current_player := p; minion_store := minion_store w;
     effect_store := effect_store w; next_object := next_object w;
     auras := auras w; random_values := random_values w;
     native_calls := native_calls w |}.

(** ** DrawOnAttack

    [DrawOnAttack.draw(attack_target)].  The method reads the attributes
    [amount] and [first_player] of its instance, which are set by the
    constructor and assigned nowhere else; they are the arguments here.
    [game.players[0]] is the first player and [game.players[1]] the second.
    The argument [attack_target] is not used. *)
Definition DrawOnAttack_draw (amount : Z) (first_player : bool) : M unit :=
  let player := if first_player then Player1 else Player2 in
  repeat_times (Z.to_nat amount) (draw player).

(** ** Buff

    The end of [Buff._do_action], once the target [tgt] is chosen: the
    health is increased or decreased by the sign of [hp], the attack is
    changed when [att] is not zero. *)
Definition Buff_change (tgt : nat) (att hp : Z) : M unit :=
  (if bool_decide (0 < hp)%Z then increase_health tgt hp
   else if bool_decide (hp < 0)%Z then decrease_health tgt (- hp)
   else skip) ;;
  (if bool_decide (att ≠ 0%Z) then change_attack tgt att else skip).

(** A minion with [att] more attack and [hp] more health. *)
Definition buffed (att hp : Z) (x : Minion) : Minion :=
  with_attack (attack x + att) (with_health (health x + hp) x).

(** The minions among which [Buff._do_action] chooses for the targets
    "random" and "random_friendly", before the target of the effect is
    removed from them. *)
Definition Buff_board (buff_target : string) (p : player_id) (w : World)
  : list nat :=
  if bool_decide (buff_target = "random")
  then minions (get_player p w) ++ minions (get_player (opponent p) w)
  else minions (get_player p w).

(** ** More concrete worlds *)

(** Two [Immune] effects on minion 0. *)
Definition two_Immune : World :=
  example_world [(0, {| target := 0; state := Immune |});
                 (1, {| target := 0; state := Immune |})].

(** A [SummonOnDeath] effect on minion 0, which has no deathrattle, before
    and after [apply()]. *)
Definition one_SummonOnDeath : World :=
  example_world
    [(0, {| target := 0; state := SummonOnDeath murloc_card 2 None |})].

Definition applied_SummonOnDeath : World :=
  exec (SummonOnDeath_apply 0) one_SummonOnDeath.

(** The listener of the first [DoubleDeathrattle] effect subscribed to the
    deaths of the minions of player one. *)
Definition subscribed_DoubleDeathrattle : World :=
  exec (bind (player_entity Player1) "minion_died"
          (bound_DoubleDeathrattle_trigger_deathrattle 0))
    two_DoubleDeathrattle.

(** A [DrawOnMinion] effect for beasts on minion 0. *)
Definition typed_DrawOnMinion : World :=
  example_world [(0, {| target := 0; state := DrawOnMinion 1 |})].

(** [Buff] effects: for a random friendly minion, with the random source
    giving 0; on a minion that is on no board; for played cards with the
    filter "card"; for an event that [apply()] does not know; for damage to
    the target; for the end of every turn. *)
Definition Buff_random_friendly : World :=
  set_random_values [0]
    (example_world
       [(0, {| target := 0;
               state := Buff "turn_ended" "self" "random_friendly" 1 1
                          "friendly" |})]).

Definition Buff_off_board : World :=
  example_world
    [(0, {| target := 7;
            state := Buff "death" "self" "random_friendly" 1 1
                       "friendly" |})].

Definition Buff_card_filter : World :=
  example_world
    [(0, {| target := 0;
            state := Buff "played" "card" "self" 1 1 "friendly" |})].

(** A [Buff] for the secrets that the owner plays. *)
Definition Buff_secret_filter : World :=
  example_world
    [(0, {| target := 0;
            state := Buff "played" "secret" "self" 1 1 "friendly" |})].

Definition Buff_unknown_event : World :=
  example_world
    [(0, {| target := 0;
            state := Buff "attack" "self" "self" 1 1 "friendly" |})].

Definition Buff_damaged_self : World :=
  example_world
    [(0, {| target := 0;
            state := Buff "damaged" "self" "self" 2 (-1) "friendly" |})].

Definition Buff_every_turn : World :=
  example_world
    [(0, {| target := 0;
            state := Buff "turn_ended" "self" "self" 1 1 "friendly" |})].

(** A [ChargeAura] for all friendly minions on minion 2, the only minion of
    player two. *)
Definition lone_ChargeAura : World :=
  example_world
    [(0, {| target := 2; state := ChargeAura "friendly" (-1) [] [] |})].

(** A [HealAsDamage] effect on minion 0. *)
Definition one_HealAsDamage : World :=
  example_world [(0, {| target := 0; state := HealAsDamage |})].

(** * Properties *)

(** ** The store *)

Lemma get_player_set_player (p : player_id) (x : Player) (w : World) :
  get_player p (set_player p x w) = x.
Proof. by destruct p. Qed.

Lemma get_player_set_player_ne (p q : player_id) (x : Player) (w : World) :
  p ≠ q → get_player q (set_player p x w) = get_player q w.
Proof. by destruct p, q. Qed.

Lemma opponent_ne (p : player_id) : opponent p ≠ p.
Proof. by destruct p. Qed.

Lemma opponent_ne' (p : player_id) : p ≠ opponent p.
Proof. by destruct p. Qed.

(** ** The event bus *)

Lemma remove_first_none {A : Type} (P : A → bool) (l : list A) :
  Forall (λ x, P x = false) l → remove_first P l = l.
Proof.
  induction 1 as [|x l Hx _ IH]; simpl; [done|].
  by rewrite Hx, IH.
Qed.

Lemma remove_first_app_last {A : Type} (P : A → bool) (l : list A) (y : A) :
  Forall (λ x, P x = false) l → P y = true →
  remove_first P (l ++ [y]) = l.
Proof.
  induction 1 as [|x l Hx _ IH]; simpl; intros Hy.
  - by rewrite Hy.
  - by rewrite Hx, IH.
Qed.

Lemma handlers_bind (event event' : string) (f : callback) (evs : events) :
  handlers (events_bind event f evs) event' =
  if decide (event = event') then handlers evs event ++ [(f, false)]
  else handlers evs event'.
Proof.
  unfold handlers, events_bind. rewrite lookup_insert.
  by destruct (decide (event = event')).
Qed.

Lemma handlers_bind_once (event event' : string) (f : callback)
    (evs : events) :
  handlers (events_bind_once event f evs) event' =
  if decide (event = event') then handlers evs event ++ [(f, true)]
  else handlers evs event'.
Proof.
  unfold handlers, events_bind_once. rewrite lookup_insert.
  by destruct (decide (event = event')).
Qed.

Lemma handlers_unbind (event event' : string) (f : callback) (evs : events) :
  handlers (events_unbind event f evs) event' =
  if decide (event = event')
  then remove_first (is_callback f) (handlers evs event)
  else handlers evs event'.
Proof.
  unfold handlers, events_unbind.
  destruct (evs !! event) as [l|] eqn:E.
  - rewrite lookup_insert. by destruct (decide (event = event')).
  - destruct (decide (event = event')) as [<-|]; [by rewrite E|done].
Qed.

Lemma handlers_remove_handler (event event' : string) (h : callback * bool)
    (evs : events) :
  handlers (events_remove_handler event h evs) event' =
  if decide (event = event')
  then remove_first (is_handler h) (handlers evs event)
  else handlers evs event'.
Proof.
  unfold handlers, events_remove_handler.
  destruct (evs !! event) as [l|] eqn:E.
  - rewrite lookup_insert. by destruct (decide (event = event')).
  - destruct (decide (event = event')) as [<-|]; [by rewrite E|done].
Qed.

(** Binding a callback that is not bound and unbinding it again gives the
    listeners back. *)
Lemma handlers_bind_unbind (event event' : string) (f : callback)
    (evs : events) :
  Forall (λ h, h.1 ≠ f) (handlers evs event) →
  handlers (events_unbind event f (events_bind event f evs)) event' =
  handlers evs event'.
Proof.
  intros Hf. rewrite handlers_unbind, !handlers_bind.
  destruct (decide (event = event')) as [<-|]; [|done].
  rewrite decide_True by done.
  apply remove_first_app_last.
  - eapply Forall_impl; [exact Hf|]. intros h Hh. unfold is_callback.
    by apply bool_decide_eq_false.
  - unfold is_callback. by apply bool_decide_eq_true.
Qed.

(** ** The bus on the store *)

Lemma update_events_run (ent : entity) (f : events → events) (w : World) :
  outcome (update_events ent f) w = Ok tt.
Proof. by destruct ent. Qed.

Lemma update_events_eq (ent : entity) (f : events → events) (w : World) :
  update_events ent f w = (Ok tt, exec (update_events ent f) w).
Proof. by destruct ent. Qed.

Lemma entity_events_update (ent ent' : entity) (f : events → events)
    (w : World) :
  entity_events ent' (exec (update_events ent f) w) =
  if decide (ent = ent') then f (entity_events ent w)
  else entity_events ent' w.
Proof.
  destruct ent as [p|m], ent' as [q|n]; cbn.
  - destruct (decide (p = q)) as [<-|Hne].
    + rewrite decide_True by done. by rewrite get_player_set_player.
    + rewrite decide_False by congruence.
      by rewrite get_player_set_player_ne.
  - by rewrite decide_False by congruence.
  - rewrite decide_False by congruence. by destruct q.
  - destruct (decide (m = n)) as [<-|Hne].
    + rewrite decide_True by done. by rewrite lookup_total_insert_eq.
    + rewrite decide_False by congruence.
      by rewrite lookup_total_insert_ne.
Qed.

Lemma listeners_update (ent ent' : entity) (event : string)
    (f : events → events) (w : World) :
  listeners ent' event (exec (update_events ent f) w) =
  if decide (ent = ent') then handlers (f (entity_events ent w)) event
  else listeners ent' event w.
Proof.
  unfold listeners. rewrite entity_events_update.
  by destruct (decide (ent = ent')).
Qed.

Lemma listeners_bind (ent ent' : entity) (event event' : string)
    (f : callback) (w : World) :
  listeners ent' event' (exec (bind ent event f) w) =
  if decide (ent = ent' ∧ event = event')
  then listeners ent event w ++ [(f, false)]
  else listeners ent' event' w.
Proof.
  unfold bind. rewrite listeners_update.
  destruct (decide (ent = ent')) as [<-|Hne].
  - rewrite handlers_bind. destruct (decide (event = event')) as [<-|].
    + by rewrite decide_True.
    + rewrite decide_False by (by intros [_ ?]). done.
  - rewrite decide_False by (by intros [? _]). done.
Qed.

Lemma listeners_bind_once (ent ent' : entity) (event event' : string)
    (f : callback) (w : World) :
  listeners ent' event' (exec (bind_once ent event f) w) =
  if decide (ent = ent' ∧ event = event')
  then listeners ent event w ++ [(f, true)]
  else listeners ent' event' w.
Proof.
  unfold bind_once. rewrite listeners_update.
  destruct (decide (ent = ent')) as [<-|Hne].
  - rewrite handlers_bind_once. destruct (decide (event = event')) as [<-|].
    + by rewrite decide_True.
    + rewrite decide_False by (by intros [_ ?]). done.
  - rewrite decide_False by (by intros [? _]). done.
Qed.

Lemma listeners_unbind (ent ent' : entity) (event event' : string)
    (f : callback) (w : World) :
  listeners ent' event' (exec (unbind ent event f) w) =
  if decide (ent = ent' ∧ event = event')
  then remove_first (is_callback f) (listeners ent event w)
  else listeners ent' event' w.
Proof.
  unfold unbind. rewrite listeners_update.
  destruct (decide (ent = ent')) as [<-|Hne].
  - rewrite handlers_unbind. destruct (decide (event = event')) as [<-|].
    + by rewrite decide_True.
    + rewrite decide_False by (by intros [_ ?]). done.
  - rewrite decide_False by (by intros [? _]). done.
Qed.

(** Changing listeners changes nothing else. *)
Lemma update_events_frame (ent : entity) (f : events → events) (w : World) :
  let w' := exec (update_events ent f) w in
  effect_store w' = effect_store w
  ∧ next_object w' = next_object w
  ∧ current_player w' = current_player w
  ∧ native_calls w' = native_calls w
  ∧ auras w' = auras w
  ∧ random_values w' = random_values w
  ∧ (∀ p, with_player_events ∅ (get_player p w')
          = with_player_events ∅ (get_player p w))
  ∧ (∀ m, with_minion_events ∅ (minion_store w' !!! m)
          = with_minion_events ∅ (minion_store w !!! m)).
Proof.
  destruct ent as [p|m]; unfold exec, update_events, update_player,
    update_minion; cbn [snd]; repeat split; try done.
  - intros q. destruct (decide (p = q)) as [<-|Hne].
    + rewrite get_player_set_player. reflexivity.
    + by rewrite get_player_set_player_ne.
  - intros n. cbn [minion_store set_minion_store].
    destruct (decide (m = n)) as [<-|Hne].
    + rewrite lookup_total_insert_eq. reflexivity.
    + by rewrite lookup_total_insert_ne.
Qed.

(** ** Observations after the primitive updates *)

Lemma update_minion_eq (m : nat) (f : Minion → Minion) (w : World) :
  update_minion m f w = (Ok tt, exec (update_minion m f) w).
Proof. reflexivity. Qed.

Lemma update_state_eq (e : nat) (st : effect_state) (w : World) :
  update_state e st w = (Ok tt, exec (update_state e st) w).
Proof. reflexivity. Qed.

Lemma new_object_eq (w : World) :
  new_object w = (Ok (next_object w), exec new_object w).
Proof. reflexivity. Qed.

Lemma listeners_bind_same (ent : entity) (event : string) (f : callback)
    (w : World) :
  listeners ent event (exec (bind ent event f) w)
  = listeners ent event w ++ [(f, false)].
Proof. by rewrite listeners_bind, decide_True. Qed.

Lemma listeners_bind_other (ent ent' : entity) (event event' : string)
    (f : callback) (w : World) :
  ent ≠ ent' ∨ event ≠ event' →
  listeners ent' event' (exec (bind ent event f) w) = listeners ent' event' w.
Proof. intros Hne. rewrite listeners_bind, decide_False; [done|]. tauto. Qed.

Lemma listeners_bind_once_same (ent : entity) (event : string) (f : callback)
    (w : World) :
  listeners ent event (exec (bind_once ent event f) w)
  = listeners ent event w ++ [(f, true)].
Proof. by rewrite listeners_bind_once, decide_True. Qed.

Lemma listeners_bind_once_other (ent ent' : entity) (event event' : string)
    (f : callback) (w : World) :
  ent ≠ ent' ∨ event ≠ event' →
  listeners ent' event' (exec (bind_once ent event f) w)
  = listeners ent' event' w.
Proof.
  intros Hne. rewrite listeners_bind_once, decide_False; [done|]. tauto.
Qed.

Lemma listeners_unbind_same (ent : entity) (event : string) (f : callback)
    (w : World) :
  listeners ent event (exec (unbind ent event f) w)
  = remove_first (is_callback f) (listeners ent event w).
Proof. by rewrite listeners_unbind, decide_True. Qed.

Lemma listeners_unbind_other (ent ent' : entity) (event event' : string)
    (f : callback) (w : World) :
  ent ≠ ent' ∨ event ≠ event' →
  listeners ent' event' (exec (unbind ent event f) w)
  = listeners ent' event' w.
Proof. intros Hne. rewrite listeners_unbind, decide_False; [done|]. tauto. Qed.

Lemma listeners_remove_handler (ent ent' : entity) (event event' : string)
    (h : callback * bool) (w : World) :
  listeners ent' event'
    (exec (update_events ent (events_remove_handler event h)) w) =
  if decide (ent = ent' ∧ event = event')
  then remove_first (is_handler h) (listeners ent event w)
  else listeners ent' event' w.
Proof.
  rewrite listeners_update.
  destruct (decide (ent = ent')) as [<-|Hne].
  - rewrite handlers_remove_handler.
    destruct (decide (event = event')) as [<-|].
    + by rewrite decide_True.
    + rewrite decide_False by (by intros [_ ?]). done.
  - rewrite decide_False by (by intros [? _]). done.
Qed.

Lemma listeners_remove_handler_same (ent : entity) (event : string)
    (h : callback * bool) (w : World) :
  listeners ent event
    (exec (update_events ent (events_remove_handler event h)) w)
  = remove_first (is_handler h) (listeners ent event w).
Proof. by rewrite listeners_remove_handler, decide_True. Qed.

Lemma listeners_remove_handler_other (ent ent' : entity)
    (event event' : string) (h : callback * bool) (w : World) :
  ent ≠ ent' ∨ event ≠ event' →
  listeners ent' event'
    (exec (update_events ent (events_remove_handler event h)) w)
  = listeners ent' event' w.
Proof.
  intros Hne. rewrite listeners_remove_handler, decide_False; [done|]. tauto.
Qed.

Lemma listeners_update_minion (ent : entity) (event : string) (m : nat)
    (f : Minion → Minion) (w : World) :
  (∀ x, minion_events (f x) = minion_events x) →
  listeners ent event (exec (update_minion m f) w) = listeners ent event w.
Proof.
  intros Hf. unfold listeners. f_equal.
  destruct ent as [p|n]; cbn.
  - by destruct p.
  - destruct (decide (m = n)) as [<-|Hne].
    + by rewrite lookup_total_insert_eq, Hf.
    + by rewrite lookup_total_insert_ne.
Qed.

Lemma listeners_update_state (ent : entity) (event : string) (e : nat)
    (st : effect_state) (w : World) :
  listeners ent event (exec (update_state e st) w) = listeners ent event w.
Proof. by destruct ent as [[]|]. Qed.

Lemma listeners_new_object (ent : entity) (event : string) (w : World) :
  listeners ent event (exec new_object w) = listeners ent event w.
Proof. by destruct ent as [[]|]. Qed.

Lemma minion_update_events (ent : entity) (f : events → events) (w : World)
    (m : nat) :
  with_minion_events ∅ (minion_store (exec (update_events ent f) w) !!! m)
  = with_minion_events ∅ (minion_store w !!! m).
Proof. apply update_events_frame. Qed.

Lemma charge_update_events (ent : entity) (f : events → events) (w : World)
    (m : nat) :
  charge (minion_store (exec (update_events ent f) w) !!! m)
  = charge (minion_store w !!! m).
Proof. exact (f_equal charge (minion_update_events ent f w m)). Qed.

Lemma immune_update_events (ent : entity) (f : events → events) (w : World)
    (m : nat) :
  immune (minion_store (exec (update_events ent f) w) !!! m)
  = immune (minion_store w !!! m).
Proof. exact (f_equal immune (minion_update_events ent f w m)). Qed.

Lemma card_update_events (ent : entity) (f : events → events) (w : World)
    (m : nat) :
  card (minion_store (exec (update_events ent f) w) !!! m)
  = card (minion_store w !!! m).
Proof. exact (f_equal card (minion_update_events ent f w m)). Qed.

Lemma player_update_events (ent : entity) (f : events → events) (w : World)
    (m : nat) :
  player (minion_store (exec (update_events ent f) w) !!! m)
  = player (minion_store w !!! m).
Proof. exact (f_equal player (minion_update_events ent f w m)). Qed.

Lemma effect_store_update_events (ent : entity) (f : events → events)
    (w : World) :
  effect_store (exec (update_events ent f) w) = effect_store w.
Proof. apply update_events_frame. Qed.

Lemma next_object_update_events (ent : entity) (f : events → events)
    (w : World) :
  next_object (exec (update_events ent f) w) = next_object w.
Proof. apply update_events_frame. Qed.

Lemma charge_with_charge (b : bool) (m' m : nat) (w : World) :
  charge (minion_store (exec (update_minion m' (with_charge b)) w) !!! m)
  = if decide (m' = m) then b else charge (minion_store w !!! m).
Proof.
  cbn. destruct (decide (m' = m)) as [<-|Hne].
  - by rewrite lookup_total_insert_eq.
  - by rewrite lookup_total_insert_ne.
Qed.

Lemma card_with_charge (b : bool) (m' m : nat) (w : World) :
  card (minion_store (exec (update_minion m' (with_charge b)) w) !!! m)
  = card (minion_store w !!! m).
Proof.
  cbn. destruct (decide (m' = m)) as [<-|Hne].
  - by rewrite lookup_total_insert_eq.
  - by rewrite lookup_total_insert_ne.
Qed.

Lemma player_with_charge (b : bool) (m' m : nat) (w : World) :
  player (minion_store (exec (update_minion m' (with_charge b)) w) !!! m)
  = player (minion_store w !!! m).
Proof.
  cbn. destruct (decide (m' = m)) as [<-|Hne].
  - by rewrite lookup_total_insert_eq.
  - by rewrite lookup_total_insert_ne.
Qed.

Lemma effect_store_update_state (e : nat) (st : effect_state) (w : World) :
  effect_store (exec (update_state e st) w)
  = <[e := with_state st (effect_store w !!! e)]> (effect_store w).
Proof. reflexivity. Qed.

Section Properties.

Context `{MINION_TYPE}.

(** ** Count-gated effects *)

Lemma bind_run {A B : Type} (m : M A) (f : A → M B) (w : World) :
  (m ≫= f) w =
  match m w with
  | (Ok a, w') => f a w'
  | (Raise e, w') => (Raise e, w')
  end.
Proof. reflexivity. Qed.

Lemma seq_skip (m : M unit) (w : World) : (m ;; skip) w = m w.
Proof. rewrite bind_run. by destruct (m w) as [[[]|e] w']. Qed.

Lemma self_target_player_run (self : nat) (w : World) :
  self_target_player self w =
  (Ok (player (minion_store w !!! target (effect_store w !!! self))), w).
Proof. reflexivity. Qed.

Lemma effect_count_of_run (p : player_id) (K : string) (w : World) :
  effect_count_of p K w =
  match effect_count (get_player p w) !! K with
  | Some n => (Ok n, w)
  | None => (Raise KeyError, w)
  end.
Proof.
  unfold effect_count_of, the_player. rewrite bind_run.
  by destruct (effect_count (get_player p w) !! K).
Qed.

Lemma add_effect_DoubleDeathrattle (w : World) (e m : nat) :
  effect_store w !!! e = {| target := m; state := DoubleDeathrattle |} →
  let p := player (minion_store w !!! m) in
  ∃ w', add_effect e w = (Ok tt, w')
    ∧ effect_store w' = effect_store w
    ∧ minion_store w' = minion_store w
    ∧ effect_count (get_player p w') !! "DoubleDeathrattle"
      = Some (counted "DoubleDeathrattle" p w + 1)%Z
    ∧ listeners (player_entity p) "minion_died" w' =
      if bool_decide (counted "DoubleDeathrattle" p w + 1 = 1)%Z
      then listeners (player_entity p) "minion_died" w
           ++ [(bound_DoubleDeathrattle_trigger_deathrattle e, false)]
      else listeners (player_entity p) "minion_died" w.
Proof.
  intros He p.
  unfold add_effect, the_effect. rewrite !bind_run, self_target_player_run.
  rewrite He. cbn [target state class_name]. fold p.
  unfold update_player. rewrite bind_run.
  unfold apply, the_effect. rewrite bind_run. cbn [effect_store set_player].
  rewrite He. cbn [state].
  unfold DoubleDeathrattle_apply.
  rewrite bind_run, self_target_player_run. cbn [effect_store minion_store set_player].
  rewrite He. cbn [target]. fold p.
  rewrite bind_run, effect_count_of_run, get_player_set_player.
  cbn [effect_count effect_count_add with_effect_count].
  rewrite lookup_insert_eq. fold (counted "DoubleDeathrattle" p w).
  case_bool_decide as Hc.
  - eexists. split; [reflexivity|]. cbn [effect_store minion_store set_player].
    split; [done|]. split; [done|].
    unfold listeners, entity_events.
    rewrite !get_player_set_player.
    cbn [effect_count player_events with_player_events effect_count_add
         with_effect_count].
    rewrite lookup_insert_eq. split; [done|].
    by rewrite handlers_bind, decide_True.
  - eexists. split; [reflexivity|]. cbn [effect_store minion_store set_player].
    split; [done|]. split; [done|].
    unfold listeners, entity_events.
    rewrite !get_player_set_player.
    cbn [effect_count player_events with_player_events effect_count_add
         with_effect_count].
    by rewrite lookup_insert_eq.
Qed.

Lemma remove_effect_DoubleDeathrattle (w : World) (e m : nat) :
  effect_store w !!! e = {| target := m; state := DoubleDeathrattle |} →
  let p := player (minion_store w !!! m) in
  ∃ w', remove_effect e w = (Ok tt, w')
    ∧ effect_store w' = effect_store w
    ∧ minion_store w' = minion_store w
    ∧ effect_count (get_player p w') !! "DoubleDeathrattle"
      = Some (counted "DoubleDeathrattle" p w - 1)%Z
    ∧ listeners (player_entity p) "minion_died" w' =
      if bool_decide (counted "DoubleDeathrattle" p w - 1 = 0)%Z
      then remove_first
             (is_callback (bound_DoubleDeathrattle_trigger_deathrattle e))
             (listeners (player_entity p) "minion_died" w)
      else listeners (player_entity p) "minion_died" w.
Proof.
  intros He p.
  unfold remove_effect, the_effect. rewrite !bind_run, self_target_player_run.
  rewrite He. cbn [target state class_name]. fold p.
  unfold update_player. rewrite bind_run.
  unfold unapply, the_effect. rewrite bind_run. cbn [effect_store set_player].
  rewrite He. cbn [state].
  unfold DoubleDeathrattle_unapply.
  rewrite bind_run, self_target_player_run. cbn [effect_store minion_store set_player].
  rewrite He. cbn [target]. fold p.
  rewrite bind_run, effect_count_of_run, get_player_set_player.
  cbn [effect_count effect_count_add with_effect_count].
  rewrite lookup_insert_eq. fold (counted "DoubleDeathrattle" p w).
  replace (counted "DoubleDeathrattle" p w + -1)%Z
    with (counted "DoubleDeathrattle" p w - 1)%Z by lia.
  case_bool_decide as Hc.
  - eexists. split; [reflexivity|]. cbn [effect_store minion_store set_player].
    split; [done|]. split; [done|].
    unfold listeners, entity_events.
    rewrite !get_player_set_player.
    cbn [effect_count player_events with_player_events effect_count_add
         with_effect_count].
    rewrite lookup_insert_eq. split; [done|].
    by rewrite handlers_unbind, decide_True.
  - eexists. split; [reflexivity|]. cbn [effect_store minion_store set_player].
    split; [done|]. split; [done|].
    unfold listeners, entity_events.
    rewrite !get_player_set_player.
    cbn [effect_count player_events with_player_events effect_count_add
         with_effect_count].
    by rewrite lookup_insert_eq.
Qed.

Lemma add_effect_HealAsDamage (w : World) (e m : nat) :
  effect_store w !!! e = {| target := m; state := HealAsDamage |} →
  let p := player (minion_store w !!! m) in
  ∃ w', add_effect e w = (Ok tt, w')
    ∧ effect_store w' = effect_store w
    ∧ minion_store w' = minion_store w
    ∧ effect_count (get_player p w') !! "HealAsDamage"
      = Some (counted "HealAsDamage" p w + 1)%Z
    ∧ heal_does_damage (get_player p w') =
      if bool_decide (counted "HealAsDamage" p w + 1 = 1)%Z
      then true else heal_does_damage (get_player p w).
Proof.
  intros He p.
  unfold add_effect, the_effect. rewrite !bind_run, self_target_player_run.
  rewrite He. cbn [target state class_name]. fold p.
  unfold update_player. rewrite bind_run.
  unfold apply, the_effect. rewrite bind_run. cbn [effect_store set_player].
  rewrite He. cbn [state].
  unfold HealAsDamage_apply.
  rewrite bind_run, self_target_player_run.
  cbn [effect_store minion_store set_player].
  rewrite He. cbn [target]. fold p.
  rewrite bind_run, effect_count_of_run, get_player_set_player.
  cbn [effect_count effect_count_add with_effect_count].
  rewrite lookup_insert_eq. fold (counted "HealAsDamage" p w).
  case_bool_decide as Hc.
  - eexists. split; [reflexivity|]. cbn [effect_store minion_store set_player].
    split; [done|]. split; [done|].
    rewrite !get_player_set_player.
    cbn [effect_count heal_does_damage with_heal_does_damage
         effect_count_add with_effect_count].
    by rewrite lookup_insert_eq.
  - eexists. split; [reflexivity|]. cbn [effect_store minion_store set_player].
    split; [done|]. split; [done|].
    rewrite !get_player_set_player.
    cbn [effect_count heal_does_damage effect_count_add with_effect_count].
    by rewrite lookup_insert_eq.
Qed.

Lemma remove_effect_HealAsDamage (w : World) (e m : nat) :
  effect_store w !!! e = {| target := m; state := HealAsDamage |} →
  let p := player (minion_store w !!! m) in
  ∃ w', remove_effect e w = (Ok tt, w')
    ∧ effect_store w' = effect_store w
    ∧ minion_store w' = minion_store w
    ∧ effect_count (get_player p w') !! "HealAsDamage"
      = Some (counted "HealAsDamage" p w - 1)%Z
    ∧ heal_does_damage (get_player p w') =
      if bool_decide (counted "HealAsDamage" p w - 1 = 0)%Z
      then false else heal_does_damage (get_player p w).
Proof.
  intros He p.
  unfold remove_effect, the_effect. rewrite !bind_run, self_target_player_run.
  rewrite He. cbn [target state class_name]. fold p.
  unfold update_player. rewrite bind_run.
  unfold unapply, the_effect. rewrite bind_run. cbn [effect_store set_player].
  rewrite He. cbn [state].
  unfold HealAsDamage_unapply.
  rewrite bind_run, self_target_player_run.
  cbn [effect_store minion_store set_player].
  rewrite He. cbn [target]. fold p.
  rewrite bind_run, effect_count_of_run, get_player_set_player.
  cbn [effect_count effect_count_add with_effect_count].
  rewrite lookup_insert_eq. fold (counted "HealAsDamage" p w).
  replace (counted "HealAsDamage" p w + -1)%Z
    with (counted "HealAsDamage" p w - 1)%Z by lia.
  case_bool_decide as Hc.
  - eexists. split; [reflexivity|]. cbn [effect_store minion_store set_player].
    split; [done|]. split; [done|].
    rewrite !get_player_set_player.
    cbn [effect_count heal_does_damage with_heal_does_damage
         effect_count_add with_effect_count].
    by rewrite lookup_insert_eq.
  - eexists. split; [reflexivity|]. cbn [effect_store minion_store set_player].
    split; [done|]. split; [done|].
    rewrite !get_player_set_player.
    cbn [effect_count heal_does_damage effect_count_add with_effect_count].
    by rewrite lookup_insert_eq.
Qed.

Lemma counted_lookup (K : string) (p : player_id) (w : World) (n : Z) :
  effect_count (get_player p w) !! K = Some n → counted K p w = n.
Proof. unfold counted. by intros ->. Qed.

Lemma seq_run {A : Type} (m : M unit) (k : M A) (w w1 : World) :
  m w = (Ok tt, w1) → (m ;; k) w = k w1.
Proof. intros Hm. by rewrite bind_run, Hm. Qed.

Lemma remove_first_keeps {A : Type} (P : A → bool) (l : list A) (x : A) :
  x ∈ l → P x = false → x ∈ remove_first P l.
Proof.
  induction l as [|y l IH]; simpl; [done|].
  intros Hin Hx. destruct (P y) eqn:Hy.
  - apply elem_of_cons in Hin as [->|Hin]; [congruence|done].
  - apply elem_of_cons in Hin as [->|Hin]; [left|right; auto].
Qed.

(** The [HealAsDamage] scenario: the flag is on after the first and the
    second application, stays on when the first of the two instances to go
    is unapplied, whichever it is, and is off when both are unapplied. *)
Lemma HealAsDamage_count_gated (w : World) (e1 e2 m1 m2 : nat) :
  effect_store w !!! e1 = {| target := m1; state := HealAsDamage |} →
  effect_store w !!! e2 = {| target := m2; state := HealAsDamage |} →
  player (minion_store w !!! m1) = player (minion_store w !!! m2) →
  counted "HealAsDamage" (player (minion_store w !!! m1)) w = 0%Z →
  let p := player (minion_store w !!! m1) in
  let flag (m : M unit) :=
    (outcome m w, heal_does_damage (get_player p (exec m w))) in
  flag (add_effect e1) = (Ok tt, true)
  ∧ flag (add_effect e1 ;; add_effect e2) = (Ok tt, true)
  ∧ flag (add_effect e1 ;; add_effect e2 ;; remove_effect e1) = (Ok tt, true)
  ∧ flag (add_effect e1 ;; add_effect e2 ;; remove_effect e2) = (Ok tt, true)
  ∧ flag (add_effect e1 ;; add_effect e2 ;; remove_effect e1 ;;
          remove_effect e2) = (Ok tt, false)
  ∧ flag (add_effect e1 ;; add_effect e2 ;; remove_effect e2 ;;
          remove_effect e1) = (Ok tt, false).
Proof.
  intros He1 He2 Hp Hc p flag. subst flag. unfold outcome, exec. fold p in Hc.
  destruct (add_effect_HealAsDamage w e1 m1 He1)
    as (w1 & R1 & Hs1 & Hm1 & Hc1 & Hf1).
  fold p in Hc1, Hf1. rewrite Hc in Hc1, Hf1.
  rewrite bool_decide_eq_true_2 in Hf1 by done.
  assert (He2a : effect_store w1 !!! e2
                 = {| target := m2; state := HealAsDamage |})
    by (by rewrite Hs1).
  destruct (add_effect_HealAsDamage w1 e2 m2 He2a)
    as (w2 & R2 & Hs2 & Hm2 & Hc2 & Hf2).
  rewrite Hm1, <- Hp in Hc2, Hf2. fold p in Hc2, Hf2.
  rewrite (counted_lookup _ _ _ _ Hc1) in Hc2, Hf2.
  rewrite bool_decide_eq_false_2 in Hf2 by done. rewrite Hf1 in Hf2.
  assert (He1b : effect_store w2 !!! e1
                 = {| target := m1; state := HealAsDamage |})
    by (by rewrite Hs2, Hs1).
  assert (He2b : effect_store w2 !!! e2
                 = {| target := m2; state := HealAsDamage |})
    by (by rewrite Hs2).
  destruct (remove_effect_HealAsDamage w2 e1 m1 He1b)
    as (w3 & R3 & Hs3 & Hm3 & Hc3 & Hf3).
  rewrite Hm2, Hm1 in Hc3, Hf3. fold p in Hc3, Hf3.
  rewrite (counted_lookup _ _ _ _ Hc2) in Hc3, Hf3.
  rewrite bool_decide_eq_false_2 in Hf3 by done. rewrite Hf2 in Hf3.
  destruct (remove_effect_HealAsDamage w2 e2 m2 He2b)
    as (v3 & S3 & Ht3 & Hn3 & Hd3 & Hg3).
  rewrite Hm2, Hm1, <- Hp in Hd3, Hg3. fold p in Hd3, Hg3.
  rewrite (counted_lookup _ _ _ _ Hc2) in Hd3, Hg3.
  rewrite bool_decide_eq_false_2 in Hg3 by done. rewrite Hf2 in Hg3.
  assert (He2c : effect_store w3 !!! e2
                 = {| target := m2; state := HealAsDamage |})
    by (by rewrite Hs3).
  destruct (remove_effect_HealAsDamage w3 e2 m2 He2c)
    as (w4 & R4 & Hs4 & Hm4 & Hc4 & Hf4).
  rewrite Hm3, Hm2, Hm1, <- Hp in Hc4, Hf4. fold p in Hc4, Hf4.
  rewrite (counted_lookup _ _ _ _ Hc3) in Hc4, Hf4.
  rewrite bool_decide_eq_true_2 in Hf4 by done.
  assert (He1c : effect_store v3 !!! e1
                 = {| target := m1; state := HealAsDamage |})
    by (by rewrite Ht3, Hs2, Hs1).
  destruct (remove_effect_HealAsDamage v3 e1 m1 He1c)
    as (v4 & S4 & Ht4 & Hn4 & Hd4 & Hg4).
  rewrite Hn3, Hm2, Hm1 in Hd4, Hg4. fold p in Hd4, Hg4.
  rewrite (counted_lookup _ _ _ _ Hd3) in Hd4, Hg4.
  rewrite bool_decide_eq_true_2 in Hg4 by done.
  rewrite !(seq_run _ _ _ _ R1), !(seq_run _ _ _ _ R2),
    !(seq_run _ _ _ _ R3), !(seq_run _ _ _ _ S3).
  rewrite R1, R2, R3, S3, R4, S4. cbn [fst snd].
  by rewrite Hf1, Hf2, Hf3, Hg3, Hf4, Hg4.
Qed.

(** C1 (the code at the failing input).  Two [DoubleDeathrattle] instances
    [e1] and [e2] are applied, in this order, on minions of one player whose
    count of the kind is zero, and then unapplied in the same order.  Every
    call returns and the count is back to zero, but the [minion_died]
    subscription made for [e1] is still there: the last [unapply] unbinds
    the bound method of [e2], which was never bound. *)
Theorem DoubleDeathrattle_subscription_outlives_count
    (w : World) (e1 e2 m1 m2 : nat) :
  effect_store w !!! e1 = {| target := m1; state := DoubleDeathrattle |} →
  effect_store w !!! e2 = {| target := m2; state := DoubleDeathrattle |} →
  e1 ≠ e2 →
  player (minion_store w !!! m1) = player (minion_store w !!! m2) →
  counted "DoubleDeathrattle" (player (minion_store w !!! m1)) w = 0%Z →
  let p := player (minion_store w !!! m1) in
  let run := add_effect e1 ;; add_effect e2 ;;
             remove_effect e1 ;; remove_effect e2 in
  outcome run w = Ok tt
  ∧ effect_count (get_player p (exec run w)) !! "DoubleDeathrattle"
    = Some 0%Z
  ∧ (bound_DoubleDeathrattle_trigger_deathrattle e1, false)
    ∈ listeners (player_entity p) "minion_died" (exec run w).
Proof.
  intros He1 He2 Hne Hp Hc p run. subst run. unfold outcome, exec.
  fold p in Hc.
  destruct (add_effect_DoubleDeathrattle w e1 m1 He1)
    as (w1 & R1 & Hs1 & Hm1 & Hc1 & Hl1).
  fold p in Hc1, Hl1. rewrite Hc in Hc1, Hl1.
  rewrite bool_decide_eq_true_2 in Hl1 by done.
  assert (He2a : effect_store w1 !!! e2
                 = {| target := m2; state := DoubleDeathrattle |})
    by (by rewrite Hs1).
  destruct (add_effect_DoubleDeathrattle w1 e2 m2 He2a)
    as (w2 & R2 & Hs2 & Hm2 & Hc2 & Hl2).
  rewrite Hm1, <- Hp in Hc2, Hl2. fold p in Hc2, Hl2.
  rewrite (counted_lookup _ _ _ _ Hc1) in Hc2, Hl2.
  rewrite bool_decide_eq_false_2 in Hl2 by done. rewrite Hl1 in Hl2.
  assert (He1b : effect_store w2 !!! e1
                 = {| target := m1; state := DoubleDeathrattle |})
    by (by rewrite Hs2, Hs1).
  destruct (remove_effect_DoubleDeathrattle w2 e1 m1 He1b)
    as (w3 & R3 & Hs3 & Hm3 & Hc3 & Hl3).
  rewrite Hm2, Hm1 in Hc3, Hl3. fold p in Hc3, Hl3.
  rewrite (counted_lookup _ _ _ _ Hc2) in Hc3, Hl3.
  rewrite bool_decide_eq_false_2 in Hl3 by done. rewrite Hl2 in Hl3.
  assert (He2c : effect_store w3 !!! e2
                 = {| target := m2; state := DoubleDeathrattle |})
    by (by rewrite Hs3, Hs2, Hs1).
  destruct (remove_effect_DoubleDeathrattle w3 e2 m2 He2c)
    as (w4 & R4 & Hs4 & Hm4 & Hc4 & Hl4).
  rewrite Hm3, Hm2, Hm1, <- Hp in Hc4, Hl4. fold p in Hc4, Hl4.
  rewrite (counted_lookup _ _ _ _ Hc3) in Hc4, Hl4.
  rewrite bool_decide_eq_true_2 in Hl4 by done. rewrite Hl3 in Hl4.
  rewrite (seq_run _ _ _ _ R1), (seq_run _ _ _ _ R2), (seq_run _ _ _ _ R3).
  rewrite R4. cbn [fst snd].
  split; [done|]. split; [done|].
  rewrite Hl4. apply remove_first_keeps.
  - apply elem_of_app. right. by apply list_elem_of_singleton.
  - unfold is_callback. apply bool_decide_eq_false. cbn. congruence.
Qed.

(** X29.  In the other order of removal the subscription is made once,
    survives the first [unapply] and is removed by the second: two
    [DoubleDeathrattle] effects of a player that are removed in the reverse
    order of their registration leave the listeners of [minion_died] as
    they were. *)
Lemma DoubleDeathrattle_unapply_in_reverse_order
    (w : World) (e1 e2 m1 m2 : nat) :
  effect_store w !!! e1 = {| target := m1; state := DoubleDeathrattle |} →
  effect_store w !!! e2 = {| target := m2; state := DoubleDeathrattle |} →
  player (minion_store w !!! m1) = player (minion_store w !!! m2) →
  counted "DoubleDeathrattle" (player (minion_store w !!! m1)) w = 0%Z →
  let p := player (minion_store w !!! m1) in
  let l := listeners (player_entity p) "minion_died" w in
  let subscribed (m : M unit) :=
    (outcome m w, listeners (player_entity p) "minion_died" (exec m w)) in
  Forall (λ h, h.1 ≠ bound_DoubleDeathrattle_trigger_deathrattle e1) l →
  subscribed (add_effect e1 ;; add_effect e2)
  = (Ok tt, l ++ [(bound_DoubleDeathrattle_trigger_deathrattle e1, false)])
  ∧ subscribed (add_effect e1 ;; add_effect e2 ;; remove_effect e2)
    = (Ok tt, l ++ [(bound_DoubleDeathrattle_trigger_deathrattle e1, false)])
  ∧ subscribed (add_effect e1 ;; add_effect e2 ;; remove_effect e2 ;;
                remove_effect e1) = (Ok tt, l).
Proof.
  intros He1 He2 Hp Hc p l subscribed Hl. subst subscribed.
  unfold outcome, exec. fold p in Hc.
  destruct (add_effect_DoubleDeathrattle w e1 m1 He1)
    as (w1 & R1 & Hs1 & Hm1 & Hc1 & Hl1).
  fold p in Hc1, Hl1. rewrite Hc in Hc1, Hl1.
  rewrite bool_decide_eq_true_2 in Hl1 by done.
  assert (He2a : effect_store w1 !!! e2
                 = {| target := m2; state := DoubleDeathrattle |})
    by (by rewrite Hs1).
  destruct (add_effect_DoubleDeathrattle w1 e2 m2 He2a)
    as (w2 & R2 & Hs2 & Hm2 & Hc2 & Hl2).
  rewrite Hm1, <- Hp in Hc2, Hl2. fold p in Hc2, Hl2.
  rewrite (counted_lookup _ _ _ _ Hc1) in Hc2, Hl2.
  rewrite bool_decide_eq_false_2 in Hl2 by done. rewrite Hl1 in Hl2.
  assert (He2b : effect_store w2 !!! e2
                 = {| target := m2; state := DoubleDeathrattle |})
    by (by rewrite Hs2, Hs1).
  destruct (remove_effect_DoubleDeathrattle w2 e2 m2 He2b)
    as (w3 & R3 & Hs3 & Hm3 & Hc3 & Hl3).
  rewrite Hm2, Hm1, <- Hp in Hc3, Hl3. fold p in Hc3, Hl3.
  rewrite (counted_lookup _ _ _ _ Hc2) in Hc3, Hl3.
  rewrite bool_decide_eq_false_2 in Hl3 by done. rewrite Hl2 in Hl3.
  assert (He1c : effect_store w3 !!! e1
                 = {| target := m1; state := DoubleDeathrattle |})
    by (by rewrite Hs3, Hs2, Hs1).
  destruct (remove_effect_DoubleDeathrattle w3 e1 m1 He1c)
    as (w4 & R4 & Hs4 & Hm4 & Hc4 & Hl4).
  rewrite Hm3, Hm2, Hm1 in Hc4, Hl4. fold p in Hc4, Hl4.
  rewrite (counted_lookup _ _ _ _ Hc3) in Hc4, Hl4.
  rewrite bool_decide_eq_true_2 in Hl4 by done. rewrite Hl3 in Hl4.
  rewrite !(seq_run _ _ _ _ R1), !(seq_run _ _ _ _ R2),
    !(seq_run _ _ _ _ R3).
  rewrite R2, R3, R4. cbn [fst snd].
  rewrite Hl2, Hl3, Hl4. fold l.
  split; [done|]. split; [done|]. f_equal.
  apply remove_first_app_last.
  - eapply Forall_impl; [exact Hl|]. intros h Hh. unfold is_callback.
    by apply bool_decide_eq_false.
  - unfold is_callback. by apply bool_decide_eq_true.
Qed.
(** ** The mana filter chain *)

Lemma mana_cost_loop_fold (filters : list Filter) (c : Card) (cost : Z) :
  mana_cost_loop filters c cost
  = fold_left (mana_cost_step c) filters (Ok cost).
Proof.
  assert (Hraise : ∀ l e, fold_left (mana_cost_step c) l (Raise e) = Raise e).
  { intros l e. induction l as [|f l IH]; [done|apply IH]. }
  revert cost. induction filters as [|f rest IH]; intros cost; simpl.
  - reflexivity.
  - destruct (card_filter_matches (filter f) c) as [[|]|e];
      [apply IH|apply IH|by rewrite Hraise].
Qed.

(** The chain over a list of entries that is extended at its end. *)
Lemma mana_cost_loop_app (l1 l2 : list Filter) (c : Card) (cost : Z) :
  mana_cost_loop (l1 ++ l2) c cost
  = match mana_cost_loop l1 c cost with
    | Ok cost1 => mana_cost_loop l2 c cost1
    | Raise e => Raise e
    end.
Proof.
  revert cost. induction l1 as [|f l1 IH]; intros cost; simpl; [done|].
  by destruct (card_filter_matches (filter f) c) as [[|]|e].
Qed.

(** With floors and base cost that are not negative the chain never gives a
    negative cost. *)
Lemma mana_cost_loop_nonneg (filters : list Filter) (c : Card)
    (cost cost' : Z) :
  (0 ≤ cost)%Z → Forall (λ f, 0 ≤ min f)%Z filters →
  mana_cost_loop filters c cost = Ok cost' →
  (0 ≤ cost')%Z.
Proof.
  intros Hc Hf. revert cost Hc.
  induction Hf as [|f rest Hmin _ IH]; intros cost Hc; simpl.
  - by intros [= <-].
  - destruct (card_filter_matches (filter f) c) as [[|]|e];
      [apply IH; lia|by apply IH|done].
Qed.

(** ** DrawOnMinion *)

(** C8.  For a [DrawOnMinion] effect built with [MINION_TYPE.ALL], the
    listener [check_minion_draw] returns without drawing and leaves the
    store as it is, whatever minion was placed: neither the method nor its
    call from a [minion_placed] event draws a card. *)
Theorem DrawOnMinion_ALL_never_draws
    (w : World) (self t new_minion depth : nat) :
  effect_store w !!! self = {| target := t; state := DrawOnMinion ALL |} →
  DrawOnMinion_check_minion_draw self new_minion w = (Ok tt, w)
  ∧ call (S depth) (bound_DrawOnMinion_check_minion_draw self)
      [VMinion new_minion] w = (Ok tt, w).
Proof.
  intros He.
  assert (Hrun : DrawOnMinion_check_minion_draw self new_minion w = (Ok tt, w)).
  { unfold DrawOnMinion_check_minion_draw, the_effect.
    rewrite bind_run, He. cbn [state].
    unfold the_minion. rewrite bind_run.
    by rewrite (bool_decide_eq_true_2 (ALL = ALL)). }
  split; [exact Hrun|]. exact Hrun.
Qed.

(** For a type other than [ALL] the listener does draw when another minion
    of that type is placed. *)
Lemma DrawOnMinion_typed_draws (w : World) (self t new_minion : nat)
    (mtype : Z) :
  effect_store w !!! self = {| target := t; state := DrawOnMinion mtype |} →
  mtype ≠ ALL →
  minion_type (card (minion_store w !!! new_minion)) = mtype →
  new_minion ≠ t →
  let p := player (minion_store w !!! t) in
  DrawOnMinion_check_minion_draw self new_minion w
  = (Ok tt, set_player p (with_cards_drawn (S (cards_drawn (get_player p w)))
                            (get_player p w)) w).
Proof.
  intros He Hty Hm Hne p.
  unfold DrawOnMinion_check_minion_draw, the_effect.
  rewrite bind_run, He. cbn [state target].
  unfold the_minion. rewrite bind_run.
  rewrite (bool_decide_eq_false_2 (mtype = ALL)) by done.
  rewrite (bool_decide_eq_true_2 _ Hm).
  rewrite (bool_decide_eq_false_2 (new_minion = t)) by done.
  cbn [negb andb].
  rewrite bind_run, self_target_player_run, He. reflexivity.
Qed.

(** ** AddCardOnSpell *)

Lemma AddCardOnSpell_add_card_run (w : World) (self t : nat) (c : Card) :
  effect_store w !!! self = {| target := t; state := AddCardOnSpell c |} →
  let p := player (minion_store w !!! t) in
  AddCardOnSpell_add_card self w =
  (Ok tt, if bool_decide (length (hand (get_player p w)) < 10)
          then set_player p (with_hand (hand (get_player p w) ++ [c])
                               (get_player p w)) w
          else w).
Proof.
  intros He p.
  unfold AddCardOnSpell_add_card, the_effect.
  rewrite bind_run, He. cbn [state].
  rewrite bind_run, self_target_player_run, He. cbn [target]. fold p.
  unfold the_player. rewrite bind_run.
  by case_bool_decide.
Qed.

Lemma listeners_player_events (p : player_id) (event : string) (w : World)
    (x : Player) :
  listeners (player_entity p) event (set_player p x w)
  = handlers (player_events x) event.
Proof. unfold listeners, entity_events. by rewrite get_player_set_player. Qed.

(** C9.  The listener [add_card] of an [AddCardOnSpell] effect appends
    exactly one card, the effect's card, to the hand of the owner of the
    target when the hand holds fewer than 10 cards, and leaves the store as
    it is when the hand holds 10 cards or more, so the hand never grows
    beyond 10 cards through it.  After [apply()] on a player with no
    [spell_cast] listener, a [spell_cast] event does exactly this. *)
Theorem AddCardOnSpell_hand_limit
    (w : World) (self t depth : nat) (c : Card) (spell : value) :
  effect_store w !!! self = {| target := t; state := AddCardOnSpell c |} →
  let p := player (minion_store w !!! t) in
  let cast := call (S depth) (bound_AddCardOnSpell_add_card self) [spell] in
  let applied_cast :=
    AddCardOnSpell_apply self ;;
    trigger (S depth) (player_entity p) "spell_cast" [spell] in
  outcome cast w = Ok tt
  ∧ (length (hand (get_player p w)) < 10 →
     hand (get_player p (exec cast w)) = hand (get_player p w) ++ [c])
  ∧ (10 ≤ length (hand (get_player p w)) → exec cast w = w)
  ∧ length (hand (get_player p (exec cast w)))
    ≤ length (hand (get_player p w)) `max` 10
  ∧ (listeners (player_entity p) "spell_cast" w = [] →
     outcome applied_cast w = Ok tt
     ∧ hand (get_player p (exec applied_cast w))
       = if bool_decide (length (hand (get_player p w)) < 10)
         then hand (get_player p w) ++ [c]
         else hand (get_player p w)).
Proof.
  intros He p cast applied_cast.
  assert (Hcast : cast w = AddCardOnSpell_add_card self w) by reflexivity.
  pose proof (AddCardOnSpell_add_card_run w self t c He) as Hrun.
  fold p in Hrun.
  unfold outcome, exec. rewrite Hcast, Hrun. cbn [fst snd].
  split; [done|]. split; [|split; [|split]].
  - intros Hlt. rewrite bool_decide_eq_true_2 by done.
    rewrite get_player_set_player. reflexivity.
  - intros Hge. by rewrite bool_decide_eq_false_2 by lia.
  - case_bool_decide as Hlt.
    + rewrite get_player_set_player. cbn [hand with_hand].
      rewrite length_app. cbn [length]. lia.
    + lia.
  - intros Hl.
    set (w1 := set_player p
                 (with_player_events
                    (events_bind "spell_cast"
                       (bound_AddCardOnSpell_add_card self)
                       (player_events (get_player p w)))
                    (get_player p w)) w).
    assert (He1 : effect_store w1 !!! self
                  = {| target := t; state := AddCardOnSpell c |}) by exact He.
    pose proof (AddCardOnSpell_add_card_run w1 self t c He1) as Hrun1.
    cbv zeta in Hrun1.
    change (player (minion_store w1 !!! t)) with p in Hrun1.
    assert (Hh : hand (get_player p w1) = hand (get_player p w)).
    { subst w1. by rewrite get_player_set_player. }
    rewrite Hh in Hrun1.
    assert (Happ : applied_cast w = AddCardOnSpell_add_card self w1).
    { subst applied_cast. unfold AddCardOnSpell_apply.
      rewrite !bind_run, self_target_player_run, He. cbn [target]. fold p.
      unfold bind. cbn [update_events]. unfold update_player. fold w1.
      unfold trigger. subst w1. rewrite listeners_player_events.
      cbn [player_events with_player_events].
      rewrite handlers_bind, decide_True by done.
      unfold listeners, entity_events in Hl. rewrite Hl. cbn [app for_each].
      cbn [fst snd]. rewrite !seq_skip. reflexivity. }
    rewrite Happ, Hrun1. cbn [fst snd]. split; [done|].
    case_bool_decide; [|done].
    rewrite get_player_set_player. reflexivity.
Qed.

(** ** Summoning at the end of the board *)

Lemma list_insert_at_end {A : Type} (x : A) (l : list A) :
  list_insert_at (length l) x l = l ++ [x].
Proof.
  unfold list_insert_at. by rewrite take_ge, drop_ge by lia.
Qed.

Lemma summon_at_end_run (w : World) (self : nat) (c : Card) :
  let p := player (minion_store w !!! target (effect_store w !!! self)) in
  summon_at_end self c w = (Ok tt, place_at_end p w c).
Proof.
  intros p. unfold summon_at_end.
  rewrite bind_run, self_target_player_run. fold p.
  unfold the_player. rewrite bind_run.
  unfold summon, new_object. rewrite bind_run.
  unfold update_minion. rewrite bind_run.
  unfold update_player, place_at_end.
  rewrite list_insert_at_end.
  destruct p; reflexivity.
Qed.

Lemma place_at_end_effect_store (p : player_id) (w : World) (c : Card) :
  effect_store (place_at_end p w c) = effect_store w.
Proof. reflexivity. Qed.

Lemma place_at_end_next_object (p : player_id) (w : World) (c : Card) :
  next_object (place_at_end p w c) = S (next_object w).
Proof. reflexivity. Qed.

Lemma place_at_end_minion_store (p : player_id) (w : World) (c : Card) :
  minion_store (place_at_end p w c)
  = <[next_object w := new_minion c p]> (minion_store w).
Proof. reflexivity. Qed.

Lemma place_at_end_minions (p : player_id) (w : World) (c : Card) :
  minions (get_player p (place_at_end p w c))
  = minions (get_player p w) ++ [next_object w].
Proof. unfold place_at_end. by rewrite get_player_set_player. Qed.

Lemma place_at_end_native_calls (p : player_id) (w : World) (c : Card) :
  native_calls (place_at_end p w c) = native_calls w.
Proof. reflexivity. Qed.

(** Summoning keeps the minions that exist: only the new object is
    written. *)
Lemma place_at_end_old_minion (p : player_id) (w : World) (c : Card)
    (m : nat) :
  m < next_object w →
  minion_store (place_at_end p w c) !!! m = minion_store w !!! m.
Proof.
  intros Hm. rewrite place_at_end_minion_store.
  apply lookup_total_insert_ne. lia.
Qed.

Lemma place_at_end_new_minion (p : player_id) (w : World) (c : Card) :
  minion_store (place_at_end p w c) !!! next_object w = new_minion c p.
Proof.
  rewrite place_at_end_minion_store. apply lookup_total_insert_eq.
Qed.

(** [for card in cards: card.summon(..., len(minions))], from a store in
    which the target of the effect exists. *)
Lemma for_each_summon_at_end (cards : list Card) (w : World) (self : nat) :
  let t := target (effect_store w !!! self) in
  let p := player (minion_store w !!! t) in
  t < next_object w →
  for_each cards (summon_at_end self) w
  = (Ok tt, fold_left (place_at_end p) cards w).
Proof.
  revert w. induction cards as [|c cards IH]; intros w t p Ht.
  - reflexivity.
  - cbn [for_each fold_left].
    rewrite (seq_run _ _ _ _ (summon_at_end_run w self c)). fold t p.
    rewrite IH.
    + rewrite place_at_end_effect_store. fold t.
      by rewrite place_at_end_old_minion.
    + rewrite place_at_end_effect_store, place_at_end_next_object.
      fold t. lia.
Qed.

Lemma repeat_times_for_each (n : nat) (c : Card) (self : nat) :
  repeat_times n (summon_at_end self c)
  = for_each (replicate n c) (summon_at_end self).
Proof. induction n as [|n IH]; simpl; [done|]. by rewrite IH. Qed.

(** What a run of summons leaves: the effect instances and the recorded
    native calls as they were, the new minions at the end of the board in
    the order of the cards, and every minion that existed untouched. *)
Lemma fold_place_at_end (cards : list Card) (p : player_id) (w : World) :
  let w' := fold_left (place_at_end p) cards w in
  effect_store w' = effect_store w
  ∧ native_calls w' = native_calls w
  ∧ next_object w' = next_object w + length cards
  ∧ minions (get_player p w')
    = minions (get_player p w) ++ seq (next_object w) (length cards)
  ∧ (∀ m, m < next_object w →
          minion_store w' !!! m = minion_store w !!! m)
  ∧ (∀ i c, cards !! i = Some c →
            minion_store w' !!! (next_object w + i) = new_minion c p).
Proof.
  revert w. induction cards as [|c cards IH]; intros w w'.
  - subst w'. cbn [fold_left length seq].
    rewrite app_nil_r, Nat.add_0_r. repeat split; done.
  - subst w'. cbn [fold_left].
    destruct (IH (place_at_end p w c)) as (Hs & Hn & Ho & Hb & Hold & Hnew).
    rewrite place_at_end_next_object in Ho, Hb, Hold, Hnew.
    split; [by rewrite Hs|]. split; [by rewrite Hn|].
    split; [rewrite Ho; cbn [length]; lia|].
    split.
    { rewrite Hb, place_at_end_minions. cbn [length seq].
      by rewrite <- app_assoc. }
    split.
    { intros m Hm. rewrite Hold by lia. by apply place_at_end_old_minion. }
    intros [|i] c' Hc'.
    + simplify_eq/=. rewrite Nat.add_0_r, Hold by lia.
      apply place_at_end_new_minion.
    + cbn in Hc'. specialize (Hnew i c' Hc').
      by replace (next_object w + S i) with (S (next_object w) + i) by lia.
Qed.

(** The cards on the board after a run of summons, when the minions on the
    board exist. *)
Lemma fold_place_at_end_board_cards (cards : list Card) (p : player_id)
    (w : World) :
  Forall (λ m, m < next_object w) (minions (get_player p w)) →
  board_cards p (fold_left (place_at_end p) cards w)
  = board_cards p w ++ cards.
Proof.
  intros Hb.
  destruct (fold_place_at_end cards p w) as (_ & _ & _ & Hm & Hold & Hnew).
  unfold board_cards. rewrite Hm, fmap_app. f_equal.
  - apply Forall_fmap_ext_1. eapply Forall_impl; [exact Hb|].
    intros m Hlt. cbn. by rewrite Hold.
  - apply list_eq. intros i. rewrite list_lookup_fmap.
    destruct (cards !! i) as [c|] eqn:Hc.
    + rewrite lookup_seq_lt by (by eapply lookup_lt_Some).
      cbn. by rewrite (Hnew i c Hc).
    + rewrite lookup_seq_ge by (by apply lookup_ge_None). done.
Qed.

(** ** ResurrectFriendlyMinionsAtEndOfTurn *)

Lemma bind_eq (ent : entity) (event : string) (f : callback) (w : World) :
  bind ent event f w = (Ok tt, exec (bind ent event f) w).
Proof. apply update_events_eq. Qed.

Lemma bind_once_eq (ent : entity) (event : string) (f : callback)
    (w : World) :
  bind_once ent event f w = (Ok tt, exec (bind_once ent event f) w).
Proof. apply update_events_eq. Qed.

Lemma unbind_eq (ent : entity) (event : string) (f : callback) (w : World) :
  unbind ent event f w = (Ok tt, exec (unbind ent event f) w).
Proof. apply update_events_eq. Qed.

Lemma Resurrect_turn_ended_run (w : World) (self t : nat)
    (dead_minions : list Card) :
  effect_store w !!! self
  = {| target := t;
       state := ResurrectFriendlyMinionsAtEndOfTurn dead_minions |} →
  t < next_object w →
  Resurrect_turn_ended self w
  = (Ok tt, fold_left (place_at_end (player (minion_store w !!! t)))
              dead_minions w).
Proof.
  intros He Ht. unfold Resurrect_turn_ended, the_effect.
  rewrite bind_run, He. cbn [state].
  rewrite for_each_summon_at_end; rewrite He; [done|exact Ht].
Qed.

Lemma Resurrect_turn_ended_repeated (n : nat) (w : World) (self t : nat)
    (dead_minions : list Card) :
  effect_store w !!! self
  = {| target := t;
       state := ResurrectFriendlyMinionsAtEndOfTurn dead_minions |} →
  t < next_object w →
  repeat_times n (Resurrect_turn_ended self) w
  = (Ok tt, fold_left (place_at_end (player (minion_store w !!! t)))
              (concat (replicate n dead_minions)) w).
Proof.
  revert w. induction n as [|n IH]; intros w He Ht.
  - reflexivity.
  - cbn [repeat_times replicate concat].
    rewrite (seq_run _ _ _ _ (Resurrect_turn_ended_run w self t _ He Ht)).
    rewrite fold_left_app.
    destruct (fold_place_at_end dead_minions
                (player (minion_store w !!! t)) w)
      as (Hs & _ & Ho & _ & Hold & _).
    rewrite IH.
    + by rewrite Hold.
    + by rewrite Hs.
    + rewrite Ho. lia.
Qed.

Lemma length_concat_replicate {A : Type} (n : nat) (l : list A) :
  length (concat (replicate n l)) = n * length l.
Proof.
  induction n as [|n IH]; cbn; [done|]. by rewrite length_app, IH.
Qed.

(** C10.  [apply()] subscribes [_minion_died] to the deaths of the owner's
    minions and [_turn_ended] to the turn ends of both players, and keeps
    the record.  [_minion_died] appends the card of the dead minion to the
    record.  [_turn_ended] summons one minion for every recorded card at the
    end of the owner's board and keeps the record, so [n] turn ends summon
    the recorded cards [n] times over.  [unapply()] empties the record. *)
Theorem Resurrect_summons_at_every_turn_end
    (w : World) (self t depth : nat) (dead_minions : list Card) :
  effect_store w !!! self
  = {| target := t;
       state := ResurrectFriendlyMinionsAtEndOfTurn dead_minions |} →
  t < next_object w →
  let p := player (minion_store w !!! t) in
  let died dead_minion attacker :=
    call (S depth) (bound_Resurrect_minion_died self)
      [VMinion dead_minion; attacker] in
  let turn_ended := call (S depth) (bound_Resurrect_turn_ended self) [] in
  (outcome (Resurrect_apply self) w = Ok tt
   ∧ effect_store (exec (Resurrect_apply self) w) = effect_store w
   ∧ listeners (player_entity p) "minion_died"
       (exec (Resurrect_apply self) w)
     = listeners (player_entity p) "minion_died" w
       ++ [(bound_Resurrect_minion_died self, false)]
   ∧ listeners (player_entity p) "turn_ended"
       (exec (Resurrect_apply self) w)
     = listeners (player_entity p) "turn_ended" w
       ++ [(bound_Resurrect_turn_ended self, false)]
   ∧ listeners (player_entity (opponent p)) "turn_ended"
       (exec (Resurrect_apply self) w)
     = listeners (player_entity (opponent p)) "turn_ended" w
       ++ [(bound_Resurrect_turn_ended self, false)])
  ∧ (∀ dead_minion attacker,
       died dead_minion attacker w
       = (Ok tt,
          set_effect_store
            (<[self := {| target := t;
                          state := ResurrectFriendlyMinionsAtEndOfTurn
                            (dead_minions
                             ++ [card (minion_store w !!! dead_minion)]) |}]>
               (effect_store w)) w))
  ∧ (∀ n, let w' := exec (repeat_times n turn_ended) w in
       outcome (repeat_times n turn_ended) w = Ok tt
       ∧ effect_store w' = effect_store w
       ∧ minions (get_player p w')
         = minions (get_player p w)
           ++ seq (next_object w) (n * length dead_minions)
       ∧ (Forall (λ m, m < next_object w) (minions (get_player p w)) →
          board_cards p w'
          = board_cards p w ++ concat (replicate n dead_minions)))
  ∧ outcome (Resurrect_unapply self) w = Ok tt
  ∧ state (effect_store (exec (Resurrect_unapply self) w) !!! self)
    = ResurrectFriendlyMinionsAtEndOfTurn [].
Proof.
  intros He Ht p died turn_ended.
  split; [|split; [|split]].
  - assert (Happ : Resurrect_apply self w
      = (Ok tt,
         exec (bind (player_entity (opponent p)) "turn_ended"
                 (bound_Resurrect_turn_ended self))
           (exec (bind (player_entity p) "turn_ended"
                    (bound_Resurrect_turn_ended self))
              (exec (bind (player_entity p) "minion_died"
                       (bound_Resurrect_minion_died self)) w)))).
    { unfold Resurrect_apply.
      rewrite bind_run, self_target_player_run, He. cbn [target]. fold p.
      rewrite (seq_run _ _ _ _ (bind_eq _ _ _ _)).
      rewrite (seq_run _ _ _ _ (bind_eq _ _ _ _)).
      apply bind_eq. }
    unfold outcome at 1. unfold exec at 1 2 3 4.
    rewrite Happ. cbn [fst snd].
    split; [done|]. split.
    { unfold bind.
      by rewrite !(proj1 (update_events_frame _ _ _)). }
    assert (Hpo : player_entity p ≠ player_entity (opponent p)).
    { intros [=Heq]. by apply (opponent_ne' p). }
    split; [|split].
    + rewrite listeners_bind_other by (right; discriminate).
      rewrite listeners_bind_other by (right; discriminate).
      apply listeners_bind_same.
    + rewrite listeners_bind_other by (left; congruence).
      rewrite listeners_bind_same.
      by rewrite listeners_bind_other by (right; discriminate).
    + rewrite listeners_bind_same.
      rewrite listeners_bind_other by (by left).
      by rewrite listeners_bind_other by (by left).
  - intros dead_minion attacker. subst died.
    cbn [call].
    unfold Resurrect_minion_died, the_effect. rewrite bind_run, He.
    cbn [state]. unfold the_minion. rewrite bind_run.
    unfold update_state. by rewrite He.
  - intros n w'.
    assert (Hrun : repeat_times n turn_ended w
                   = (Ok tt, fold_left (place_at_end p)
                               (concat (replicate n dead_minions)) w)).
    { apply (Resurrect_turn_ended_repeated n w self t _ He Ht). }
    subst w'. unfold outcome, exec. rewrite Hrun. cbn [fst snd].
    destruct (fold_place_at_end (concat (replicate n dead_minions)) p w)
      as (Hs & _ & _ & Hb & _ & _).
    split; [done|]. split; [done|]. split.
    + by rewrite Hb, length_concat_replicate.
    + apply fold_place_at_end_board_cards.
  - unfold outcome, exec, Resurrect_unapply.
    rewrite bind_run, self_target_player_run, He. cbn [target]. fold p.
    rewrite (seq_run _ _ _ _ (unbind_eq _ _ _ _)).
    rewrite (seq_run _ _ _ _ (unbind_eq _ _ _ _)).
    rewrite (seq_run _ _ _ _ (unbind_eq _ _ _ _)).
    unfold update_state. cbn [fst snd effect_store set_effect_store].
    split; [done|]. by rewrite lookup_total_insert_eq.
Qed.

(** ** SummonOnDeath *)

Lemma SummonOnDeath_apply_run (w : World) (self t : nat) (r : Card) (c : Z)
    (old : option callback) :
  effect_store w !!! self = {| target := t; state := SummonOnDeath r c old |} →
  SummonOnDeath_apply self w
  = (Ok tt,
     set_minion_store
       (<[t := with_deathrattle
                 (Some (bound_SummonOnDeath_summon_replacement self))
                 (minion_store w !!! t)]> (minion_store w))
       (set_effect_store
          (<[self := {| target := t;
                        state := SummonOnDeath r c
                                   (deathrattle (minion_store w !!! t)) |}]>
             (effect_store w)) w)).
Proof.
  intros He. unfold SummonOnDeath_apply, the_effect.
  rewrite bind_run, He. cbn [state target].
  unfold the_minion. rewrite bind_run.
  unfold update_state. rewrite bind_run, He. reflexivity.
Qed.

Lemma SummonOnDeath_summon_replacement_run
    (invoke : callback → list value → M unit) (w : World) (self t : nat)
    (r : Card) (c : Z) (old : option callback) (m : value) :
  effect_store w !!! self = {| target := t; state := SummonOnDeath r c old |} →
  SummonOnDeath_summon_replacement invoke self m w
  = (match old with Some f => invoke f [m] | None => skip end ;;
     for_each (replicate (Z.to_nat c) r) (summon_at_end self)) w.
Proof.
  intros He. unfold SummonOnDeath_summon_replacement, the_effect.
  rewrite bind_run, He. cbn [state].
  by rewrite repeat_times_for_each.
Qed.

(** C3.  [apply()] stores the callable found in the deathrattle slot of the
    target in [old_death_rattle] and puts [summon_replacement] in the slot.
    With two effects applied in the order [e1], [e2] on a minion whose slot
    held [original] (nothing, or a callable of the card), the callable in
    the slot is the one of [e2], which captured the one of [e1], which
    captured the original; when it is called, the original is called first
    if there is one, then the [count] replacements of [e1] and then those of
    [e2] are summoned, each at the end of the owner's board. *)
Theorem SummonOnDeath_chain_fires_in_order
    (w : World) (e1 e2 t depth : nat) (r1 r2 : Card) (c1 c2 : Z)
    (old1 old2 : option callback) (original : option nat) :
  effect_store w !!! e1 = {| target := t; state := SummonOnDeath r1 c1 old1 |} →
  effect_store w !!! e2 = {| target := t; state := SummonOnDeath r2 c2 old2 |} →
  e1 ≠ e2 →
  t < next_object w →
  deathrattle (minion_store w !!! t) = Native <$> original →
  let p := player (minion_store w !!! t) in
  let applied := SummonOnDeath_apply e1 ;; SummonOnDeath_apply e2 in
  let w2 := exec applied w in
  let dies :=
    call (3 + depth) (bound_SummonOnDeath_summon_replacement e2)
      [VMinion t] in
  let n1 := Z.to_nat c1 in
  let n2 := Z.to_nat c2 in
  outcome applied w = Ok tt
  ∧ deathrattle (minion_store w2 !!! t)
    = Some (bound_SummonOnDeath_summon_replacement e2)
  ∧ state (effect_store w2 !!! e2)
    = SummonOnDeath r2 c2 (Some (bound_SummonOnDeath_summon_replacement e1))
  ∧ state (effect_store w2 !!! e1) = SummonOnDeath r1 c1 (Native <$> original)
  ∧ outcome dies w2 = Ok tt
  ∧ native_calls (exec dies w2)
    = native_calls w
      ++ match original with Some n => [(n, [VMinion t])] | None => [] end
  ∧ minions (get_player p (exec dies w2))
    = minions (get_player p w) ++ seq (next_object w) (n1 + n2)
  ∧ (∀ i, i < n1 →
       minion_store (exec dies w2) !!! (next_object w + i) = new_minion r1 p)
  ∧ (∀ i, i < n2 →
       minion_store (exec dies w2) !!! (next_object w + n1 + i)
       = new_minion r2 p).
Proof.
  intros He1 He2 Hne Ht Hd p applied w2 dies n1 n2.
  pose proof (SummonOnDeath_apply_run w e1 t r1 c1 old1 He1) as R1.
  rewrite Hd in R1.
  set (w1 := set_minion_store _ _) in R1.
  assert (He2a : effect_store w1 !!! e2
                 = {| target := t; state := SummonOnDeath r2 c2 old2 |}).
  { subst w1. cbn [effect_store set_minion_store set_effect_store].
    by rewrite lookup_total_insert_ne. }
  pose proof (SummonOnDeath_apply_run w1 e2 t r2 c2 old2 He2a) as R2.
  assert (Hm1 : minion_store w1 !!! t
                = with_deathrattle
                    (Some (bound_SummonOnDeath_summon_replacement e1))
                    (minion_store w !!! t)).
  { subst w1. cbn [minion_store set_minion_store].
    by rewrite lookup_total_insert_eq. }
  rewrite Hm1 in R2. cbn [deathrattle with_deathrattle] in R2.
  assert (Happ : applied w = (Ok tt, w2)).
  { subst w2. unfold exec. subst applied.
    rewrite (seq_run _ _ _ _ R1), R2. reflexivity. }
  assert (Hw2 : w2 = (applied w).2) by reflexivity.
  rewrite (seq_run _ _ _ _ R1 : applied w = _), R2 in Hw2. cbn [snd] in Hw2.
  assert (Hs2 : effect_store w2 !!! e2
                = {| target := t;
                     state := SummonOnDeath r2 c2
                       (Some (bound_SummonOnDeath_summon_replacement e1)) |}).
  { rewrite Hw2. cbn [effect_store set_minion_store set_effect_store].
    by rewrite lookup_total_insert_eq. }
  assert (Hs1 : effect_store w2 !!! e1
                = {| target := t;
                     state := SummonOnDeath r1 c1 (Native <$> original) |}).
  { rewrite Hw2. cbn [effect_store set_minion_store set_effect_store].
    rewrite lookup_total_insert_ne by done. subst w1.
    cbn [effect_store set_minion_store set_effect_store].
    by rewrite lookup_total_insert_eq. }
  assert (Hmt : minion_store w2 !!! t
                = with_deathrattle
                    (Some (bound_SummonOnDeath_summon_replacement e2))
                    (with_deathrattle
                       (Some (bound_SummonOnDeath_summon_replacement e1))
                       (minion_store w !!! t))).
  { rewrite Hw2. cbn [minion_store set_minion_store set_effect_store].
    by rewrite lookup_total_insert_eq. }
  assert (Hn2 : next_object w2 = next_object w) by (by rewrite Hw2).
  assert (Hc2 : native_calls w2 = native_calls w) by (by rewrite Hw2).
  assert (Hb2 : get_player p w2 = get_player p w)
    by (rewrite Hw2; by destruct p).
  unfold outcome at 1. rewrite Happ. cbn [fst].
  split; [done|]. split; [by rewrite Hmt|].
  split; [by rewrite Hs2|]. split; [by rewrite Hs1|].
  (* the call of the callable in the slot *)
  set (w3 := set_native_calls
               (native_calls w2
                ++ match original with
                   | Some n => [(n, [VMinion t])]
                   | None => []
                   end) w2).
  assert (Hinner : call (2 + depth)
                     (bound_SummonOnDeath_summon_replacement e1)
                     [VMinion t] w2
                   = (Ok tt, fold_left (place_at_end p) (replicate n1 r1) w3)).
  { cbn [call Nat.add].
    rewrite (SummonOnDeath_summon_replacement_run _ w2 e1 t r1 c1 _ _ Hs1).
    assert (Hold : match Native <$> original with
                   | Some f => call (S depth) f [VMinion t]
                   | None => skip
                   end w2 = (Ok tt, w3)).
    { subst w3. destruct original as [n|]; cbn.
      - reflexivity.
      - rewrite app_nil_r. by destruct w2. }
    rewrite (seq_run _ _ _ _ Hold).
    rewrite for_each_summon_at_end.
    - subst w3. cbn [effect_store minion_store set_native_calls].
      rewrite Hs1. cbn [target]. by rewrite Hmt.
    - subst w3. cbn [effect_store next_object set_native_calls].
      rewrite Hs1. cbn [target]. by rewrite Hn2. }
  set (w4 := fold_left (place_at_end p) (replicate n1 r1) w3) in Hinner.
  destruct (fold_place_at_end (replicate n1 r1) p w3)
    as (Hs4 & Hc4 & Ho4 & Hb4 & Hold4 & Hnew4).
  fold w4 in Hs4, Hc4, Ho4, Hb4, Hold4, Hnew4.
  rewrite length_replicate in Ho4, Hb4.
  assert (Hn3 : next_object w3 = next_object w) by (subst w3; exact Hn2).
  rewrite Hn3 in Ho4, Hb4, Hold4, Hnew4.
  assert (Hdies : dies w2
                  = (Ok tt, fold_left (place_at_end p) (replicate n2 r2) w4)).
  { subst dies. cbn [call Nat.add].
    rewrite (SummonOnDeath_summon_replacement_run _ w2 e2 t r2 c2 _ _ Hs2).
    rewrite (seq_run _ _ _ _ Hinner).
    rewrite for_each_summon_at_end.
    - rewrite Hs4. subst w3. cbn [effect_store set_native_calls].
      rewrite Hs2. cbn [target]. rewrite Hold4 by done.
      cbn [minion_store set_native_calls]. by rewrite Hmt.
    - rewrite Hs4. subst w3. cbn [effect_store set_native_calls].
      rewrite Hs2. cbn [target]. lia. }
  destruct (fold_place_at_end (replicate n2 r2) p w4)
    as (Hs5 & Hc5 & Ho5 & Hb5 & Hold5 & Hnew5).
  rewrite length_replicate in Ho5, Hb5. rewrite Ho4 in Hb5, Hold5, Hnew5.
  unfold outcome, exec. rewrite Hdies. cbn [fst snd].
  split; [done|]. split.
  { rewrite Hc5, Hc4. subst w3. cbn [native_calls set_native_calls].
    by rewrite Hc2. }
  split.
  { rewrite Hb5, Hb4. subst w3.
    change (get_player p (set_native_calls _ w2)) with (get_player p w2).
    rewrite Hb2, <- app_assoc. f_equal. by rewrite seq_app. }
  split.
  - intros i Hi. rewrite Hold5 by lia.
    apply Hnew4. by apply lookup_replicate_2.
  - intros i Hi. apply Hnew5. by apply lookup_replicate_2.
Qed.

(** ** Buff *)

(** C7.  For a [Buff] whose [minion_filter] is none of "self", "minion",
    "deathrattle" and is not a name that [MINION_TYPE.from_str] knows, the
    listener [_check_minion_filter] returns normally and leaves the store as
    it is: the [KeyError] of the lookup is caught and no action runs. *)
Theorem Buff_check_minion_filter_lookup_miss
    (w : World) (self t minion depth : nat)
    (when minion_filter buff_target players : string) (att hp : Z)
    (args : list value) :
  effect_store w !!! self
  = {| target := t;
       state := Buff when minion_filter buff_target att hp players |} →
  minion_filter ≠ "self" →
  minion_filter ≠ "minion" →
  minion_filter ≠ "deathrattle" →
  from_str minion_filter = None →
  Buff_check_minion_filter self minion w = (Ok tt, w)
  ∧ call (S depth) (bound_Buff_check_minion_filter self)
      (VMinion minion :: args) w = (Ok tt, w).
Proof.
  intros He Hself Hminion Hdeathrattle Hmiss.
  assert (Hrun : Buff_check_minion_filter self minion w = (Ok tt, w)).
  { unfold Buff_check_minion_filter, the_effect.
    rewrite bind_run, He. cbn [state].
    rewrite (bool_decide_eq_false_2 _ Hself).
    rewrite (bool_decide_eq_false_2 _ Hminion).
    unfold the_minion. rewrite bind_run.
    rewrite (bool_decide_eq_false_2 _ Hdeathrattle). cbn [andb].
    rewrite Hmiss. reflexivity. }
  split; [exact Hrun|]. cbn [call]. exact Hrun.
Qed.

Lemma Buff_players_invalid (w : World) (self t : nat)
    (when minion_filter buff_target players : string) (att hp : Z) :
  effect_store w !!! self
  = {| target := t;
       state := Buff when minion_filter buff_target att hp players |} →
  players ≠ "friendly" → players ≠ "enemy" → players ≠ "both" →
  Buff_players self w
  = (Raise (RuntimeError
       ("Required players to be 'friendly', 'enemy', or 'both', got '"
        +:+ players)), w).
Proof.
  intros He Hf He' Hb. unfold Buff_players, the_effect.
  rewrite bind_run, He. cbn [state].
  by rewrite !bool_decide_eq_false_2 by done.
Qed.

Lemma Buff_players_valid (w : World) (self t : nat)
    (when minion_filter buff_target players : string) (att hp : Z) :
  effect_store w !!! self
  = {| target := t;
       state := Buff when minion_filter buff_target att hp players |} →
  players = "friendly" ∨ players = "enemy" ∨ players = "both" →
  let p := player (minion_store w !!! t) in
  Buff_players self w
  = (Ok (if bool_decide (players = "friendly") then [p]
         else if bool_decide (players = "enemy") then [opponent p]
         else [p; opponent p]), w).
Proof.
  intros He Hv p. unfold Buff_players, the_effect.
  rewrite bind_run, He. cbn [state].
  destruct Hv as [-> | [-> | ->]].
  - rewrite !(bool_decide_eq_true_2 ("friendly" = "friendly")) by done.
    by rewrite bind_run, self_target_player_run, He.
  - rewrite !(bool_decide_eq_false_2 ("enemy" = "friendly")) by done.
    rewrite !(bool_decide_eq_true_2 ("enemy" = "enemy")) by done.
    by rewrite bind_run, self_target_player_run, He.
  - rewrite !(bool_decide_eq_false_2 ("both" = "friendly")) by done.
    rewrite !(bool_decide_eq_false_2 ("both" = "enemy")) by done.
    rewrite !(bool_decide_eq_true_2 ("both" = "both")) by done.
    by rewrite bind_run, self_target_player_run, He.
Qed.

Lemma for_each_update_events_ok {A : Type} (l : list A)
    (ent : A → entity) (f : A → events → events) (w : World) :
  outcome (for_each l (λ x, update_events (ent x) (f x))) w = Ok tt.
Proof.
  revert w. induction l as [|x l IH]; intros w; [done|].
  cbn [for_each]. unfold outcome.
  rewrite (seq_run _ _ _ _ (update_events_eq _ _ _)). apply IH.
Qed.

Lemma Buff_apply_valid (w : World) (self t : nat)
    (when minion_filter buff_target players : string) (att hp : Z) :
  effect_store w !!! self
  = {| target := t;
       state := Buff when minion_filter buff_target att hp players |} →
  players = "friendly" ∨ players = "enemy" ∨ players = "both" →
  outcome (Buff_apply self) w = Ok tt.
Proof.
  intros He Hv. unfold outcome, Buff_apply.
  rewrite bind_run, (Buff_players_valid _ _ _ _ _ _ _ _ _ He Hv).
  unfold the_effect. rewrite bind_run, He. cbn [state].
  unfold bind.
  repeat case_bool_decide; cbn [orb];
    first [ apply (for_each_update_events_ok _ player_entity)
          | reflexivity ].
Qed.

(** C5, as the code has it.  [Buff] checks its selectors.  With a [players]
    value other than "friendly", "enemy" and "both", [apply()] and
    [unapply()] raise [RuntimeError] and change nothing.  A [target] value
    other than "self", "random", "random_friendly" and "random_enemy" is
    checked when the action runs: [_do_action] raises [RuntimeError] and
    changes nothing, while [apply()] with recognized [players] returns
    normally. *)
Theorem Buff_selectors_checked
    (w : World) (self t : nat)
    (when minion_filter buff_target players : string) (att hp : Z) :
  effect_store w !!! self
  = {| target := t;
       state := Buff when minion_filter buff_target att hp players |} →
  (players ≠ "friendly" → players ≠ "enemy" → players ≠ "both" →
   let error :=
     RuntimeError
       ("Required players to be 'friendly', 'enemy', or 'both', got '"
        +:+ players) in
   apply self w = (Raise error, w) ∧ unapply self w = (Raise error, w))
  ∧ (buff_target ≠ "self" → buff_target ≠ "random" →
     buff_target ≠ "random_friendly" → buff_target ≠ "random_enemy" →
     Buff_do_action self w
     = (Raise (RuntimeError
          ("Expected 'target' to be one of 'self', 'random', 'random_friendly' or 'random_enemy'.  Got '"
           +:+ buff_target +:+ "'")), w)
     ∧ (players = "friendly" ∨ players = "enemy" ∨ players = "both" →
        outcome (apply self) w = Ok tt)).
Proof.
  intros He. split.
  - intros Hf He' Hb error.
    unfold apply, unapply, the_effect. rewrite !bind_run, He. cbn [state].
    unfold Buff_apply, Buff_unapply.
    by rewrite !bind_run,
      (Buff_players_invalid _ _ _ _ _ _ _ _ _ He Hf He' Hb).
  - intros H1 H2 H3 H4. split.
    + unfold Buff_do_action, the_effect. rewrite bind_run, He. cbn [state].
      rewrite (bool_decide_eq_false_2 _ H1), (bool_decide_eq_false_2 _ H2),
        (bool_decide_eq_false_2 _ H3), (bool_decide_eq_false_2 _ H4).
      reflexivity.
    + intros Hv. unfold outcome, apply, the_effect.
      rewrite bind_run, He. cbn [state].
      apply (Buff_apply_valid _ _ _ _ _ _ _ _ _ He Hv).
Qed.

(** ** ChargeAura *)

Lemma give_permacharge_effect_run (w : World) (self t minion : nat)
    (players : string) (mtype : Z) (affected charged : list nat) :
  aura_at w self t players mtype affected charged →
  give_permacharge_effect self minion w
  = (Ok tt, permacharged self t minion (next_object w)
              (ChargeAura players mtype (affected ++ [minion]) charged) w).
Proof.
  intros He. unfold give_permacharge_effect.
  rewrite bind_run, new_object_eq.
  rewrite (seq_run _ _ _ _ (update_minion_eq _ _ _)).
  assert (Happ : affected_minions_append self minion
                   (exec (update_minion minion (with_charge true))
                      (exec new_object w))
                 = (Ok tt,
                    exec (update_state self
                            (ChargeAura players mtype (affected ++ [minion])
                               charged))
                      (exec (update_minion minion (with_charge true))
                         (exec new_object w)))).
  { unfold affected_minions_append, the_effect. rewrite bind_run.
    change (effect_store (exec (update_minion minion (with_charge true))
                            (exec new_object w)))
      with (effect_store w).
    rewrite He. reflexivity. }
  rewrite (seq_run _ _ _ _ Happ).
  rewrite (seq_run _ _ _ _ (bind_eq _ _ _ _)).
  rewrite (seq_run _ _ _ _ (bind_eq _ _ _ _)).
  rewrite bind_run. unfold self_target, the_effect at 1. rewrite !bind_run.
  unfold bind at 1 2.
  rewrite !effect_store_update_events, effect_store_update_state.
  rewrite lookup_total_insert_eq. cbn [target with_state mret M_ret].
  change (effect_store (exec (update_minion minion (with_charge true))
                          (exec new_object w)))
    with (effect_store w).
  rewrite He. cbn [target].
  apply bind_once_eq.
Qed.

Lemma watch_for_silence_run (w : World) (self t minion : nat)
    (players : string) (mtype : Z) (affected charged : list nat) :
  aura_at w self t players mtype affected charged →
  watch_for_silence self minion w
  = (Ok tt, watched self t minion (next_object w)
              (ChargeAura players mtype affected (charged ++ [minion])) w).
Proof.
  intros He. unfold watch_for_silence.
  rewrite bind_run, new_object_eq.
  rewrite (seq_run _ _ _ _ (bind_once_eq _ _ _ _)).
  rewrite bind_run. unfold self_target, the_effect at 1. rewrite !bind_run.
  unfold bind_once at 1.
  rewrite effect_store_update_events.
  change (effect_store (exec new_object w)) with (effect_store w).
  rewrite He. cbn [target mret M_ret].
  fold (bind_once (minion_entity minion) "silenced"
          (closure_watch_silenced (next_object w) self minion)).
  rewrite (seq_run _ _ _ _ (bind_once_eq _ _ _ _)).
  unfold charged_minions_append, the_effect. rewrite bind_run.
  unfold bind_once at 1 2.
  rewrite !effect_store_update_events.
  change (effect_store (exec new_object w)) with (effect_store w).
  rewrite He. reflexivity.
Qed.

Lemma permacharge_target_silenced_run (w : World) (c self minion : nat) :
  permacharge_target_silenced c self minion w
  = (Ok tt, charge_revoked self minion c w).
Proof.
  unfold permacharge_target_silenced.
  rewrite (seq_run _ _ _ _ (unbind_eq _ _ _ _)).
  rewrite (seq_run _ _ _ _ (unbind_eq _ _ _ _)).
  reflexivity.
Qed.

Lemma watch_silenced_run (w : World) (self t minion : nat)
    (players : string) (mtype : Z) (affected charged : list nat) :
  aura_at w self t players mtype affected charged →
  minion ∈ charged →
  let charged' := remove_first (λ y, bool_decide (y = minion)) charged in
  watch_silenced self minion w
  = (Ok tt,
     permacharged self t minion (next_object w)
       (ChargeAura players mtype (affected ++ [minion]) charged')
       (exec (update_state self (ChargeAura players mtype affected charged'))
          w)).
Proof.
  intros He Hin charged'. unfold watch_silenced.
  assert (Hrem : charged_minions_remove self minion w
                 = (Ok tt,
                    exec (update_state self
                            (ChargeAura players mtype affected charged')) w)).
  { unfold charged_minions_remove, the_effect. rewrite bind_run, He.
    cbn [state]. unfold lift, list_remove. rewrite bind_run.
    by rewrite bool_decide_eq_true_2. }
  rewrite (seq_run _ _ _ _ Hrem).
  rewrite (give_permacharge_effect_run _ self t minion players mtype
             affected charged'); [reflexivity|].
  unfold aura_at. rewrite effect_store_update_state, lookup_total_insert_eq.
  by rewrite He.
Qed.

Ltac other_listener :=
  solve [ left; congruence | right; congruence
        | left; discriminate | right; discriminate ].

Ltac listeners_step :=
  first
    [ rewrite listeners_bind_same
    | rewrite listeners_bind_once_same
    | rewrite listeners_unbind_same
    | rewrite listeners_remove_handler_same
    | rewrite listeners_bind_other by other_listener
    | rewrite listeners_bind_once_other by other_listener
    | rewrite listeners_unbind_other by other_listener
    | rewrite listeners_remove_handler_other by other_listener
    | rewrite listeners_update_minion by done
    | rewrite listeners_update_state
    | rewrite listeners_new_object ].

Lemma permacharged_listeners (w : World) (self t minion c : nat)
    (st : effect_state) :
  minion ≠ t →
  listeners (minion_entity minion) "silenced"
    (permacharged self t minion c st w)
  = listeners (minion_entity minion) "silenced" w
    ++ [(closure_permacharge_silenced c self minion, false)]
  ∧ listeners (minion_entity minion) "copied"
      (permacharged self t minion c st w)
    = listeners (minion_entity minion) "copied" w
      ++ [(closure_permacharge_copied c self minion, false)]
  ∧ listeners (minion_entity t) "silenced"
      (permacharged self t minion c st w)
    = listeners (minion_entity t) "silenced" w
      ++ [(closure_permacharge_target_silenced c self minion, true)].
Proof.
  intros Hne. unfold permacharged.
  repeat split; repeat listeners_step; reflexivity.
Qed.

Lemma permacharged_store (w : World) (self t minion c : nat)
    (st : effect_state) :
  effect_store (permacharged self t minion c st w)
  = <[self := with_state st (effect_store w !!! self)]> (effect_store w)
  ∧ next_object (permacharged self t minion c st w) = S (next_object w)
  ∧ (∀ n, charge (minion_store (permacharged self t minion c st w) !!! n)
          = if decide (minion = n) then true
            else charge (minion_store w !!! n))
  ∧ (∀ n, card (minion_store (permacharged self t minion c st w) !!! n)
          = card (minion_store w !!! n))
  ∧ (∀ n, player (minion_store (permacharged self t minion c st w) !!! n)
          = player (minion_store w !!! n)).
Proof.
  unfold permacharged, bind, bind_once.
  split; [|split; [|split; [|split]]].
  - by rewrite !effect_store_update_events.
  - by rewrite !next_object_update_events.
  - intros n. rewrite !charge_update_events.
    change (minion_store (exec (update_state self st) ?w0))
      with (minion_store w0).
    by rewrite charge_with_charge.
  - intros n. rewrite !card_update_events.
    change (minion_store (exec (update_state self st) ?w0))
      with (minion_store w0).
    by rewrite card_with_charge.
  - intros n. rewrite !player_update_events.
    change (minion_store (exec (update_state self st) ?w0))
      with (minion_store w0).
    by rewrite player_with_charge.
Qed.

Lemma watched_listeners (w : World) (self t minion c : nat)
    (st : effect_state) :
  minion ≠ t →
  listeners (minion_entity minion) "silenced" (watched self t minion c st w)
  = listeners (minion_entity minion) "silenced" w
    ++ [(closure_watch_silenced c self minion, true)]
  ∧ listeners (minion_entity minion) "copied" (watched self t minion c st w)
    = listeners (minion_entity minion) "copied" w
  ∧ listeners (minion_entity t) "silenced" (watched self t minion c st w)
    = listeners (minion_entity t) "silenced" w
      ++ [(closure_watch_lambda c self minion, true)].
Proof.
  intros Hne. unfold watched.
  repeat split; repeat listeners_step; reflexivity.
Qed.

Lemma watched_store (w : World) (self t minion c : nat) (st : effect_state) :
  effect_store (watched self t minion c st w)
  = <[self := with_state st (effect_store w !!! self)]> (effect_store w)
  ∧ next_object (watched self t minion c st w) = S (next_object w)
  ∧ (∀ n, with_minion_events ∅ (minion_store (watched self t minion c st w)
                                  !!! n)
          = with_minion_events ∅ (minion_store w !!! n)).
Proof.
  unfold watched, bind_once.
  split; [|split].
  - rewrite effect_store_update_state.
    by rewrite !effect_store_update_events.
  - change (next_object (exec (update_state self st) ?w0))
      with (next_object w0).
    by rewrite !next_object_update_events.
  - intros n.
    change (minion_store (exec (update_state self st) ?w0))
      with (minion_store w0).
    by rewrite !minion_update_events.
Qed.

Lemma charge_revoked_listeners (w : World) (self minion c : nat)
    (ent : entity) (event : string) :
  listeners ent event (charge_revoked self minion c w)
  = if decide (ent = minion_entity minion ∧ event = "silenced")
    then remove_first
           (is_callback (closure_permacharge_silenced c self minion))
           (listeners ent event w)
    else if decide (ent = minion_entity minion ∧ event = "copied")
    then remove_first
           (is_callback (closure_permacharge_copied c self minion))
           (listeners ent event w)
    else listeners ent event w.
Proof.
  unfold charge_revoked. rewrite listeners_update_minion by done.
  rewrite !listeners_unbind.
  destruct (decide (ent = minion_entity minion ∧ event = "silenced"))
    as [[-> ->]|Hs].
  - rewrite decide_False by (by intros [_ ?]).
    by rewrite !decide_True.
  - destruct (decide (ent = minion_entity minion ∧ event = "copied"))
      as [[-> ->]|Hc].
    + rewrite decide_True by done.
      by rewrite decide_False by (by intros [_ ?]).
    + rewrite decide_False by (intros [? ?]; by apply Hc).
      by rewrite decide_False by (intros [? ?]; by apply Hs).
Qed.

Lemma charge_revoked_store (w : World) (self minion c : nat) :
  effect_store (charge_revoked self minion c w) = effect_store w
  ∧ next_object (charge_revoked self minion c w) = next_object w
  ∧ (∀ n, charge (minion_store (charge_revoked self minion c w) !!! n)
          = if decide (minion = n) then false
            else charge (minion_store w !!! n)).
Proof.
  unfold charge_revoked, unbind. split; [|split].
  - change (effect_store (exec (update_minion minion (with_charge false)) ?w0))
      with (effect_store w0).
    by rewrite !effect_store_update_events.
  - change (next_object (exec (update_minion minion (with_charge false)) ?w0))
      with (next_object w0).
    by rewrite !next_object_update_events.
  - intros n. rewrite charge_with_charge.
    by rewrite !charge_update_events.
Qed.

(** A publish on an entity with one or two one-shot listeners. *)
Lemma trigger_one_shot (depth : nat) (ent : entity) (event : string)
    (args : list value) (w w1 : World) (f : callback) :
  listeners ent event w = [(f, true)] →
  call depth f args w = (Ok tt, w1) →
  trigger depth ent event args w
  = (Ok tt, exec (update_events ent (events_remove_handler event (f, true)))
              w1).
Proof.
  intros Hl Hf. unfold trigger. rewrite Hl. cbn [for_each fst snd].
  assert (Hfirst : (call depth f args ;;
                    update_events ent (events_remove_handler event (f, true)))
                     w
                   = (Ok tt,
                      exec (update_events ent
                              (events_remove_handler event (f, true))) w1)).
  { rewrite (seq_run _ _ _ _ Hf). apply update_events_eq. }
  rewrite (seq_run _ _ _ _ Hfirst). reflexivity.
Qed.

Lemma trigger_two_one_shots (depth : nat) (ent : entity) (event : string)
    (args : list value) (w w1 w2 : World) (f g : callback) :
  listeners ent event w = [(f, true); (g, true)] →
  call depth f args w = (Ok tt, w1) →
  call depth g args
    (exec (update_events ent (events_remove_handler event (f, true))) w1)
  = (Ok tt, w2) →
  trigger depth ent event args w
  = (Ok tt, exec (update_events ent (events_remove_handler event (g, true)))
              w2).
Proof.
  intros Hl Hf Hg. unfold trigger. rewrite Hl. cbn [for_each fst snd].
  assert (Hfirst : (call depth f args ;;
                    update_events ent (events_remove_handler event (f, true)))
                     w
                   = (Ok tt,
                      exec (update_events ent
                              (events_remove_handler event (f, true))) w1)).
  { rewrite (seq_run _ _ _ _ Hf). apply update_events_eq. }
  assert (Hsecond : (call depth g args ;;
                     update_events ent (events_remove_handler event (g, true)))
                      (exec (update_events ent
                               (events_remove_handler event (f, true))) w1)
                    = (Ok tt,
                       exec (update_events ent
                               (events_remove_handler event (g, true))) w2)).
  { rewrite (seq_run _ _ _ _ Hg). apply update_events_eq. }
  rewrite (seq_run _ _ _ _ Hfirst).
  rewrite (seq_run _ _ _ _ Hsecond). reflexivity.
Qed.

Lemma remove_first_head {A : Type} (P : A → bool) (x : A) (l : list A) :
  P x = true → remove_first P (x :: l) = l.
Proof. intros Hx. cbn. by rewrite Hx. Qed.

Lemma is_handler_same (h : callback * bool) : is_handler h h = true.
Proof. unfold is_handler. by apply bool_decide_eq_true. Qed.

Lemma is_callback_same (f : callback) (b : bool) :
  is_callback f (f, b) = true.
Proof. unfold is_callback. by apply bool_decide_eq_true. Qed.

(** The publish of "silenced" on a watched minion. *)
Lemma watched_minion_silenced (w : World) (self t minion c depth : nat)
    (players : string) (mtype : Z) (affected charged : list nat) :
  aura_at w self t players mtype affected charged →
  minion ≠ t →
  minion ∈ charged →
  listeners (minion_entity minion) "silenced" w
  = [(closure_watch_silenced c self minion, true)] →
  let silenced := trigger (S depth) (minion_entity minion) "silenced" [] in
  let w' := exec silenced w in
  silenced w = (Ok tt, w')
  ∧ aura_at w' self t players mtype (affected ++ [minion])
      (remove_first (λ y, bool_decide (y = minion)) charged)
  ∧ next_object w' = S (next_object w)
  ∧ charge (minion_store w' !!! minion) = true
  ∧ listeners (minion_entity minion) "silenced" w'
    = [(closure_permacharge_silenced (next_object w) self minion, false)]
  ∧ listeners (minion_entity minion) "copied" w'
    = listeners (minion_entity minion) "copied" w
      ++ [(closure_permacharge_copied (next_object w) self minion, false)]
  ∧ listeners (minion_entity t) "silenced" w'
    = listeners (minion_entity t) "silenced" w
      ++ [(closure_permacharge_target_silenced (next_object w) self minion,
           true)].
Proof.
  intros He Hne Hin Hl silenced w'.
  pose proof (watch_silenced_run w self t minion players mtype affected
                charged He Hin) as Hrun.
  cbv zeta in Hrun.
  set (charged' := remove_first (λ y, bool_decide (y = minion)) charged)
    in *.
  set (w0 := exec (update_state self
                     (ChargeAura players mtype affected charged')) w) in *.
  set (st := ChargeAura players mtype (affected ++ [minion]) charged') in *.
  assert (Htrig : silenced w
                  = (Ok tt,
                     exec (update_events (minion_entity minion)
                             (events_remove_handler "silenced"
                                (closure_watch_silenced c self minion, true)))
                       (permacharged self t minion (next_object w) st w0))).
  { apply (trigger_one_shot _ _ _ _ _ _ _ Hl). exact Hrun. }
  assert (Hw' : w' = (silenced w).2) by reflexivity.
  rewrite Htrig in Hw'. cbn [snd] in Hw'.
  destruct (permacharged_listeners w0 self t minion (next_object w) st Hne)
    as (Hls & Hlc & Hlt).
  destruct (permacharged_store w0 self t minion (next_object w) st)
    as (Hes & Hno & Hch & _ & _).
  split; [by rewrite Htrig, Hw'|]. rewrite Hw'.
  split.
  { unfold aura_at. rewrite effect_store_update_events, Hes.
    rewrite lookup_total_insert_eq. subst w0.
    rewrite effect_store_update_state, lookup_total_insert_eq.
    cbn [with_state target]. by rewrite He. }
  split; [by rewrite next_object_update_events, Hno|].
  split; [rewrite charge_update_events, Hch; by rewrite decide_True|].
  split.
  { rewrite listeners_remove_handler_same, Hls. subst w0.
    rewrite listeners_update_state, Hl. cbn [app].
    apply remove_first_head, is_handler_same. }
  split.
  { rewrite listeners_remove_handler_other by other_listener.
    rewrite Hlc. subst w0. by rewrite listeners_update_state. }
  rewrite listeners_remove_handler_other by other_listener.
  rewrite Hlt. subst w0. by rewrite listeners_update_state.
Qed.

(** The publish of "silenced" on the source while a minion is watched: the
    lambda of [watch_for_silence] unbinds the watcher. *)
Lemma source_silenced_watched (w : World) (self t minion c depth : nat) :
  minion ≠ t →
  listeners (minion_entity t) "silenced" w
  = [(closure_watch_lambda c self minion, true)] →
  let silenced := trigger (S depth) (minion_entity t) "silenced" [] in
  let w' := exec silenced w in
  silenced w = (Ok tt, w')
  ∧ effect_store w' = effect_store w
  ∧ (∀ n, charge (minion_store w' !!! n) = charge (minion_store w !!! n))
  ∧ listeners (minion_entity t) "silenced" w' = []
  ∧ listeners (minion_entity minion) "silenced" w'
    = remove_first (is_callback (closure_watch_silenced c self minion))
        (listeners (minion_entity minion) "silenced" w)
  ∧ listeners (minion_entity minion) "copied" w'
    = listeners (minion_entity minion) "copied" w.
Proof.
  intros Hne Hl silenced w'.
  assert (Htrig : silenced w
    = (Ok tt,
       exec (update_events (minion_entity t)
               (events_remove_handler "silenced"
                  (closure_watch_lambda c self minion, true)))
         (exec (unbind (minion_entity minion) "silenced"
                  (closure_watch_silenced c self minion)) w))).
  { apply (trigger_one_shot _ _ _ _ _ _ _ Hl). cbn [call].
    apply unbind_eq. }
  assert (Hw' : w' = (silenced w).2) by reflexivity.
  rewrite Htrig in Hw'. cbn [snd] in Hw'.
  split; [by rewrite Htrig, Hw'|]. rewrite Hw'.
  split; [unfold unbind; by rewrite !effect_store_update_events|].
  split; [intros n; unfold unbind; by rewrite !charge_update_events|].
  split.
  { rewrite listeners_remove_handler_same.
    rewrite listeners_unbind_other by other_listener. rewrite Hl.
    apply remove_first_head, is_handler_same. }
  split.
  { rewrite listeners_remove_handler_other by other_listener.
    by rewrite listeners_unbind_same. }
  rewrite listeners_remove_handler_other by other_listener.
  by rewrite listeners_unbind_other by other_listener.
Qed.

(** The publish of "silenced" on the source while a minion holds the charge
    of the aura: [target_silenced] unbinds the listeners of the minion and
    takes the charge back. *)
Lemma source_silenced_permacharged (w : World) (self t minion c depth : nat) :
  minion ≠ t →
  listeners (minion_entity t) "silenced" w
  = [(closure_permacharge_target_silenced c self minion, true)] →
  let silenced := trigger (S depth) (minion_entity t) "silenced" [] in
  let w' := exec silenced w in
  silenced w = (Ok tt, w')
  ∧ effect_store w' = effect_store w
  ∧ charge (minion_store w' !!! minion) = false
  ∧ listeners (minion_entity t) "silenced" w' = []
  ∧ listeners (minion_entity minion) "silenced" w'
    = remove_first (is_callback (closure_permacharge_silenced c self minion))
        (listeners (minion_entity minion) "silenced" w)
  ∧ listeners (minion_entity minion) "copied" w'
    = remove_first (is_callback (closure_permacharge_copied c self minion))
        (listeners (minion_entity minion) "copied" w).
Proof.
  intros Hne Hl silenced w'.
  assert (Htrig : silenced w
    = (Ok tt,
       exec (update_events (minion_entity t)
               (events_remove_handler "silenced"
                  (closure_permacharge_target_silenced c self minion, true)))
         (charge_revoked self minion c w))).
  { apply (trigger_one_shot _ _ _ _ _ _ _ Hl). cbn [call].
    apply permacharge_target_silenced_run. }
  assert (Hw' : w' = (silenced w).2) by reflexivity.
  rewrite Htrig in Hw'. cbn [snd] in Hw'.
  destruct (charge_revoked_store w self minion c) as (Hes & _ & Hch).
  split; [by rewrite Htrig, Hw'|]. rewrite Hw'.
  split; [by rewrite effect_store_update_events|].
  split; [rewrite charge_update_events, Hch; by rewrite decide_True|].
  split.
  { rewrite listeners_remove_handler_same, charge_revoked_listeners.
    rewrite decide_False by (intros [? _]; congruence).
    rewrite decide_False by (intros [? _]; congruence).
    rewrite Hl. apply remove_first_head, is_handler_same. }
  split.
  { rewrite listeners_remove_handler_other by other_listener.
    rewrite charge_revoked_listeners. by rewrite decide_True. }
  rewrite listeners_remove_handler_other by other_listener.
  rewrite charge_revoked_listeners.
  rewrite decide_False by (by intros [_ ?]). by rewrite decide_True.
Qed.

(** The publish of "silenced" on the source after a watched minion has
    migrated: the lambda finds no watcher to unbind, and [target_silenced]
    takes the charge back. *)
Lemma source_silenced_migrated (w : World) (self t minion c c' depth : nat) :
  minion ≠ t →
  listeners (minion_entity t) "silenced" w
  = [(closure_watch_lambda c self minion, true);
     (closure_permacharge_target_silenced c' self minion, true)] →
  listeners (minion_entity minion) "silenced" w
  = [(closure_permacharge_silenced c' self minion, false)] →
  listeners (minion_entity minion) "copied" w
  = [(closure_permacharge_copied c' self minion, false)] →
  let silenced := trigger (S depth) (minion_entity t) "silenced" [] in
  let w' := exec silenced w in
  silenced w = (Ok tt, w')
  ∧ effect_store w' = effect_store w
  ∧ charge (minion_store w' !!! minion) = false
  ∧ listeners (minion_entity t) "silenced" w' = []
  ∧ listeners (minion_entity minion) "silenced" w' = []
  ∧ listeners (minion_entity minion) "copied" w' = [].
Proof.
  intros Hne Hl Hs Hc silenced w'.
  set (w1 := exec (unbind (minion_entity minion) "silenced"
                     (closure_watch_silenced c self minion)) w).
  set (w2 := exec (update_events (minion_entity t)
                     (events_remove_handler "silenced"
                        (closure_watch_lambda c self minion, true))) w1).
  assert (Htrig : silenced w
    = (Ok tt,
       exec (update_events (minion_entity t)
               (events_remove_handler "silenced"
                  (closure_permacharge_target_silenced c' self minion, true)))
         (charge_revoked self minion c' w2))).
  { apply (trigger_two_one_shots _ _ _ _ _ w1 _ _ _ Hl).
    - cbn [call]. apply unbind_eq.
    - cbn [call]. apply permacharge_target_silenced_run. }
  assert (Hw' : w' = (silenced w).2) by reflexivity.
  rewrite Htrig in Hw'. cbn [snd] in Hw'.
  destruct (charge_revoked_store w2 self minion c') as (Hes & _ & Hch).
  assert (Hs2 : listeners (minion_entity minion) "silenced" w2
                = [(closure_permacharge_silenced c' self minion, false)]).
  { subst w2 w1.
    rewrite listeners_remove_handler_other by other_listener.
    rewrite listeners_unbind_same, Hs. reflexivity. }
  assert (Hc2 : listeners (minion_entity minion) "copied" w2
                = [(closure_permacharge_copied c' self minion, false)]).
  { subst w2 w1.
    rewrite listeners_remove_handler_other by other_listener.
    by rewrite listeners_unbind_other by other_listener. }
  assert (Ht2 : listeners (minion_entity t) "silenced" w2
                = [(closure_permacharge_target_silenced c' self minion,
                    true)]).
  { subst w2 w1. rewrite listeners_remove_handler_same.
    rewrite listeners_unbind_other by other_listener. rewrite Hl.
    apply remove_first_head, is_handler_same. }
  split; [by rewrite Htrig, Hw'|]. rewrite Hw'.
  split.
  { rewrite effect_store_update_events, Hes. subst w2 w1. unfold unbind.
    by rewrite !effect_store_update_events. }
  split; [rewrite charge_update_events, Hch; by rewrite decide_True|].
  split.
  { rewrite listeners_remove_handler_same, charge_revoked_listeners.
    rewrite decide_False by (intros [? _]; congruence).
    rewrite decide_False by (intros [? _]; congruence).
    rewrite Ht2. apply remove_first_head, is_handler_same. }
  split.
  { rewrite listeners_remove_handler_other by other_listener.
    rewrite charge_revoked_listeners, decide_True by done.
    rewrite Hs2. apply remove_first_head, is_callback_same. }
  rewrite listeners_remove_handler_other by other_listener.
  rewrite charge_revoked_listeners.
  rewrite decide_False by (by intros [_ ?]). rewrite decide_True by done.
  rewrite Hc2. apply remove_first_head, is_callback_same.
Qed.

Lemma exec_seq {A : Type} (m : M unit) (k : M A) (w w1 : World) :
  m w = (Ok tt, w1) →
  outcome (m ;; k) w = outcome k w1 ∧ exec (m ;; k) w = exec k w1.
Proof. intros Hm. unfold outcome, exec. by rewrite (seq_run _ _ _ _ Hm). Qed.

Lemma run_eq {A : Type} (m : M A) (w : World) :
  m w = (outcome m w, exec m w).
Proof. unfold outcome, exec. by destruct (m w). Qed.

Lemma ChargeAura_give_charge_if_beast_other (w : World)
    (self t minion : nat) (players : string) (mtype : Z)
    (affected charged : list nat) :
  aura_at w self t players mtype affected charged →
  minion ≠ t →
  affects mtype (minion_store w !!! minion) = true →
  ChargeAura_give_charge_if_beast self minion w
  = if charge (minion_store w !!! minion)
    then watch_for_silence self minion w
    else give_permacharge_effect self minion w.
Proof.
  intros He Hne Hty. unfold ChargeAura_give_charge_if_beast, the_effect.
  rewrite bind_run, He. cbn [state target].
  unfold the_minion. rewrite bind_run.
  rewrite (bool_decide_eq_false_2 (minion = t)) by done. cbn [andb].
  unfold affects in Hty. rewrite Hty.
  by destruct (charge (minion_store w !!! minion)).
Qed.

Lemma ChargeAura_unapply_frame (w : World) (self t : nat) (players : string)
    (mtype : Z) (affected charged : list nat) :
  aura_at w self t players mtype affected charged →
  outcome (ChargeAura_unapply self) w = Ok tt
  ∧ minion_store (exec (ChargeAura_unapply self) w) = minion_store w
  ∧ effect_store (exec (ChargeAura_unapply self) w) = effect_store w.
Proof.
  intros He. unfold outcome, exec, ChargeAura_unapply, the_effect.
  rewrite bind_run, He. cbn [state].
  destruct (bool_decide (players = "friendly") || bool_decide (players = "both"));
    destruct (bool_decide (players = "enemy") || bool_decide (players = "both"));
    rewrite ?bind_run, ?self_target_player_run; cbn [fst snd];
    rewrite ?bind_run, ?self_target_player_run; cbn [fst snd];
    repeat split;
    repeat match goal with
           | |- context [player (minion_store ?w0 !!! ?x)] =>
               destruct (player (minion_store w0 !!! x))
           end; reflexivity.
Qed.

(** ** apply() followed by unapply() *)

Lemma same_but_listeners_refl (w : World) : same_but_listeners w w.
Proof. repeat split. Qed.

Lemma same_but_listeners_update_events (w w' : World) (ent : entity)
    (f : events → events) :
  same_but_listeners w w' →
  same_but_listeners w (exec (update_events ent f) w').
Proof.
  intros (Hp & Hm & Hc & Ha & Hr & Hn).
  destruct (update_events_frame ent f w')
    as (_ & _ & Hc' & Hn' & Ha' & Hr' & Hp' & Hm').
  repeat split.
  - intros p. by rewrite Hp', Hp.
  - intros m. by rewrite Hm', Hm.
  - by rewrite Hc', Hc.
  - by rewrite Ha', Ha.
  - by rewrite Hr', Hr.
  - by rewrite Hn', Hn.
Qed.

Lemma not_bound_callback (self : nat) (w : World) (ent : entity)
    (event : string) (f : callback) :
  not_bound self w → callback_self f = Some self →
  Forall (λ h, is_callback f h = false) (listeners ent event w).
Proof.
  intros Hnb Hf. eapply Forall_impl; [apply (Hnb ent event)|].
  intros h Hh. unfold is_callback. apply bool_decide_eq_false.
  intros Heq. apply Hh. by rewrite Heq.
Qed.

(** Binding a callable that is not bound and unbinding it gives the
    listeners back, on every entity and for every event. *)
Lemma bind_unbind_listeners (w : World) (ent ent' : entity)
    (event event' : string) (f : callback) :
  Forall (λ h, is_callback f h = false) (listeners ent event w) →
  listeners ent' event' (exec (unbind ent event f) (exec (bind ent event f) w))
  = listeners ent' event' w.
Proof.
  intros Hf. rewrite listeners_unbind.
  destruct (decide (ent = ent' ∧ event = event')) as [[<- <-]|Hne].
  - rewrite listeners_bind_same.
    apply remove_first_app_last; [done|apply is_callback_same].
  - rewrite listeners_bind, decide_False by done. done.
Qed.

Lemma bind_unbind_restored (w : World) (ent : entity) (event : string)
    (f : callback) :
  Forall (λ h, is_callback f h = false) (listeners ent event w) →
  restored w (exec (unbind ent event f) (exec (bind ent event f) w)).
Proof.
  intros Hf. split.
  - apply same_but_listeners_update_events,
      same_but_listeners_update_events, same_but_listeners_refl.
  - intros ent' event'. by apply bind_unbind_listeners.
Qed.

Lemma KillMinion_apply_unapply (w : World) (self t : nat) (when : string) :
  effect_store w !!! self = {| target := t; state := KillMinion when |} →
  not_bound self w →
  outcome (apply self ;; unapply self) w = Ok tt
  ∧ restored w (exec (apply self ;; unapply self) w).
Proof.
  intros He Hnb.
  set (f := bound_KillMinion_die self).
  set (ent := player_entity (current_player w)).
  assert (Hrun : (apply self ;; unapply self) w
                 = (Ok tt, exec (unbind ent when f) (exec (bind ent when f) w))).
  { assert (Happ : apply self w = (Ok tt, exec (bind ent when f) w)).
    { unfold apply, the_effect. rewrite bind_run, He. cbn [state].
      unfold KillMinion_apply, the_effect. rewrite bind_run, He. cbn [state].
      unfold the_current_player. rewrite bind_run. apply bind_eq. }
    rewrite (seq_run _ _ _ _ Happ).
    unfold unapply, the_effect. rewrite bind_run.
    unfold bind at 1. rewrite effect_store_update_events, He. cbn [state].
    unfold KillMinion_unapply, the_effect. rewrite bind_run.
    unfold bind at 1. rewrite effect_store_update_events, He. cbn [state].
    unfold the_current_player. rewrite bind_run.
    unfold bind at 1.
    rewrite (proj1 (proj2 (proj2 (update_events_frame _ _ _)))).
    apply unbind_eq. }
  unfold outcome, exec. rewrite Hrun. cbn [fst snd].
  split; [done|]. apply bind_unbind_restored.
  by apply (not_bound_callback self).
Qed.

Lemma FreezeOnDamage_apply_unapply (w : World) (self t : nat) :
  effect_store w !!! self = {| target := t; state := FreezeOnDamage |} →
  not_bound self w →
  outcome (apply self ;; unapply self) w = Ok tt
  ∧ restored w (exec (apply self ;; unapply self) w).
Proof.
  intros He Hnb.
  set (f := bound_FreezeOnDamage_did_damage self).
  set (ent := minion_entity t).
  assert (Hrun : (apply self ;; unapply self) w
                 = (Ok tt, exec (unbind ent "did_damage" f)
                             (exec (bind ent "did_damage" f) w))).
  { assert (Happ : apply self w = (Ok tt, exec (bind ent "did_damage" f) w)).
    { unfold apply, the_effect. rewrite bind_run, He. cbn [state].
      unfold FreezeOnDamage_apply, self_target, the_effect.
      rewrite !bind_run, He. apply bind_eq. }
    rewrite (seq_run _ _ _ _ Happ).
    unfold unapply, the_effect. rewrite bind_run.
    unfold bind at 1. rewrite effect_store_update_events, He. cbn [state].
    unfold FreezeOnDamage_unapply, self_target, the_effect.
    rewrite !bind_run.
    unfold bind at 1. rewrite effect_store_update_events, He.
    apply unbind_eq. }
  unfold outcome, exec. rewrite Hrun. cbn [fst snd].
  split; [done|]. apply bind_unbind_restored.
  by apply (not_bound_callback self).
Qed.

Lemma same_but_listeners_trans (w1 w2 w3 : World) :
  same_but_listeners w1 w2 → same_but_listeners w2 w3 →
  same_but_listeners w1 w3.
Proof.
  intros (Hp & Hm & Hc & Ha & Hr & Hn) (Hp' & Hm' & Hc' & Ha' & Hr' & Hn').
  repeat split.
  - intros p. by rewrite Hp', Hp.
  - intros m. by rewrite Hm', Hm.
  - by rewrite Hc', Hc.
  - by rewrite Ha', Ha.
  - by rewrite Hr', Hr.
  - by rewrite Hn', Hn.
Qed.

Lemma same_but_listeners_sym (w1 w2 : World) :
  same_but_listeners w1 w2 → same_but_listeners w2 w1.
Proof.
  intros (Hp & Hm & Hc & Ha & Hr & Hn). repeat split; try done.
Qed.

Lemma get_player_update_minion (p : player_id) (m : nat)
    (f : Minion → Minion) (w : World) :
  get_player p (exec (update_minion m f) w) = get_player p w.
Proof. by destruct p. Qed.

Lemma minion_store_update_minion (m : nat) (f : Minion → Minion)
    (w : World) :
  minion_store (exec (update_minion m f) w)
  = <[m := f (minion_store w !!! m)]> (minion_store w).
Proof. reflexivity. Qed.

(** Updating a minion by a function that does not look at the listeners
    respects equality up to listeners. *)
Lemma same_but_listeners_update_minion (w w' : World) (m : nat)
    (f g : Minion → Minion) :
  same_but_listeners w w' →
  (∀ x y, with_minion_events ∅ x = with_minion_events ∅ y →
          with_minion_events ∅ (g x) = with_minion_events ∅ (f y)) →
  same_but_listeners (exec (update_minion m f) w)
    (exec (update_minion m g) w').
Proof.
  intros (Hp & Hm & Hc & Ha & Hr & Hn) Hfg.
  split; [|split; [|by repeat split]].
  - intros p. by rewrite !get_player_update_minion.
  - intros n. rewrite !minion_store_update_minion.
    destruct (decide (m = n)) as [<-|Hne].
    + rewrite !lookup_total_insert_eq. by apply Hfg.
    + by rewrite !lookup_total_insert_ne.
Qed.

Lemma with_immune_same_but_listeners (b b' : bool) (x y : Minion) :
  with_minion_events ∅ x = with_minion_events ∅ (with_immune b' y) →
  with_minion_events ∅ (with_immune b x)
  = with_minion_events ∅ (with_immune b y).
Proof. destruct x, y; cbn; intros [=]; by subst. Qed.

Lemma Immune_apply_unapply (w : World) (self t : nat) :
  effect_store w !!! self = {| target := t; state := Immune |} →
  not_bound self w →
  outcome (apply self ;; unapply self) w = Ok tt
  ∧ restored (exec (update_minion t (with_immune false)) w)
      (exec (apply self ;; unapply self) w)
  ∧ immune (minion_store (exec (apply self) w) !!! t) = true.
Proof.
  intros He Hnb.
  set (f := bound_Immune_remove_immunity self).
  set (ent := player_entity (current_player w)).
  set (w1 := exec (update_minion t (with_immune true)) w).
  set (w2 := exec (bind ent "turn_ended" f) w1).
  set (w3 := exec (update_minion t (with_immune false)) w2).
  assert (Happ : apply self w = (Ok tt, w2)).
  { unfold apply, the_effect. rewrite bind_run, He. cbn [state].
    unfold Immune_apply, self_target, the_effect.
    rewrite !bind_run, He. cbn [target mret M_ret].
    rewrite (seq_run _ _ _ _ (update_minion_eq _ _ _)).
    unfold the_current_player. rewrite bind_run. apply bind_eq. }
  assert (Hrun : (apply self ;; unapply self) w
                 = (Ok tt, exec (unbind ent "turn_ended" f) w3)).
  { rewrite (seq_run _ _ _ _ Happ).
    unfold unapply, the_effect. rewrite bind_run.
    assert (He2 : effect_store w2 !!! self
                  = {| target := t; state := Immune |}).
    { subst w2 w1. unfold bind. by rewrite effect_store_update_events. }
    rewrite He2. cbn [state].
    unfold Immune_unapply, Immune_remove_immunity, self_target, the_effect.
    rewrite !bind_run, He2. cbn [target mret M_ret].
    rewrite (update_minion_eq t (with_immune false) w2). fold w3.
    unfold the_current_player. rewrite !bind_run.
    assert (Hcp : current_player w3 = current_player w).
    { subst w3 w2 w1. unfold bind.
      change (current_player (exec (update_minion t (with_immune false)) ?w0))
        with (current_player w0).
      by rewrite (proj1 (proj2 (proj2 (update_events_frame _ _ _)))). }
    rewrite Hcp. apply unbind_eq. }
  unfold outcome at 1. unfold exec at 2 3. rewrite Hrun, Happ. cbn [fst snd].
  split; [done|]. split; [split|].
  - apply same_but_listeners_update_events.
    destruct (update_events_frame ent (events_bind "turn_ended" f) w1)
      as (_ & _ & Hc & Hn & Ha & Hr & Hp & Hm).
    fold (bind ent "turn_ended" f) in Hc, Hn, Ha, Hr, Hp, Hm.
    fold w2 in Hc, Hn, Ha, Hr, Hp, Hm.
    split; [|split; [|repeat split]].
    + intros p. subst w3. rewrite !get_player_update_minion, Hp.
      subst w1. by rewrite get_player_update_minion.
    + intros n. subst w3. rewrite !minion_store_update_minion.
      destruct (decide (t = n)) as [<-|Hne].
      * rewrite !lookup_total_insert_eq.
        specialize (Hm t). subst w1.
        rewrite minion_store_update_minion, lookup_total_insert_eq in Hm.
        by apply (with_immune_same_but_listeners false true).
      * rewrite !lookup_total_insert_ne by done. rewrite Hm. subst w1.
        by rewrite minion_store_update_minion, lookup_total_insert_ne.
  - intros ent' event'.
    rewrite listeners_update_minion by done.
    rewrite listeners_unbind. subst w3.
    rewrite !listeners_update_minion by done. subst w2.
    rewrite !listeners_bind. subst w1.
    rewrite !listeners_update_minion by done.
    destruct (decide (ent = ent' ∧ "turn_ended" = event')) as [[<- <-]|Hne].
    + rewrite decide_True by done.
      apply remove_first_app_last; [|apply is_callback_same].
      by apply (not_bound_callback self).
    + done.
  - subst w2 w1. unfold bind. rewrite immune_update_events.
    rewrite minion_store_update_minion, lookup_total_insert_eq. reflexivity.
Qed.

Lemma update_player_eq (p : player_id) (g : Player → Player) (w : World) :
  update_player p g w = (Ok tt, exec (update_player p g) w).
Proof. reflexivity. Qed.

Lemma get_player_update_player (p : player_id) (g : Player → Player)
    (w : World) :
  get_player p (exec (update_player p g) w) = g (get_player p w).
Proof. apply get_player_set_player. Qed.

Lemma get_player_update_player_ne (p q : player_id) (g : Player → Player)
    (w : World) :
  p ≠ q → get_player q (exec (update_player p g) w) = get_player q w.
Proof. apply get_player_set_player_ne. Qed.

Lemma listeners_update_player (ent : entity) (event : string)
    (p : player_id) (g : Player → Player) (w : World) :
  (∀ x, player_events (g x) = player_events x) →
  listeners ent event (exec (update_player p g) w) = listeners ent event w.
Proof.
  intros Hg. unfold listeners. f_equal. destruct ent as [q|m]; cbn.
  - destruct (decide (p = q)) as [<-|Hne].
    + by rewrite get_player_set_player, Hg.
    + by rewrite get_player_set_player_ne.
  - by destruct p.
Qed.

Lemma mana_filters_remove_run (p : player_id) (f : Filter) (w : World) :
  f ∈ mana_filters (get_player p w) →
  mana_filters_remove p (Some f) w
  = (Ok tt,
     exec (update_player p
             (with_mana_filters
                (remove_first (λ y, bool_decide (y = f))
                   (mana_filters (get_player p w))))) w).
Proof.
  intros Hin. unfold mana_filters_remove, the_player.
  rewrite bind_run. cbn [fst snd]. unfold lift, list_remove.
  rewrite bind_run. by rewrite bool_decide_eq_true_2.
Qed.

Lemma remove_appended_filter (l : list Filter) (f : Filter) :
  Forall (λ g, filter_obj g ≠ filter_obj f) l →
  remove_first (λ y, bool_decide (y = f)) (l ++ [f]) = l.
Proof.
  intros Hl. apply remove_first_app_last.
  - eapply Forall_impl; [exact Hl|]. intros g Hg.
    apply bool_decide_eq_false. by intros ->.
  - by apply bool_decide_eq_true.
Qed.

(** A mana filter appended to the list of a player and removed again. *)
Lemma mana_filters_append_remove (p : player_id) (f : Filter) (w : World) :
  Forall (λ g, filter_obj g ≠ filter_obj f) (mana_filters (get_player p w)) →
  let w' := exec (mana_filters_append p f ;;
                  mana_filters_remove p (Some f)) w in
  (mana_filters_append p f ;; mana_filters_remove p (Some f)) w = (Ok tt, w')
  ∧ with_player_events ∅ (get_player p w')
    = with_player_events ∅ (get_player p w)
  ∧ player_events (get_player p w') = player_events (get_player p w)
  ∧ get_player (opponent p) w' = get_player (opponent p) w
  ∧ minion_store w' = minion_store w
  ∧ effect_store w' = effect_store w
  ∧ next_object w' = next_object w
  ∧ current_player w' = current_player w
  ∧ auras w' = auras w
  ∧ random_values w' = random_values w
  ∧ native_calls w' = native_calls w.
Proof.
  intros Hf w'.
  set (w1 := exec (mana_filters_append p f) w).
  assert (R1 : mana_filters_append p f w = (Ok tt, w1)) by reflexivity.
  assert (Hl1 : mana_filters (get_player p w1)
                = mana_filters (get_player p w) ++ [f]).
  { subst w1. unfold mana_filters_append.
    by rewrite get_player_update_player. }
  assert (R2 : mana_filters_remove p (Some f) w1
               = (Ok tt,
                  exec (update_player p
                          (with_mana_filters (mana_filters (get_player p w))))
                    w1)).
  { rewrite mana_filters_remove_run.
    - by rewrite Hl1, remove_appended_filter.
    - rewrite Hl1. apply elem_of_app. right. by apply list_elem_of_singleton. }
  assert (Hw' : w' = exec (update_player p
                             (with_mana_filters
                                (mana_filters (get_player p w)))) w1).
  { subst w'. unfold exec at 1. by rewrite (seq_run _ _ _ _ R1), R2. }
  split.
  { rewrite (seq_run _ _ _ _ R1), R2. by rewrite Hw'. }
  rewrite Hw'. subst w1. unfold mana_filters_append.
  rewrite !get_player_update_player.
  rewrite !get_player_update_player_ne by apply opponent_ne'.
  repeat split; by destruct p.
Qed.

(** The registration of a [Filter] object for the selected players and its
    removal, as [ManaFilter.apply] and [ManaFilter.unapply] do them. *)
Lemma mana_filters_register_remove (friendly enemy : bool) (p : player_id)
    (f : Filter) (w : World) :
  (∀ q, Forall (λ g, filter_obj g ≠ filter_obj f)
          (mana_filters (get_player q w))) →
  let register :=
    (if friendly then mana_filters_append p f else skip) ;;
    (if enemy then mana_filters_append (opponent p) f else skip) in
  let remove :=
    (if friendly then mana_filters_remove p (Some f) else skip) ;;
    (if enemy then mana_filters_remove (opponent p) (Some f) else skip) in
  ∃ w1 w2,
    register w = (Ok tt, w1)
    ∧ effect_store w1 = effect_store w
    ∧ minion_store w1 = minion_store w
    ∧ remove w1 = (Ok tt, w2)
    ∧ restored w w2.
Proof.
  intros Hf register remove. subst register remove.
  set (o := opponent p).
  assert (Hpo : p ≠ o) by apply opponent_ne'.
  assert (Hop : o ≠ p) by apply opponent_ne.
  destruct friendly, enemy.
  - (* both players *)
    set (w1 := exec (mana_filters_append p f) w).
    set (w2 := exec (mana_filters_append o f) w1).
    set (w3 := exec (update_player p
                       (with_mana_filters (mana_filters (get_player p w))))
                 w2).
    set (w4 := exec (update_player o
                       (with_mana_filters (mana_filters (get_player o w))))
                 w3).
    assert (Hp2 : mana_filters (get_player p w2)
                  = mana_filters (get_player p w) ++ [f]).
    { subst w2 w1. unfold mana_filters_append.
      rewrite get_player_update_player_ne by done.
      by rewrite get_player_update_player. }
    assert (Ho3 : mana_filters (get_player o w3)
                  = mana_filters (get_player o w) ++ [f]).
    { subst w3 w2 w1. unfold mana_filters_append.
      rewrite get_player_update_player_ne by done.
      rewrite get_player_update_player.
      by rewrite get_player_update_player_ne by done. }
    assert (R3 : mana_filters_remove p (Some f) w2 = (Ok tt, w3)).
    { rewrite mana_filters_remove_run.
      - by rewrite Hp2, remove_appended_filter.
      - rewrite Hp2. apply elem_of_app. right.
        by apply list_elem_of_singleton. }
    assert (R4 : mana_filters_remove o (Some f) w3 = (Ok tt, w4)).
    { rewrite mana_filters_remove_run.
      - by rewrite Ho3, remove_appended_filter.
      - rewrite Ho3. apply elem_of_app. right.
        by apply list_elem_of_singleton. }
    exists w2, w4. split; [reflexivity|].
    split; [reflexivity|]. split; [reflexivity|].
    split; [by rewrite (seq_run _ _ _ _ R3), R4|].
    split; [split; [|split; [|repeat split]]|].
    + intros q. subst w4 w3 w2 w1 o. unfold mana_filters_append.
      destruct p, q; reflexivity.
    + intros m. reflexivity.
    + intros ent event. subst w4 w3 w2 w1. unfold mana_filters_append.
      by rewrite !listeners_update_player.
  - (* the owner only *)
    destruct (mana_filters_append_remove p f w (Hf p))
      as (R & Hp & Hev & Ho & Hm & He & Hn & Hc & Ha & Hr & Hnc).
    set (w2 := exec (mana_filters_append p f ;;
                     mana_filters_remove p (Some f)) w) in *.
    exists (exec (mana_filters_append p f) w), w2.
    split; [reflexivity|]. split; [reflexivity|]. split; [reflexivity|].
    split.
    { rewrite seq_skip. rewrite <- R. by rewrite bind_run. }
    split; [split; [|split; [|repeat split; done]]|].
    + intros q. destruct (decide (q = p)) as [->|Hq]; [done|].
      assert (q = opponent p) as -> by (by destruct q, p). by rewrite Ho.
    + intros m. by rewrite Hm.
    + intros ent event. unfold listeners. f_equal.
      destruct ent as [q|m]; cbn.
      * destruct (decide (q = p)) as [->|Hq]; [done|].
        assert (q = opponent p) as -> by (by destruct q, p). by rewrite Ho.
      * by rewrite Hm.
  - (* the opponent only *)
    destruct (mana_filters_append_remove o f w (Hf o))
      as (R & Hp & Hev & Ho & Hm & He & Hn & Hc & Ha & Hr & Hnc).
    set (w2 := exec (mana_filters_append o f ;;
                     mana_filters_remove o (Some f)) w) in *.
    exists (exec (mana_filters_append o f) w), w2.
    split; [reflexivity|]. split; [reflexivity|]. split; [reflexivity|].
    split.
    { rewrite <- R. by rewrite !bind_run. }
    split; [split; [|split; [|repeat split; done]]|].
    + intros q. destruct (decide (q = o)) as [->|Hq]; [done|].
      assert (q = opponent o) as -> by (subst o; by destruct q, p).
      by rewrite Ho.
    + intros m. by rewrite Hm.
    + intros ent event. unfold listeners. f_equal.
      destruct ent as [q|m]; cbn.
      * destruct (decide (q = o)) as [->|Hq]; [done|].
        assert (q = opponent o) as -> by (subst o; by destruct q, p).
        by rewrite Ho.
      * by rewrite Hm.
  - (* no player *)
    exists w, w. repeat split.
Qed.

Lemma ManaFilter_apply_unapply (w : World) (self t : nat) (amt minimum : Z)
    (filter_type plr : string) (filter_object : option Filter) :
  effect_store w !!! self
  = {| target := t;
       state := ManaFilter amt filter_type minimum plr filter_object |} →
  filters_allocated w →
  outcome (apply self ;; unapply self) w = Ok tt
  ∧ restored w (exec (apply self ;; unapply self) w).
Proof.
  intros He Hfresh.
  set (p := player (minion_store w !!! t)).
  set (f := {| filter_obj := next_object w; amount := amt; min := minimum;
               filter :=
                 if bool_decide (filter_type = "minion") then filter_minion
                 else if bool_decide (filter_type = "spell") then filter_spell
                 else if bool_decide (filter_type = "secret")
                      then filter_secret
                 else filter_any |}).
  set (st := ManaFilter amt filter_type minimum plr (Some f)).
  set (w0 := exec (update_state self st) (exec new_object w)).
  set (friendly := bool_decide (plr = "friendly") || bool_decide (plr = "both")).
  set (enemy := bool_decide (plr = "enemy") || bool_decide (plr = "both")).
  destruct (mana_filters_register_remove friendly enemy p f w0)
    as (w1 & w2 & R1 & He1 & Hm1 & R2 & Hres).
  { intros q. exact (Hfresh q). }
  assert (He0 : effect_store w0 !!! self = {| target := t; state := st |}).
  { subst w0. rewrite effect_store_update_state, lookup_total_insert_eq.
    change (effect_store (exec new_object w)) with (effect_store w).
    by rewrite He. }
  assert (Happ : apply self w = (Ok tt, w1)).
  { unfold apply, the_effect. rewrite bind_run, He. cbn [state].
    unfold ManaFilter_apply, the_effect. rewrite bind_run, He. cbn [state].
    cbv zeta. rewrite bind_run, new_object_eq. cbv zeta.
    fold f. fold st.
    rewrite (seq_run _ _ _ _ (update_state_eq _ _ _)). fold w0.
    rewrite bind_run, self_target_player_run, He0. cbn [target].
    change (minion_store w0) with (minion_store w). fold p.
    exact R1. }
  assert (Hun : unapply self w1 = (Ok tt, w2)).
  { unfold unapply, the_effect. rewrite bind_run, He1, He0.
    unfold st at 1. cbn [state].
    unfold ManaFilter_unapply, the_effect.
    rewrite bind_run, He1, He0. unfold st at 1. cbn [state].
    rewrite bind_run, self_target_player_run, He1, He0, Hm1. cbn [target].
    change (minion_store w0) with (minion_store w). fold p.
    exact R2. }
  unfold outcome, exec. rewrite (seq_run _ _ _ _ Happ), Hun. cbn [fst snd].
  split; [done|]. exact Hres.
Qed.

Lemma Buff_apply_eq (w : World) (self t : nat)
    (when minion_filter buff_target players : string) (att hp : Z)
    (ps : list player_id) :
  effect_store w !!! self
  = {| target := t;
       state := Buff when minion_filter buff_target att hp players |} →
  Buff_players self w = (Ok ps, w) →
  Buff_apply self w
  = match Buff_subscription self when minion_filter with
    | Some (event, f) =>
        for_each ps (λ q, bind (player_entity q) event f) w
    | None => (Ok tt, w)
    end.
Proof.
  intros He Hps. unfold Buff_apply.
  rewrite bind_run, Hps. unfold the_effect. rewrite bind_run, He.
  cbn [state]. unfold Buff_subscription.
  repeat case_bool_decide; cbn [orb]; reflexivity.
Qed.

Lemma Buff_unapply_eq (w : World) (self t : nat)
    (when minion_filter buff_target players : string) (att hp : Z)
    (ps : list player_id) :
  effect_store w !!! self
  = {| target := t;
       state := Buff when minion_filter buff_target att hp players |} →
  Buff_players self w = (Ok ps, w) →
  Buff_unapply self w
  = match Buff_subscription self when minion_filter with
    | Some (event, f) =>
        for_each ps (λ q, unbind (player_entity q) event f) w
    | None => (Ok tt, w)
    end.
Proof.
  intros He Hps. unfold Buff_unapply.
  rewrite bind_run, Hps. unfold the_effect. rewrite bind_run, He.
  cbn [state]. unfold Buff_subscription.
  repeat case_bool_decide; cbn [orb]; reflexivity.
Qed.

Lemma Buff_subscription_self (self : nat) (when minion_filter event : string)
    (f : callback) :
  Buff_subscription self when minion_filter = Some (event, f) →
  callback_self f = Some self.
Proof.
  unfold Buff_subscription.
  repeat case_bool_decide; try destruct (_ || _); intros [=]; by subst.
Qed.

(** Binding a callable that is not bound on two entities and unbinding it
    on both, in the same order. *)
Lemma bind_two_unbind_two_restored (w : World) (ent1 ent2 : entity)
    (event : string) (f : callback) :
  ent1 ≠ ent2 →
  Forall (λ h, is_callback f h = false) (listeners ent1 event w) →
  Forall (λ h, is_callback f h = false) (listeners ent2 event w) →
  restored w
    (exec (unbind ent2 event f)
       (exec (unbind ent1 event f)
          (exec (bind ent2 event f) (exec (bind ent1 event f) w)))).
Proof.
  intros Hne H1 H2. split.
  - do 4 apply same_but_listeners_update_events.
    apply same_but_listeners_refl.
  - intros ent' event'.
    rewrite listeners_unbind.
    destruct (decide (ent2 = ent' ∧ event = event')) as [[<- <-]|Hn2].
    + rewrite listeners_unbind_other by (by left).
      rewrite listeners_bind_same.
      rewrite listeners_bind_other by (by left).
      apply remove_first_app_last; [done|apply is_callback_same].
    + rewrite listeners_unbind.
      destruct (decide (ent1 = ent' ∧ event = event')) as [[<- <-]|Hn1].
      * rewrite listeners_bind_other by (left; congruence).
        rewrite listeners_bind_same.
        apply remove_first_app_last; [done|apply is_callback_same].
      * rewrite !listeners_bind, !decide_False by done. done.
Qed.

Lemma restored_refl (w : World) : restored w w.
Proof. split; [apply same_but_listeners_refl|done]. Qed.

Lemma Buff_apply_unapply (w : World) (self t : nat)
    (when minion_filter buff_target players : string) (att hp : Z) :
  effect_store w !!! self
  = {| target := t;
       state := Buff when minion_filter buff_target att hp players |} →
  players = "friendly" ∨ players = "enemy" ∨ players = "both" →
  not_bound self w →
  outcome (apply self ;; unapply self) w = Ok tt
  ∧ restored w (exec (apply self ;; unapply self) w).
Proof.
  intros He Hv Hnb.
  set (p := player (minion_store w !!! t)).
  set (ps := if bool_decide (players = "friendly") then [p]
             else if bool_decide (players = "enemy") then [opponent p]
             else [p; opponent p]).
  assert (Hps : ∀ w0, effect_store w0 = effect_store w →
                      player (minion_store w0 !!! t) = p →
                      Buff_players self w0 = (Ok ps, w0)).
  { intros w0 He0 Hp0.
    rewrite (Buff_players_valid w0 self t when minion_filter buff_target
               players att hp); [by rewrite Hp0| by rewrite He0 |done]. }
  assert (Hshape : ∃ q, ps = [q] ∨ ps = [q; opponent q]).
  { subst ps. repeat case_bool_decide; eauto. }
  assert (Happly : ∀ w0, effect_store w0 = effect_store w →
                         apply self w0 = Buff_apply self w0).
  { intros w0 He0. unfold apply, the_effect.
    by rewrite bind_run, He0, He. }
  assert (Hunapply : ∀ w0, effect_store w0 = effect_store w →
                           unapply self w0 = Buff_unapply self w0).
  { intros w0 He0. unfold unapply, the_effect.
    by rewrite bind_run, He0, He. }
  destruct (Buff_subscription self when minion_filter) as [[event f]|] eqn:Hsub.
  - pose proof (Buff_subscription_self _ _ _ _ _ Hsub) as Hself.
    destruct Hshape as [q [Hq|Hq]].
    + (* one player *)
      set (w1 := exec (bind (player_entity q) event f) w).
      assert (R1 : apply self w = (Ok tt, w1)).
      { rewrite Happly by done.
        rewrite (Buff_apply_eq w self t _ _ _ _ _ _ ps He (Hps w eq_refl eq_refl)).
        rewrite Hsub, Hq. cbn [for_each]. rewrite seq_skip. apply bind_eq. }
      assert (He1 : effect_store w1 = effect_store w).
      { subst w1. unfold bind. by rewrite effect_store_update_events. }
      assert (Hp1 : player (minion_store w1 !!! t) = p).
      { subst w1. unfold bind. by rewrite player_update_events. }
      assert (R2 : unapply self w1
                   = (Ok tt, exec (unbind (player_entity q) event f) w1)).
      { rewrite Hunapply by done.
        rewrite (Buff_unapply_eq w1 self t when minion_filter buff_target
                   players att hp ps); [|by rewrite He1|by apply Hps].
        rewrite Hsub, Hq. cbn [for_each]. rewrite seq_skip. apply unbind_eq. }
      unfold outcome, exec. rewrite (seq_run _ _ _ _ R1), R2. cbn [fst snd].
      split; [done|]. apply bind_unbind_restored.
      by apply (not_bound_callback self).
    + (* both players *)
      set (w1 := exec (bind (player_entity (opponent q)) event f)
                   (exec (bind (player_entity q) event f) w)).
      assert (R1 : apply self w = (Ok tt, w1)).
      { rewrite Happly by done.
        rewrite (Buff_apply_eq w self t _ _ _ _ _ _ ps He (Hps w eq_refl eq_refl)).
        rewrite Hsub, Hq. cbn [for_each].
        rewrite (seq_run _ _ _ _ (bind_eq _ _ _ _)).
        rewrite seq_skip. apply bind_eq. }
      assert (He1 : effect_store w1 = effect_store w).
      { subst w1. unfold bind. by rewrite !effect_store_update_events. }
      assert (Hp1 : player (minion_store w1 !!! t) = p).
      { subst w1. unfold bind. by rewrite !player_update_events. }
      assert (R2 : unapply self w1
                   = (Ok tt,
                      exec (unbind (player_entity (opponent q)) event f)
                        (exec (unbind (player_entity q) event f) w1))).
      { rewrite Hunapply by done.
        rewrite (Buff_unapply_eq w1 self t when minion_filter buff_target
                   players att hp ps); [|by rewrite He1|by apply Hps].
        rewrite Hsub, Hq. cbn [for_each].
        rewrite (seq_run _ _ _ _ (unbind_eq _ _ _ _)).
        rewrite seq_skip. apply unbind_eq. }
      unfold outcome, exec. rewrite (seq_run _ _ _ _ R1), R2. cbn [fst snd].
      split; [done|]. apply bind_two_unbind_two_restored.
      * intros [=Heq]. by apply (opponent_ne' q).
      * by apply (not_bound_callback self).
      * by apply (not_bound_callback self).
  - assert (R1 : apply self w = (Ok tt, w)).
    { rewrite Happly by done.
      rewrite (Buff_apply_eq w self t _ _ _ _ _ _ ps He (Hps w eq_refl eq_refl)).
      by rewrite Hsub. }
    assert (R2 : unapply self w = (Ok tt, w)).
    { rewrite Hunapply by done.
      rewrite (Buff_unapply_eq w self t _ _ _ _ _ _ ps He (Hps w eq_refl eq_refl)).
      by rewrite Hsub. }
    unfold outcome, exec. rewrite (seq_run _ _ _ _ R1), R2. cbn [fst snd].
    split; [done|]. apply restored_refl.
Qed.

Lemma DrawOnMinion_apply_unapply (w : World) (self t : nat) (mtype : Z) :
  effect_store w !!! self = {| target := t; state := DrawOnMinion mtype |} →
  not_bound self w →
  outcome (apply self ;; unapply self) w = Ok tt
  ∧ restored w (exec (apply self ;; unapply self) w).
Proof.
  intros He Hnb.
  set (f := bound_DrawOnMinion_check_minion_draw self).
  set (ent := player_entity (player (minion_store w !!! t))).
  assert (Hrun : (apply self ;; unapply self) w
                 = (Ok tt, exec (unbind ent "minion_placed" f)
                             (exec (bind ent "minion_placed" f) w))).
  { assert (Happ : apply self w = (Ok tt, exec (bind ent "minion_placed" f) w)).
    { unfold apply, the_effect. rewrite bind_run, He. cbn [state].
      unfold DrawOnMinion_apply.
      rewrite bind_run, self_target_player_run, He. apply bind_eq. }
    rewrite (seq_run _ _ _ _ Happ).
    unfold unapply, the_effect. rewrite bind_run.
    unfold bind at 1. rewrite effect_store_update_events, He. cbn [state].
    unfold DrawOnMinion_unapply.
    rewrite bind_run, self_target_player_run.
    unfold bind at 1 2.
    rewrite effect_store_update_events, He, player_update_events.
    apply unbind_eq. }
  unfold outcome, exec. rewrite Hrun. cbn [fst snd].
  split; [done|]. apply bind_unbind_restored.
  by apply (not_bound_callback self).
Qed.

Lemma AddCardOnSpell_apply_unapply (w : World) (self t : nat) (c : Card) :
  effect_store w !!! self = {| target := t; state := AddCardOnSpell c |} →
  not_bound self w →
  outcome (apply self ;; unapply self) w = Ok tt
  ∧ restored w (exec (apply self ;; unapply self) w).
Proof.
  intros He Hnb.
  set (f := bound_AddCardOnSpell_add_card self).
  set (ent := player_entity (player (minion_store w !!! t))).
  assert (Hrun : (apply self ;; unapply self) w
                 = (Ok tt, exec (unbind ent "spell_cast" f)
                             (exec (bind ent "spell_cast" f) w))).
  { assert (Happ : apply self w = (Ok tt, exec (bind ent "spell_cast" f) w)).
    { unfold apply, the_effect. rewrite bind_run, He. cbn [state].
      unfold AddCardOnSpell_apply.
      rewrite bind_run, self_target_player_run, He. apply bind_eq. }
    rewrite (seq_run _ _ _ _ Happ).
    unfold unapply, the_effect. rewrite bind_run.
    unfold bind at 1. rewrite effect_store_update_events, He. cbn [state].
    unfold AddCardOnSpell_unapply.
    rewrite bind_run, self_target_player_run.
    unfold bind at 1 2.
    rewrite effect_store_update_events, He, player_update_events.
    apply unbind_eq. }
  unfold outcome, exec. rewrite Hrun. cbn [fst snd].
  split; [done|]. apply bind_unbind_restored.
  by apply (not_bound_callback self).
Qed.

(** ** The "silenced" event on the source of charge auras, in general *)

(** One listener of the source: its call and its removal. *)
Lemma source_listener_step (w : World) (t depth : nat) (h : callback * bool)
    (hs : list (callback * bool)) :
  aura_source_listener t h →
  listeners (minion_entity t) "silenced" w = h :: hs →
  let step := call (S depth) h.1 [] ;;
              if h.2
              then update_events (minion_entity t)
                     (events_remove_handler "silenced" h)
              else skip in
  step w = (Ok tt, exec step w)
  ∧ effect_store (exec step w) = effect_store w
  ∧ listeners (minion_entity t) "silenced" (exec step w) = hs
  ∧ (∀ m, charge (minion_store (exec step w) !!! m)
          = if revokes m h then false else charge (minion_store w !!! m))
  ∧ (∀ m event, m ≠ t →
       listeners (minion_entity m) event (exec step w)
       = unbound_by_one h m event (listeners (minion_entity m) event w)).
Proof.
  intros (Honce & c & self & minion & Hne & Hf) Hl step.
  destruct h as [f once]. cbn [fst snd] in *. subst once.
  destruct Hf as [-> | ->].
  - (* the lambda of watch_for_silence *)
    set (w1 := exec (unbind (minion_entity minion) "silenced"
                       (closure_watch_silenced c self minion)) w).
    set (w2 := exec (update_events (minion_entity t)
                       (events_remove_handler "silenced"
                          (closure_watch_lambda c self minion, true))) w1).
    assert (R : step w = (Ok tt, w2)).
    { subst step. cbn [call].
      unfold watch_lambda. rewrite (seq_run _ _ _ _ (unbind_eq _ _ _ _)).
      apply update_events_eq. }
    assert (Hw : exec step w = w2) by (unfold exec; by rewrite R).
    rewrite Hw. split; [done|]. subst w2 w1.
    split; [unfold unbind; by rewrite !effect_store_update_events|].
    split.
    { rewrite listeners_remove_handler_same.
      rewrite listeners_unbind_other by (left; congruence).
      rewrite Hl. apply remove_first_head, is_handler_same. }
    split.
    { intros m. unfold unbind. by rewrite !charge_update_events. }
    intros m event Hm.
    rewrite listeners_remove_handler_other by (left; congruence).
    rewrite listeners_unbind. unfold unbound_by_one. cbn [fst].
    destruct (decide (minion_entity minion = minion_entity m
                      ∧ "silenced" = event)) as [[[=->] <-]|Hn].
    + by rewrite bool_decide_eq_true_2.
    + rewrite bool_decide_eq_false_2; [done|].
      intros [-> ->]. by apply Hn.
  - (* target_silenced of give_permacharge_effect *)
    set (w2 := exec (update_events (minion_entity t)
                       (events_remove_handler "silenced"
                          (closure_permacharge_target_silenced c self minion,
                           true)))
                 (charge_revoked self minion c w)).
    assert (R : step w = (Ok tt, w2)).
    { subst step. cbn [call].
      rewrite (seq_run _ _ _ _ (permacharge_target_silenced_run _ _ _ _)).
      apply update_events_eq. }
    assert (Hw : exec step w = w2) by (unfold exec; by rewrite R).
    rewrite Hw. split; [done|]. subst w2.
    destruct (charge_revoked_store w self minion c) as (Hes & _ & Hch).
    split; [by rewrite effect_store_update_events|].
    split.
    { rewrite listeners_remove_handler_same, charge_revoked_listeners.
      rewrite decide_False by (intros [? _]; congruence).
      rewrite decide_False by (intros [? _]; congruence).
      rewrite Hl. apply remove_first_head, is_handler_same. }
    split.
    { intros m. rewrite charge_update_events, Hch.
      unfold revokes. cbn [fst].
      destruct (decide (minion = m)) as [->|Hm].
      - by rewrite bool_decide_eq_true_2.
      - by rewrite bool_decide_eq_false_2. }
    intros m event Hm.
    rewrite listeners_remove_handler_other by (left; congruence).
    rewrite charge_revoked_listeners. unfold unbound_by_one. cbn [fst].
    destruct (decide (minion_entity m = minion_entity minion
                      ∧ event = "silenced")) as [[[=->] ->]|Hs].
    + by rewrite bool_decide_eq_true_2.
    + rewrite (bool_decide_eq_false_2 (minion = m ∧ event = "silenced"))
        by (intros [-> ->]; by apply Hs).
      destruct (decide (minion_entity m = minion_entity minion
                        ∧ event = "copied")) as [[[=->] ->]|Hc].
      * by rewrite bool_decide_eq_true_2.
      * rewrite bool_decide_eq_false_2; [done|].
        intros [-> ->]. by apply Hc.
Qed.

(** The publish of "silenced" on a source whose listeners are those of
    charge auras: every listener is called and removed; the charge of every
    minion that has a [target_silenced] among them is taken back, and the
    listeners on the minions are unbound as the calls say. *)
Lemma source_silenced_all (depth t : nat) (hs : list (callback * bool))
    (w : World) :
  Forall (aura_source_listener t) hs →
  listeners (minion_entity t) "silenced" w = hs →
  let silenced := trigger (S depth) (minion_entity t) "silenced" [] in
  silenced w = (Ok tt, exec silenced w)
  ∧ effect_store (exec silenced w) = effect_store w
  ∧ listeners (minion_entity t) "silenced" (exec silenced w) = []
  ∧ (∀ m, charge (minion_store (exec silenced w) !!! m)
          = if existsb (revokes m) hs then false
            else charge (minion_store w !!! m))
  ∧ (∀ m event, m ≠ t →
       listeners (minion_entity m) event (exec silenced w)
       = unbound_by hs m event (listeners (minion_entity m) event w)).
Proof.
  intros Hhs Hl silenced.
  set (body := λ h : callback * bool,
         call (S depth) h.1 [] ;;
         if h.2
         then update_events (minion_entity t)
                (events_remove_handler "silenced" h)
         else skip).
  assert (Hgen : ∀ hs w,
    Forall (aura_source_listener t) hs →
    listeners (minion_entity t) "silenced" w = hs →
    for_each hs body w = (Ok tt, exec (for_each hs body) w)
    ∧ effect_store (exec (for_each hs body) w) = effect_store w
    ∧ listeners (minion_entity t) "silenced" (exec (for_each hs body) w) = []
    ∧ (∀ m, charge (minion_store (exec (for_each hs body) w) !!! m)
            = if existsb (revokes m) hs then false
              else charge (minion_store w !!! m))
    ∧ (∀ m event, m ≠ t →
         listeners (minion_entity m) event (exec (for_each hs body) w)
         = unbound_by hs m event (listeners (minion_entity m) event w))).
  { clear hs w Hhs Hl. intros hs.
    induction hs as [|h hs IH]; intros w Hhs Hl.
    - repeat split; done.
    - apply Forall_cons in Hhs as [Hh Hhs].
      destruct (source_listener_step w t depth h hs Hh Hl)
        as (R1 & He1 & Hl1 & Hc1 & Hm1).
      fold (body h) in R1, He1, Hl1, Hc1, Hm1.
      set (w1 := exec (body h) w) in *.
      destruct (IH w1 Hhs Hl1) as (R2 & He2 & Hl2 & Hc2 & Hm2).
      assert (R : for_each (h :: hs) body w
                  = (Ok tt, exec (for_each hs body) w1)).
      { cbn [for_each]. by rewrite (seq_run _ _ _ _ R1). }
      assert (Hw : exec (for_each (h :: hs) body) w
                   = exec (for_each hs body) w1).
      { unfold exec at 1. by rewrite R. }
      rewrite Hw. split; [done|]. split; [by rewrite He2|].
      split; [done|]. split.
      + intros m. rewrite Hc2, Hc1. cbn [existsb].
        by destruct (revokes m h), (existsb (revokes m) hs).
      + intros m event Hm. by rewrite Hm2, Hm1. }
  destruct (Hgen hs w Hhs Hl) as (R & He & Ht & Hc & Hm).
  assert (Htrig : silenced w = for_each hs body w).
  { subst silenced. unfold trigger. by rewrite Hl. }
  assert (Hw : exec silenced w = exec (for_each hs body) w).
  { unfold exec. by rewrite Htrig. }
  rewrite Hw, Htrig. done.
Qed.

Lemma remove_first_sublist {A : Type} (P : A → bool) (l : list A) :
  remove_first P l `sublist_of` l.
Proof.
  induction l as [|x l IH]; cbn; [constructor|].
  destruct (P x); [by apply sublist_cons|by apply sublist_skip].
Qed.

Lemma unbound_by_one_sublist (h : callback * bool) (m : nat) (event : string)
    (l : list (callback * bool)) :
  unbound_by_one h m event l `sublist_of` l.
Proof.
  unfold unbound_by_one.
  destruct h.1; try done; repeat case_bool_decide; try done;
    apply remove_first_sublist.
Qed.

Lemma unbound_by_sublist (hs : list (callback * bool)) (m : nat)
    (event : string) (l : list (callback * bool)) :
  unbound_by hs m event l `sublist_of` l.
Proof.
  revert l. induction hs as [|h hs IH]; intros l; cbn; [done|].
  etrans; [apply IH|apply unbound_by_one_sublist].
Qed.

Lemma remove_first_callback_gone (f : callback)
    (l : list (callback * bool)) :
  NoDup l.*1 → f ∉ (remove_first (is_callback f) l).*1.
Proof.
  induction l as [|[g b] l IH]; cbn; [intros _; apply not_elem_of_nil|].
  intros [Hg Hl]%NoDup_cons. unfold is_callback at 1. cbn [fst].
  case_bool_decide as Hfg.
  - by subst g.
  - cbn. apply not_elem_of_cons. split; [congruence|by apply IH].
Qed.

Lemma unbound_by_gone (hs : list (callback * bool)) (h : callback * bool)
    (m : nat) (event : string) (f : callback) (l : list (callback * bool)) :
  h ∈ hs →
  (∀ l0, NoDup l0.*1 → f ∉ (unbound_by_one h m event l0).*1) →
  NoDup l.*1 →
  f ∉ (unbound_by hs m event l).*1.
Proof.
  intros Hin Hone. revert l.
  induction hs as [|h0 hs IH]; intros l Hl; [by apply elem_of_nil in Hin|].
  cbn [unbound_by fold_left].
  apply elem_of_cons in Hin as [<-|Hin].
  - intros Hf. apply (Hone l Hl).
    eapply elem_of_sublist; [exact Hf|].
    apply fmap_sublist, (unbound_by_sublist hs m event).
  - apply (IH Hin).
    eapply sublist_NoDup; [exact Hl|].
    apply fmap_sublist, unbound_by_one_sublist.
Qed.

Lemma existsb_elem_of {A : Type} (P : A → bool) (l : list A) (x : A) :
  x ∈ l → P x = true → existsb P l = true.
Proof.
  induction l as [|y l IH]; cbn; [by intros ?%elem_of_nil|].
  intros [->|Hin]%elem_of_cons Hx.
  - by rewrite Hx.
  - rewrite (IH Hin Hx). by destruct (P y).
Qed.

(** After the publish of "silenced" on the source, no watcher and no
    listener of [give_permacharge_effect] that it had a listener for is
    left on any minion, and every minion it had a [target_silenced] for has
    lost the charge of the aura.  The function objects are distinct, so the
    listeners of a minion hold each callable once. *)
Lemma source_silenced_unbinds_all (depth t : nat)
    (hs : list (callback * bool)) (w : World) (c self minion : nat) :
  Forall (aura_source_listener t) hs →
  listeners (minion_entity t) "silenced" w = hs →
  minion ≠ t →
  NoDup (listeners (minion_entity minion) "silenced" w).*1 →
  NoDup (listeners (minion_entity minion) "copied" w).*1 →
  let w' := exec (trigger (S depth) (minion_entity t) "silenced" []) w in
  ((closure_watch_lambda c self minion, true) ∈ hs →
   closure_watch_silenced c self minion
   ∉ (listeners (minion_entity minion) "silenced" w').*1)
  ∧ ((closure_permacharge_target_silenced c self minion, true) ∈ hs →
     charge (minion_store w' !!! minion) = false
     ∧ (closure_permacharge_silenced c self minion
        ∉ (listeners (minion_entity minion) "silenced" w').*1)
     ∧ (closure_permacharge_copied c self minion
        ∉ (listeners (minion_entity minion) "copied" w').*1)).
Proof.
  intros Hhs Hl Hne Hds Hdc w'.
  destruct (source_silenced_all depth t hs w Hhs Hl)
    as (_ & _ & _ & Hc & Hm).
  fold w' in Hc, Hm. split.
  - intros Hin. rewrite Hm by done.
    apply (unbound_by_gone hs _ _ _ _ _ Hin); [|done].
    intros l0 Hl0. unfold unbound_by_one. cbn [fst].
    rewrite bool_decide_eq_true_2 by done.
    by apply remove_first_callback_gone.
  - intros Hin. split; [|split].
    + rewrite Hc, (existsb_elem_of _ _ _ Hin); [done|].
      unfold revokes. cbn [fst]. by apply bool_decide_eq_true.
    + rewrite Hm by done.
      apply (unbound_by_gone hs _ _ _ _ _ Hin); [|done].
      intros l0 Hl0. unfold unbound_by_one. cbn [fst].
      rewrite bool_decide_eq_true_2 by done.
      by apply remove_first_callback_gone.
    + rewrite Hm by done.
      apply (unbound_by_gone hs _ _ _ _ _ Hin); [|done].
      intros l0 Hl0. unfold unbound_by_one. cbn [fst].
      rewrite bool_decide_eq_false_2 by (by intros [_ ?]).
      rewrite bool_decide_eq_true_2 by done.
      by apply remove_first_callback_gone.
Qed.

(** ** What the primitive updates leave alone *)

Lemma effect_store_update_minion (m : nat) (f : Minion → Minion) (w : World) :
  effect_store (exec (update_minion m f) w) = effect_store w.
Proof. reflexivity. Qed.

Lemma effect_store_update_player (p : player_id) (g : Player → Player)
    (w : World) :
  effect_store (exec (update_player p g) w) = effect_store w.
Proof. reflexivity. Qed.

Lemma effect_store_bind (ent : entity) (event : string) (f : callback)
    (w : World) :
  effect_store (exec (bind ent event f) w) = effect_store w.
Proof. by destruct ent. Qed.

Lemma effect_store_bind_once (ent : entity) (event : string) (f : callback)
    (w : World) :
  effect_store (exec (bind_once ent event f) w) = effect_store w.
Proof. by destruct ent. Qed.

Lemma effect_store_unbind (ent : entity) (event : string) (f : callback)
    (w : World) :
  effect_store (exec (unbind ent event f) w) = effect_store w.
Proof. by destruct ent. Qed.

Lemma current_player_update_minion (m : nat) (f : Minion → Minion)
    (w : World) :
  current_player (exec (update_minion m f) w) = current_player w.
Proof. reflexivity. Qed.

Lemma current_player_update_player (p : player_id) (g : Player → Player)
    (w : World) :
  current_player (exec (update_player p g) w) = current_player w.
Proof. reflexivity. Qed.

Lemma current_player_update_state (e : nat) (st : effect_state) (w : World) :
  current_player (exec (update_state e st) w) = current_player w.
Proof. reflexivity. Qed.

Lemma current_player_bind (ent : entity) (event : string) (f : callback)
    (w : World) :
  current_player (exec (bind ent event f) w) = current_player w.
Proof. by destruct ent. Qed.

Lemma current_player_unbind (ent : entity) (event : string) (f : callback)
    (w : World) :
  current_player (exec (unbind ent event f) w) = current_player w.
Proof. by destruct ent. Qed.

Lemma minion_store_update_player (p : player_id) (g : Player → Player)
    (w : World) :
  minion_store (exec (update_player p g) w) = minion_store w.
Proof. reflexivity. Qed.

Lemma minion_store_bind_player (p : player_id) (event : string)
    (f : callback) (w : World) :
  minion_store (exec (bind (player_entity p) event f) w) = minion_store w.
Proof. reflexivity. Qed.

Lemma minion_store_unbind_player (p : player_id) (event : string)
    (f : callback) (w : World) :
  minion_store (exec (unbind (player_entity p) event f) w) = minion_store w.
Proof. reflexivity. Qed.

Lemma listeners_set_current_player (ent : entity) (event : string)
    (p : player_id) (w : World) :
  listeners ent event (set_current_player p w) = listeners ent event w.
Proof. by destruct ent as [[]|]. Qed.

Lemma run_exec {A : Type} (m : M A) (w w' : World) (r : result A) :
  m w = (r, w') → exec m w = w'.
Proof. intros Hm. unfold exec. by rewrite Hm. Qed.

Lemma run_outcome {A : Type} (m : M A) (w w' : World) (r : result A) :
  m w = (r, w') → outcome m w = r.
Proof. intros Hm. unfold outcome. by rewrite Hm. Qed.

Lemma self_target_run (self : nat) (w : World) :
  self_target self w = (Ok (target (effect_store w !!! self)), w).
Proof. reflexivity. Qed.

Lemma trigger_one_listener (depth : nat) (ent : entity) (event : string)
    (args : list value) (w w1 : World) (f : callback) :
  listeners ent event w = [(f, false)] →
  call depth f args w = (Ok tt, w1) →
  trigger depth ent event args w = (Ok tt, w1).
Proof.
  intros Hl Hf. unfold trigger. rewrite Hl. cbn [for_each fst snd].
  assert (Hfirst : (call depth f args ;; skip) w = (Ok tt, w1)).
  { by rewrite seq_skip. }
  rewrite (seq_run _ _ _ _ Hfirst). reflexivity.
Qed.

Lemma trigger_no_listener (depth : nat) (ent : entity) (event : string)
    (args : list value) (w : World) :
  listeners ent event w = [] →
  trigger depth ent event args w = (Ok tt, w).
Proof. intros Hl. unfold trigger. by rewrite Hl. Qed.

Lemma trigger_single (depth : nat) (ent : entity) (event : string)
    (args : list value) (w : World) (f : callback) :
  listeners ent event w = [(f, false)] →
  trigger depth ent event args w = call depth f args w.
Proof.
  intros Hl. unfold trigger. rewrite Hl. cbn [for_each fst snd].
  rewrite !bind_run.
  by destruct (call depth f args w) as [[[]|e] w'].
Qed.

(** ** KillMinion and Immune on the turn of a player *)

Lemma KillMinion_apply_run (w : World) (self t : nat) (when : string) :
  effect_store w !!! self = {| target := t; state := KillMinion when |} →
  KillMinion_apply self w
  = (Ok tt, exec (bind (player_entity (current_player w)) when
                    (bound_KillMinion_die self)) w).
Proof.
  intros He. unfold KillMinion_apply, the_effect. rewrite bind_run, He.
  cbn [state]. unfold the_current_player. rewrite bind_run. apply bind_eq.
Qed.

Lemma KillMinion_unapply_run (w : World) (self t : nat) (when : string) :
  effect_store w !!! self = {| target := t; state := KillMinion when |} →
  KillMinion_unapply self w
  = (Ok tt, exec (unbind (player_entity (current_player w)) when
                    (bound_KillMinion_die self)) w).
Proof.
  intros He. unfold KillMinion_unapply, the_effect. rewrite bind_run, He.
  cbn [state]. unfold the_current_player. rewrite bind_run. apply unbind_eq.
Qed.

Lemma KillMinion_die_run (w : World) (self : nat) :
  KillMinion_die self w
  = (Ok tt, exec (update_minion (target (effect_store w !!! self))
                    (with_dead true)) w).
Proof. reflexivity. Qed.

(** X1.  After [apply()], the event [when] on the player whose turn it is
    kills the target and no other minion, and the subscription stays for
    the next event of that name. *)
Theorem KillMinion_kills_on_its_event
    (w : World) (self t depth : nat) (when : string) :
  effect_store w !!! self = {| target := t; state := KillMinion when |} →
  let p := current_player w in
  listeners (player_entity p) when w = [] →
  let run :=
    KillMinion_apply self ;; trigger (S depth) (player_entity p) when [] in
  outcome run w = Ok tt
  ∧ dead (minion_store (exec run w) !!! t) = true
  ∧ (∀ m, m ≠ t → minion_store (exec run w) !!! m = minion_store w !!! m)
  ∧ listeners (player_entity p) when (exec run w)
    = [(bound_KillMinion_die self, false)].
Proof.
  intros He p Hl run.
  set (f := bound_KillMinion_die self).
  set (w1 := exec (bind (player_entity p) when f) w).
  set (w2 := exec (update_minion t (with_dead true)) w1).
  assert (He1 : effect_store w1 !!! self
                = {| target := t; state := KillMinion when |}).
  { subst w1. by rewrite effect_store_bind. }
  assert (Hl1 : listeners (player_entity p) when w1 = [(f, false)]).
  { subst w1. by rewrite listeners_bind_same, Hl. }
  assert (Hcall : call (S depth) f [] w1 = (Ok tt, w2)).
  { cbn [call]. subst f. cbn iota. rewrite KillMinion_die_run, He1.
    reflexivity. }
  assert (Hrun : run w = (Ok tt, w2)).
  { subst run. rewrite (seq_run _ _ _ _ (KillMinion_apply_run w self t when He)).
    fold p f w1. by apply (trigger_one_listener _ _ _ _ _ _ f). }
  rewrite (run_outcome _ _ _ _ Hrun), (run_exec _ _ _ _ Hrun).
  split; [done|]. split; [|split].
  - subst w2. by rewrite minion_store_update_minion, lookup_total_insert_eq.
  - intros m Hm. subst w2 w1.
    rewrite minion_store_update_minion, lookup_total_insert_ne by done.
    by rewrite minion_store_bind_player.
  - subst w2. by rewrite listeners_update_minion.
Qed.

(** X2.  [unapply()] unbinds from the player whose turn it is when it runs.
    When the turn has passed to the other player since [apply()], it
    returns normally and the subscription made by [apply()] stays. *)
Theorem KillMinion_unapply_after_turn_change
    (w : World) (self t : nat) (when : string) :
  effect_store w !!! self = {| target := t; state := KillMinion when |} →
  let p := current_player w in
  let w1 := set_current_player (opponent p) (exec (KillMinion_apply self) w) in
  outcome (KillMinion_apply self) w = Ok tt
  ∧ outcome (KillMinion_unapply self) w1 = Ok tt
  ∧ listeners (player_entity p) when (exec (KillMinion_unapply self) w1)
    = listeners (player_entity p) when w
      ++ [(bound_KillMinion_die self, false)]
  ∧ listeners (player_entity (opponent p)) when
      (exec (KillMinion_unapply self) w1)
    = remove_first (is_callback (bound_KillMinion_die self))
        (listeners (player_entity (opponent p)) when w).
Proof.
  intros He p w1.
  set (f := bound_KillMinion_die self).
  pose proof (KillMinion_apply_run w self t when He) as Happ.
  fold p f in Happ.
  assert (Hw1 : w1 = set_current_player (opponent p)
                       (exec (bind (player_entity p) when f) w)).
  { subst w1. by rewrite (run_exec _ _ _ _ Happ). }
  assert (He1 : effect_store w1 !!! self
                = {| target := t; state := KillMinion when |}).
  { rewrite Hw1.
    change (effect_store (set_current_player ?q ?w0)) with (effect_store w0).
    by rewrite effect_store_bind. }
  pose proof (KillMinion_unapply_run w1 self t when He1) as Hun.
  change (current_player w1) with (opponent p) in Hun. fold f in Hun.
  rewrite (run_outcome _ _ _ _ Happ), (run_outcome _ _ _ _ Hun).
  rewrite (run_exec _ _ _ _ Hun).
  split; [done|]. split; [done|]. split.
  - rewrite listeners_unbind_other
      by (left; intros [=Hp]; by apply (opponent_ne p)).
    rewrite Hw1, listeners_set_current_player.
    by rewrite listeners_bind_same.
  - rewrite listeners_unbind_same.
    rewrite Hw1, listeners_set_current_player.
    rewrite listeners_bind_other
      by (left; intros [=Hp]; by apply (opponent_ne' p)).
    reflexivity.
Qed.

Lemma Immune_apply_run (w : World) (self : nat) :
  Immune_apply self w
  = (Ok tt, exec (bind (player_entity (current_player w)) "turn_ended"
                    (bound_Immune_remove_immunity self))
              (exec (update_minion (target (effect_store w !!! self))
                       (with_immune true)) w)).
Proof.
  unfold Immune_apply. rewrite bind_run, self_target_run.
  rewrite (seq_run _ _ _ _ (update_minion_eq _ _ _)).
  unfold the_current_player. rewrite bind_run.
  rewrite current_player_update_minion. apply bind_eq.
Qed.

Lemma Immune_remove_immunity_run (w : World) (self : nat) :
  Immune_remove_immunity self w
  = (Ok tt, exec (update_minion (target (effect_store w !!! self))
                    (with_immune false)) w).
Proof. reflexivity. Qed.

Lemma Immune_unapply_run (w : World) (self : nat) :
  Immune_unapply self w
  = (Ok tt, exec (unbind (player_entity (current_player w)) "turn_ended"
                    (bound_Immune_remove_immunity self))
              (exec (update_minion (target (effect_store w !!! self))
                       (with_immune false)) w)).
Proof.
  unfold Immune_unapply.
  rewrite (seq_run _ _ _ _ (Immune_remove_immunity_run _ _)).
  unfold the_current_player. rewrite bind_run.
  rewrite current_player_update_minion. apply unbind_eq.
Qed.

(** X3.  Immunity is not counted.  With two [Immune] effects on the same
    minion, [unapply()] of one of them ends the immunity although the other
    is still applied and subscribed. *)
Theorem Immune_unapply_ends_shared_immunity (w : World) (e1 e2 t : nat) :
  effect_store w !!! e1 = {| target := t; state := Immune |} →
  effect_store w !!! e2 = {| target := t; state := Immune |} →
  e1 ≠ e2 →
  let p := current_player w in
  let applied := Immune_apply e1 ;; Immune_apply e2 in
  let run := applied ;; Immune_unapply e1 in
  outcome run w = Ok tt
  ∧ immune (minion_store (exec applied w) !!! t) = true
  ∧ immune (minion_store (exec run w) !!! t) = false
  ∧ (bound_Immune_remove_immunity e2, false)
    ∈ listeners (player_entity p) "turn_ended" (exec run w).
Proof.
  intros He1 He2 Hne p applied run.
  set (f1 := bound_Immune_remove_immunity e1).
  set (f2 := bound_Immune_remove_immunity e2).
  set (w1 := exec (bind (player_entity p) "turn_ended" f1)
               (exec (update_minion t (with_immune true)) w)).
  set (w2 := exec (bind (player_entity p) "turn_ended" f2)
               (exec (update_minion t (with_immune true)) w1)).
  set (w3 := exec (unbind (player_entity p) "turn_ended" f1)
               (exec (update_minion t (with_immune false)) w2)).
  assert (Hs1 : effect_store w1 = effect_store w).
  { subst w1. by rewrite effect_store_bind, effect_store_update_minion. }
  assert (Hs2 : effect_store w2 = effect_store w).
  { subst w2. by rewrite effect_store_bind, effect_store_update_minion. }
  assert (Hc1 : current_player w1 = p).
  { subst w1. by rewrite current_player_bind, current_player_update_minion. }
  assert (Hc2 : current_player w2 = p).
  { subst w2. by rewrite current_player_bind, current_player_update_minion. }
  assert (H1 : Immune_apply e1 w = (Ok tt, w1)).
  { rewrite Immune_apply_run, He1. reflexivity. }
  assert (H2 : Immune_apply e2 w1 = (Ok tt, w2)).
  { rewrite Immune_apply_run, Hs1, He2, Hc1. reflexivity. }
  assert (H3 : Immune_unapply e1 w2 = (Ok tt, w3)).
  { rewrite Immune_unapply_run, Hs2, He1, Hc2. reflexivity. }
  assert (Happ : applied w = (Ok tt, w2)).
  { subst applied. by rewrite (seq_run _ _ _ _ H1). }
  assert (Hrun : run w = (Ok tt, w3)).
  { subst run. by rewrite (seq_run _ _ _ _ Happ). }
  rewrite (run_outcome _ _ _ _ Hrun), (run_exec _ _ _ _ Hrun).
  rewrite (run_exec _ _ _ _ Happ).
  split; [done|]. split; [|split].
  - subst w2. rewrite minion_store_bind_player.
    by rewrite minion_store_update_minion, lookup_total_insert_eq.
  - subst w3. rewrite minion_store_unbind_player.
    by rewrite minion_store_update_minion, lookup_total_insert_eq.
  - subst w3. rewrite listeners_unbind_same.
    rewrite listeners_update_minion by done.
    apply remove_first_keeps.
    + subst w2. rewrite listeners_bind_same. set_solver.
    + unfold is_callback. cbn [fst]. apply bool_decide_eq_false_2.
      subst f1 f2. congruence.
Qed.

(** X4.  The immunity given by [apply()] lasts until the turn of the player
    whose turn it is ends: a [turn_ended] event of the other player leaves
    it, the one of that player ends it.  The subscription is not removed by
    the event. *)
Theorem Immune_lasts_until_turn_end (w : World) (self t depth : nat) :
  effect_store w !!! self = {| target := t; state := Immune |} →
  let p := current_player w in
  listeners (player_entity p) "turn_ended" w = [] →
  listeners (player_entity (opponent p)) "turn_ended" w = [] →
  let ended q := trigger (S depth) (player_entity q) "turn_ended" [] in
  let theirs := Immune_apply self ;; ended (opponent p) in
  let ours := Immune_apply self ;; ended p in
  outcome theirs w = Ok tt
  ∧ immune (minion_store (exec theirs w) !!! t) = true
  ∧ outcome ours w = Ok tt
  ∧ immune (minion_store (exec ours w) !!! t) = false
  ∧ listeners (player_entity p) "turn_ended" (exec ours w)
    = [(bound_Immune_remove_immunity self, false)].
Proof.
  intros He p Hl Hlo ended theirs ours.
  set (f := bound_Immune_remove_immunity self).
  set (w1 := exec (bind (player_entity p) "turn_ended" f)
               (exec (update_minion t (with_immune true)) w)).
  set (w2 := exec (update_minion t (with_immune false)) w1).
  assert (H1 : Immune_apply self w = (Ok tt, w1)).
  { rewrite Immune_apply_run, He. reflexivity. }
  assert (Hs1 : effect_store w1 = effect_store w).
  { subst w1. by rewrite effect_store_bind, effect_store_update_minion. }
  assert (Hl1 : listeners (player_entity p) "turn_ended" w1 = [(f, false)]).
  { subst w1. rewrite listeners_bind_same.
    by rewrite listeners_update_minion, Hl. }
  assert (Hlo1 : listeners (player_entity (opponent p)) "turn_ended" w1 = []).
  { subst w1. rewrite listeners_bind_other
      by (left; intros [=Hp]; by apply (opponent_ne' p)).
    by rewrite listeners_update_minion. }
  assert (Hcall : call (S depth) f [] w1 = (Ok tt, w2)).
  { cbn [call]. subst f. cbn iota.
    rewrite Immune_remove_immunity_run, Hs1, He. reflexivity. }
  assert (Htheirs : theirs w = (Ok tt, w1)).
  { subst theirs. rewrite (seq_run _ _ _ _ H1).
    by apply trigger_no_listener. }
  assert (Hours : ours w = (Ok tt, w2)).
  { subst ours. rewrite (seq_run _ _ _ _ H1).
    by apply (trigger_one_listener _ _ _ _ _ _ f). }
  rewrite (run_outcome _ _ _ _ Htheirs), (run_exec _ _ _ _ Htheirs).
  rewrite (run_outcome _ _ _ _ Hours), (run_exec _ _ _ _ Hours).
  split; [done|]. split; [|split; [done|split]].
  - subst w1. rewrite minion_store_bind_player.
    by rewrite minion_store_update_minion, lookup_total_insert_eq.
  - subst w2. by rewrite minion_store_update_minion, lookup_total_insert_eq.
  - subst w2. by rewrite listeners_update_minion.
Qed.

(** ** SummonOnDeath applied again, and unapplied *)

Lemma SummonOnDeath_calls_itself (depth : nat) (w : World) (self t : nat)
    (r : Card) (c : Z) (m : value) :
  effect_store w !!! self
  = {| target := t;
       state := SummonOnDeath r c
                  (Some (bound_SummonOnDeath_summon_replacement self)) |} →
  call depth (bound_SummonOnDeath_summon_replacement self) [m] w
  = (Raise RecursionError, w).
Proof.
  intros He. induction depth as [|depth IH]; [reflexivity|].
  cbn [call].
  rewrite (SummonOnDeath_summon_replacement_run _ w self t r c _ _ He).
  by rewrite bind_run, IH.
Qed.

(** X5.  A second [apply()] of the same instance captures the instance's
    own [summon_replacement] as the old deathrattle.  The deathrattle then
    calls itself without end: at every bound on the depth of calls it
    raises [RecursionError], and it summons nothing. *)
Theorem SummonOnDeath_applied_twice_recurses
    (w : World) (self t depth : nat) (r : Card) (c : Z)
    (old : option callback) (m : value) :
  effect_store w !!! self = {| target := t; state := SummonOnDeath r c old |} →
  let applied := SummonOnDeath_apply self ;; SummonOnDeath_apply self in
  let w2 := exec applied w in
  outcome applied w = Ok tt
  ∧ deathrattle (minion_store w2 !!! t)
    = Some (bound_SummonOnDeath_summon_replacement self)
  ∧ state (effect_store w2 !!! self)
    = SummonOnDeath r c (Some (bound_SummonOnDeath_summon_replacement self))
  ∧ call depth (bound_SummonOnDeath_summon_replacement self) [m] w2
    = (Raise RecursionError, w2).
Proof.
  intros He applied w2.
  pose proof (SummonOnDeath_apply_run w self t r c old He) as R1.
  set (w1 := set_minion_store _ _) in R1.
  assert (He1 : effect_store w1 !!! self
                = {| target := t;
                     state := SummonOnDeath r c
                                (deathrattle (minion_store w !!! t)) |}).
  { subst w1. cbn [effect_store set_minion_store set_effect_store].
    by rewrite lookup_total_insert_eq. }
  pose proof (SummonOnDeath_apply_run w1 self t r c _ He1) as R2.
  assert (Hm1 : minion_store w1 !!! t
                = with_deathrattle
                    (Some (bound_SummonOnDeath_summon_replacement self))
                    (minion_store w !!! t)).
  { subst w1. cbn [minion_store set_minion_store].
    by rewrite lookup_total_insert_eq. }
  rewrite Hm1 in R2. cbn [deathrattle with_deathrattle] in R2.
  assert (Happ : applied w = (Ok tt, w2)).
  { subst w2 applied. unfold exec. by rewrite (seq_run _ _ _ _ R1), R2. }
  assert (Hw2 : w2 = (applied w).2) by reflexivity.
  rewrite (seq_run _ _ _ _ R1 : applied w = _), R2 in Hw2. cbn [snd] in Hw2.
  assert (He2 : effect_store w2 !!! self
                = {| target := t;
                     state := SummonOnDeath r c
                       (Some (bound_SummonOnDeath_summon_replacement self)) |}).
  { rewrite Hw2. cbn [effect_store set_minion_store set_effect_store].
    by rewrite lookup_total_insert_eq. }
  rewrite (run_outcome _ _ _ _ Happ).
  split; [done|]. split; [|split].
  - rewrite Hw2. cbn [minion_store set_minion_store].
    by rewrite lookup_total_insert_eq.
  - by rewrite He2.
  - by apply (SummonOnDeath_calls_itself depth w2 self t r c m).
Qed.

(** X6.  [unapply()] does not take the deathrattle back.  After [apply()]
    and [unapply()] the slot of the target still holds
    [summon_replacement]; on a target that had no deathrattle, calling it
    summons [count] minions of the replacement card at the end of the
    owner's board, and none when [count] is zero or negative. *)
Theorem SummonOnDeath_unapply_keeps_deathrattle
    (w : World) (self t depth : nat) (r : Card) (c : Z)
    (old : option callback) :
  effect_store w !!! self = {| target := t; state := SummonOnDeath r c old |} →
  t < next_object w →
  deathrattle (minion_store w !!! t) = None →
  let p := player (minion_store w !!! t) in
  let run := apply self ;; unapply self in
  let w2 := exec run w in
  let dies :=
    call (S depth) (bound_SummonOnDeath_summon_replacement self)
      [VMinion t] in
  outcome run w = Ok tt
  ∧ deathrattle (minion_store w2 !!! t)
    = Some (bound_SummonOnDeath_summon_replacement self)
  ∧ outcome dies w2 = Ok tt
  ∧ minions (get_player p (exec dies w2))
    = minions (get_player p w) ++ seq (next_object w) (Z.to_nat c)
  ∧ (∀ i, i < Z.to_nat c →
       minion_store (exec dies w2) !!! (next_object w + i) = new_minion r p).
Proof.
  intros He Ht Hd p run w2 dies.
  pose proof (SummonOnDeath_apply_run w self t r c old He) as R1.
  rewrite Hd in R1.
  set (w1 := set_minion_store _ _) in R1.
  assert (He1 : effect_store w1 !!! self
                = {| target := t; state := SummonOnDeath r c None |}).
  { subst w1. cbn [effect_store set_minion_store set_effect_store].
    by rewrite lookup_total_insert_eq. }
  assert (Hm1 : minion_store w1 !!! t
                = with_deathrattle
                    (Some (bound_SummonOnDeath_summon_replacement self))
                    (minion_store w !!! t)).
  { subst w1. cbn [minion_store set_minion_store].
    by rewrite lookup_total_insert_eq. }
  assert (Happ : apply self w = (Ok tt, w1)).
  { unfold apply, the_effect. rewrite bind_run, He. cbn [state]. exact R1. }
  assert (Hrun : run w = (Ok tt, w1)).
  { subst run. rewrite (seq_run _ _ _ _ Happ).
    unfold unapply, the_effect. rewrite bind_run, He1. reflexivity. }
  assert (Hw2 : w2 = w1) by apply (run_exec _ _ _ _ Hrun).
  rewrite (run_outcome _ _ _ _ Hrun), Hw2.
  assert (Hn1 : next_object w1 = next_object w) by reflexivity.
  assert (Hb1 : get_player p w1 = get_player p w) by (by destruct p).
  assert (Hdies : dies w1
                  = (Ok tt, fold_left (place_at_end p)
                              (replicate (Z.to_nat c) r) w1)).
  { subst dies. cbn [call].
    rewrite (SummonOnDeath_summon_replacement_run _ w1 self t r c _ _ He1).
    rewrite (seq_run _ _ w1 w1) by reflexivity.
    rewrite for_each_summon_at_end.
    - rewrite He1. cbn [target]. by rewrite Hm1.
    - rewrite He1. cbn [target]. by rewrite Hn1. }
  destruct (fold_place_at_end (replicate (Z.to_nat c) r) p w1)
    as (_ & _ & _ & Hb & _ & Hnew).
  rewrite length_replicate in Hb. rewrite Hn1 in Hb, Hnew.
  rewrite (run_outcome _ _ _ _ Hdies), (run_exec _ _ _ _ Hdies).
  split; [done|]. split; [by rewrite Hm1|]. split; [done|]. split.
  - by rewrite Hb, Hb1.
  - intros i Hi. apply Hnew. by apply lookup_replicate_2.
Qed.

(** ** The listener of DoubleDeathrattle *)

Lemma DoubleDeathrattle_trigger_deathrattle_run
    (invoke : callback → list value → M unit) (w : World) (minion : nat) :
  DoubleDeathrattle_trigger_deathrattle invoke minion w
  = match deathrattle (minion_store w !!! minion) with
    | Some f => invoke f [VMinion minion] w
    | None => (Raise TypeError, w)
    end.
Proof.
  unfold DoubleDeathrattle_trigger_deathrattle, the_minion.
  rewrite bind_run. by destruct (deathrattle _).
Qed.

(** X7.  [trigger_deathrattle] calls the deathrattle slot of the dead
    minion without looking at it.  For a minion whose slot is empty the
    call raises [TypeError] and changes nothing; a [minion_died] event whose
    first listener it is ends with that exception, whatever listeners
    follow. *)
Theorem DoubleDeathrattle_empty_slot_raises
    (w : World) (self minion depth : nat) (killed_by : value)
    (p : player_id) (rest : list (callback * bool)) :
  deathrattle (minion_store w !!! minion) = None →
  listeners (player_entity p) "minion_died" w
  = (bound_DoubleDeathrattle_trigger_deathrattle self, false) :: rest →
  call (S depth) (bound_DoubleDeathrattle_trigger_deathrattle self)
    [VMinion minion; killed_by] w = (Raise TypeError, w)
  ∧ trigger (S depth) (player_entity p) "minion_died"
      [VMinion minion; killed_by] w = (Raise TypeError, w).
Proof.
  intros Hd Hl.
  assert (Hcall : call (S depth)
                    (bound_DoubleDeathrattle_trigger_deathrattle self)
                    [VMinion minion; killed_by] w = (Raise TypeError, w)).
  { cbn [call]. by rewrite DoubleDeathrattle_trigger_deathrattle_run, Hd. }
  split; [exact Hcall|].
  unfold trigger. rewrite Hl. cbn [for_each fst snd].
  by rewrite !bind_run, Hcall.
Qed.

(** X8.  For a dead minion whose deathrattle is the [summon_replacement] of
    a [SummonOnDeath] effect, [trigger_deathrattle] runs that deathrattle
    once more: [count] further minions of the replacement card are summoned
    at the end of the owner's board. *)
Theorem DoubleDeathrattle_repeats_summon
    (w : World) (self e t depth : nat) (r : Card) (c : Z) (killed_by : value) :
  effect_store w !!! e = {| target := t; state := SummonOnDeath r c None |} →
  deathrattle (minion_store w !!! t)
  = Some (bound_SummonOnDeath_summon_replacement e) →
  t < next_object w →
  let p := player (minion_store w !!! t) in
  let again :=
    call (S (S depth)) (bound_DoubleDeathrattle_trigger_deathrattle self)
      [VMinion t; killed_by] in
  outcome again w = Ok tt
  ∧ minions (get_player p (exec again w))
    = minions (get_player p w) ++ seq (next_object w) (Z.to_nat c)
  ∧ (∀ i, i < Z.to_nat c →
       minion_store (exec again w) !!! (next_object w + i) = new_minion r p)
  ∧ (∀ m, m < next_object w →
       minion_store (exec again w) !!! m = minion_store w !!! m).
Proof.
  intros He Hd Ht p again.
  assert (Hrun : again w
                 = (Ok tt, fold_left (place_at_end p)
                             (replicate (Z.to_nat c) r) w)).
  { subst again. cbn [call].
    rewrite DoubleDeathrattle_trigger_deathrattle_run, Hd.
    cbn [call].
    rewrite (SummonOnDeath_summon_replacement_run _ w e t r c _ _ He).
    rewrite (seq_run _ _ w w) by reflexivity.
    rewrite for_each_summon_at_end.
    - by rewrite He.
    - by rewrite He. }
  destruct (fold_place_at_end (replicate (Z.to_nat c) r) p w)
    as (_ & _ & _ & Hb & Hold & Hnew).
  rewrite length_replicate in Hb.
  rewrite (run_outcome _ _ _ _ Hrun), (run_exec _ _ _ _ Hrun).
  split; [done|]. split; [exact Hb|]. split; [|exact Hold].
  intros i Hi. apply Hnew. by apply lookup_replicate_2.
Qed.

(** ** Mana filters registered and removed *)

Lemma mana_filters_append_eq (p : player_id) (f : Filter) (w : World) :
  mana_filters_append p f w = (Ok tt, exec (mana_filters_append p f) w).
Proof. reflexivity. Qed.

Lemma get_player_mana_filters_append (p q : player_id) (f : Filter)
    (w : World) :
  get_player q (exec (mana_filters_append p f) w)
  = if decide (p = q)
    then with_mana_filters (mana_filters (get_player p w) ++ [f])
           (get_player p w)
    else get_player q w.
Proof.
  unfold mana_filters_append. destruct (decide (p = q)) as [<-|Hne].
  - by rewrite get_player_update_player.
  - by rewrite get_player_update_player_ne.
Qed.

Lemma mana_filters_remove_missing (p : player_id) (f : Filter) (w : World) :
  f ∉ mana_filters (get_player p w) →
  mana_filters_remove p (Some f) w = (Raise ValueError, w).
Proof.
  intros Hin. unfold mana_filters_remove, the_player.
  rewrite bind_run. cbn [fst snd]. unfold lift, list_remove.
  rewrite bind_run. by rewrite bool_decide_eq_false_2.
Qed.

Lemma mana_filters_remove_None (p : player_id) (w : World) :
  mana_filters_remove p None w = (Raise ValueError, w).
Proof. reflexivity. Qed.

Lemma with_mana_filters_same (x : Player) (l : list Filter) :
  with_mana_filters (mana_filters x) (with_mana_filters l x) = x.
Proof. by destruct x. Qed.

Lemma get_player_set_current_player (p q : player_id) (w : World) :
  get_player p (set_current_player q w) = get_player p w.
Proof. by destruct p. Qed.

Lemma opponent_opponent (p : player_id) : opponent (opponent p) = p.
Proof. by destruct p. Qed.

Lemma IncreaseBattlecryMinionCost_apply_run (w : World) (self t : nat)
    (amt : Z) (mf : option Filter) :
  effect_store w !!! self
  = {| target := t; state := IncreaseBattlecryMinionCost amt mf |} →
  let p := current_player w in
  let f := {| filter_obj := next_object w; amount := - amt; min := 0;
              filter := filter_battlecry_minion |} in
  IncreaseBattlecryMinionCost_apply self w
  = (Ok tt,
     exec (mana_filters_append (opponent p) f)
       (exec (mana_filters_append p f)
          (exec (update_state self (IncreaseBattlecryMinionCost amt (Some f)))
             (exec new_object w)))).
Proof.
  intros He p f.
  unfold IncreaseBattlecryMinionCost_apply, the_effect.
  rewrite bind_run, He. cbn [state].
  rewrite bind_run, new_object_eq. cbv zeta. fold f.
  rewrite (seq_run _ _ _ _ (update_state_eq _ _ _)).
  unfold the_current_player. rewrite bind_run.
  rewrite current_player_update_state.
  change (current_player (exec new_object w)) with p.
  by rewrite (seq_run _ _ _ _ (mana_filters_append_eq _ _ _)).
Qed.

(** X9.  [IncreaseBattlecryMinionCost.apply()] registers one and the same
    [Filter] object, with amount [-amount] and minimum 0, at the end of the
    filter lists of both players.  [unapply()] removes it from both lists
    and leaves the players and minions as they were before [apply()],
    whichever player's turn it is when [unapply()] runs. *)
Theorem IncreaseBattlecryMinionCost_round_trip
    (w : World) (self t : nat) (amt : Z) (mf : option Filter)
    (q : player_id) :
  effect_store w !!! self
  = {| target := t; state := IncreaseBattlecryMinionCost amt mf |} →
  filters_allocated w →
  let f := {| filter_obj := next_object w; amount := - amt; min := 0;
              filter := filter_battlecry_minion |} in
  let w1 := exec (apply self) w in
  let w2 := exec (unapply self) (set_current_player q w1) in
  outcome (apply self) w = Ok tt
  ∧ (∀ p, mana_filters (get_player p w1)
          = mana_filters (get_player p w) ++ [f])
  ∧ outcome (unapply self) (set_current_player q w1) = Ok tt
  ∧ (∀ p, get_player p w2 = get_player p w)
  ∧ minion_store w2 = minion_store w.
Proof.
  intros He Hfresh f w1 w2.
  set (p := current_player w).
  set (st := IncreaseBattlecryMinionCost amt (Some f)).
  set (w0 := exec (update_state self st) (exec new_object w)).
  set (wa := exec (mana_filters_append (opponent p) f)
               (exec (mana_filters_append p f) w0)).
  assert (Happ : apply self w = (Ok tt, wa)).
  { unfold apply, the_effect. rewrite bind_run, He. cbn [state].
    exact (IncreaseBattlecryMinionCost_apply_run w self t amt mf He). }
  assert (Hw1 : w1 = wa) by apply (run_exec _ _ _ _ Happ).
  assert (Hpl : ∀ r, get_player r wa
                     = with_mana_filters (mana_filters (get_player r w) ++ [f])
                         (get_player r w)).
  { intros r. subst wa. rewrite !get_player_mana_filters_append.
    destruct (decide (opponent p = r)) as [<-|Hr].
    - rewrite decide_False by apply opponent_ne'. by destruct p.
    - assert (r = p) as -> by (by destruct r, p).
      rewrite decide_True by done. by destruct p. }
  assert (He1 : effect_store (set_current_player q wa) !!! self
                = {| target := t; state := st |}).
  { change (effect_store (set_current_player q wa)) with (effect_store w0).
    subst w0. rewrite effect_store_update_state, lookup_total_insert_eq.
    change (effect_store (exec new_object w)) with (effect_store w).
    by rewrite He. }
  assert (Hfresh' : ∀ r, Forall (λ g, filter_obj g ≠ filter_obj f)
                           (mana_filters (get_player r w))).
  { intros r. exact (Hfresh r). }
  set (wb := exec (update_player q
                     (with_mana_filters (mana_filters (get_player q w))))
               (set_current_player q wa)).
  set (wc := exec (update_player (opponent q)
                     (with_mana_filters
                        (mana_filters (get_player (opponent q) w)))) wb).
  assert (R1 : mana_filters_remove q (Some f) (set_current_player q wa)
               = (Ok tt, wb)).
  { rewrite mana_filters_remove_run.
    - rewrite get_player_set_current_player, Hpl.
      cbn [mana_filters with_mana_filters].
      by rewrite remove_appended_filter.
    - rewrite get_player_set_current_player, Hpl.
      cbn [mana_filters with_mana_filters]. set_solver. }
  assert (Hob : get_player (opponent q) wb = get_player (opponent q) wa).
  { subst wb. rewrite get_player_update_player_ne by apply opponent_ne'.
    apply get_player_set_current_player. }
  assert (R2 : mana_filters_remove (opponent q) (Some f) wb = (Ok tt, wc)).
  { rewrite mana_filters_remove_run.
    - rewrite Hob, Hpl. cbn [mana_filters with_mana_filters].
      by rewrite remove_appended_filter.
    - rewrite Hob, Hpl. cbn [mana_filters with_mana_filters]. set_solver. }
  assert (Hun : unapply self (set_current_player q wa) = (Ok tt, wc)).
  { unfold unapply, the_effect. rewrite bind_run, He1.
    unfold st at 1. cbn [state].
    unfold IncreaseBattlecryMinionCost_unapply, the_effect.
    rewrite bind_run, He1. unfold st at 1. cbn [state].
    unfold the_current_player. rewrite bind_run.
    change (current_player (set_current_player q wa)) with q.
    by rewrite (seq_run _ _ _ _ R1). }
  rewrite (run_outcome _ _ _ _ Happ).
  subst w2. rewrite Hw1.
  rewrite (run_outcome _ _ _ _ Hun), (run_exec _ _ _ _ Hun).
  split; [done|]. split; [|split; [done|split]].
  - intros r. by rewrite Hpl.
  - intros r. subst wc.
    destruct (decide (r = opponent q)) as [->|Hr].
    + rewrite get_player_update_player, Hob, Hpl.
      cbn [with_mana_filters]. by destruct (get_player (opponent q) w).
    + assert (r = q) as -> by (by destruct r, q).
      rewrite get_player_update_player_ne by apply opponent_ne.
      subst wb. rewrite get_player_update_player.
      rewrite get_player_set_current_player, Hpl.
      cbn [with_mana_filters]. by destruct (get_player q w).
  - reflexivity.
Qed.

(** X10.  [unapply()] of a mana filter effect that was never applied: the
    stored filter object is [None], and [list.remove] raises [ValueError].
    [IncreaseBattlecryMinionCost] always raises; [ManaFilter] raises when
    its player selector is "friendly", "enemy" or "both" and returns
    normally otherwise.  Nothing is changed in either case. *)
Theorem mana_filter_unapply_before_apply (w : World) (self t : nat) :
  (∀ amt,
     effect_store w !!! self
     = {| target := t; state := IncreaseBattlecryMinionCost amt None |} →
     unapply self w = (Raise ValueError, w))
  ∧ (∀ amt filter_type minimum plr,
       effect_store w !!! self
       = {| target := t;
            state := ManaFilter amt filter_type minimum plr None |} →
       unapply self w
       = if bool_decide (plr = "friendly") || bool_decide (plr = "enemy")
            || bool_decide (plr = "both")
         then (Raise ValueError, w) else (Ok tt, w)).
Proof.
  split.
  - intros amt He. unfold unapply, the_effect. rewrite bind_run, He.
    cbn [state]. unfold IncreaseBattlecryMinionCost_unapply, the_effect.
    rewrite bind_run, He. reflexivity.
  - intros amt filter_type minimum plr He.
    unfold unapply, the_effect. rewrite bind_run, He. cbn [state].
    unfold ManaFilter_unapply, the_effect. rewrite bind_run, He. cbn [state].
    rewrite bind_run, self_target_player_run.
    destruct (bool_decide (plr = "friendly")) eqn:Hf;
      destruct (bool_decide (plr = "enemy")) eqn:Hen;
      destruct (bool_decide (plr = "both")) eqn:Hb;
      cbn [orb]; rewrite ?bind_run, ?mana_filters_remove_None; reflexivity.
Qed.

Lemma mana_filters_remove_effect_store (p : player_id) (f : option Filter)
    (w : World) :
  effect_store (exec (mana_filters_remove p f) w) = effect_store w.
Proof.
  unfold exec, mana_filters_remove, the_player. rewrite bind_run.
  destruct f as [f|]; [|reflexivity].
  unfold lift, list_remove. rewrite bind_run.
  by destruct (bool_decide _).
Qed.

(** The [Filter] object that [ManaFilter.apply] builds. *)
Lemma ManaFilter_apply_run (w : World) (self t : nat) (amt minimum : Z)
    (filter_type plr : string) (filter_object : option Filter) :
  effect_store w !!! self
  = {| target := t;
       state := ManaFilter amt filter_type minimum plr filter_object |} →
  let p := player (minion_store w !!! t) in
  let f := {| filter_obj := next_object w; amount := amt; min := minimum;
              filter :=
                if bool_decide (filter_type = "minion") then filter_minion
                else if bool_decide (filter_type = "spell") then filter_spell
                else if bool_decide (filter_type = "secret")
                     then filter_secret
                else filter_any |} in
  let w0 := exec (update_state self
                    (ManaFilter amt filter_type minimum plr (Some f)))
              (exec new_object w) in
  apply self w
  = ((if bool_decide (plr = "friendly") || bool_decide (plr = "both")
      then mana_filters_append p f else skip) ;;
     (if bool_decide (plr = "enemy") || bool_decide (plr = "both")
      then mana_filters_append (opponent p) f else skip)) w0.
Proof.
  intros He p f w0.
  assert (He0 : effect_store w0 !!! self
                = {| target := t;
                     state := ManaFilter amt filter_type minimum plr
                                (Some f) |}).
  { subst w0. rewrite effect_store_update_state, lookup_total_insert_eq.
    change (effect_store (exec new_object w)) with (effect_store w).
    by rewrite He. }
  unfold apply, the_effect. rewrite bind_run, He. cbn [state].
  unfold ManaFilter_apply, the_effect. rewrite bind_run, He. cbn [state].
  cbv zeta. rewrite bind_run, new_object_eq. cbv zeta. fold f.
  rewrite (seq_run _ _ _ _ (update_state_eq _ _ _)). fold w0.
  rewrite bind_run, self_target_player_run, He0. cbn [target].
  change (minion_store w0) with (minion_store w). fold p.
  reflexivity.
Qed.

(** X11.  [ManaFilter.apply()] builds one new [Filter] object with the
    amount and the minimum of the effect, stores it in the effect and
    appends it to the filter list of the owner of the target for the
    selectors "friendly" and "both" and to the list of the opponent for
    "enemy" and "both"; with any other selector it is appended to no list.
    The predicate of the filter asks [c.is_spell()] for the filter type
    "spell" and accepts every card for a filter type that is none of
    "minion", "spell" and "secret"; for "minion" and "secret" it is built
    all the same, and calling it raises [NameError], whatever the card is:
    the module defines neither [MinionCard] nor [SecretCard]. *)
Theorem ManaFilter_apply_registers
    (w : World) (self t : nat) (amt minimum : Z)
    (filter_type plr : string) (filter_object : option Filter) :
  effect_store w !!! self
  = {| target := t;
       state := ManaFilter amt filter_type minimum plr filter_object |} →
  let p := player (minion_store w !!! t) in
  let w1 := exec (apply self) w in
  outcome (apply self) w = Ok tt
  ∧ ∃ f,
      state (effect_store w1 !!! self)
      = ManaFilter amt filter_type minimum plr (Some f)
      ∧ filter_obj f = next_object w
      ∧ amount f = amt
      ∧ min f = minimum
      ∧ (∀ c, card_filter_matches (filter f) c
              = if bool_decide (filter_type = "minion")
                then Raise (NameError "MinionCard")
                else if bool_decide (filter_type = "spell")
                then Ok (is_spell c)
                else if bool_decide (filter_type = "secret")
                then Raise (NameError "SecretCard")
                else Ok true)
      ∧ mana_filters (get_player p w1)
        = mana_filters (get_player p w)
          ++ (if bool_decide (plr = "friendly") || bool_decide (plr = "both")
              then [f] else [])
      ∧ mana_filters (get_player (opponent p) w1)
        = mana_filters (get_player (opponent p) w)
          ++ (if bool_decide (plr = "enemy") || bool_decide (plr = "both")
              then [f] else []).
Proof.
  intros He p w1.
  pose proof (ManaFilter_apply_run w self t amt minimum filter_type plr
                filter_object He) as Happ.
  cbv zeta in Happ. fold p in Happ.
  set (f := {| filter_obj := next_object w; amount := amt; min := minimum;
               filter := _ |}) in Happ.
  set (w0 := exec (update_state self _) (exec new_object w)) in Happ.
  assert (He0 : effect_store w0 !!! self
                = {| target := t;
                     state := ManaFilter amt filter_type minimum plr
                                (Some f) |}).
  { subst w0. rewrite effect_store_update_state, lookup_total_insert_eq.
    change (effect_store (exec new_object w)) with (effect_store w).
    by rewrite He. }
  assert (Hpl0 : ∀ q, get_player q w0 = get_player q w)
    by (intros q; by destruct q).
  set (friendly := bool_decide (plr = "friendly") || bool_decide (plr = "both"))
    in *.
  set (enemy := bool_decide (plr = "enemy") || bool_decide (plr = "both")) in *.
  assert (Hrun : ∃ w', apply self w = (Ok tt, w')
                       ∧ effect_store w' = effect_store w0
                       ∧ mana_filters (get_player p w')
                         = mana_filters (get_player p w)
                           ++ (if friendly then [f] else [])
                       ∧ mana_filters (get_player (opponent p) w')
                         = mana_filters (get_player (opponent p) w)
                           ++ (if enemy then [f] else [])).
  { rewrite Happ. destruct friendly, enemy.
    - exists (exec (mana_filters_append (opponent p) f)
                (exec (mana_filters_append p f) w0)).
      split; [reflexivity|]. split; [reflexivity|].
      rewrite !get_player_mana_filters_append.
      rewrite decide_False by apply opponent_ne.
      rewrite !decide_True by done.
      rewrite decide_False by apply opponent_ne'.
      by rewrite !Hpl0.
    - exists (exec (mana_filters_append p f) w0).
      split; [reflexivity|]. split; [reflexivity|].
      rewrite !get_player_mana_filters_append.
      rewrite decide_True by done.
      rewrite decide_False by apply opponent_ne'.
      by rewrite !Hpl0, app_nil_r.
    - exists (exec (mana_filters_append (opponent p) f) w0).
      split; [reflexivity|]. split; [reflexivity|].
      rewrite !get_player_mana_filters_append.
      rewrite decide_False by apply opponent_ne.
      rewrite decide_True by done.
      by rewrite !Hpl0, app_nil_r.
    - exists w0. split; [reflexivity|]. split; [reflexivity|].
      by rewrite !Hpl0, !app_nil_r. }
  destruct Hrun as (w' & Hrun & He' & Hp' & Ho').
  rewrite (run_outcome _ _ _ _ Hrun). subst w1.
  rewrite (run_exec _ _ _ _ Hrun).
  split; [done|]. exists f. rewrite He', He0.
  split; [done|]. split; [done|]. split; [done|]. split; [done|].
  split; [|done].
  intros c. subst f. cbn [filter].
  by repeat case_bool_decide.
Qed.

(** X12.  [ManaFilter.unapply()] is not repeatable.  After [apply()] and
    [unapply()], a second [unapply()] of an effect whose selector is
    "friendly", "enemy" or "both" finds the filter object in no list, raises
    [ValueError] and changes nothing. *)
Theorem ManaFilter_unapply_twice_raises
    (w : World) (self t : nat) (amt minimum : Z)
    (filter_type plr : string) (filter_object : option Filter) :
  effect_store w !!! self
  = {| target := t;
       state := ManaFilter amt filter_type minimum plr filter_object |} →
  filters_allocated w →
  plr = "friendly" ∨ plr = "enemy" ∨ plr = "both" →
  let once := apply self ;; unapply self in
  outcome once w = Ok tt
  ∧ unapply self (exec once w) = (Raise ValueError, exec once w).
Proof.
  intros He Hfresh Hplr once.
  set (p := player (minion_store w !!! t)).
  pose proof (ManaFilter_apply_run w self t amt minimum filter_type plr
                filter_object He) as Happ.
  cbv zeta in Happ. fold p in Happ.
  set (f := {| filter_obj := next_object w; amount := amt; min := minimum;
               filter := _ |}) in Happ.
  set (st := ManaFilter amt filter_type minimum plr (Some f)) in Happ.
  set (w0 := exec (update_state self st) (exec new_object w)) in Happ.
  set (friendly := bool_decide (plr = "friendly") || bool_decide (plr = "both"))
    in *.
  set (enemy := bool_decide (plr = "enemy") || bool_decide (plr = "both")) in *.
  assert (Hsel : friendly || enemy = true).
  { subst friendly enemy.
    destruct Hplr as [-> | [-> | ->]]; reflexivity. }
  destruct (mana_filters_register_remove friendly enemy p f w0)
    as (w1 & w2 & R1 & He1 & Hm1 & R2 & Hres).
  { intros q. exact (Hfresh q). }
  assert (He0 : effect_store w0 !!! self = {| target := t; state := st |}).
  { subst w0. rewrite effect_store_update_state, lookup_total_insert_eq.
    change (effect_store (exec new_object w)) with (effect_store w).
    by rewrite He. }
  assert (Hrem : ∀ wx,
            effect_store wx !!! self = {| target := t; state := st |} →
            player (minion_store wx !!! t) = p →
            unapply self wx
            = ((if friendly then mana_filters_remove p (Some f) else skip) ;;
               (if enemy then mana_filters_remove (opponent p) (Some f)
                else skip)) wx).
  { intros wx Hex Hpx.
    unfold unapply, the_effect. rewrite bind_run, Hex.
    unfold st at 1. cbn [state].
    unfold ManaFilter_unapply, the_effect.
    rewrite bind_run, Hex. unfold st at 1. cbn [state].
    rewrite bind_run, self_target_player_run, Hex. cbn [target].
    by rewrite Hpx. }
  assert (Hun : unapply self w1 = (Ok tt, w2)).
  { rewrite Hrem; [exact R2| by rewrite He1 | by rewrite Hm1]. }
  assert (Honce : once w = (Ok tt, w2)).
  { subst once. rewrite bind_run, Happ, R1. exact Hun. }
  rewrite (run_outcome _ _ _ _ Honce), (run_exec _ _ _ _ Honce).
  split; [done|].
  destruct Hres as [(Hpl & Hmin & _) _].
  assert (He2 : effect_store w2 !!! self = {| target := t; state := st |}).
  { assert (effect_store w2 = effect_store w1) as ->; [|by rewrite He1].
    rewrite <- (run_exec _ _ _ _ R2).
    destruct friendly, enemy; unfold exec; rewrite ?bind_run.
    - pose proof (mana_filters_remove_effect_store p (Some f) w1) as H1.
      unfold exec in H1.
      destruct (mana_filters_remove p (Some f) w1) as [[[]|e] wx];
        cbn [snd] in H1 |- *; [|done].
      pose proof (mana_filters_remove_effect_store (opponent p) (Some f) wx)
        as H2.
      unfold exec in H2. by rewrite H2.
    - pose proof (mana_filters_remove_effect_store p (Some f) w1) as H1.
      unfold exec in H1.
      by destruct (mana_filters_remove p (Some f) w1) as [[[]|e] wx].
    - apply (mana_filters_remove_effect_store (opponent p) (Some f) w1).
    - reflexivity. }
  assert (Hp2 : player (minion_store w2 !!! t) = p).
  { specialize (Hmin t).
    apply (f_equal player) in Hmin. cbn [player with_minion_events] in Hmin.
    by rewrite Hmin. }
  assert (Hnot : ∀ q, f ∉ mana_filters (get_player q w2)).
  { intros q Hin. specialize (Hpl q).
    apply (f_equal mana_filters) in Hpl.
    cbn [mana_filters with_player_events] in Hpl.
    rewrite Hpl in Hin.
    change (get_player q w0) with (get_player q w) in Hin.
    pose proof (Hfresh q) as Hq. rewrite Forall_forall in Hq.
    by apply (Hq f Hin). }
  rewrite Hrem by done.
  destruct friendly.
  - by rewrite bind_run, (mana_filters_remove_missing p f w2 (Hnot p)).
  - destruct enemy; [|done].
    rewrite (seq_run _ _ w2 w2) by reflexivity.
    apply mana_filters_remove_missing, Hnot.
Qed.

(** ** The chain over the filters that [ManaFilter.apply] registers *)

(** The world after [ManaFilter.apply()]: one new entry at the end of the
    list of every selected player, and nothing else of the players, the
    minions and the other effects. *)
Lemma ManaFilter_apply_world (w : World) (self t : nat) (amt minimum : Z)
    (filter_type plr : string) (filter_object : option Filter) :
  effect_store w !!! self
  = {| target := t;
       state := ManaFilter amt filter_type minimum plr filter_object |} →
  let p := player (minion_store w !!! t) in
  let f := {| filter_obj := next_object w; amount := amt; min := minimum;
              filter :=
                if bool_decide (filter_type = "minion") then filter_minion
                else if bool_decide (filter_type = "spell") then filter_spell
                else if bool_decide (filter_type = "secret")
                     then filter_secret
                else filter_any |} in
  ∃ w1, apply self w = (Ok tt, w1)
        ∧ (∀ e, e ≠ self → effect_store w1 !!! e = effect_store w !!! e)
        ∧ minion_store w1 = minion_store w
        ∧ (∀ q, mana_filters (get_player q w1)
                = mana_filters (get_player q w)
                  ++ (if selects plr p q then [f] else [])).
Proof.
  intros He p f.
  pose proof (ManaFilter_apply_run w self t amt minimum filter_type plr
                filter_object He) as Happ.
  cbv zeta in Happ. fold p in Happ. fold f in Happ.
  set (w0 := exec (update_state self _) (exec new_object w)) in Happ.
  assert (He0 : ∀ e, e ≠ self → effect_store w0 !!! e = effect_store w !!! e).
  { intros e Hne. subst w0.
    by rewrite effect_store_update_state, lookup_total_insert_ne. }
  assert (Hpl0 : ∀ q, get_player q w0 = get_player q w)
    by (intros q; by destruct q).
  rewrite Happ. unfold selects.
  destruct (bool_decide (plr = "friendly") || bool_decide (plr = "both")),
           (bool_decide (plr = "enemy") || bool_decide (plr = "both"));
    cbn [andb orb].
  - exists (exec (mana_filters_append (opponent p) f)
              (exec (mana_filters_append p f) w0)).
    split; [reflexivity|]. split; [exact He0|]. split; [reflexivity|].
    intros q. rewrite !get_player_mana_filters_append, <- !Hpl0.
    clearbody p. by destruct p, q.
  - exists (exec (mana_filters_append p f) w0).
    split; [reflexivity|]. split; [exact He0|]. split; [reflexivity|].
    intros q. rewrite !get_player_mana_filters_append, <- !Hpl0.
    clearbody p. destruct p, q; cbn; by rewrite ?app_nil_r.
  - exists (exec (mana_filters_append (opponent p) f) w0).
    split; [reflexivity|]. split; [exact He0|]. split; [reflexivity|].
    intros q. rewrite !get_player_mana_filters_append, <- !Hpl0.
    clearbody p. destruct p, q; cbn; by rewrite ?app_nil_r.
  - exists w0.
    split; [reflexivity|]. split; [exact He0|]. split; [reflexivity|].
    intros q. by rewrite Hpl0, app_nil_r.
Qed.

Lemma ManaFilter_step_ext (w w1 : World) (c : Card) (q : player_id)
    (cost : Z) (self : nat) :
  effect_store w1 !!! self = effect_store w !!! self →
  minion_store w1 = minion_store w →
  ManaFilter_step w1 c q cost self = ManaFilter_step w c q cost self.
Proof. intros He Hm. unfold ManaFilter_step. by rewrite He, Hm. Qed.

Lemma fold_left_ext_elem {A B : Type} (f g : A → B → A) (l : list B) (a : A) :
  (∀ a x, x ∈ l → f a x = g a x) → fold_left f l a = fold_left g l a.
Proof.
  revert a. induction l as [|x l IH]; intros a Hfg; cbn; [done|].
  rewrite (Hfg a x) by (apply elem_of_cons; by left).
  apply IH. intros a' y Hy. apply Hfg. apply elem_of_cons. by right.
Qed.

(** The entry of a [ManaFilter] whose predicate answers does the step of the
    effect. *)
Lemma ManaFilter_entry_step (w : World) (self t : nat) (amt minimum : Z)
    (filter_type plr : string) (filter_object : option Filter)
    (o : nat) (c : Card) (q : player_id) (cost : Z) :
  effect_store w !!! self
  = {| target := t;
       state := ManaFilter amt filter_type minimum plr filter_object |} →
  filter_type ≠ "minion" → filter_type ≠ "secret" →
  let f := {| filter_obj := o; amount := amt; min := minimum;
              filter :=
                if bool_decide (filter_type = "minion") then filter_minion
                else if bool_decide (filter_type = "spell") then filter_spell
                else if bool_decide (filter_type = "secret")
                     then filter_secret
                else filter_any |} in
  mana_cost_loop
    (if selects plr (player (minion_store w !!! t)) q then [f] else [])
    c cost
  = Ok (ManaFilter_step w c q cost self).
Proof.
  intros He Hm Hs f. unfold ManaFilter_step. rewrite He. cbn [state target].
  destruct (selects plr _ q); cbn [andb mana_cost_loop]; [|done].
  subst f. cbn [filter amount min].
  rewrite (bool_decide_eq_false_2 (filter_type = "minion")) by done.
  rewrite (bool_decide_eq_false_2 (filter_type = "secret")) by done.
  case_bool_decide; cbn [card_filter_matches]; [|done].
  by destruct (is_spell c).
Qed.

(** [ManaFilter] effects applied one after the other extend the chain of
    every player by their steps, in the order of application. *)
Lemma ManaFilter_apply_all (es : list nat) (w : World) :
  NoDup es →
  Forall (answering_ManaFilter w) es →
  ∃ w', for_each es apply w = (Ok tt, w')
        ∧ ∀ q c cost,
            mana_cost_loop (mana_filters (get_player q w')) c cost
            = match mana_cost_loop (mana_filters (get_player q w)) c cost with
              | Ok cost0 => Ok (fold_left (ManaFilter_step w c q) es cost0)
              | Raise e => Raise e
              end.
Proof.
  revert w. induction es as [|self es IH]; intros w Hnd Hall.
  - exists w. split; [reflexivity|]. intros q c cost. cbn [fold_left].
    by destruct (mana_cost_loop _ c cost).
  - apply NoDup_cons in Hnd as [Hnotin Hnd].
    apply Forall_cons in Hall as [Hself Hall].
    destruct Hself as (t & amt & ft & minimum & plr & fo & He & Hm & Hs).
    destruct (ManaFilter_apply_world w self t amt minimum ft plr fo He)
      as (w1 & R1 & He1 & Hms1 & Hf1).
    assert (Hall1 : Forall (answering_ManaFilter w1) es).
    { apply Forall_forall. intros e Hin.
      destruct (proj1 (Forall_forall _ _) Hall e Hin)
        as (t' & amt' & ft' & min' & plr' & fo' & He' & Hm' & Hs').
      exists t', amt', ft', min', plr', fo'.
      rewrite He1 by (intros ->; contradiction). done. }
    destruct (IH w1 Hnd Hall1) as (w' & R' & Hc').
    exists w'. split.
    { cbn [for_each]. by rewrite (seq_run _ _ _ _ R1). }
    intros q c cost. rewrite Hc', Hf1, mana_cost_loop_app.
    destruct (mana_cost_loop (mana_filters (get_player q w)) c cost)
      as [cost0|e]; [|done].
    rewrite (ManaFilter_entry_step w self t amt minimum ft plr fo
               (next_object w) c q cost0 He Hm Hs).
    cbn [fold_left]. f_equal.
    apply fold_left_ext_elem. intros a e Hin.
    apply ManaFilter_step_ext; [|done].
    apply He1. intros ->. contradiction.
Qed.

(** C2, with the final floor.  The effective cost of a card is the left
    fold over the entries of the player, in registration order, floored at
    0 once at the end: the fold starts at the base cost, and every entry whose predicate
    matches the card replaces the cost by [max (cost + amount) min], so that
    each filter clamps to its own floor before the next one is applied.
    [ManaFilter.apply()] appends the entry of the effect (its amount, its
    minimum) to the list of every player that its selector names: for
    [ManaFilter] effects [es] whose predicates answer, applied in this order,
    the cost is the fold of their steps, in this order, from the cost that
    the entries registered before give. *)
Theorem mana_cost_left_fold
    (w : World) (es : list nat) (q : player_id) (c : Card) :
  NoDup es →
  Forall (answering_ManaFilter w) es →
  let w' := exec (for_each es apply) w in
  outcome (for_each es apply) w = Ok tt
  ∧ mana_cost c q w'
    = floor_at_zero
        (match fold_left (mana_cost_step c) (mana_filters (get_player q w))
                 (Ok (mana c)) with
         | Ok cost0 => Ok (fold_left (ManaFilter_step w c q) es cost0)
         | Raise e => Raise e
         end)
  ∧ (mana_filters (get_player q w) = [] →
     mana_cost c q w'
     = Ok (Z.max (fold_left (ManaFilter_step w c q) es (mana c)) 0))
  ∧ mana_cost c q w'
    = floor_at_zero
        (fold_left (mana_cost_step c) (mana_filters (get_player q w'))
           (Ok (mana c))).
Proof.
  intros Hnd Hall w'.
  destruct (ManaFilter_apply_all es w Hnd Hall) as (w1 & R & Hc).
  rewrite (run_outcome _ _ _ _ R). subst w'. rewrite (run_exec _ _ _ _ R).
  assert (Hcost : mana_cost c q w1
                  = floor_at_zero
                      (mana_cost_loop (mana_filters (get_player q w1)) c
                         (mana c))) by reflexivity.
  split; [done|]. split; [|split].
  - by rewrite Hcost, Hc, mana_cost_loop_fold.
  - intros Hnil. by rewrite Hcost, Hc, Hnil.
  - by rewrite Hcost, mana_cost_loop_fold.
Qed.

(** ** Cards drawn and added *)

Lemma AddCardOnSpell_repeated (n : nat) (w : World) (self t depth : nat)
    (c : Card) (spell : value) :
  effect_store w !!! self = {| target := t; state := AddCardOnSpell c |} →
  let p := player (minion_store w !!! t) in
  let cast := call (S depth) (bound_AddCardOnSpell_add_card self) [spell] in
  ∃ w', repeat_times n cast w = (Ok tt, w')
        ∧ effect_store w' = effect_store w
        ∧ minion_store w' = minion_store w
        ∧ hand (get_player p w')
          = hand (get_player p w)
            ++ replicate (n `min` (10 - length (hand (get_player p w)))) c
        ∧ get_player (opponent p) w' = get_player (opponent p) w.
Proof.
  intros He p cast. revert w He p.
  induction n as [|n IH]; intros w He p.
  - exists w. cbn [repeat_times]. by rewrite app_nil_r.
  - cbn [repeat_times].
    assert (Hcast : cast w
                    = (Ok tt,
                       if bool_decide (length (hand (get_player p w)) < 10)
                       then set_player p
                              (with_hand (hand (get_player p w) ++ [c])
                                 (get_player p w)) w
                       else w)).
    { subst cast. cbn [call].
      exact (AddCardOnSpell_add_card_run w self t c He). }
    rewrite (seq_run _ _ _ _ Hcast).
    case_bool_decide as Hlen.
    + set (w1 := set_player p _ w).
      assert (He1 : effect_store w1 !!! self
                    = {| target := t; state := AddCardOnSpell c |}).
      { subst w1. by destruct p. }
      destruct (IH w1 He1) as (w' & R & Hes & Hms & Hh & Ho).
      change (minion_store w1) with (minion_store w) in R, Hh, Ho.
      fold p in R, Hh, Ho.
      exists w'. split; [exact R|].
      split; [by rewrite Hes|]. split; [by rewrite Hms|]. split.
      * rewrite Hh. subst w1. rewrite get_player_set_player.
        cbn [hand with_hand]. rewrite length_app. cbn [length].
        rewrite <- app_assoc. f_equal.
        replace (S n `min` (10 - length (hand (get_player p w))))
          with (S (n `min` (10 - (length (hand (get_player p w)) + 1))))
          by lia.
        reflexivity.
      * rewrite Ho. subst w1.
        by rewrite get_player_set_player_ne by apply opponent_ne'.
    + destruct (IH w He) as (w' & R & Hes & Hms & Hh & Ho).
      fold p in R, Hh, Ho.
      exists w'. split; [exact R|].
      split; [done|]. split; [done|]. split; [|done].
      rewrite Hh.
      replace (10 - length (hand (get_player p w))) with 0 by lia.
      by rewrite !Nat.min_0_r.
Qed.

(** X13.  Over [n] calls of the listener [add_card], one per spell cast,
    the hand of the owner of the target gets one copy of the card per call
    until it holds ten cards and none after that; a hand that holds ten
    cards or more is left as it is.  The opponent and the minions are not
    changed. *)
Theorem AddCardOnSpell_fills_hand_to_ten
    (n : nat) (w : World) (self t depth : nat) (c : Card) (spell : value) :
  effect_store w !!! self = {| target := t; state := AddCardOnSpell c |} →
  let p := player (minion_store w !!! t) in
  let casts :=
    repeat_times n
      (call (S depth) (bound_AddCardOnSpell_add_card self) [spell]) in
  outcome casts w = Ok tt
  ∧ hand (get_player p (exec casts w))
    = hand (get_player p w)
      ++ replicate (n `min` (10 - length (hand (get_player p w)))) c
  ∧ get_player (opponent p) (exec casts w) = get_player (opponent p) w
  ∧ minion_store (exec casts w) = minion_store w.
Proof.
  intros He p casts.
  destruct (AddCardOnSpell_repeated n w self t depth c spell He)
    as (w' & R & _ & Hms & Hh & Ho).
  fold p casts in R, Hh, Ho.
  rewrite (run_outcome _ _ _ _ R), (run_exec _ _ _ _ R).
  by repeat split.
Qed.

Lemma frozen_update_events (ent : entity) (f : events → events) (w : World)
    (m : nat) :
  frozen (minion_store (exec (update_events ent f) w) !!! m)
  = frozen (minion_store w !!! m).
Proof.
  pose proof (minion_update_events ent f w m) as Hm.
  by apply (f_equal frozen) in Hm.
Qed.

(** X14.  After [FreezeOnDamage.apply()], a [did_damage] event of the
    target freezes the damaged minion and no other minion, and the
    subscription stays. *)
Theorem FreezeOnDamage_freezes_damaged_minion
    (w : World) (self t damaged depth : nat) (amount : value) :
  effect_store w !!! self = {| target := t; state := FreezeOnDamage |} →
  listeners (minion_entity t) "did_damage" w = [] →
  let run :=
    apply self ;;
    trigger (S depth) (minion_entity t) "did_damage"
      [amount; VMinion damaged] in
  outcome run w = Ok tt
  ∧ frozen (minion_store (exec run w) !!! damaged) = true
  ∧ (∀ m, m ≠ damaged →
       frozen (minion_store (exec run w) !!! m)
       = frozen (minion_store w !!! m))
  ∧ listeners (minion_entity t) "did_damage" (exec run w)
    = [(bound_FreezeOnDamage_did_damage self, false)].
Proof.
  intros He Hl run.
  set (f := bound_FreezeOnDamage_did_damage self).
  set (w1 := exec (bind (minion_entity t) "did_damage" f) w).
  set (w2 := exec (update_minion damaged (with_frozen true)) w1).
  assert (Happ : apply self w = (Ok tt, w1)).
  { unfold apply, the_effect. rewrite bind_run, He. cbn [state].
    unfold FreezeOnDamage_apply. rewrite bind_run, self_target_run, He.
    apply bind_eq. }
  assert (Hl1 : listeners (minion_entity t) "did_damage" w1 = [(f, false)]).
  { subst w1. by rewrite listeners_bind_same, Hl. }
  assert (Hcall : call (S depth) f [amount; VMinion damaged] w1
                  = (Ok tt, w2)) by reflexivity.
  assert (Hrun : run w = (Ok tt, w2)).
  { subst run. rewrite (seq_run _ _ _ _ Happ).
    by apply (trigger_one_listener _ _ _ _ _ _ f). }
  rewrite (run_outcome _ _ _ _ Hrun), (run_exec _ _ _ _ Hrun).
  split; [done|]. split; [|split].
  - subst w2. by rewrite minion_store_update_minion, lookup_total_insert_eq.
  - intros m Hm. subst w2.
    rewrite minion_store_update_minion, lookup_total_insert_ne by done.
    subst w1. unfold bind. by rewrite frozen_update_events.
  - subst w2. by rewrite listeners_update_minion.
Qed.

Lemma DrawOnMinion_check_minion_draw_run (w : World) (self t new_minion : nat)
    (mtype : Z) :
  effect_store w !!! self = {| target := t; state := DrawOnMinion mtype |} →
  let p := player (minion_store w !!! t) in
  DrawOnMinion_check_minion_draw self new_minion w
  = if bool_decide (mtype ≠ ALL
                    ∧ minion_type (card (minion_store w !!! new_minion)) = mtype
                    ∧ new_minion ≠ t)
    then draw p w else (Ok tt, w).
Proof.
  intros He p.
  unfold DrawOnMinion_check_minion_draw, the_effect.
  rewrite bind_run, He. cbn [state target].
  unfold the_minion. rewrite bind_run.
  repeat case_bool_decide; cbn [negb andb]; try reflexivity; try tauto.
  - rewrite bind_run, self_target_player_run, He. reflexivity.
Qed.

(** X15.  After [DrawOnMinion.apply()], a [minion_placed] event of the
    owner of the target draws one card for the owner when the effect has a
    type other than [ALL], the placed minion has that type and it is not
    the target, and draws nothing otherwise.  The opponent never draws. *)
Theorem DrawOnMinion_draws_for_its_type
    (w : World) (self t new_minion depth : nat) (mtype : Z) :
  effect_store w !!! self = {| target := t; state := DrawOnMinion mtype |} →
  let p := player (minion_store w !!! t) in
  listeners (player_entity p) "minion_placed" w = [] →
  let run :=
    apply self ;;
    trigger (S depth) (player_entity p) "minion_placed"
      [VMinion new_minion] in
  outcome run w = Ok tt
  ∧ cards_drawn (get_player p (exec run w))
    = cards_drawn (get_player p w)
      + (if bool_decide
              (mtype ≠ ALL
               ∧ minion_type (card (minion_store w !!! new_minion)) = mtype
               ∧ new_minion ≠ t)
         then 1 else 0)
  ∧ cards_drawn (get_player (opponent p) (exec run w))
    = cards_drawn (get_player (opponent p) w).
Proof.
  intros He p Hl run.
  set (f := bound_DrawOnMinion_check_minion_draw self).
  set (w1 := exec (bind (player_entity p) "minion_placed" f) w).
  assert (Happ : apply self w = (Ok tt, w1)).
  { unfold apply, the_effect. rewrite bind_run, He. cbn [state].
    unfold DrawOnMinion_apply.
    rewrite bind_run, self_target_player_run, He. apply bind_eq. }
  assert (He1 : effect_store w1 !!! self
                = {| target := t; state := DrawOnMinion mtype |}).
  { subst w1. by rewrite effect_store_bind. }
  assert (Hl1 : listeners (player_entity p) "minion_placed" w1 = [(f, false)]).
  { subst w1. by rewrite listeners_bind_same, Hl. }
  pose proof (DrawOnMinion_check_minion_draw_run w1 self t new_minion mtype
                He1) as Hcall.
  cbv zeta in Hcall.
  change (minion_store w1) with (minion_store w) in Hcall. fold p in Hcall.
  assert (Hp1 : ∀ q, cards_drawn (get_player q w1)
                     = cards_drawn (get_player q w)).
  { intros q. subst w1. by destruct p, q. }
  case_bool_decide.
  - set (w2 := exec (update_player p
                       (λ x, with_cards_drawn (S (cards_drawn x)) x)) w1).
    assert (Hrun : run w = (Ok tt, w2)).
    { subst run. rewrite (seq_run _ _ _ _ Happ).
      by apply (trigger_one_listener _ _ _ _ _ _ f). }
    rewrite (run_outcome _ _ _ _ Hrun), (run_exec _ _ _ _ Hrun).
    subst w2. rewrite get_player_update_player.
    rewrite get_player_update_player_ne by apply opponent_ne'.
    cbn [cards_drawn with_cards_drawn]. rewrite !Hp1.
    split; [done|]. split; [lia|done].
  - assert (Hrun : run w = (Ok tt, w1)).
    { subst run. rewrite (seq_run _ _ _ _ Happ).
      by apply (trigger_one_listener _ _ _ _ _ _ f). }
    rewrite (run_outcome _ _ _ _ Hrun), (run_exec _ _ _ _ Hrun).
    rewrite !Hp1. split; [done|]. split; [lia|done].
Qed.

Lemma repeat_draw (n : nat) (p : player_id) (w : World) :
  ∃ w', repeat_times n (draw p) w = (Ok tt, w')
        ∧ cards_drawn (get_player p w') = cards_drawn (get_player p w) + n
        ∧ get_player (opponent p) w' = get_player (opponent p) w
        ∧ hand (get_player p w') = hand (get_player p w)
        ∧ minion_store w' = minion_store w.
Proof.
  revert w. induction n as [|n IH]; intros w.
  - exists w. cbn [repeat_times]. repeat split. lia.
  - cbn [repeat_times].
    rewrite (seq_run _ _ _ _ (update_player_eq _ _ _ : draw p w = _)).
    destruct (IH (exec (update_player p
                          (λ x, with_cards_drawn (S (cards_drawn x)) x)) w))
      as (w' & R & Hc & Ho & Hh & Hm).
    exists w'. split; [exact R|].
    rewrite get_player_update_player in Hc, Hh.
    rewrite get_player_update_player_ne in Ho by apply opponent_ne'.
    cbn [cards_drawn with_cards_drawn hand] in Hc, Hh.
    split; [lia|]. by repeat split.
Qed.

(** X16.  [DrawOnAttack.draw] draws [amount] cards, none when [amount] is
    zero or negative, for the first player when [first_player] is set and
    for the second otherwise, whoever owns the minion.  The other player
    and the minions are not changed. *)
Theorem DrawOnAttack_draws_for_fixed_player
    (w : World) (amount : Z) (first_player : bool) :
  let p := if first_player then Player1 else Player2 in
  let run := DrawOnAttack_draw amount first_player in
  outcome run w = Ok tt
  ∧ cards_drawn (get_player p (exec run w))
    = cards_drawn (get_player p w) + Z.to_nat amount
  ∧ get_player (opponent p) (exec run w) = get_player (opponent p) w
  ∧ minion_store (exec run w) = minion_store w.
Proof.
  intros p run.
  destruct (repeat_draw (Z.to_nat amount) p w) as (w' & R & Hc & Ho & _ & Hm).
  assert (Hrun : run w = (Ok tt, w')) by exact R.
  rewrite (run_outcome _ _ _ _ Hrun), (run_exec _ _ _ _ Hrun).
  by repeat split.
Qed.

(** ** The action of a Buff *)

Lemma with_stats_same (x : Minion) :
  with_attack (attack x + 0) (with_health (health x + 0) x) = x.
Proof.
  destruct x. unfold with_attack, with_health. cbn.
  by rewrite !Z.add_0_r.
Qed.

Lemma Buff_change_stats (tgt : nat) (att hp : Z) (w : World) :
  ∃ w', Buff_change tgt att hp w = (Ok tt, w')
        ∧ (∀ m, minion_store w' !!! m
                = if decide (m = tgt) then buffed att hp (minion_store w !!! tgt)
                  else minion_store w !!! m)
        ∧ (∀ q, get_player q w' = get_player q w)
        ∧ effect_store w' = effect_store w
        ∧ random_values w' = random_values w
        ∧ next_object w' = next_object w.
Proof.
  unfold Buff_change.
  assert (Hlook : ∀ (g : Minion → Minion) (w0 : World) (m : nat),
            minion_store (exec (update_minion tgt g) w0) !!! m
            = if decide (m = tgt) then g (minion_store w0 !!! tgt)
              else minion_store w0 !!! m).
  { intros g w0 m. rewrite minion_store_update_minion.
    destruct (decide (m = tgt)) as [->|Hm].
    - by rewrite lookup_total_insert_eq.
    - by rewrite lookup_total_insert_ne. }
  destruct (bool_decide (0 < hp)%Z) eqn:Hpos;
    [|destruct (bool_decide (hp < 0)%Z) eqn:Hneg];
    destruct (bool_decide (att ≠ 0%Z)) eqn:Hatt.
  - exists (exec (change_attack tgt att) (exec (increase_health tgt hp) w)).
    split; [reflexivity|]. split; [|by repeat split].
    intros m. unfold change_attack, increase_health. rewrite !Hlook.
    destruct (decide (m = tgt)); [|done].
    by rewrite decide_True.
  - exists (exec (increase_health tgt hp) w).
    split; [reflexivity|]. split; [|by repeat split].
    intros m. unfold increase_health. rewrite !Hlook.
    destruct (decide (m = tgt)); [|done].
    apply bool_decide_eq_false in Hatt.
    assert (att = 0%Z) as -> by (destruct (decide (att = 0%Z)); tauto).
    unfold buffed. destruct (minion_store w !!! tgt).
    unfold with_attack, with_health. cbn. by rewrite Z.add_0_r.
  - exists (exec (change_attack tgt att) (exec (decrease_health tgt (- hp)) w)).
    split; [reflexivity|]. split; [|by repeat split].
    intros m. unfold change_attack, decrease_health. rewrite !Hlook.
    destruct (decide (m = tgt)); [|done].
    rewrite decide_True by done.
    unfold buffed. destruct (minion_store w !!! tgt).
    unfold with_attack, with_health. cbn. f_equal. lia.
  - exists (exec (decrease_health tgt (- hp)) w).
    split; [reflexivity|]. split; [|by repeat split].
    intros m. unfold decrease_health. rewrite !Hlook.
    destruct (decide (m = tgt)); [|done].
    apply bool_decide_eq_false in Hatt.
    assert (att = 0%Z) as -> by (destruct (decide (att = 0%Z)); tauto).
    unfold buffed. destruct (minion_store w !!! tgt).
    unfold with_attack, with_health. cbn. f_equal; lia.
  - exists (exec (change_attack tgt att) w).
    split; [reflexivity|]. split; [|by repeat split].
    intros m. unfold change_attack. rewrite !Hlook.
    destruct (decide (m = tgt)); [|done].
    apply bool_decide_eq_false in Hpos, Hneg.
    assert (hp = 0%Z) as -> by lia.
    unfold buffed. destruct (minion_store w !!! tgt).
    unfold with_attack, with_health. cbn. f_equal; lia.
  - exists w. split; [reflexivity|]. split; [|by repeat split].
    intros m. destruct (decide (m = tgt)) as [->|]; [|done].
    apply bool_decide_eq_false in Hpos, Hneg, Hatt.
    assert (hp = 0%Z) as -> by lia.
    assert (att = 0%Z) as -> by (destruct (decide (att = 0%Z)); tauto).
    unfold buffed. by rewrite with_stats_same.
Qed.

Lemma Buff_do_action_self_run (w : World) (self t : nat)
    (when minion_filter players : string) (att hp : Z) :
  effect_store w !!! self
  = {| target := t; state := Buff when minion_filter "self" att hp players |} →
  Buff_do_action self w = Buff_change t att hp w.
Proof.
  intros He. unfold Buff_do_action, the_effect.
  rewrite bind_run, He. cbn [state target].
  rewrite (bool_decide_eq_true_2 ("self" = "self")) by done. reflexivity.
Qed.

(** X17.  With the target "self", [_do_action] adds [health] to the health
    and [attack] to the attack of the target of the effect, whatever their
    signs, and changes no other minion, no player and not the random
    source. *)
Theorem Buff_self_adds_stats
    (w : World) (self t : nat) (when minion_filter players : string)
    (att hp : Z) :
  effect_store w !!! self
  = {| target := t; state := Buff when minion_filter "self" att hp players |} →
  let w' := exec (Buff_do_action self) w in
  outcome (Buff_do_action self) w = Ok tt
  ∧ health (minion_store w' !!! t) = (health (minion_store w !!! t) + hp)%Z
  ∧ attack (minion_store w' !!! t) = (attack (minion_store w !!! t) + att)%Z
  ∧ (∀ m, m ≠ t → minion_store w' !!! m = minion_store w !!! m)
  ∧ (∀ q, get_player q w' = get_player q w)
  ∧ random_values w' = random_values w.
Proof.
  intros He w'.
  destruct (Buff_change_stats t att hp w) as (w2 & R & Hm & Hp & _ & Hr & _).
  rewrite <- (Buff_do_action_self_run w self t when minion_filter players
                att hp He) in R.
  subst w'. rewrite (run_outcome _ _ _ _ R), (run_exec _ _ _ _ R).
  split; [done|]. split; [|split; [|split; [|done]]].
  - rewrite Hm, decide_True by done. reflexivity.
  - rewrite Hm, decide_True by done. reflexivity.
  - intros m Hne. by rewrite Hm, decide_False.
Qed.

Lemma remove_first_gone {A : Type} `{EqDecision A} (x : A) (l : list A) :
  NoDup l → x ∉ remove_first (λ y, bool_decide (y = x)) l.
Proof.
  induction l as [|y l IH]; cbn; [intros _; apply not_elem_of_nil|].
  intros [Hy Hl]%NoDup_cons. case_bool_decide as Hyx.
  - by subst y.
  - apply not_elem_of_cons. split; [congruence|by apply IH].
Qed.

Lemma remove_first_length {A : Type} `{EqDecision A} (x : A) (l : list A) :
  x ∈ l → length (remove_first (λ y, bool_decide (y = x)) l) = length l - 1.
Proof.
  induction l as [|y l IH]; cbn; [by intros ?%elem_of_nil|].
  intros Hin. case_bool_decide as Hyx; [lia|].
  apply elem_of_cons in Hin as [->|Hin]; [done|].
  cbn. rewrite IH by done.
  destruct l; [by apply elem_of_nil in Hin|cbn; lia].
Qed.

Lemma Buff_do_action_random_run (w : World) (self t : nat)
    (when minion_filter buff_target players : string) (att hp : Z) :
  effect_store w !!! self
  = {| target := t;
       state := Buff when minion_filter buff_target att hp players |} →
  buff_target = "random" ∨ buff_target = "random_friendly" →
  let p := player (minion_store w !!! t) in
  Buff_do_action self w
  = (targets ← lift (list_remove t (Buff_board buff_target p w));
     i ← random 0 (Z.of_nat (length targets) - 1);
     tgt ← list_index targets i;
     Buff_change tgt att hp) w.
Proof.
  intros He Hbt p. unfold Buff_do_action, the_effect.
  rewrite bind_run, He. cbn [state target]. unfold Buff_board.
  destruct Hbt as [-> | ->].
  - rewrite (bool_decide_eq_false_2 ("random" = "self")) by done.
    rewrite (bool_decide_eq_true_2 ("random" = "random")) by done.
    rewrite !bind_run, self_target_player_run, He. cbn [target]. fold p.
    unfold the_player. rewrite !bind_run. unfold lift.
    destruct (list_remove t _) as [targets|e]; [|reflexivity].
    cbn beta iota. rewrite !bind_run.
    destruct (random 0 (Z.of_nat (length targets) - 1) w) as [[i|e] wr];
      [|reflexivity].
    cbn beta iota. rewrite ?bind_run.
    by destruct (list_index targets i wr) as [[tgt|e] wx].
  - rewrite (bool_decide_eq_false_2 ("random_friendly" = "self")) by done.
    rewrite (bool_decide_eq_false_2 ("random_friendly" = "random")) by done.
    rewrite (bool_decide_eq_true_2 ("random_friendly" = "random_friendly"))
      by done.
    rewrite !bind_run, self_target_player_run, He. cbn [target]. fold p.
    unfold the_player. rewrite !bind_run. unfold lift.
    destruct (list_remove t _) as [targets|e]; [|reflexivity].
    cbn beta iota. rewrite !bind_run.
    destruct (random 0 (Z.of_nat (length targets) - 1) w) as [[i|e] wr];
      [|reflexivity].
    cbn beta iota. rewrite ?bind_run.
    by destruct (list_index targets i wr) as [[tgt|e] wx].
Qed.

(** X18.  With the target "random" or "random_friendly", [_do_action]
    chooses among the minions of both boards, or of the owner's board,
    without the target of the effect.  When the target is on the board once
    and the random source gives an index in the range it was asked for, the
    action returns, buffs one minion of the board other than the target of
    the effect, and changes no other minion. *)
Theorem Buff_random_target_is_another_minion
    (w : World) (self t : nat)
    (when minion_filter buff_target players : string) (att hp : Z)
    (r : nat) (rs : list nat) :
  effect_store w !!! self
  = {| target := t;
       state := Buff when minion_filter buff_target att hp players |} →
  buff_target = "random" ∨ buff_target = "random_friendly" →
  let board := Buff_board buff_target (player (minion_store w !!! t)) w in
  NoDup board →
  t ∈ board →
  random_values w = r :: rs →
  r < length board - 1 →
  let w' := exec (Buff_do_action self) w in
  outcome (Buff_do_action self) w = Ok tt
  ∧ random_values w' = rs
  ∧ ∃ m, m ∈ board
         ∧ m ≠ t
         ∧ minion_store w' !!! m = buffed att hp (minion_store w !!! m)
         ∧ ∀ n, n ≠ m → minion_store w' !!! n = minion_store w !!! n.
Proof.
  intros He Hbt board Hnd Hin Hrv Hr w'.
  pose proof (Buff_do_action_random_run w self t when minion_filter
                buff_target players att hp He Hbt) as Hrun.
  cbv zeta in Hrun. fold board in Hrun.
  set (targets := remove_first (λ y, bool_decide (y = t)) board).
  assert (Hrem : list_remove t board = Ok targets).
  { unfold list_remove. by rewrite bool_decide_eq_true_2. }
  assert (Hlen : length targets = length board - 1)
    by (by apply remove_first_length).
  destruct (lookup_lt_is_Some_2 targets r) as [m Hm]; [lia|].
  assert (Hmt : m ∈ targets) by (by eapply list_elem_of_lookup_2).
  set (wr := set_random_values rs w).
  assert (Hrand : random 0 (Z.of_nat (length targets) - 1) w = (Ok r, wr)).
  { unfold random. by rewrite Hrv. }
  destruct (Buff_change_stats m att hp wr) as (w2 & R & Hms & _ & _ & Hrs & _).
  assert (Hall : Buff_do_action self w = (Ok tt, w2)).
  { rewrite Hrun, bind_run, Hrem. unfold lift. rewrite bind_run, Hrand.
    unfold list_index. rewrite bind_run, Hm. exact R. }
  subst w'. rewrite (run_outcome _ _ _ _ Hall), (run_exec _ _ _ _ Hall).
  split; [done|]. split; [by rewrite Hrs|].
  exists m. split; [|split; [|split]].
  - eapply elem_of_sublist; [exact Hmt|apply remove_first_sublist].
  - intros ->. by apply (remove_first_gone t board Hnd).
  - by rewrite Hms, decide_True.
  - intros n Hn. by rewrite Hms, decide_False.
Qed.

(** X19.  With the target "random" or "random_friendly", [_do_action]
    removes the target of the effect from the minions it chooses among.
    When the target is not on the board, [list.remove] raises [ValueError]:
    nothing is buffed and the random source is not used. *)
Theorem Buff_random_target_off_board_raises
    (w : World) (self t : nat)
    (when minion_filter buff_target players : string) (att hp : Z) :
  effect_store w !!! self
  = {| target := t;
       state := Buff when minion_filter buff_target att hp players |} →
  buff_target = "random" ∨ buff_target = "random_friendly" →
  t ∉ Buff_board buff_target (player (minion_store w !!! t)) w →
  Buff_do_action self w = (Raise ValueError, w).
Proof.
  intros He Hbt Hnot.
  rewrite (Buff_do_action_random_run w self t when minion_filter
             buff_target players att hp He Hbt).
  cbv zeta. rewrite bind_run. unfold list_remove.
  by rewrite bool_decide_eq_false_2.
Qed.

(** ** The subscriptions of a Buff *)

Lemma Buff_apply_friendly (w : World) (self t : nat)
    (when minion_filter buff_target : string) (att hp : Z) :
  effect_store w !!! self
  = {| target := t;
       state := Buff when minion_filter buff_target att hp "friendly" |} →
  let p := player (minion_store w !!! t) in
  apply self w
  = match Buff_subscription self when minion_filter with
    | Some (event, f) => (Ok tt, exec (bind (player_entity p) event f) w)
    | None => (Ok tt, w)
    end.
Proof.
  intros He p.
  unfold apply, the_effect. rewrite bind_run, He. cbn [state].
  rewrite (Buff_apply_eq w self t when minion_filter buff_target "friendly"
             att hp [p] He).
  - destruct (Buff_subscription self when minion_filter) as [[event f]|];
      reflexivity.
  - rewrite (Buff_players_valid w self t when minion_filter buff_target
               "friendly" att hp He) by (by left).
    reflexivity.
Qed.

Lemma Buff_check_card_filter_run (w : World) (self t : nat)
    (when minion_filter buff_target players : string) (att hp : Z)
    (c : Card) :
  effect_store w !!! self
  = {| target := t;
       state := Buff when minion_filter buff_target att hp players |} →
  Buff_check_card_filter self c w
  = if bool_decide (minion_filter = "spell")
    then if is_spell c then Buff_do_action self w else (Ok tt, w)
    else if bool_decide (minion_filter = "secret")
    then (Raise (NameError "SecretCard"), w)
    else (Ok tt, w).
Proof.
  intros He. unfold Buff_check_card_filter, the_effect.
  rewrite bind_run, He. cbn [state].
  destruct (is_spell c); repeat case_bool_decide; cbn [andb];
    first [reflexivity|congruence].
Qed.

(** X20.  A [Buff] for the cards played by the owner, with the filter
    "spell", "secret" or "card", subscribes [_check_card_filter] to the
    [card_played] events of the owner.  On such an event the buff with the
    filter "spell" acts when the card is a spell and does nothing when it is
    not.  With the filter "secret" the event raises [NameError] on every
    card, secret or not, and nothing is changed: the test
    [isinstance(card, SecretCard)] names a class that the module does not
    define.  With the filter "card" the buff acts on no card. *)
Theorem Buff_card_filter_acts_on_spells_only
    (w : World) (self t depth : nat)
    (minion_filter buff_target : string) (att hp : Z) (c : Card) :
  effect_store w !!! self
  = {| target := t;
       state := Buff "played" minion_filter buff_target att hp "friendly" |} →
  minion_filter = "spell" ∨ minion_filter = "secret"
  ∨ minion_filter = "card" →
  let p := player (minion_store w !!! t) in
  listeners (player_entity p) "card_played" w = [] →
  let w1 := exec (apply self) w in
  let played := trigger (S depth) (player_entity p) "card_played" [VCard c] in
  outcome (apply self) w = Ok tt
  ∧ listeners (player_entity p) "card_played" w1
    = [(bound_Buff_check_card_filter self, false)]
  ∧ (minion_filter = "spell" →
     played w1 = if is_spell c then Buff_do_action self w1 else (Ok tt, w1))
  ∧ (minion_filter = "secret" →
     played w1 = (Raise (NameError "SecretCard"), w1))
  ∧ (minion_filter = "card" → played w1 = (Ok tt, w1)).
Proof.
  intros He Hmf p Hl w1 played.
  set (f := bound_Buff_check_card_filter self).
  assert (Hsub : Buff_subscription self "played" minion_filter
                 = Some ("card_played", f)).
  { unfold Buff_subscription. by destruct Hmf as [-> | [-> | ->]]. }
  pose proof (Buff_apply_friendly w self t "played" minion_filter buff_target
                att hp He) as Happ.
  cbv zeta in Happ. fold p in Happ. rewrite Hsub in Happ.
  assert (Hw1 : w1 = exec (bind (player_entity p) "card_played" f) w)
    by apply (run_exec _ _ _ _ Happ).
  assert (He1 : effect_store w1 !!! self
                = {| target := t;
                     state := Buff "played" minion_filter buff_target att hp
                                "friendly" |}).
  { by rewrite Hw1, effect_store_bind. }
  assert (Hl1 : listeners (player_entity p) "card_played" w1 = [(f, false)]).
  { by rewrite Hw1, listeners_bind_same, Hl. }
  assert (Hplayed : played w1
                    = if bool_decide (minion_filter = "spell")
                      then if is_spell c then Buff_do_action self w1
                           else (Ok tt, w1)
                      else if bool_decide (minion_filter = "secret")
                      then (Raise (NameError "SecretCard"), w1)
                      else (Ok tt, w1)).
  { subst played. rewrite (trigger_single _ _ _ _ _ f Hl1).
    unfold f. cbn [call].
    apply (Buff_check_card_filter_run w1 self t "played" minion_filter
             buff_target "friendly" att hp c He1). }
  rewrite (run_outcome _ _ _ _ Happ).
  split; [done|]. split; [done|].
  split; [|split]; intros ->; by rewrite Hplayed.
Qed.

(** X21.  [Buff.apply()] and [Buff.unapply()] check the [players] selector
    but not [when].  With a recognised selector and a [when] that is none
    of "death", "damaged", "summoned", "played", "turn_ended" and
    "turn_started", both return normally and subscribe or unsubscribe
    nothing. *)
Theorem Buff_unknown_event_subscribes_nothing
    (w : World) (self t : nat)
    (when minion_filter buff_target players : string) (att hp : Z) :
  effect_store w !!! self
  = {| target := t;
       state := Buff when minion_filter buff_target att hp players |} →
  players = "friendly" ∨ players = "enemy" ∨ players = "both" →
  when ∉ ["death"; "damaged"; "summoned"; "played"; "turn_ended";
          "turn_started"] →
  apply self w = (Ok tt, w) ∧ unapply self w = (Ok tt, w).
Proof.
  intros He Hv Hwhen.
  assert (Hsub : Buff_subscription self when minion_filter = None).
  { unfold Buff_subscription.
    repeat case_bool_decide; try reflexivity; subst when;
      exfalso; apply Hwhen; by repeat constructor. }
  pose proof (Buff_players_valid w self t when minion_filter buff_target
                players att hp He Hv) as Hps.
  cbv zeta in Hps.
  split.
  - unfold apply, the_effect. rewrite bind_run, He. cbn [state].
    rewrite (Buff_apply_eq w self t when minion_filter buff_target players
               att hp _ He Hps).
    by rewrite Hsub.
  - unfold unapply, the_effect. rewrite bind_run, He. cbn [state].
    rewrite (Buff_unapply_eq w self t when minion_filter buff_target players
               att hp _ He Hps).
    by rewrite Hsub.
Qed.

Lemma Buff_check_minion_filter_self (w : World) (self t minion : nat)
    (when buff_target players : string) (att hp : Z) :
  effect_store w !!! self
  = {| target := t; state := Buff when "self" buff_target att hp players |} →
  Buff_check_minion_filter self minion w
  = if decide (minion = t) then Buff_do_action self w else (Ok tt, w).
Proof.
  intros He. unfold Buff_check_minion_filter, the_effect.
  rewrite bind_run, He. cbn [state target].
  rewrite (bool_decide_eq_true_2 ("self" = "self")) by done.
  by case_bool_decide; [rewrite decide_True|rewrite decide_False].
Qed.

(** X22.  A [Buff] with the filter "self" and the target "self", for the
    events of the owner's minions that die, are damaged, are summoned or
    are played: after [apply()], an event about the target of the effect
    buffs it, and an event about any other minion changes no minion. *)
Theorem Buff_self_filter_acts_on_target_only
    (w : World) (self t minion depth : nat) (when event : string)
    (att hp : Z) (args : list value) :
  effect_store w !!! self
  = {| target := t; state := Buff when "self" "self" att hp "friendly" |} →
  (when, event) ∈ [("death", "minion_died"); ("damaged", "minion_damaged");
                   ("summoned", "minion_summoned");
                   ("played", "minion_played")] →
  let p := player (minion_store w !!! t) in
  listeners (player_entity p) event w = [] →
  let run :=
    apply self ;;
    trigger (S depth) (player_entity p) event (VMinion minion :: args) in
  outcome run w = Ok tt
  ∧ ∀ m, minion_store (exec run w) !!! m
         = if decide (m = t ∧ minion = t)
           then buffed att hp (minion_store w !!! t)
           else minion_store w !!! m.
Proof.
  intros He Hev p Hl run.
  set (f := bound_Buff_check_minion_filter self).
  assert (Hsub : Buff_subscription self when "self" = Some (event, f)).
  { unfold Buff_subscription.
    repeat (apply elem_of_cons in Hev as [[= -> ->]|Hev]; [reflexivity|]).
    by apply elem_of_nil in Hev. }
  pose proof (Buff_apply_friendly w self t when "self" "self" att hp He)
    as Happ.
  cbv zeta in Happ. fold p in Happ. rewrite Hsub in Happ.
  set (w1 := exec (bind (player_entity p) event f) w) in Happ.
  assert (He1 : effect_store w1 !!! self
                = {| target := t;
                     state := Buff when "self" "self" att hp "friendly" |}).
  { subst w1. by rewrite effect_store_bind. }
  assert (Hl1 : listeners (player_entity p) event w1 = [(f, false)]).
  { subst w1. by rewrite listeners_bind_same, Hl. }
  assert (Hm1 : minion_store w1 = minion_store w) by reflexivity.
  assert (Hrun : run w
                 = if decide (minion = t) then Buff_change t att hp w1
                   else (Ok tt, w1)).
  { subst run. rewrite (seq_run _ _ _ _ Happ).
    rewrite (trigger_single _ _ _ _ _ f Hl1). unfold f. cbn [call].
    rewrite (Buff_check_minion_filter_self w1 self t minion when "self"
               "friendly" att hp He1).
    destruct (decide (minion = t)); [|done].
    apply (Buff_do_action_self_run w1 self t when "self" "friendly" att hp
             He1). }
  destruct (decide (minion = t)) as [->|Hne].
  - destruct (Buff_change_stats t att hp w1) as (w2 & R & Hms & _).
    rewrite R in Hrun.
    rewrite (run_outcome _ _ _ _ Hrun), (run_exec _ _ _ _ Hrun).
    split; [done|]. intros m. rewrite Hms, Hm1.
    destruct (decide (m = t)) as [->|Hm].
    + by rewrite decide_True.
    + rewrite decide_False; [done|]. by intros [? _].
  - rewrite (run_outcome _ _ _ _ Hrun), (run_exec _ _ _ _ Hrun).
    split; [done|]. intros m. rewrite Hm1.
    rewrite decide_False; [done|]. by intros [_ ?].
Qed.

Lemma buffed_buffed (a1 h1 a2 h2 : Z) (x : Minion) :
  buffed a2 h2 (buffed a1 h1 x) = buffed (a1 + a2) (h1 + h2) x.
Proof.
  destruct x. unfold buffed, with_attack, with_health. cbn.
  f_equal; lia.
Qed.

Lemma Buff_turn_ended_repeated (n : nat) (w : World) (self t depth : nat)
    (minion_filter players : string) (att hp : Z) (p : player_id) :
  effect_store w !!! self
  = {| target := t;
       state := Buff "turn_ended" minion_filter "self" att hp players |} →
  listeners (player_entity p) "turn_ended" w
  = [(bound_Buff_do_action self, false)] →
  ∃ w', repeat_times n (trigger (S depth) (player_entity p) "turn_ended" []) w
        = (Ok tt, w')
        ∧ ∀ m, minion_store w' !!! m
               = if decide (m = t)
                 then buffed (Z.of_nat n * att) (Z.of_nat n * hp)
                        (minion_store w !!! t)
                 else minion_store w !!! m.
Proof.
  revert w. induction n as [|n IH]; intros w He Hl.
  - exists w. split; [reflexivity|]. intros m.
    destruct (decide (m = t)) as [->|]; [|done].
    unfold buffed. by rewrite with_stats_same.
  - cbn [repeat_times].
    destruct (Buff_change_stats t att hp w) as (w2 & R & Hms & Hp & Hes & _).
    assert (Hstep : trigger (S depth) (player_entity p) "turn_ended" [] w
                    = (Ok tt, w2)).
    { rewrite (trigger_single _ _ _ _ _ _ Hl). cbn [call].
      by rewrite (Buff_do_action_self_run w self t "turn_ended" minion_filter
                    players att hp He). }
    rewrite (seq_run _ _ _ _ Hstep).
    destruct (IH w2) as (w' & R' & Hms').
    { by rewrite Hes. }
    { unfold listeners, entity_events. by rewrite Hp. }
    exists w'. split; [exact R'|]. intros m. rewrite Hms'.
    destruct (decide (m = t)) as [->|Hm].
    + rewrite Hms, decide_True by done. rewrite buffed_buffed.
      f_equal; lia.
    + by rewrite Hms, decide_False.
Qed.

(** X27.  A [Buff] for the end of the owner's turn with the target "self"
    acts at every [turn_ended] event of the owner, and the buffs add up:
    after [n] such events the target has [n * attack] more attack and
    [n * health] more health, and the other minions are as they were. *)
Theorem Buff_adds_up_over_turns
    (n : nat) (w : World) (self t depth : nat) (minion_filter : string)
    (att hp : Z) :
  effect_store w !!! self
  = {| target := t;
       state := Buff "turn_ended" minion_filter "self" att hp "friendly" |} →
  let p := player (minion_store w !!! t) in
  listeners (player_entity p) "turn_ended" w = [] →
  let run :=
    apply self ;;
    repeat_times n (trigger (S depth) (player_entity p) "turn_ended" []) in
  outcome run w = Ok tt
  ∧ attack (minion_store (exec run w) !!! t)
    = (attack (minion_store w !!! t) + Z.of_nat n * att)%Z
  ∧ health (minion_store (exec run w) !!! t)
    = (health (minion_store w !!! t) + Z.of_nat n * hp)%Z
  ∧ ∀ m, m ≠ t → minion_store (exec run w) !!! m = minion_store w !!! m.
Proof.
  intros He p Hl run.
  set (f := bound_Buff_do_action self).
  assert (Hsub : Buff_subscription self "turn_ended" minion_filter
                 = Some ("turn_ended", f)) by reflexivity.
  pose proof (Buff_apply_friendly w self t "turn_ended" minion_filter "self"
                att hp He) as Happ.
  cbv zeta in Happ. fold p in Happ. rewrite Hsub in Happ.
  set (w1 := exec (bind (player_entity p) "turn_ended" f) w) in Happ.
  assert (He1 : effect_store w1 !!! self
                = {| target := t;
                     state := Buff "turn_ended" minion_filter "self" att hp
                                "friendly" |}).
  { subst w1. by rewrite effect_store_bind. }
  assert (Hl1 : listeners (player_entity p) "turn_ended" w1 = [(f, false)]).
  { subst w1. by rewrite listeners_bind_same, Hl. }
  destruct (Buff_turn_ended_repeated n w1 self t depth minion_filter
              "friendly" att hp p He1 Hl1) as (w' & R & Hms).
  change (minion_store w1) with (minion_store w) in Hms.
  assert (Hrun : run w = (Ok tt, w')).
  { subst run. by rewrite (seq_run _ _ _ _ Happ). }
  rewrite (run_outcome _ _ _ _ Hrun), (run_exec _ _ _ _ Hrun).
  split; [done|]. split; [|split].
  - rewrite Hms, decide_True by done. reflexivity.
  - rewrite Hms, decide_True by done. reflexivity.
  - intros m Hm. by rewrite Hms, decide_False.
Qed.

(** ** ChargeAura and the minions played *)

Lemma ChargeAura_give_charge_if_beast_no_match (w : World)
    (self t minion : nat) (players : string) (mtype : Z)
    (affected charged : list nat) :
  aura_at w self t players mtype affected charged →
  affects mtype (minion_store w !!! minion) = false →
  ChargeAura_give_charge_if_beast self minion w = (Ok tt, w).
Proof.
  intros He Hty. unfold ChargeAura_give_charge_if_beast, the_effect.
  rewrite bind_run, He. cbn [state target].
  unfold the_minion. rewrite bind_run.
  unfold affects in Hty. rewrite Hty.
  by rewrite andb_false_r.
Qed.

Lemma ChargeAura_give_charge_if_beast_source (w : World)
    (self t : nat) (players : string) (mtype : Z)
    (affected charged : list nat) :
  aura_at w self t players mtype affected charged →
  affects mtype (minion_store w !!! t) = true →
  ChargeAura_give_charge_if_beast self t w
  = (Ok tt, exec (update_minion t (with_charge true)) w).
Proof.
  intros He Hty. unfold ChargeAura_give_charge_if_beast, the_effect.
  rewrite bind_run, He. cbn [state target].
  unfold the_minion. rewrite bind_run.
  unfold affects in Hty. rewrite Hty.
  by rewrite (bool_decide_eq_true_2 (t = t)).
Qed.

Lemma charge_watched (w : World) (self t minion c n : nat)
    (st : effect_state) :
  charge (minion_store (watched self t minion c st w) !!! n)
  = charge (minion_store w !!! n).
Proof.
  destruct (watched_store w self t minion c st) as (_ & _ & Hm).
  specialize (Hm n). by apply (f_equal charge) in Hm.
Qed.

(** X23.  A friendly [ChargeAura] is applied while its target is the only
    minion on the owner's board.  A minion played after that has charge
    when it had charge or when its type is the one of the aura, and the
    target has charge on the same condition.  A minion played after
    [unapply()] is left as it was. *)
Theorem ChargeAura_charges_played_minions
    (w : World) (self t minion depth : nat) (mtype : Z)
    (affected charged : list nat) :
  aura_at w self t "friendly" mtype affected charged →
  let p := player (minion_store w !!! t) in
  minions (get_player p w) = [t] →
  listeners (player_entity p) "minion_played" w = [] →
  minion ≠ t →
  let played :=
    trigger (S depth) (player_entity p) "minion_played" [VMinion minion] in
  let during := apply self ;; played in
  let after := apply self ;; unapply self ;; played in
  outcome during w = Ok tt
  ∧ charge (minion_store (exec during w) !!! minion)
    = charge (minion_store w !!! minion)
      || affects mtype (minion_store w !!! minion)
  ∧ charge (minion_store (exec during w) !!! t)
    = charge (minion_store w !!! t) || affects mtype (minion_store w !!! t)
  ∧ outcome after w = Ok tt
  ∧ charge (minion_store (exec after w) !!! minion)
    = charge (minion_store w !!! minion).
Proof.
  intros He p Hboard Hl Hne played during after.
  set (f := bound_ChargeAura_give_charge_if_beast self).
  set (w0 := if affects mtype (minion_store w !!! t)
             then exec (update_minion t (with_charge true)) w else w).
  set (w1 := exec (bind (player_entity p) "minion_played" f) w0).
  assert (Hgive : ChargeAura_give_charge_if_beast self t w = (Ok tt, w0)).
  { subst w0. destruct (affects mtype (minion_store w !!! t)) eqn:Ht.
    - by apply (ChargeAura_give_charge_if_beast_source w self t "friendly"
                  mtype affected charged).
    - by apply (ChargeAura_give_charge_if_beast_no_match w self t t
                  "friendly" mtype affected charged). }
  assert (Hp0 : player (minion_store w0 !!! t) = p).
  { subst w0. destruct (affects mtype (minion_store w !!! t)); [|done].
    by rewrite player_with_charge. }
  assert (He0 : effect_store w0 = effect_store w).
  { subst w0. by destruct (affects mtype (minion_store w !!! t)). }
  assert (Hl0 : listeners (player_entity p) "minion_played" w0 = []).
  { subst w0. destruct (affects mtype (minion_store w !!! t)); [|done].
    by rewrite listeners_update_minion. }
  assert (Hm0 : minion_store w0 !!! minion = minion_store w !!! minion).
  { subst w0. destruct (affects mtype (minion_store w !!! t)); [|done].
    by rewrite minion_store_update_minion, lookup_total_insert_ne. }
  assert (Ht0 : charge (minion_store w0 !!! t)
                = charge (minion_store w !!! t)
                  || affects mtype (minion_store w !!! t)).
  { subst w0. destruct (affects mtype (minion_store w !!! t)).
    - rewrite charge_with_charge, decide_True by done.
      by rewrite orb_true_r.
    - by rewrite orb_false_r. }
  assert (Happ : apply self w = (Ok tt, w1)).
  { unfold apply, the_effect. rewrite bind_run, He. cbn [state].
    unfold ChargeAura_apply, the_effect. rewrite bind_run, He. cbn [state].
    rewrite (bool_decide_eq_true_2 ("friendly" = "friendly")) by done.
    rewrite (bool_decide_eq_false_2 ("friendly" = "enemy")) by done.
    rewrite (bool_decide_eq_false_2 ("friendly" = "both")) by done.
    cbn [orb]. rewrite seq_skip.
    rewrite bind_run, self_target_player_run, He. cbn [target]. fold p.
    unfold the_player. rewrite bind_run, Hboard. cbn [for_each].
    assert (Hfirst : (ChargeAura_give_charge_if_beast self t ;; skip) w
                     = (Ok tt, w0)) by (by rewrite seq_skip).
    rewrite (seq_run _ _ _ _ Hfirst). apply bind_eq. }
  assert (He1 : aura_at w1 self t "friendly" mtype affected charged).
  { unfold aura_at. subst w1. by rewrite effect_store_bind, He0. }
  assert (Hm1 : minion_store w1 = minion_store w0) by reflexivity.
  assert (Hl1 : listeners (player_entity p) "minion_played" w1 = [(f, false)]).
  { subst w1. by rewrite listeners_bind_same, Hl0. }
  (* the minion played while the aura is applied *)
  assert (Hduring : ∃ w2, during w = (Ok tt, w2)
            ∧ charge (minion_store w2 !!! minion)
              = charge (minion_store w !!! minion)
                || affects mtype (minion_store w !!! minion)
            ∧ charge (minion_store w2 !!! t) = charge (minion_store w0 !!! t)).
  { subst during. rewrite (seq_run _ _ _ _ Happ). subst played.
    rewrite (trigger_single _ _ _ _ _ f Hl1). unfold f. cbn [call].
    destruct (affects mtype (minion_store w !!! minion)) eqn:Hty.
    - rewrite (ChargeAura_give_charge_if_beast_other w1 self t minion
                 "friendly" mtype affected charged He1 Hne)
        by (by rewrite Hm1, Hm0).
      rewrite Hm1, Hm0.
      destruct (charge (minion_store w !!! minion)) eqn:Hch.
      + rewrite (watch_for_silence_run w1 self t minion "friendly" mtype
                   affected charged He1).
        eexists. split; [reflexivity|].
        by rewrite !charge_watched, Hm1, Hm0.
      + rewrite (give_permacharge_effect_run w1 self t minion "friendly"
                   mtype affected charged He1).
        eexists. split; [reflexivity|].
        destruct (permacharged_store w1 self t minion (next_object w1)
                    (ChargeAura "friendly" mtype (affected ++ [minion])
                       charged)) as (_ & _ & Hc & _).
        rewrite !Hc, decide_True by done.
        by rewrite decide_False, Hm1.
    - rewrite (ChargeAura_give_charge_if_beast_no_match w1 self t minion
                 "friendly" mtype affected charged He1)
        by (by rewrite Hm1, Hm0).
      exists w1. split; [reflexivity|].
      by rewrite Hm1, Hm0, orb_false_r. }
  destruct Hduring as (w2 & Hduring & Hc2 & Ht2).
  (* the minion played after the aura is unapplied *)
  set (w3 := exec (unbind (player_entity p) "minion_played" f) w1).
  assert (Hun : unapply self w1 = (Ok tt, w3)).
  { unfold unapply, the_effect. rewrite bind_run, He1. cbn [state].
    unfold ChargeAura_unapply, the_effect. rewrite bind_run, He1. cbn [state].
    rewrite (bool_decide_eq_true_2 ("friendly" = "friendly")) by done.
    rewrite (bool_decide_eq_false_2 ("friendly" = "enemy")) by done.
    rewrite (bool_decide_eq_false_2 ("friendly" = "both")) by done.
    cbn [orb]. rewrite seq_skip.
    rewrite bind_run, self_target_player_run, He1. cbn [target].
    rewrite Hm1, Hp0. apply unbind_eq. }
  assert (Hl3 : listeners (player_entity p) "minion_played" w3 = []).
  { subst w3. rewrite listeners_unbind_same, Hl1.
    by rewrite remove_first_head by apply is_callback_same. }
  assert (Hafter : after w = (Ok tt, w3)).
  { subst after. rewrite (seq_run _ _ _ _ Happ), (seq_run _ _ _ _ Hun).
    by apply trigger_no_listener. }
  rewrite (run_outcome _ _ _ _ Hduring), (run_exec _ _ _ _ Hduring).
  rewrite (run_outcome _ _ _ _ Hafter), (run_exec _ _ _ _ Hafter).
  split; [done|]. split; [done|]. split; [by rewrite Ht2|].
  split; [done|].
  subst w3. rewrite minion_store_unbind_player. by rewrite Hm1, Hm0.
Qed.

(** X24.  The charge that the aura gave to a minion comes back when the
    minion is silenced: the [silenced] listener that
    [give_permacharge_effect] bound on the minion sets the charge again and
    stays bound.  A copy of the minion gets no charge: the [copied]
    listener clears the charge of the new minion. *)
Theorem ChargeAura_charge_survives_silence
    (w : World) (self t minion copy depth : nat) (players : string)
    (mtype : Z) (affected charged : list nat) (owner : value) :
  aura_at w self t players mtype affected charged →
  minion ≠ t →
  affects mtype (minion_store w !!! minion) = true →
  charge (minion_store w !!! minion) = false →
  listeners (minion_entity minion) "silenced" w = [] →
  listeners (minion_entity minion) "copied" w = [] →
  let given := exec (ChargeAura_give_charge_if_beast self minion) w in
  let silenced := trigger (S depth) (minion_entity minion) "silenced" [] in
  let copied :=
    trigger (S depth) (minion_entity minion) "copied"
      [VMinion copy; owner] in
  let w1 := exec (update_minion minion (with_charge false)) given in
  charge (minion_store given !!! minion) = true
  ∧ outcome silenced w1 = Ok tt
  ∧ charge (minion_store (exec silenced w1) !!! minion) = true
  ∧ listeners (minion_entity minion) "silenced" (exec silenced w1)
    = listeners (minion_entity minion) "silenced" given
  ∧ outcome copied given = Ok tt
  ∧ charge (minion_store (exec copied given) !!! copy) = false.
Proof.
  intros He Hne Hty Hch Hs Hc given silenced copied w1.
  set (c := next_object w).
  set (st := ChargeAura players mtype (affected ++ [minion]) charged).
  assert (Hgive : ChargeAura_give_charge_if_beast self minion w
                  = (Ok tt, permacharged self t minion c st w)).
  { rewrite (ChargeAura_give_charge_if_beast_other w self t minion players
               mtype affected charged He Hne Hty), Hch.
    apply (give_permacharge_effect_run w self t minion players mtype
             affected charged He). }
  assert (Hgiven : given = permacharged self t minion c st w)
    by apply (run_exec _ _ _ _ Hgive).
  destruct (permacharged_listeners w self t minion c st Hne)
    as (Hsil & Hcop & _).
  destruct (permacharged_store w self t minion c st) as (_ & _ & Hcharge & _).
  rewrite <- Hgiven in Hsil, Hcop, Hcharge. rewrite Hs in Hsil.
  rewrite Hc in Hcop. cbn [app] in Hsil, Hcop.
  assert (Hsil1 : listeners (minion_entity minion) "silenced" w1
                  = [(closure_permacharge_silenced c self minion, false)]).
  { subst w1. by rewrite listeners_update_minion. }
  assert (Hsilenced : silenced w1
                      = (Ok tt, exec (update_minion minion (with_charge true))
                                  w1)).
  { subst silenced. by rewrite (trigger_single _ _ _ _ _ _ Hsil1). }
  assert (Hcopied : copied given
                    = (Ok tt, exec (update_minion copy (with_charge false))
                                given)).
  { subst copied. by rewrite (trigger_single _ _ _ _ _ _ Hcop). }
  rewrite (run_outcome _ _ _ _ Hsilenced), (run_exec _ _ _ _ Hsilenced).
  rewrite (run_outcome _ _ _ _ Hcopied), (run_exec _ _ _ _ Hcopied).
  split; [by rewrite Hcharge, decide_True|].
  split; [done|]. split; [|split; [|split; [done|]]].
  - by rewrite charge_with_charge, decide_True.
  - by rewrite listeners_update_minion, Hsil1, Hsil.
  - by rewrite charge_with_charge, decide_True.
Qed.

(** ** StatsAura *)

(** X25.  [StatsAura.apply()] registers one aura on the target, with the
    attack and the health of the effect, for the owner with the selector
    "friendly", for the opponent with "enemy" and for both players with any
    other selector, restricted to the minion type unless this is [ALL].
    [unapply()] does nothing: the aura stays registered. *)
Theorem StatsAura_registers_one_aura
    (w : World) (self t : nat) (att hp : Z) (players : string) (mtype : Z) :
  effect_store w !!! self
  = {| target := t; state := StatsAura att hp players mtype |} →
  let p := player (minion_store w !!! t) in
  let run := apply self ;; unapply self in
  outcome run w = Ok tt
  ∧ exec run w = exec (apply self) w
  ∧ auras (exec run w)
    = auras w
      ++ [{| aura_source := t; aura_attack := att; aura_health := hp;
             aura_players :=
               if bool_decide (players = "friendly") then [p]
               else if bool_decide (players = "enemy") then [opponent p]
               else [p; opponent p];
             aura_filter :=
               if bool_decide (mtype = ALL) then None else Some mtype |}]
  ∧ minion_store (exec run w) = minion_store w
  ∧ (∀ q, get_player q (exec run w) = get_player q w).
Proof.
  intros He p run.
  set (a := {| aura_source := t; aura_attack := att; aura_health := hp;
               aura_players := _; aura_filter := _ |}).
  assert (Happ : apply self w = (Ok tt, set_auras (auras w ++ [a]) w)).
  { unfold apply, the_effect. rewrite bind_run, He. cbn [state].
    unfold StatsAura_apply, the_effect. rewrite bind_run, He.
    cbn [state target].
    rewrite bind_run, self_target_player_run, He. cbn [target]. fold p.
    subst a. by case_bool_decide. }
  assert (Hrun : run w = (Ok tt, set_auras (auras w ++ [a]) w)).
  { subst run. rewrite (seq_run _ _ _ _ Happ).
    unfold unapply, the_effect. rewrite bind_run.
    change (effect_store (set_auras ?l w)) with (effect_store w).
    by rewrite He. }
  rewrite (run_outcome _ _ _ _ Hrun), (run_exec _ _ _ _ Hrun).
  rewrite (run_exec _ _ _ _ Happ).
  split; [done|]. split; [done|]. split; [done|]. split; [done|].
  intros q. by destruct q.
Qed.

(** X30.  [ChargeAura] does not check its [players] selector.  With a
    selector that is none of "friendly", "enemy" and "both", [apply()] and
    [unapply()] return normally and change nothing: no minion gets charge
    and nothing is subscribed. *)
Theorem ChargeAura_unknown_selector_does_nothing
    (w : World) (self t : nat) (players : string) (mtype : Z)
    (affected charged : list nat) :
  aura_at w self t players mtype affected charged →
  players ∉ ["friendly"; "enemy"; "both"] →
  apply self w = (Ok tt, w) ∧ unapply self w = (Ok tt, w).
Proof.
  intros He Hsel.
  assert (Hf : bool_decide (players = "friendly") = false).
  { apply bool_decide_eq_false. intros ->. apply Hsel. by repeat constructor. }
  assert (Hen : bool_decide (players = "enemy") = false).
  { apply bool_decide_eq_false. intros ->. apply Hsel. by repeat constructor. }
  assert (Hb : bool_decide (players = "both") = false).
  { apply bool_decide_eq_false. intros ->. apply Hsel. by repeat constructor. }
  split.
  - unfold apply, the_effect. rewrite bind_run, He. cbn [state].
    unfold ChargeAura_apply, the_effect. rewrite bind_run, He. cbn [state].
    by rewrite Hf, Hen, Hb.
  - unfold unapply, the_effect. rewrite bind_run, He. cbn [state].
    unfold ChargeAura_unapply, the_effect. rewrite bind_run, He. cbn [state].
    by rewrite Hf, Hen, Hb.
Qed.

(** ** ResurrectFriendlyMinionsAtEndOfTurn applied and unapplied *)

Lemma same_but_listeners_update_state (w w' : World) (e : nat)
    (st : effect_state) :
  same_but_listeners w w' →
  same_but_listeners w (exec (update_state e st) w').
Proof. intros H'. exact H'. Qed.

(** X26.  [unapply()] after [apply()] removes the three subscriptions that
    [apply()] made and leaves the players and the minions as they were, and
    it forgets the minions that have died: the record of the effect is
    empty afterwards, whatever it held. *)
Theorem Resurrect_apply_unapply_forgets
    (w : World) (self t : nat) (dead_minions : list Card) :
  effect_store w !!! self
  = {| target := t;
       state := ResurrectFriendlyMinionsAtEndOfTurn dead_minions |} →
  not_bound self w →
  let run := apply self ;; unapply self in
  outcome run w = Ok tt
  ∧ restored w (exec run w)
  ∧ state (effect_store (exec run w) !!! self)
    = ResurrectFriendlyMinionsAtEndOfTurn [].
Proof.
  intros He Hnb run.
  set (p := player (minion_store w !!! t)).
  set (o := opponent p).
  set (fd := bound_Resurrect_minion_died self).
  set (fe := bound_Resurrect_turn_ended self).
  set (w1 := exec (bind (player_entity o) "turn_ended" fe)
               (exec (bind (player_entity p) "turn_ended" fe)
                  (exec (bind (player_entity p) "minion_died" fd) w))).
  set (w2 := exec (unbind (player_entity o) "turn_ended" fe)
               (exec (unbind (player_entity p) "turn_ended" fe)
                  (exec (unbind (player_entity p) "minion_died" fd) w1))).
  set (w3 := exec (update_state self (ResurrectFriendlyMinionsAtEndOfTurn []))
               w2).
  assert (Happ : apply self w = (Ok tt, w1)).
  { unfold apply, the_effect. rewrite bind_run, He. cbn [state].
    unfold Resurrect_apply.
    rewrite bind_run, self_target_player_run, He. cbn [target]. fold p o.
    rewrite (seq_run _ _ _ _ (bind_eq _ _ _ _)).
    rewrite (seq_run _ _ _ _ (bind_eq _ _ _ _)).
    apply bind_eq. }
  assert (He1 : effect_store w1 = effect_store w).
  { subst w1. by rewrite !effect_store_bind. }
  assert (Hm1 : minion_store w1 = minion_store w) by reflexivity.
  assert (Hun : unapply self w1 = (Ok tt, w3)).
  { unfold unapply, the_effect. rewrite bind_run, He1, He. cbn [state].
    unfold Resurrect_unapply.
    rewrite bind_run, self_target_player_run, He1, He, Hm1. cbn [target].
    fold p o.
    rewrite (seq_run _ _ _ _ (unbind_eq _ _ _ _)).
    rewrite (seq_run _ _ _ _ (unbind_eq _ _ _ _)).
    rewrite (seq_run _ _ _ _ (unbind_eq _ _ _ _)).
    apply update_state_eq. }
  assert (Hrun : run w = (Ok tt, w3)).
  { subst run. by rewrite (seq_run _ _ _ _ Happ). }
  rewrite (run_outcome _ _ _ _ Hrun), (run_exec _ _ _ _ Hrun).
  assert (Hpo : player_entity p ≠ player_entity o).
  { intros [=Heq]. by apply (opponent_ne' p). }
  assert (Hfd : ∀ ent event,
            Forall (λ h, is_callback fd h = false) (listeners ent event w)).
  { intros ent event. by apply (not_bound_callback self). }
  assert (Hfe : ∀ ent event,
            Forall (λ h, is_callback fe h = false) (listeners ent event w)).
  { intros ent event. by apply (not_bound_callback self). }
  split; [done|]. split; [split|].
  - apply same_but_listeners_update_state.
    unfold bind, unbind in w1, w2. subst w2 w1.
    do 6 apply same_but_listeners_update_events.
    apply same_but_listeners_refl.
  - intros ent event. subst w3. rewrite listeners_update_state.
    subst w2 w1.
    destruct (decide (ent = player_entity o ∧ event = "turn_ended"))
      as [[-> ->]|Hn3].
    { rewrite listeners_unbind_same.
      rewrite !listeners_unbind_other by (left; congruence).
      rewrite listeners_bind_same.
      rewrite !listeners_bind_other by (left; congruence).
      apply remove_first_app_last; [apply Hfe|apply is_callback_same]. }
    rewrite listeners_unbind, decide_False
      by (intros [<- <-]; first [by apply Hn1|by apply Hn2|by apply Hn3]).
    destruct (decide (ent = player_entity p ∧ event = "turn_ended"))
      as [[-> ->]|Hn2].
    { rewrite listeners_unbind_same.
      rewrite listeners_unbind_other by (by right).
      rewrite listeners_bind_other by (by left).
      rewrite listeners_bind_same.
      rewrite listeners_bind_other by (by right).
      apply remove_first_app_last; [apply Hfe|apply is_callback_same]. }
    rewrite listeners_unbind, decide_False
      by (intros [<- <-]; first [by apply Hn1|by apply Hn2|by apply Hn3]).
    destruct (decide (ent = player_entity p ∧ event = "minion_died"))
      as [[-> ->]|Hn1].
    { rewrite listeners_unbind_same.
      rewrite listeners_bind_other by (by right).
      rewrite listeners_bind_other by (by right).
      rewrite listeners_bind_same.
      apply remove_first_app_last; [apply Hfd|apply is_callback_same]. }
    rewrite listeners_unbind, decide_False
      by (intros [<- <-]; first [by apply Hn1|by apply Hn2|by apply Hn3]).
    rewrite !listeners_bind.
    rewrite !decide_False
      by (intros [<- <-]; first [by apply Hn1|by apply Hn2|by apply Hn3]).
    reflexivity.
  - subst w3. by rewrite effect_store_update_state, lookup_total_insert_eq.
Qed.

(** ** HealAsDamage under the count of the registry *)

(** X28.  With the registry counting the [HealAsDamage] effects of a
    player, the flag [heal_does_damage] of the player is set exactly while
    the count is positive: registering an effect, and removing one of those
    registered, keep that. *)
Theorem HealAsDamage_flag_tracks_count (w : World) (e m : nat) :
  effect_store w !!! e = {| target := m; state := HealAsDamage |} →
  let p := player (minion_store w !!! m) in
  let tracks (w0 : World) :=
    heal_does_damage (get_player p w0)
    = bool_decide (0 < counted "HealAsDamage" p w0)%Z in
  tracks w →
  ((0 ≤ counted "HealAsDamage" p w)%Z →
   outcome (add_effect e) w = Ok tt
   ∧ counted "HealAsDamage" p (exec (add_effect e) w)
     = (counted "HealAsDamage" p w + 1)%Z
   ∧ tracks (exec (add_effect e) w))
  ∧ ((1 ≤ counted "HealAsDamage" p w)%Z →
     outcome (remove_effect e) w = Ok tt
     ∧ counted "HealAsDamage" p (exec (remove_effect e) w)
       = (counted "HealAsDamage" p w - 1)%Z
     ∧ tracks (exec (remove_effect e) w)).
Proof.
  intros He p tracks Htr. subst tracks. cbv beta in *.
  split.
  - intros Hc.
    destruct (add_effect_HealAsDamage w e m He)
      as (w1 & R & _ & _ & Hc1 & Hf1).
    fold p in Hc1, Hf1.
    rewrite (run_outcome _ _ _ _ R), (run_exec _ _ _ _ R).
    apply counted_lookup in Hc1.
    split; [done|]. split; [done|].
    rewrite Hf1, Hc1, Htr.
    repeat case_bool_decide; try reflexivity; lia.
  - intros Hc.
    destruct (remove_effect_HealAsDamage w e m He)
      as (w1 & R & _ & _ & Hc1 & Hf1).
    fold p in Hc1, Hf1.
    rewrite (run_outcome _ _ _ _ R), (run_exec _ _ _ _ R).
    apply counted_lookup in Hc1.
    split; [done|]. split; [done|].
    rewrite Hf1, Hc1, Htr.
    repeat case_bool_decide; try reflexivity; lia.
Qed.

(** ** ChargeAura: what [apply()] subscribes and [unapply()] removes *)

(** One run of [give_charge_if_beast] returns, keeps the effect a
    [ChargeAura] with its selector and type, and touches no player and the
    owner of no minion. *)
Lemma ChargeAura_give_charge_if_beast_frame (w : World)
    (self t minion : nat) (players : string) (mtype : Z)
    (affected charged : list nat) :
  aura_at w self t players mtype affected charged →
  ∃ w' affected' charged',
    ChargeAura_give_charge_if_beast self minion w = (Ok tt, w')
    ∧ aura_at w' self t players mtype affected' charged'
    ∧ (∀ q, get_player q w' = get_player q w)
    ∧ (∀ n, player (minion_store w' !!! n) = player (minion_store w !!! n)).
Proof.
  intros He.
  destruct (affects mtype (minion_store w !!! minion)) eqn:Hty.
  - destruct (decide (minion = t)) as [->|Hne].
    + exists (exec (update_minion t (with_charge true)) w), affected, charged.
      split; [by apply (ChargeAura_give_charge_if_beast_source w self t
                          players mtype affected charged)|].
      split; [exact He|].
      split; [intros q; apply get_player_update_minion|].
      intros n. apply player_with_charge.
    + rewrite (ChargeAura_give_charge_if_beast_other w self t minion players
                 mtype affected charged He Hne Hty).
      destruct (charge (minion_store w !!! minion)).
      * set (st := ChargeAura players mtype affected (charged ++ [minion])).
        exists (watched self t minion (next_object w) st w), affected,
               (charged ++ [minion]).
        split; [by apply watch_for_silence_run|].
        destruct (watched_store w self t minion (next_object w) st)
          as (Hes & _ & Hm).
        split.
        { unfold aura_at. by rewrite Hes, lookup_total_insert_eq, He. }
        split; [intros q; by destruct q|].
        intros n. specialize (Hm n). by apply (f_equal player) in Hm.
      * set (st := ChargeAura players mtype (affected ++ [minion]) charged).
        exists (permacharged self t minion (next_object w) st w),
               (affected ++ [minion]), charged.
        split; [by apply give_permacharge_effect_run|].
        destruct (permacharged_store w self t minion (next_object w) st)
          as (Hes & _ & _ & _ & Hp).
        split.
        { unfold aura_at. by rewrite Hes, lookup_total_insert_eq, He. }
        split; [intros q; by destruct q|].
        exact Hp.
  - exists w, affected, charged.
    split; [by apply (ChargeAura_give_charge_if_beast_no_match w self t
                        minion players mtype affected charged)|].
    done.
Qed.

(** The loop of [apply()] over the minions of a board. *)
Lemma ChargeAura_give_charge_all (ms : list nat) (w : World)
    (self t : nat) (players : string) (mtype : Z)
    (affected charged : list nat) :
  aura_at w self t players mtype affected charged →
  ∃ w' affected' charged',
    for_each ms (ChargeAura_give_charge_if_beast self) w = (Ok tt, w')
    ∧ aura_at w' self t players mtype affected' charged'
    ∧ (∀ q, get_player q w' = get_player q w)
    ∧ (∀ n, player (minion_store w' !!! n) = player (minion_store w !!! n)).
Proof.
  revert w affected charged.
  induction ms as [|m ms IH]; intros w affected charged He.
  - by exists w, affected, charged.
  - destruct (ChargeAura_give_charge_if_beast_frame w self t m players mtype
                affected charged He) as (w1 & a1 & c1 & R1 & He1 & Hp1 & Ho1).
    destruct (IH w1 a1 c1 He1) as (w2 & a2 & c2 & R2 & He2 & Hp2 & Ho2).
    exists w2, a2, c2.
    split; [cbn [for_each]; by rewrite (seq_run _ _ _ _ R1)|].
    split; [done|].
    split; [intros q; by rewrite Hp2|].
    intros n. by rewrite Ho2.
Qed.

(** One side of [apply()]: the minions of player [q] are looked at, then
    [give_charge_if_beast] is subscribed to the minions that [q] plays. *)
Lemma ChargeAura_apply_side (w : World) (self t : nat) (players : string)
    (mtype : Z) (affected charged : list nat) (q : player_id) :
  aura_at w self t players mtype affected charged →
  let f := bound_ChargeAura_give_charge_if_beast self in
  let side := pl ← the_player q;
              for_each (minions pl) (ChargeAura_give_charge_if_beast self) ;;
              bind (player_entity q) "minion_played" f in
  ∃ w' affected' charged',
    side w = (Ok tt, w')
    ∧ aura_at w' self t players mtype affected' charged'
    ∧ (∀ n, player (minion_store w' !!! n) = player (minion_store w !!! n))
    ∧ (∀ q' event,
         listeners (player_entity q') event w'
         = listeners (player_entity q') event w
           ++ (if bool_decide (q' = q)
                  && bool_decide (event = "minion_played")
               then [(f, false)] else [])).
Proof.
  intros He f side.
  destruct (ChargeAura_give_charge_all (minions (get_player q w)) w self t
              players mtype affected charged He)
    as (w1 & a1 & c1 & R1 & He1 & Hp1 & Ho1).
  exists (exec (bind (player_entity q) "minion_played" f) w1), a1, c1.
  split.
  { subst side. unfold the_player. rewrite bind_run. cbn [fst snd].
    rewrite (seq_run _ _ _ _ R1). apply bind_eq. }
  split; [unfold aura_at; by rewrite effect_store_bind|].
  split; [intros n; rewrite minion_store_bind_player; apply Ho1|].
  intros q' event. rewrite listeners_bind.
  assert (Hl1 : ∀ q0 ev, listeners (player_entity q0) ev w1
                         = listeners (player_entity q0) ev w).
  { intros q0 ev. unfold listeners, entity_events. by rewrite Hp1. }
  destruct (decide (player_entity q = player_entity q'
                    ∧ "minion_played" = event)) as [[[= <-] <-]|Hne].
  - by rewrite !bool_decide_eq_true_2, Hl1.
  - rewrite Hl1.
    destruct (bool_decide (q' = q) && bool_decide (event = "minion_played"))
      eqn:Hb; [|by rewrite app_nil_r].
    apply andb_true_iff in Hb as [Hq%bool_decide_eq_true
                                    Hev%bool_decide_eq_true].
    subst. by destruct Hne.
Qed.

(** [ChargeAura.apply()] on any board: it returns, the effect stays a
    [ChargeAura] on its target, and the listeners of the players are those
    before with [give_charge_if_beast] appended to the [minion_played]
    listeners of every player that the selector names. *)
Lemma ChargeAura_apply_world (w : World) (self t : nat) (players : string)
    (mtype : Z) (affected charged : list nat) :
  aura_at w self t players mtype affected charged →
  let p := player (minion_store w !!! t) in
  let f := bound_ChargeAura_give_charge_if_beast self in
  ∃ w' affected' charged',
    apply self w = (Ok tt, w')
    ∧ aura_at w' self t players mtype affected' charged'
    ∧ player (minion_store w' !!! t) = p
    ∧ (∀ q event,
         listeners (player_entity q) event w'
         = listeners (player_entity q) event w
           ++ (if selects players p q && bool_decide (event = "minion_played")
               then [(f, false)] else [])).
Proof.
  intros He p f.
  assert (Happ : apply self w = ChargeAura_apply self w).
  { unfold apply, the_effect. by rewrite bind_run, He. }
  rewrite Happ. unfold ChargeAura_apply, the_effect.
  rewrite bind_run, He. cbn [fst snd state]. unfold selects.
  set (friendly := bool_decide (players = "friendly")
                   || bool_decide (players = "both")).
  set (enemy := bool_decide (players = "enemy")
                || bool_decide (players = "both")).
  assert (Hfirst : ∃ w1 a1 c1,
    (if friendly
     then p0 ← self_target_player self;
          pl ← the_player p0;
          for_each (minions pl) (ChargeAura_give_charge_if_beast self) ;;
          bind (player_entity p0) "minion_played" f
     else skip) w = (Ok tt, w1)
    ∧ aura_at w1 self t players mtype a1 c1
    ∧ (∀ n, player (minion_store w1 !!! n) = player (minion_store w !!! n))
    ∧ (∀ q event,
         listeners (player_entity q) event w1
         = listeners (player_entity q) event w
           ++ (if friendly && bool_decide (q = p)
                  && bool_decide (event = "minion_played")
               then [(f, false)] else []))).
  { destruct friendly; cbn [andb].
    - rewrite bind_run, self_target_player_run, He. cbn [fst snd target].
      fold p.
      exact (ChargeAura_apply_side w self t players mtype affected charged p
               He).
    - exists w, affected, charged. split; [done|]. split; [done|].
      split; [done|]. intros q event. by rewrite app_nil_r. }
  destruct Hfirst as (w1 & a1 & c1 & R1 & He1 & Ho1 & Hl1).
  rewrite (seq_run _ _ _ _ R1).
  destruct enemy; cbn [andb orb].
  - rewrite bind_run, self_target_player_run, He1. cbn [fst snd target].
    rewrite Ho1. fold p.
    destruct (ChargeAura_apply_side w1 self t players mtype a1 c1
                (opponent p) He1) as (w2 & a2 & c2 & R2 & He2 & Ho2 & Hl2).
    exists w2, a2, c2. split; [exact R2|]. split; [done|].
    split; [by rewrite Ho2, Ho1|].
    intros q event. rewrite Hl2, Hl1, <- app_assoc. f_equal.
    clearbody p.
    destruct friendly, p, q, (bool_decide (event = "minion_played")); done.
  - exists w1, a1, c1. split; [done|]. split; [done|].
    split; [by rewrite Ho1|].
    intros q event. rewrite Hl1. by rewrite orb_false_r.
Qed.

(** [ChargeAura.unapply()] removes [give_charge_if_beast] from the
    [minion_played] listeners of the players that the selector names, and
    nothing else. *)
Lemma ChargeAura_unapply_world (w : World) (self t : nat) (players : string)
    (mtype : Z) (affected charged : list nat) :
  aura_at w self t players mtype affected charged →
  let p := player (minion_store w !!! t) in
  let f := bound_ChargeAura_give_charge_if_beast self in
  ∃ w',
    unapply self w = (Ok tt, w')
    ∧ minion_store w' = minion_store w
    ∧ effect_store w' = effect_store w
    ∧ (∀ q event,
         listeners (player_entity q) event w'
         = if selects players p q && bool_decide (event = "minion_played")
           then remove_first (is_callback f)
                  (listeners (player_entity q) event w)
           else listeners (player_entity q) event w).
Proof.
  intros He p f.
  assert (Hun : unapply self w = ChargeAura_unapply self w).
  { unfold unapply, the_effect. by rewrite bind_run, He. }
  rewrite Hun. unfold ChargeAura_unapply, the_effect.
  rewrite bind_run, He. cbn [fst snd state]. unfold selects.
  destruct (bool_decide (players = "friendly")
            || bool_decide (players = "both")),
           (bool_decide (players = "enemy")
            || bool_decide (players = "both")); cbn [andb orb].
  - exists (exec (unbind (player_entity (opponent p)) "minion_played" f)
              (exec (unbind (player_entity p) "minion_played" f) w)).
    split.
    { rewrite bind_run, bind_run, self_target_player_run, He.
      cbn [fst snd target]. fold p. rewrite unbind_eq.
      rewrite bind_run, self_target_player_run. cbn [fst snd].
      rewrite effect_store_unbind, He. cbn [target].
      rewrite minion_store_unbind_player. fold p. apply unbind_eq. }
    split; [reflexivity|]. split; [reflexivity|].
    intros q event. rewrite !listeners_unbind. clearbody p.
    destruct p, q; cbn [opponent];
      repeat case_bool_decide; repeat case_decide;
      cbn [andb orb]; try reflexivity; try (by subst);
      try (exfalso; intuition congruence).
  - exists (exec (unbind (player_entity p) "minion_played" f) w).
    split.
    { rewrite bind_run, bind_run, self_target_player_run, He.
      cbn [fst snd target]. fold p. by rewrite unbind_eq. }
    split; [reflexivity|]. split; [reflexivity|].
    intros q event. rewrite !listeners_unbind. clearbody p.
    destruct p, q; cbn [opponent];
      repeat case_bool_decide; repeat case_decide;
      cbn [andb orb]; try reflexivity; try (by subst);
      try (exfalso; intuition congruence).
  - exists (exec (unbind (player_entity (opponent p)) "minion_played" f) w).
    split.
    { rewrite bind_run. change (skip w) with (Ok tt, w). cbv beta iota.
      rewrite bind_run, self_target_player_run, He.
      cbn [fst snd target]. fold p. apply unbind_eq. }
    split; [reflexivity|]. split; [reflexivity|].
    intros q event. rewrite !listeners_unbind. clearbody p.
    destruct p, q; cbn [opponent];
      repeat case_bool_decide; repeat case_decide;
      cbn [andb orb]; try reflexivity; try (by subst);
      try (exfalso; intuition congruence).
  - exists w. split; [reflexivity|]. done.
Qed.

(** C4, as the code has it.  For an effect that is not applied, [apply()]
    followed by [unapply()] returns normally and gives back every listener
    list, every mana filter list and every flag and stat of the players and
    minions, when the effect is a [KillMinion], a [DrawOnMinion], a
    [ManaFilter], an [AddCardOnSpell], a [FreezeOnDamage] or a [Buff] with a
    recognized [players] selector.  For [Immune] it does so except that the
    [immune] flag of the target ends false, whatever it was.  For a
    [ChargeAura], on any board, [apply()] subscribes [give_charge_if_beast]
    to the [minion_played] events of the players that the selector names,
    and [unapply()] removes these subscriptions and only them: the listeners
    of the players are those before [apply()], and every minion (its charge,
    its listeners, the listeners on the source) and every effect (the
    tracking lists) stays as [apply()] left it.  [unapply()] on its own
    touches no minion and no tracking list either. *)
Theorem apply_unapply_restores
    (w : World) (self t : nat) (st : effect_state) :
  effect_store w !!! self = {| target := t; state := st |} →
  not_bound self w →
  filters_allocated w →
  match st with
  | KillMinion _ | DrawOnMinion _ | ManaFilter _ _ _ _ _
  | AddCardOnSpell _ | FreezeOnDamage =>
      outcome (apply self ;; unapply self) w = Ok tt
      ∧ restored w (exec (apply self ;; unapply self) w)
  | Buff _ _ _ _ _ players =>
      players = "friendly" ∨ players = "enemy" ∨ players = "both" →
      outcome (apply self ;; unapply self) w = Ok tt
      ∧ restored w (exec (apply self ;; unapply self) w)
  | Immune =>
      outcome (apply self ;; unapply self) w = Ok tt
      ∧ restored (exec (update_minion t (with_immune false)) w)
          (exec (apply self ;; unapply self) w)
  | ChargeAura players _ _ _ =>
      let p := player (minion_store w !!! t) in
      let f := bound_ChargeAura_give_charge_if_beast self in
      let w1 := exec (apply self) w in
      let w2 := exec (apply self ;; unapply self) w in
      outcome (apply self ;; unapply self) w = Ok tt
      ∧ (∀ q, listeners (player_entity q) "minion_played" w1
              = listeners (player_entity q) "minion_played" w
                ++ (if selects players p q then [(f, false)] else []))
      ∧ (∀ q event, listeners (player_entity q) event w2
                    = listeners (player_entity q) event w)
      ∧ minion_store w2 = minion_store w1
      ∧ effect_store w2 = effect_store w1
      ∧ outcome (unapply self) w = Ok tt
      ∧ minion_store (exec (unapply self) w) = minion_store w
      ∧ effect_store (exec (unapply self) w) = effect_store w
  | _ => True
  end.
Proof.
  intros He Hnb Hfresh. destruct st; try exact I.
  - by apply (KillMinion_apply_unapply w self t when).
  - destruct (Immune_apply_unapply w self t He Hnb) as (Hok & Hres & _).
    by split.
  - by apply (DrawOnMinion_apply_unapply w self t mtype).
  - destruct (ChargeAura_apply_world w self t players mtype affected_minions
                charged_minions He) as (w1 & a1 & c1 & R1 & He1 & Ho1 & Hl1).
    destruct (ChargeAura_unapply_world w1 self t players mtype a1 c1 He1)
      as (w2 & R2 & Hm2 & Hes2 & Hl2).
    assert (R : (apply self ;; unapply self) w = (Ok tt, w2))
      by (by rewrite (seq_run _ _ _ _ R1)).
    cbv zeta.
    rewrite (run_outcome _ _ _ _ R), (run_exec _ _ _ _ R),
      (run_exec _ _ _ _ R1).
    split; [done|]. split.
    { intros q. rewrite Hl1. by rewrite andb_true_r. }
    split.
    { intros q event. rewrite Hl2, Ho1, Hl1.
      destruct (selects players (player (minion_store w !!! t)) q
                && bool_decide (event = "minion_played"));
        [|by rewrite app_nil_r].
      apply remove_first_app_last; [|apply is_callback_same].
      by apply (not_bound_callback self). }
    split; [done|]. split; [done|].
    assert (Hun : unapply self w = ChargeAura_unapply self w).
    { unfold unapply, the_effect. by rewrite bind_run, He. }
    unfold outcome, exec. rewrite Hun.
    exact (ChargeAura_unapply_frame w self t _ _ _ _ He).
  - by apply (ManaFilter_apply_unapply w self t amt minimum filter_type plr
                filter_object).
  - by apply (AddCardOnSpell_apply_unapply w self t crd).
  - by apply (FreezeOnDamage_apply_unapply w self t).
  - intros Hv.
    by apply (Buff_apply_unapply w self t when minion_filter buff_target
                players att hp).
Qed.

(** ** ChargeAura: the silence protocol *)

Lemma sublist_singleton_gone {A B : Type} (x : A * B) (l : list (A * B)) :
  l `sublist_of` [x] → x.1 ∉ l.*1 → l = [].
Proof.
  intros Hsub Hnot. destruct l as [|y l]; [done|]. exfalso. apply Hnot.
  assert (Hy : y ∈ [x]).
  { eapply elem_of_sublist; [|exact Hsub]. apply elem_of_cons. by left. }
  apply list_elem_of_singleton in Hy as ->. cbn. apply elem_of_cons. by left.
Qed.

(** The listeners of charge auras on a source are for other minions: none
    takes the charge of the source back. *)
Lemma source_listeners_keep_source (t : nat) (hs : list (callback * bool)) :
  Forall (aura_source_listener t) hs → existsb (revokes t) hs = false.
Proof.
  induction 1 as [|h hs Hh _ IH]; cbn; [done|]. rewrite IH, orb_false_r.
  destruct Hh as (_ & c & self & minion & Hne & [Hf|Hf]);
    unfold revokes; rewrite Hf; [done|].
  by apply bool_decide_eq_false.
Qed.

Lemma existsb_revokes_snoc (m : nat) (hs : list (callback * bool))
    (h : callback * bool) :
  existsb (revokes m) (hs ++ [h]) = existsb (revokes m) hs || revokes m h.
Proof. rewrite existsb_app. cbn. by rewrite orb_false_r. Qed.

Lemma watch_lambda_source_listener (t c self minion : nat) :
  minion ≠ t →
  aura_source_listener t (closure_watch_lambda c self minion, true).
Proof. intros Hne. split; [done|]. exists c, self, minion. by auto. Qed.

Lemma target_silenced_source_listener (t c self minion : nat) :
  minion ≠ t →
  aura_source_listener t
    (closure_permacharge_target_silenced c self minion, true).
Proof. intros Hne. split; [done|]. exists c, self, minion. by auto. Qed.

(** The publish of "silenced" on a source that holds listeners of charge
    auras: what is left on a minion whose listener of an event is a single
    one that an entry of the source unbinds. *)
Lemma source_silenced_listener_gone (depth t : nat)
    (hs : list (callback * bool)) (w : World) (m : nat) (event : string)
    (x : callback * bool) :
  Forall (aura_source_listener t) hs →
  listeners (minion_entity t) "silenced" w = hs →
  m ≠ t →
  listeners (minion_entity m) event w = [x] →
  let w' := exec (trigger (S depth) (minion_entity t) "silenced" []) w in
  x.1 ∉ (listeners (minion_entity m) event w').*1 →
  listeners (minion_entity m) event w' = [].
Proof.
  intros Hhs Hl Hne Hx w' Hgone.
  apply (sublist_singleton_gone x); [|done].
  destruct (source_silenced_all depth t hs w Hhs Hl) as (_ & _ & _ & _ & Hm).
  fold w' in Hm. rewrite Hm, Hx by done. rewrite <- Hx.
  apply unbound_by_sublist.
Qed.

(** C6, as the code has it.  The source holds any listeners of charge
    auras; the aura reaches a minion other than the source that it affects
    and that carries no listener of "silenced" or "copied" yet.  A minion
    that already has charge is tracked in [charged_minions] and watched by a
    one-shot listener.  A "silenced" event on it moves it to
    [affected_minions], gives it the charge of the aura and leaves no
    watcher behind.  A "silenced" event on the source removes the watcher of
    a minion that is still watched, with no migration, and the minion keeps
    the charge it has unless the source held a [target_silenced] for it.
    The same event takes the charge of the aura back from a minion in
    [affected_minions], migrated or not, and unbinds its listeners.  The
    source itself, when the aura affects it, is given charge directly: it is
    tracked in no list, no listener is bound for it, and the listeners of
    its "silenced" event leave its charge.  [unapply()] alone touches no
    minion and no tracking list.  In general, whatever listeners of charge
    auras the source holds, the "silenced" event on it returns, leaves the
    tracking lists as they are, takes the charge back from every minion it
    holds a [target_silenced] for and leaves none of the watchers and
    listeners it holds an unbinding listener for. *)
Theorem ChargeAura_silence_protocol
    (w : World) (self t minion depth : nat) (players : string) (mtype : Z)
    (affected charged : list nat) (hs : list (callback * bool)) :
  aura_at w self t players mtype affected charged →
  minion ≠ t →
  affects mtype (minion_store w !!! minion) = true →
  listeners (minion_entity minion) "silenced" w = [] →
  listeners (minion_entity minion) "copied" w = [] →
  listeners (minion_entity t) "silenced" w = hs →
  Forall (aura_source_listener t) hs →
  let give := ChargeAura_give_charge_if_beast self minion in
  let give_source := ChargeAura_give_charge_if_beast self t in
  let minion_silenced :=
    trigger (S depth) (minion_entity minion) "silenced" [] in
  let source_silenced := trigger (S depth) (minion_entity t) "silenced" [] in
  let c := next_object w in
  (charge (minion_store w !!! minion) = true →
   (outcome give w = Ok tt
    ∧ aura_at (exec give w) self t players mtype affected
        (charged ++ [minion])
    ∧ listeners (minion_entity minion) "silenced" (exec give w)
      = [(closure_watch_silenced c self minion, true)]
    ∧ listeners (minion_entity t) "silenced" (exec give w)
      = hs ++ [(closure_watch_lambda c self minion, true)])
   ∧ (let w2 := exec (give ;; minion_silenced) w in
      outcome (give ;; minion_silenced) w = Ok tt
      ∧ aura_at w2 self t players mtype (affected ++ [minion])
          (remove_first (λ y, bool_decide (y = minion))
             (charged ++ [minion]))
      ∧ listeners (minion_entity minion) "silenced" w2
        = [(closure_permacharge_silenced (S c) self minion, false)]
      ∧ charge (minion_store w2 !!! minion) = true)
   ∧ (let w3 := exec (give ;; minion_silenced ;; source_silenced) w in
      outcome (give ;; minion_silenced ;; source_silenced) w = Ok tt
      ∧ charge (minion_store w3 !!! minion) = false
      ∧ listeners (minion_entity minion) "silenced" w3 = []
      ∧ listeners (minion_entity minion) "copied" w3 = []
      ∧ listeners (minion_entity t) "silenced" w3 = [])
   ∧ (let w2 := exec (give ;; source_silenced) w in
      outcome (give ;; source_silenced) w = Ok tt
      ∧ aura_at w2 self t players mtype affected (charged ++ [minion])
      ∧ (existsb (revokes minion) hs = false →
         charge (minion_store w2 !!! minion) = true)
      ∧ listeners (minion_entity minion) "silenced" w2 = []
      ∧ listeners (minion_entity t) "silenced" w2 = []))
  ∧ (charge (minion_store w !!! minion) = false →
     (outcome give w = Ok tt
      ∧ aura_at (exec give w) self t players mtype (affected ++ [minion])
          charged
      ∧ charge (minion_store (exec give w) !!! minion) = true)
     ∧ (let w2 := exec (give ;; source_silenced) w in
        outcome (give ;; source_silenced) w = Ok tt
        ∧ aura_at w2 self t players mtype (affected ++ [minion]) charged
        ∧ charge (minion_store w2 !!! minion) = false
        ∧ listeners (minion_entity minion) "silenced" w2 = []
        ∧ listeners (minion_entity minion) "copied" w2 = []))
  ∧ (affects mtype (minion_store w !!! t) = true →
     outcome give_source w = Ok tt
     ∧ aura_at (exec give_source w) self t players mtype affected charged
     ∧ charge (minion_store (exec give_source w) !!! t) = true
     ∧ (∀ ent event, listeners ent event (exec give_source w)
                     = listeners ent event w)
     ∧ outcome (give_source ;; source_silenced) w = Ok tt
     ∧ charge (minion_store (exec (give_source ;; source_silenced) w) !!! t)
       = true)
  ∧ (outcome (ChargeAura_unapply self) w = Ok tt
     ∧ minion_store (exec (ChargeAura_unapply self) w) = minion_store w
     ∧ effect_store (exec (ChargeAura_unapply self) w) = effect_store w)
  ∧ (∀ (w0 : World) (hs0 : list (callback * bool)) (c0 self0 m0 : nat),
       Forall (aura_source_listener t) hs0 →
       listeners (minion_entity t) "silenced" w0 = hs0 →
       m0 ≠ t →
       NoDup (listeners (minion_entity m0) "silenced" w0).*1 →
       NoDup (listeners (minion_entity m0) "copied" w0).*1 →
       let w' := exec source_silenced w0 in
       outcome source_silenced w0 = Ok tt
       ∧ effect_store w' = effect_store w0
       ∧ listeners (minion_entity t) "silenced" w' = []
       ∧ ((closure_watch_lambda c0 self0 m0, true) ∈ hs0 →
          closure_watch_silenced c0 self0 m0
          ∉ (listeners (minion_entity m0) "silenced" w').*1)
       ∧ ((closure_permacharge_target_silenced c0 self0 m0, true) ∈ hs0 →
          charge (minion_store w' !!! m0) = false
          ∧ (closure_permacharge_silenced c0 self0 m0
             ∉ (listeners (minion_entity m0) "silenced" w').*1)
          ∧ (closure_permacharge_copied c0 self0 m0
             ∉ (listeners (minion_entity m0) "copied" w').*1))).
Proof.
  intros He Hne Hty Hs Hc Ht Hhs give give_source minion_silenced
    source_silenced c.
  pose proof (ChargeAura_give_charge_if_beast_other w self t minion players
                mtype affected charged He Hne Hty) as Hgive.
  change (ChargeAura_give_charge_if_beast self minion w) with (give w)
    in Hgive.
  assert (Hsingle : ∀ x : callback * bool, NoDup [x].*1).
  { intros x. apply NoDup_singleton. }
  split; [|split; [|split; [|split]]].
  - (* the minion has charge of its own *)
    intros Hcharge. rewrite Hcharge in Hgive.
    rewrite (watch_for_silence_run w self t minion players mtype affected
               charged He) in Hgive.
    fold c in Hgive.
    set (st := ChargeAura players mtype affected (charged ++ [minion]))
      in Hgive.
    set (w1 := watched self t minion c st w) in Hgive.
    destruct (watched_listeners w self t minion c st Hne) as (Hs1 & Hc1 & Ht1).
    destruct (watched_store w self t minion c st) as (He1 & Hn1 & Hm1).
    fold w1 in Hs1, Hc1, Ht1, He1, Hn1, Hm1.
    rewrite Hs in Hs1. rewrite Hc in Hc1. rewrite Ht in Ht1.
    cbn [app] in Hs1.
    assert (Ha1 : aura_at w1 self t players mtype affected
                    (charged ++ [minion])).
    { unfold aura_at. rewrite He1, lookup_total_insert_eq.
      unfold aura_at in He. by rewrite He. }
    assert (Hch1 : charge (minion_store w1 !!! minion) = true).
    { rewrite <- Hcharge.
      exact (f_equal charge (Hm1 minion)). }
    assert (Hgive1 : exec give w = w1) by (unfold exec; by rewrite Hgive).
    assert (Hhs1 : Forall (aura_source_listener t)
                     (hs ++ [(closure_watch_lambda c self minion, true)])).
    { apply Forall_app. split; [done|]. apply Forall_singleton.
      by apply watch_lambda_source_listener. }
    split.
    { rewrite Hgive1. unfold outcome. rewrite Hgive. done. }
    (* migration *)
    assert (Hin : minion ∈ charged ++ [minion]).
    { apply elem_of_app. right. by apply list_elem_of_singleton. }
    destruct (watched_minion_silenced w1 self t minion c depth players mtype
                affected (charged ++ [minion]) Ha1 Hne Hin Hs1)
      as (R2 & Ha2 & Hn2 & Hch2 & Hs2 & Hc2 & Ht2).
    fold minion_silenced in R2, Ha2, Hn2, Hch2, Hs2, Hc2, Ht2.
    set (w2 := exec minion_silenced w1) in *.
    rewrite Hn1 in Hs2, Hc2, Ht2. rewrite Hc1 in Hc2. rewrite Ht1 in Ht2.
    cbn [app] in Hc2.
    destruct (exec_seq give minion_silenced w w1 Hgive) as [Ho12 He12].
    split.
    { rewrite Ho12, He12. fold w2. unfold outcome. rewrite R2.
      done. }
    (* migration, then the source *)
    split.
    { set (hs2 := (hs ++ [(closure_watch_lambda c self minion, true)])
                  ++ [(closure_permacharge_target_silenced (S c) self minion,
                       true)]) in *.
      assert (Hhs2 : Forall (aura_source_listener t) hs2).
      { apply Forall_app. split; [done|]. apply Forall_singleton.
        by apply target_silenced_source_listener. }
      assert (Hin2 : (closure_permacharge_target_silenced (S c) self minion,
                      true) ∈ hs2).
      { apply elem_of_app. right. by apply list_elem_of_singleton. }
      destruct (source_silenced_all depth t hs2 w2 Hhs2 Ht2)
        as (R3 & _ & Ht3 & _ & _).
      destruct (source_silenced_unbinds_all depth t hs2 w2 (S c) self minion
                  Hhs2 Ht2 Hne) as (_ & Hperma).
      { rewrite Hs2. apply Hsingle. }
      { rewrite Hc2. apply Hsingle. }
      destruct (Hperma Hin2) as (Hch3 & Hs3 & Hc3).
      fold source_silenced in R3, Ht3, Hch3, Hs3, Hc3.
      assert (Hassoc : (give ;; minion_silenced ;; source_silenced) w
                       = source_silenced w2).
      { rewrite (seq_run _ _ _ _ Hgive). by rewrite (seq_run _ _ _ _ R2). }
      unfold outcome, exec. rewrite Hassoc, R3. cbn [fst snd].
      split; [done|]. split; [done|].
      split; [|split; [|done]].
      - by apply (source_silenced_listener_gone depth t hs2 w2 minion
                    "silenced" _ Hhs2 Ht2 Hne Hs2).
      - by apply (source_silenced_listener_gone depth t hs2 w2 minion
                    "copied" _ Hhs2 Ht2 Hne Hc2). }
    (* the source first *)
    set (hs1 := hs ++ [(closure_watch_lambda c self minion, true)]) in *.
    assert (Hin1 : (closure_watch_lambda c self minion, true) ∈ hs1).
    { apply elem_of_app. right. by apply list_elem_of_singleton. }
    destruct (source_silenced_all depth t hs1 w1 Hhs1 Ht1)
      as (R2' & He2' & Ht2' & Hch2' & _).
    destruct (source_silenced_unbinds_all depth t hs1 w1 c self minion
                Hhs1 Ht1 Hne) as (Hwatch & _).
    { rewrite Hs1. apply Hsingle. }
    { rewrite Hc1. apply NoDup_nil_2. }
    specialize (Hwatch Hin1).
    fold source_silenced in R2', He2', Ht2', Hch2', Hwatch.
    destruct (exec_seq give source_silenced w w1 Hgive) as [Ho12' He12'].
    rewrite Ho12', He12'. unfold outcome at 1. rewrite R2'.
    split; [done|]. split.
    { unfold aura_at. rewrite He2'. exact Ha1. }
    split.
    { intros Hkeep. rewrite Hch2'. subst hs1.
      rewrite existsb_revokes_snoc, Hkeep. exact Hch1. }
    split; [|done].
    by apply (source_silenced_listener_gone depth t hs1 w1 minion
                "silenced" _ Hhs1 Ht1 Hne Hs1).
  - (* the minion has no charge of its own *)
    intros Hcharge. rewrite Hcharge in Hgive.
    rewrite (give_permacharge_effect_run w self t minion players mtype
               affected charged He) in Hgive.
    fold c in Hgive.
    set (st := ChargeAura players mtype (affected ++ [minion]) charged)
      in Hgive.
    set (w1 := permacharged self t minion c st w) in Hgive.
    destruct (permacharged_listeners w self t minion c st Hne)
      as (Hs1 & Hc1 & Ht1).
    destruct (permacharged_store w self t minion c st)
      as (He1 & Hn1 & Hch1 & _ & _).
    fold w1 in Hs1, Hc1, Ht1, He1, Hn1, Hch1.
    rewrite Hs in Hs1. rewrite Hc in Hc1. rewrite Ht in Ht1.
    cbn [app] in Hs1, Hc1.
    assert (Ha1 : aura_at w1 self t players mtype (affected ++ [minion])
                    charged).
    { unfold aura_at. rewrite He1, lookup_total_insert_eq.
      unfold aura_at in He. by rewrite He. }
    assert (Hgive1 : exec give w = w1) by (unfold exec; by rewrite Hgive).
    split.
    { rewrite Hgive1. unfold outcome. rewrite Hgive.
      split; [done|]. split; [done|]. by rewrite Hch1, decide_True. }
    set (hs1 := hs ++ [(closure_permacharge_target_silenced c self minion,
                        true)]) in *.
    assert (Hhs1 : Forall (aura_source_listener t) hs1).
    { apply Forall_app. split; [done|]. apply Forall_singleton.
      by apply target_silenced_source_listener. }
    assert (Hin1 : (closure_permacharge_target_silenced c self minion, true)
                   ∈ hs1).
    { apply elem_of_app. right. by apply list_elem_of_singleton. }
    destruct (source_silenced_all depth t hs1 w1 Hhs1 Ht1)
      as (R2 & He2 & _ & _ & _).
    destruct (source_silenced_unbinds_all depth t hs1 w1 c self minion
                Hhs1 Ht1 Hne) as (_ & Hperma).
    { rewrite Hs1. apply Hsingle. }
    { rewrite Hc1. apply Hsingle. }
    destruct (Hperma Hin1) as (Hch2 & Hs2 & Hc2).
    fold source_silenced in R2, He2, Hch2, Hs2, Hc2.
    destruct (exec_seq give source_silenced w w1 Hgive) as [Ho12 He12].
    rewrite Ho12, He12. unfold outcome at 1. rewrite R2.
    split; [done|]. split.
    { unfold aura_at. rewrite He2. exact Ha1. }
    split; [done|]. split.
    + by apply (source_silenced_listener_gone depth t hs1 w1 minion
                  "silenced" _ Hhs1 Ht1 Hne Hs1).
    + by apply (source_silenced_listener_gone depth t hs1 w1 minion
                  "copied" _ Hhs1 Ht1 Hne Hc1).
  - (* the source itself *)
    intros Htys.
    pose proof (ChargeAura_give_charge_if_beast_source w self t players mtype
                  affected charged He Htys) as Hsrc.
    change (ChargeAura_give_charge_if_beast self t w) with (give_source w)
      in Hsrc.
    set (w1 := exec (update_minion t (with_charge true)) w) in *.
    assert (Hl1 : ∀ ent event, listeners ent event w1 = listeners ent event w).
    { intros ent event. by apply listeners_update_minion. }
    assert (Hch1 : charge (minion_store w1 !!! t) = true).
    { subst w1. by rewrite charge_with_charge, decide_True. }
    assert (Ht1 : listeners (minion_entity t) "silenced" w1 = hs)
      by (by rewrite Hl1).
    destruct (source_silenced_all depth t hs w1 Hhs Ht1)
      as (R2 & _ & _ & Hch2 & _).
    fold source_silenced in R2, Hch2.
    rewrite (run_outcome _ _ _ _ Hsrc), (run_exec _ _ _ _ Hsrc).
    split; [done|]. split; [exact He|]. split; [done|]. split; [done|].
    destruct (exec_seq give_source source_silenced w w1 Hsrc) as [Ho12 He12].
    rewrite Ho12, He12. unfold outcome. rewrite R2.
    split; [done|].
    by rewrite Hch2, (source_listeners_keep_source t hs Hhs).
  - exact (ChargeAura_unapply_frame w self t players mtype affected charged
             He).
  - intros w0 hs0 c0 self0 m0 Hhs0 Hl0 Hm0 Hds Hdc w'.
    destruct (source_silenced_all depth t hs0 w0 Hhs0 Hl0)
      as (R & Hes & Hts & _ & _).
    destruct (source_silenced_unbinds_all depth t hs0 w0 c0 self0 m0 Hhs0 Hl0
                Hm0 Hds Hdc) as (Hwatch & Hperma).
    fold source_silenced in R, Hes, Hts, Hwatch, Hperma.
    split; [unfold outcome; by rewrite R|].
    split; [done|]. split; [done|]. split; [exact Hwatch|exact Hperma].
Qed.

End Properties.

(** * The statements at concrete inputs *)

#[local] Existing Instance example_types.

Lemma DoubleDeathrattle_subscription_outlives_count_witness :
  let run := add_effect 0 ;; add_effect 1 ;;
             remove_effect 0 ;; remove_effect 1 in
  counted "DoubleDeathrattle" Player1 two_DoubleDeathrattle = 0%Z
  ∧ outcome run two_DoubleDeathrattle = Ok tt
  ∧ effect_count (get_player Player1 (exec run two_DoubleDeathrattle))
      !! "DoubleDeathrattle" = Some 0%Z
  ∧ (bound_DoubleDeathrattle_trigger_deathrattle 0, false)
    ∈ listeners (player_entity Player1) "minion_died"
        (exec run two_DoubleDeathrattle).
Proof.
  split; [reflexivity|].
  apply (DoubleDeathrattle_subscription_outlives_count
           two_DoubleDeathrattle 0 1 0 1);
    first [ reflexivity | discriminate ].
Defined.

(** The scenario of the mana filter chain through [ManaFilter.apply]: the
    two filters are registered in the order of application, and a card of
    base cost 2 costs 2. *)
Lemma two_ManaFilter_cost :
  let w := exec (ManaFilter_apply 0 ;; ManaFilter_apply 1) two_ManaFilter in
  outcome (ManaFilter_apply 0 ;; ManaFilter_apply 1) two_ManaFilter = Ok tt
  ∧ mana_filters (player_one w)
    = [any_card_filter 10 (-2) 1; any_card_filter 11 1 0]
  ∧ mana_cost beast_card Player1 w = Ok 2%Z.
Proof. vm_compute. done. Qed.

Lemma mana_cost_left_fold_witness :
  mana_cost beast_card Player1 (exec (for_each [0; 1] apply) two_ManaFilter)
  = Ok 2%Z.
Proof.
  assert (Hnd : NoDup [0; 1]).
  { apply NoDup_cons_2; [|apply NoDup_singleton].
    intros Hin. apply list_elem_of_singleton in Hin. discriminate. }
  assert (Hall : Forall (answering_ManaFilter two_ManaFilter) [0; 1]).
  { apply Forall_cons. split; [|apply Forall_cons; split; [|constructor]].
    - exists 0, (-2)%Z, "card", 1%Z, "friendly", None.
      split; [reflexivity|]. split; discriminate.
    - exists 0, 1%Z, "card", 0%Z, "friendly", None.
      split; [reflexivity|]. split; discriminate. }
  pose proof (mana_cost_left_fold two_ManaFilter [0; 1] Player1 beast_card
                Hnd Hall) as (_ & _ & Hcost & _).
  exact (Hcost eq_refl).
Defined.

(** A filter with a negative floor: amount -5 and minimum -3 on a card of
    base cost 1.  The fold gives -3; the cost is floored at 0 at the end. *)
Lemma mana_cost_floored_below_fold :
  let w := exec (apply 0) negative_floor_ManaFilter in
  let entries := mana_filters (get_player Player1 w) in
  entries = [any_card_filter 10 (-5) (-3)]
  ∧ fold_left (mana_cost_step murloc_card) entries (Ok (mana murloc_card))
    = Ok (-3)%Z
  ∧ mana_cost murloc_card Player1 w = Ok 0%Z
  ∧ mana_cost murloc_card Player1 w
    ≠ fold_left (mana_cost_step murloc_card) entries (Ok (mana murloc_card)).
Proof. vm_compute. repeat split; discriminate. Qed.

(** [IncreaseBattlecryMinionCost(1)] registers the amount -1 on both
    players.  The predicate of the entry names [MinionCard], which the
    module does not define: once the entry is registered, the chain raises
    [NameError] on every card. *)
Lemma IncreaseBattlecryMinionCost_entry :
  let w := exec (IncreaseBattlecryMinionCost_apply 0)
             one_IncreaseBattlecryMinionCost in
  mana_filters (player_one w)
  = [{| filter_obj := 10; amount := -1; min := 0;
        filter := filter_battlecry_minion |}]
  ∧ mana_filters (player_two w) = mana_filters (player_one w)
  ∧ mana_cost battlecry_card Player1 w = Raise (NameError "MinionCard")
  ∧ mana_cost spell_card Player2 w = Raise (NameError "MinionCard").
Proof. vm_compute. done. Qed.

Lemma SummonOnDeath_chain_fires_in_order_witness :
  let w2 := exec (SummonOnDeath_apply 0 ;; SummonOnDeath_apply 1)
              two_SummonOnDeath in
  let dies := call 3 (bound_SummonOnDeath_summon_replacement 1) [VMinion 0] in
  deathrattle (minion_store two_SummonOnDeath !!! 0) = Some (Native 7)
  ∧ outcome dies w2 = Ok tt
  ∧ native_calls (exec dies w2) = [(7, [VMinion 0])]
  ∧ minions (get_player Player1 (exec dies w2)) = [0; 1; 10; 11; 12]
  ∧ board_cards Player1 (exec dies w2)
    = [beast_card; beast_card; beast_card; beast_card; murloc_card].
Proof.
  split; [reflexivity|].
  pose proof (SummonOnDeath_chain_fires_in_order two_SummonOnDeath 0 1 0 0
                beast_card murloc_card 2 1 None None (Some 7)
                eq_refl eq_refl ltac:(discriminate)
                ltac:(vm_compute; lia) eq_refl)
    as (_ & _ & _ & _ & Hok & Hcalls & Hboard & _ & _).
  split; [exact Hok|]. split; [exact Hcalls|]. split; [exact Hboard|].
  vm_compute. reflexivity.
Defined.

Lemma DrawOnMinion_ALL_never_draws_witness :
  call 1 (bound_DrawOnMinion_check_minion_draw 0) [VMinion 1]
    one_DrawOnMinion = (Ok tt, one_DrawOnMinion).
Proof.
  exact (proj2 (DrawOnMinion_ALL_never_draws one_DrawOnMinion 0 0 1 0
                  eq_refl)).
Defined.

Lemma AddCardOnSpell_hand_limit_witness :
  let cast := call 1 (bound_AddCardOnSpell_add_card 0) [VCard spell_card] in
  outcome cast one_AddCardOnSpell = Ok tt
  ∧ hand (get_player Player1 (exec cast one_AddCardOnSpell)) = [spell_card].
Proof.
  pose proof (AddCardOnSpell_hand_limit one_AddCardOnSpell 0 0 0 spell_card
                (VCard spell_card) eq_refl)
    as (Hok & Hlt & _).
  split; [exact Hok|]. apply Hlt. vm_compute. lia.
Defined.

Lemma Resurrect_summons_at_every_turn_end_witness :
  let turn_ended := call 1 (bound_Resurrect_turn_ended 0) [] in
  minions (get_player Player1
             (exec (repeat_times 2 turn_ended) one_Resurrect))
  = [0; 1; 10; 11]
  ∧ state (effect_store (exec (repeat_times 2 turn_ended) one_Resurrect)
             !!! 0)
    = ResurrectFriendlyMinionsAtEndOfTurn [murloc_card]
  ∧ state (effect_store (exec (Resurrect_unapply 0) one_Resurrect) !!! 0)
    = ResurrectFriendlyMinionsAtEndOfTurn [].
Proof.
  pose proof (Resurrect_summons_at_every_turn_end one_Resurrect 0 0 0
                [murloc_card] eq_refl ltac:(vm_compute; lia))
    as (_ & _ & Hturns & _ & Hreset).
  destruct (Hturns 2) as (_ & Hstore & Hboard & _).
  split; [exact Hboard|]. split; [by rewrite Hstore|]. exact Hreset.
Defined.

Lemma Buff_check_minion_filter_lookup_miss_witness :
  from_str "GNOME" = None
  ∧ call 1 (bound_Buff_check_minion_filter 0) [VMinion 1] Buff_unknown_filter
    = (Ok tt, Buff_unknown_filter).
Proof.
  split; [reflexivity|].
  exact (proj2 (Buff_check_minion_filter_lookup_miss Buff_unknown_filter
                  0 0 1 0 "played" "GNOME" "self" "friendly" 1 1 []
                  eq_refl ltac:(discriminate) ltac:(discriminate)
                  ltac:(discriminate) eq_refl)).
Defined.

Lemma Buff_selectors_checked_witness :
  apply 0 Buff_unknown_players
  = (Raise (RuntimeError
       "Required players to be 'friendly', 'enemy', or 'both', got 'friend"),
     Buff_unknown_players)
  ∧ Buff_do_action 0 Buff_unknown_target
    = (Raise (RuntimeError
         "Expected 'target' to be one of 'self', 'random', 'random_friendly' or 'random_enemy'.  Got 'anyone'"),
       Buff_unknown_target)
  ∧ outcome (apply 0) Buff_unknown_target = Ok tt.
Proof.
  pose proof (Buff_selectors_checked Buff_unknown_players 0 0
                "turn_ended" "self" "self" "friend" 1 1 eq_refl)
    as [Hplayers _].
  pose proof (Buff_selectors_checked Buff_unknown_target 0 0
                "turn_ended" "self" "anyone" "friendly" 1 1 eq_refl)
    as [_ Htarget].
  destruct (Hplayers ltac:(discriminate) ltac:(discriminate)
              ltac:(discriminate)) as [Happly _].
  destruct (Htarget ltac:(discriminate) ltac:(discriminate)
              ltac:(discriminate) ltac:(discriminate)) as [Haction Hok].
  split; [exact Happly|]. split; [exact Haction|].
  apply Hok. by left.
Defined.

(** C5 fails as stated: a [Buff] built with the unknown target selector
    "anyone" is applied without any error, and subscribes its action. *)
Lemma Buff_unknown_target_applies :
  outcome (apply 0) Buff_unknown_target = Ok tt
  ∧ listeners (player_entity Player1) "turn_ended"
      (exec (apply 0) Buff_unknown_target)
    = [(bound_Buff_do_action 0, false)].
Proof. vm_compute. done. Qed.

(** The other effects with a selector do not check it: with the unknown
    value "friend", [StatsAura.apply()] registers the aura for both players,
    and [ChargeAura.apply()] and [ManaFilter.apply()] return without
    subscribing or registering anything. *)
Lemma unknown_selector_not_checked :
  (outcome (apply 0) StatsAura_unknown_players = Ok tt
   ∧ aura_players <$> auras (exec (apply 0) StatsAura_unknown_players)
     = [[Player1; Player2]])
  ∧ apply 0 ChargeAura_unknown_players = (Ok tt, ChargeAura_unknown_players)
  ∧ (outcome (apply 0) ManaFilter_unknown_player = Ok tt
     ∧ mana_filters (player_one (exec (apply 0) ManaFilter_unknown_player))
       = []
     ∧ mana_filters (player_two (exec (apply 0) ManaFilter_unknown_player))
       = []).
Proof. vm_compute. done. Qed.

(** No listener is bound and no [Filter] exists in the example worlds. *)
Lemma example_world_listeners (effs : list (nat * Effect)) (ent : entity)
    (event : string) :
  listeners ent event (example_world effs) = [].
Proof.
  destruct ent as [[]|m]; [reflexivity|reflexivity|].
  unfold listeners, entity_events.
  cbn [example_world minion_store].
  rewrite lookup_total_alt, !lookup_insert.
  repeat case_decide; reflexivity.
Qed.

Lemma example_world_not_bound (effs : list (nat * Effect)) (self : nat) :
  not_bound self (example_world effs).
Proof. intros ent event. by rewrite example_world_listeners. Qed.

Lemma example_world_filters_allocated (effs : list (nat * Effect)) :
  filters_allocated (example_world effs).
Proof. intros []; constructor. Qed.

Lemma apply_unapply_restores_witness :
  (outcome (apply 0 ;; unapply 0) five_effects = Ok tt
   ∧ restored five_effects (exec (apply 0 ;; unapply 0) five_effects))
  ∧ (outcome (apply 2 ;; unapply 2) five_effects = Ok tt
     ∧ restored five_effects (exec (apply 2 ;; unapply 2) five_effects))
  ∧ (outcome (apply 3 ;; unapply 3) five_effects = Ok tt
     ∧ restored five_effects (exec (apply 3 ;; unapply 3) five_effects))
  ∧ (listeners (player_entity Player1) "minion_played"
       (exec (apply 0) one_ChargeAura)
     = [(bound_ChargeAura_give_charge_if_beast 0, false)]
     ∧ listeners (player_entity Player1) "minion_played"
         (exec (apply 0 ;; unapply 0) one_ChargeAura) = []
     ∧ minion_store (exec (apply 0 ;; unapply 0) one_ChargeAura)
       = minion_store (exec (apply 0) one_ChargeAura)).
Proof.
  split; [|split; [|split]].
  - exact (apply_unapply_restores five_effects 0 0 (KillMinion "turn_ended")
             eq_refl (example_world_not_bound _ 0)
             (example_world_filters_allocated _)).
  - exact (apply_unapply_restores five_effects 2 0
             (ManaFilter 1 "minion" 0 "both" None)
             eq_refl (example_world_not_bound _ 2)
             (example_world_filters_allocated _)).
  - exact (apply_unapply_restores five_effects 3 0
             (Buff "death" "minion" "self" 1 1 "both")
             eq_refl (example_world_not_bound _ 3)
             (example_world_filters_allocated _)
             (or_intror (or_intror eq_refl))).
  - pose proof (apply_unapply_restores one_ChargeAura 0 0
                  (ChargeAura "friendly" (-1) [] [])
                  eq_refl (example_world_not_bound _ 0)
                  (example_world_filters_allocated _))
      as (_ & Hsub & Hback & Hm & _).
    split; [exact (Hsub Player1)|].
    split; [exact (Hback Player1 "minion_played")|exact Hm].
Defined.

(** C4 fails as stated for [ChargeAura]: after [apply()] and [unapply()]
    minion 1 keeps the charge it was given and the listeners bound on it,
    the source keeps its one-shot listener and [affected_minions] keeps the
    minion. *)
Lemma ChargeAura_apply_unapply_not_restored :
  let w := one_ChargeAura in
  let w' := exec (apply 0 ;; unapply 0) w in
  outcome (apply 0 ;; unapply 0) w = Ok tt
  ∧ charge (minion_store w !!! 1) = false
  ∧ charge (minion_store w' !!! 1) = true
  ∧ listeners (minion_entity 1) "silenced" w = []
  ∧ listeners (minion_entity 1) "silenced" w'
    = [(closure_permacharge_silenced 10 0 1, false)]
  ∧ listeners (minion_entity 0) "silenced" w'
    = [(closure_permacharge_target_silenced 10 0 1, true)]
  ∧ state (effect_store w' !!! 0) = ChargeAura "friendly" (-1) [1] []
  ∧ ¬ restored w w'.
Proof.
  repeat split; try (vm_compute; reflexivity).
  intros [_ Hl]. specialize (Hl (minion_entity 1) "silenced").
  vm_compute in Hl. discriminate.
Qed.

Lemma ChargeAura_silence_protocol_witness :
  let give := ChargeAura_give_charge_if_beast 0 1 in
  let give_source := ChargeAura_give_charge_if_beast 0 0 in
  let minion_silenced := trigger 1 (minion_entity 1) "silenced" [] in
  let source_silenced := trigger 1 (minion_entity 0) "silenced" [] in
  let w := charged_minion_ChargeAura in
  let reached := exec (ChargeAura_give_charge_if_beast 0 1) one_ChargeAura in
  (charge (minion_store w !!! 1) = true
   ∧ state (effect_store (exec (give ;; minion_silenced) w) !!! 0)
     = ChargeAura "friendly" (-1) [1] []
   ∧ charge (minion_store
               (exec (give ;; minion_silenced ;; source_silenced) w) !!! 1)
     = false
   ∧ charge (minion_store (exec (give_source ;; source_silenced) w) !!! 0)
     = true)
  ∧ (listeners (minion_entity 0) "silenced" reached
     = [(closure_permacharge_target_silenced 10 0 1, true)]
     ∧ state (effect_store
                (exec (ChargeAura_give_charge_if_beast 0 2) reached) !!! 0)
       = ChargeAura "friendly" (-1) [1; 2] []
     ∧ charge (minion_store
                 (exec (ChargeAura_give_charge_if_beast 0 2 ;;
                        source_silenced) reached) !!! 2)
       = false).
Proof.
  split.
  - split; [reflexivity|].
    assert (Hl : ∀ ent event, listeners ent event charged_minion_ChargeAura
                              = []).
    { intros ent event. unfold charged_minion_ChargeAura.
      rewrite listeners_update_minion by done.
      apply example_world_listeners. }
    pose proof (ChargeAura_silence_protocol charged_minion_ChargeAura 0 0 1 0
                  "friendly" (-1) [] [] [] eq_refl ltac:(discriminate) eq_refl
                  (Hl _ _) (Hl _ _) (Hl _ _) (Forall_nil_2 _))
      as (Hcharged & _ & Hsource & _).
    destruct (Hcharged eq_refl)
      as (_ & (_ & Haura & _) & (_ & Hrevoked & _) & _).
    destruct (Hsource eq_refl) as (_ & _ & _ & _ & _ & Hkept).
    split; [|split; [exact Hrevoked|exact Hkept]].
    unfold aura_at in Haura. by rewrite Haura.
  - split; [reflexivity|].
    assert (Hhs : Forall (aura_source_listener 0)
                    [(closure_permacharge_target_silenced 10 0 1, true)]).
    { apply Forall_singleton. split; [reflexivity|].
      exists 10, 0, 1. split; [discriminate|by right]. }
    pose proof (ChargeAura_silence_protocol
                  (exec (ChargeAura_give_charge_if_beast 0 1) one_ChargeAura)
                  0 0 2 0 "friendly" (-1) [1] []
                  [(closure_permacharge_target_silenced 10 0 1, true)]
                  eq_refl ltac:(discriminate) eq_refl eq_refl eq_refl eq_refl
                  Hhs)
      as (_ & Hplain & _).
    destruct (Hplain eq_refl) as ((_ & Haura & _) & (_ & _ & Hrevoked & _)).
    split; [|exact Hrevoked].
    unfold aura_at in Haura. by rewrite Haura.
Defined.

(** C6 fails as stated: minion 1 had charge of its own, was silenced while
    the aura was on, which moved it to [affected_minions], and loses its
    charge when the source is silenced. *)
Lemma ChargeAura_migrated_minion_loses_charge :
  let migrated := exec (apply 0 ;; trigger 1 (minion_entity 1) "silenced" [])
                    charged_minion_ChargeAura in
  let source_silenced := trigger 1 (minion_entity 0) "silenced" [] in
  state (effect_store migrated !!! 0) = ChargeAura "friendly" (-1) [1] []
  ∧ charge (minion_store migrated !!! 1) = true
  ∧ outcome source_silenced migrated = Ok tt
  ∧ charge (minion_store (exec source_silenced migrated) !!! 1) = false.
Proof. vm_compute. done. Qed.

(** * Further statements at concrete inputs *)

Lemma KillMinion_kills_on_its_event_witness :
  let run :=
    KillMinion_apply 0 ;; trigger 1 (player_entity Player1) "turn_ended" [] in
  outcome run five_effects = Ok tt
  ∧ dead (minion_store (exec run five_effects) !!! 0) = true.
Proof.
  pose proof (KillMinion_kills_on_its_event five_effects 0 0 0 "turn_ended"
                eq_refl eq_refl) as (Hok & Hdead & _).
  split; [exact Hok|exact Hdead].
Defined.

Lemma KillMinion_unapply_after_turn_change_witness :
  let w1 := set_current_player Player2 (exec (KillMinion_apply 0) five_effects)
  in
  outcome (KillMinion_unapply 0) w1 = Ok tt
  ∧ listeners (player_entity Player1) "turn_ended"
      (exec (KillMinion_unapply 0) w1)
    = [(bound_KillMinion_die 0, false)].
Proof.
  pose proof (KillMinion_unapply_after_turn_change five_effects 0 0
                "turn_ended" eq_refl) as (_ & Hok & Hl & _).
  split; [exact Hok|exact Hl].
Defined.

Lemma Immune_unapply_ends_shared_immunity_witness :
  let run := Immune_apply 0 ;; Immune_apply 1 ;; Immune_unapply 0 in
  outcome run two_Immune = Ok tt
  ∧ immune (minion_store (exec run two_Immune) !!! 0) = false
  ∧ (bound_Immune_remove_immunity 1, false)
    ∈ listeners (player_entity Player1) "turn_ended" (exec run two_Immune).
Proof.
  pose proof (Immune_unapply_ends_shared_immunity two_Immune 0 1 0
                eq_refl eq_refl ltac:(discriminate))
    as (Hok & _ & Hoff & Hin).
  split; [exact Hok|]. split; [exact Hoff|exact Hin].
Defined.

Lemma Immune_lasts_until_turn_end_witness :
  let ended q := trigger 1 (player_entity q) "turn_ended" [] in
  immune (minion_store (exec (Immune_apply 1 ;; ended Player2) five_effects)
            !!! 0) = true
  ∧ immune (minion_store (exec (Immune_apply 1 ;; ended Player1) five_effects)
              !!! 0) = false.
Proof.
  pose proof (Immune_lasts_until_turn_end five_effects 1 0 0
                eq_refl eq_refl eq_refl) as (_ & Hon & _ & Hoff & _).
  split; [exact Hon|exact Hoff].
Defined.

Lemma SummonOnDeath_applied_twice_recurses_witness :
  let w2 := exec (SummonOnDeath_apply 0 ;; SummonOnDeath_apply 0)
              one_SummonOnDeath in
  call 100 (bound_SummonOnDeath_summon_replacement 0) [VMinion 0] w2
  = (Raise RecursionError, w2).
Proof.
  pose proof (SummonOnDeath_applied_twice_recurses one_SummonOnDeath 0 0 100
                murloc_card 2 None (VMinion 0) eq_refl) as (_ & _ & _ & Hrec).
  exact Hrec.
Defined.

Lemma SummonOnDeath_unapply_keeps_deathrattle_witness :
  let w2 := exec (apply 0 ;; unapply 0) one_SummonOnDeath in
  let dies := call 1 (bound_SummonOnDeath_summon_replacement 0) [VMinion 0] in
  deathrattle (minion_store w2 !!! 0)
  = Some (bound_SummonOnDeath_summon_replacement 0)
  ∧ minions (get_player Player1 (exec dies w2)) = [0; 1; 10; 11].
Proof.
  pose proof (SummonOnDeath_unapply_keeps_deathrattle one_SummonOnDeath 0 0 0
                murloc_card 2 None eq_refl ltac:(vm_compute; lia) eq_refl)
    as (_ & Hslot & _ & Hboard & _).
  split; [exact Hslot|exact Hboard].
Defined.

Lemma DoubleDeathrattle_empty_slot_raises_witness :
  trigger 1 (player_entity Player1) "minion_died" [VMinion 1; VNone]
    subscribed_DoubleDeathrattle
  = (Raise TypeError, subscribed_DoubleDeathrattle).
Proof.
  exact (proj2 (DoubleDeathrattle_empty_slot_raises
                  subscribed_DoubleDeathrattle 0 1 0 VNone Player1 []
                  eq_refl eq_refl)).
Defined.

Lemma DoubleDeathrattle_repeats_summon_witness :
  let again :=
    call 2 (bound_DoubleDeathrattle_trigger_deathrattle 5)
      [VMinion 0; VNone] in
  outcome again applied_SummonOnDeath = Ok tt
  ∧ minions (get_player Player1 (exec again applied_SummonOnDeath))
    = [0; 1; 10; 11].
Proof.
  pose proof (DoubleDeathrattle_repeats_summon applied_SummonOnDeath 5 0 0 0
                murloc_card 2 VNone eq_refl eq_refl ltac:(vm_compute; lia))
    as (Hok & Hboard & _).
  split; [exact Hok|exact Hboard].
Defined.

Lemma IncreaseBattlecryMinionCost_round_trip_witness :
  let w := one_IncreaseBattlecryMinionCost in
  let w1 := exec (apply 0) w in
  let w2 := exec (unapply 0) (set_current_player Player2 w1) in
  mana_filters (get_player Player2 w1)
  = [{| filter_obj := 10; amount := -1; min := 0;
        filter := filter_battlecry_minion |}]
  ∧ outcome (unapply 0) (set_current_player Player2 w1) = Ok tt
  ∧ get_player Player1 w2 = get_player Player1 w
  ∧ get_player Player2 w2 = get_player Player2 w.
Proof.
  pose proof (IncreaseBattlecryMinionCost_round_trip
                one_IncreaseBattlecryMinionCost 0 0 1 None Player2 eq_refl
                (example_world_filters_allocated _))
    as (_ & Hreg & Hok & Hback & _).
  split; [exact (Hreg Player2)|]. split; [exact Hok|].
  split; [exact (Hback Player1)|exact (Hback Player2)].
Defined.

Lemma mana_filter_unapply_before_apply_witness :
  unapply 0 one_IncreaseBattlecryMinionCost
  = (Raise ValueError, one_IncreaseBattlecryMinionCost)
  ∧ unapply 0 two_ManaFilter = (Raise ValueError, two_ManaFilter)
  ∧ unapply 0 ManaFilter_unknown_player = (Ok tt, ManaFilter_unknown_player).
Proof.
  split; [|split].
  - exact (proj1 (mana_filter_unapply_before_apply
                    one_IncreaseBattlecryMinionCost 0 0) 1%Z eq_refl).
  - exact (proj2 (mana_filter_unapply_before_apply two_ManaFilter 0 0)
             (-2)%Z "card" 1%Z "friendly" eq_refl).
  - exact (proj2 (mana_filter_unapply_before_apply ManaFilter_unknown_player
                    0 0) 1%Z "card" 0%Z "friend" eq_refl).
Defined.

Lemma ManaFilter_apply_registers_witness :
  outcome (apply 2) five_effects = Ok tt
  ∧ ∃ f, amount f = 1%Z
         ∧ (∀ c, card_filter_matches (filter f) c
                 = Raise (NameError "MinionCard"))
         ∧ mana_filters (get_player Player1 (exec (apply 2) five_effects))
           = [f]
         ∧ mana_filters (get_player Player2 (exec (apply 2) five_effects))
           = [f].
Proof.
  pose proof (ManaFilter_apply_registers five_effects 2 0 1 0 "minion" "both"
                None eq_refl)
    as (Hok & f & _ & _ & Ha & _ & Hpred & Hown & Hopp).
  split; [exact Hok|]. exists f.
  split; [exact Ha|]. split; [exact Hpred|].
  split; [exact Hown|exact Hopp].
Defined.

Lemma ManaFilter_unapply_twice_raises_witness :
  let once := apply 2 ;; unapply 2 in
  outcome once five_effects = Ok tt
  ∧ unapply 2 (exec once five_effects)
    = (Raise ValueError, exec once five_effects).
Proof.
  exact (ManaFilter_unapply_twice_raises five_effects 2 0 1 0 "minion" "both"
           None eq_refl (example_world_filters_allocated _)
           (or_intror (or_intror eq_refl))).
Defined.

Lemma AddCardOnSpell_fills_hand_to_ten_witness :
  let casts :=
    repeat_times 12
      (call 1 (bound_AddCardOnSpell_add_card 0) [VCard spell_card]) in
  outcome casts one_AddCardOnSpell = Ok tt
  ∧ hand (get_player Player1 (exec casts one_AddCardOnSpell))
    = replicate 10 spell_card.
Proof.
  pose proof (AddCardOnSpell_fills_hand_to_ten 12 one_AddCardOnSpell 0 0 0
                spell_card (VCard spell_card) eq_refl) as (Hok & Hhand & _).
  split; [exact Hok|exact Hhand].
Defined.

Lemma FreezeOnDamage_freezes_damaged_minion_witness :
  let run :=
    apply 4 ;;
    trigger 1 (minion_entity 0) "did_damage" [VInt 3; VMinion 2] in
  outcome run five_effects = Ok tt
  ∧ frozen (minion_store (exec run five_effects) !!! 2) = true.
Proof.
  pose proof (FreezeOnDamage_freezes_damaged_minion five_effects 4 0 2 0
                (VInt 3) eq_refl (example_world_listeners _ _ _))
    as (Hok & Hfrozen & _).
  split; [exact Hok|exact Hfrozen].
Defined.

Lemma DrawOnMinion_draws_for_its_type_witness :
  let placed m :=
    apply 0 ;;
    trigger 1 (player_entity Player1) "minion_placed" [VMinion m] in
  cards_drawn (get_player Player1 (exec (placed 1) typed_DrawOnMinion)) = 1
  ∧ cards_drawn (get_player Player1 (exec (placed 2) typed_DrawOnMinion)) = 0.
Proof.
  pose proof (DrawOnMinion_draws_for_its_type typed_DrawOnMinion 0 0 1 0 1
                eq_refl eq_refl) as (_ & Hbeast & _).
  pose proof (DrawOnMinion_draws_for_its_type typed_DrawOnMinion 0 0 2 0 1
                eq_refl eq_refl) as (_ & Hmurloc & _).
  split; [exact Hbeast|exact Hmurloc].
Defined.

Lemma Buff_self_adds_stats_witness :
  health (minion_store (exec (Buff_do_action 0) Buff_damaged_self) !!! 0)
  = (-1)%Z
  ∧ attack (minion_store (exec (Buff_do_action 0) Buff_damaged_self) !!! 0)
    = 2%Z.
Proof.
  pose proof (Buff_self_adds_stats Buff_damaged_self 0 0 "damaged" "self"
                "friendly" 2 (-1) eq_refl) as (_ & Hh & Ha & _).
  split; [exact Hh|exact Ha].
Defined.

Lemma Buff_random_target_is_another_minion_witness :
  outcome (Buff_do_action 0) Buff_random_friendly = Ok tt
  ∧ ∃ m, m ∈ [0; 1] ∧ m ≠ 0
         ∧ minion_store (exec (Buff_do_action 0) Buff_random_friendly) !!! m
           = buffed 1 1 (minion_store Buff_random_friendly !!! m).
Proof.
  pose proof (Buff_random_target_is_another_minion Buff_random_friendly 0 0
                "turn_ended" "self" "random_friendly" "friendly" 1 1 0 []
                eq_refl (or_intror eq_refl)
                ltac:(change (NoDup [0; 1]); apply NoDup_cons_2;
                      [apply not_elem_of_cons; split;
                       [discriminate|apply not_elem_of_nil]
                      |apply NoDup_singleton])
                ltac:(change (0 ∈ [0; 1]); constructor)
                eq_refl ltac:(vm_compute; lia))
    as (Hok & _ & m & Hin & Hne & Hm & _).
  split; [exact Hok|]. exists m.
  split; [exact Hin|]. split; [exact Hne|exact Hm].
Defined.

Lemma Buff_random_target_off_board_raises_witness :
  Buff_do_action 0 Buff_off_board = (Raise ValueError, Buff_off_board).
Proof.
  apply (Buff_random_target_off_board_raises Buff_off_board 0 7 "death"
           "self" "random_friendly" "friendly" 1 1 eq_refl
           (or_intror eq_refl)).
  vm_compute. intros Hin. by repeat (apply elem_of_cons in Hin as [?|Hin];
    [discriminate|]); apply elem_of_nil in Hin.
Defined.

Lemma Buff_card_filter_acts_on_spells_only_witness :
  let w1 := exec (apply 0) Buff_card_filter in
  let w1' := exec (apply 0) Buff_secret_filter in
  (listeners (player_entity Player1) "card_played" w1
   = [(bound_Buff_check_card_filter 0, false)]
   ∧ trigger 1 (player_entity Player1) "card_played" [VCard spell_card] w1
     = (Ok tt, w1))
  ∧ trigger 1 (player_entity Player1) "card_played" [VCard spell_card] w1'
    = (Raise (NameError "SecretCard"), w1').
Proof.
  split.
  - pose proof (Buff_card_filter_acts_on_spells_only Buff_card_filter
                  0 0 0 "card" "self" 1 1 spell_card eq_refl
                  (or_intror (or_intror eq_refl)) eq_refl)
      as (_ & Hl & _ & _ & Hnever).
    split; [exact Hl|exact (Hnever eq_refl)].
  - pose proof (Buff_card_filter_acts_on_spells_only Buff_secret_filter
                  0 0 0 "secret" "self" 1 1 spell_card eq_refl
                  (or_intror (or_introl eq_refl)) eq_refl)
      as (_ & _ & _ & Hraise & _).
    exact (Hraise eq_refl).
Defined.

Lemma Buff_unknown_event_subscribes_nothing_witness :
  apply 0 Buff_unknown_event = (Ok tt, Buff_unknown_event)
  ∧ unapply 0 Buff_unknown_event = (Ok tt, Buff_unknown_event).
Proof.
  apply (Buff_unknown_event_subscribes_nothing Buff_unknown_event 0 0
           "attack" "self" "self" "friendly" 1 1 eq_refl (or_introl eq_refl)).
  intros Hin. by repeat (apply elem_of_cons in Hin as [?|Hin];
    [discriminate|]); apply elem_of_nil in Hin.
Defined.

Lemma Buff_self_filter_acts_on_target_only_witness :
  let damaged m :=
    apply 0 ;;
    trigger 1 (player_entity Player1) "minion_damaged"
      [VMinion m; VNone] in
  minion_store (exec (damaged 0) Buff_damaged_self) !!! 0
  = buffed 2 (-1) (minion_store Buff_damaged_self !!! 0)
  ∧ minion_store (exec (damaged 1) Buff_damaged_self) !!! 0
    = minion_store Buff_damaged_self !!! 0.
Proof.
  pose proof (Buff_self_filter_acts_on_target_only Buff_damaged_self 0 0 0 0
                "damaged" "minion_damaged" 2 (-1) [VNone] eq_refl
                ltac:(by repeat constructor) eq_refl) as (_ & Hown).
  pose proof (Buff_self_filter_acts_on_target_only Buff_damaged_self 0 0 1 0
                "damaged" "minion_damaged" 2 (-1) [VNone] eq_refl
                ltac:(by repeat constructor) eq_refl) as (_ & Hother).
  split; [exact (Hown 0)|exact (Hother 0)].
Defined.

Lemma ChargeAura_charges_played_minions_witness :
  let played :=
    trigger 1 (player_entity Player2) "minion_played" [VMinion 1] in
  charge (minion_store (exec (apply 0 ;; played) lone_ChargeAura) !!! 1)
  = true
  ∧ charge (minion_store (exec (apply 0 ;; unapply 0 ;; played)
                            lone_ChargeAura) !!! 1) = false.
Proof.
  pose proof (ChargeAura_charges_played_minions lone_ChargeAura 0 2 1 0 (-1)
                [] [] eq_refl eq_refl eq_refl ltac:(discriminate))
    as (_ & Hduring & _ & _ & Hafter).
  split; [exact Hduring|exact Hafter].
Defined.

Lemma ChargeAura_charge_survives_silence_witness :
  let given := exec (ChargeAura_give_charge_if_beast 0 1) one_ChargeAura in
  let w1 := exec (update_minion 1 (with_charge false)) given in
  charge (minion_store
            (exec (trigger 1 (minion_entity 1) "silenced" []) w1) !!! 1)
  = true
  ∧ charge (minion_store
              (exec (trigger 1 (minion_entity 1) "copied"
                       [VMinion 5; VPlayer Player2]) given) !!! 5) = false.
Proof.
  pose proof (ChargeAura_charge_survives_silence one_ChargeAura 0 0 1 5 0
                "friendly" (-1) [] [] (VPlayer Player2) eq_refl
                ltac:(discriminate) eq_refl eq_refl
                (example_world_listeners _ _ _)
                (example_world_listeners _ _ _))
    as (_ & _ & Hback & _ & _ & Hcopy).
  split; [exact Hback|exact Hcopy].
Defined.

Lemma StatsAura_registers_one_aura_witness :
  let run := apply 0 ;; unapply 0 in
  auras (exec run StatsAura_unknown_players)
  = [{| aura_source := 0; aura_attack := 1; aura_health := 1;
        aura_players := [Player1; Player2]; aura_filter := None |}].
Proof.
  pose proof (StatsAura_registers_one_aura StatsAura_unknown_players 0 0 1 1
                "friend" (-1) eq_refl) as (_ & _ & Hauras & _).
  exact Hauras.
Defined.

Lemma Resurrect_apply_unapply_forgets_witness :
  let run := apply 0 ;; unapply 0 in
  restored one_Resurrect (exec run one_Resurrect)
  ∧ state (effect_store (exec run one_Resurrect) !!! 0)
    = ResurrectFriendlyMinionsAtEndOfTurn [].
Proof.
  pose proof (Resurrect_apply_unapply_forgets one_Resurrect 0 0 [murloc_card]
                eq_refl (example_world_not_bound _ 0))
    as (_ & Hrestored & Hrecord).
  split; [exact Hrestored|exact Hrecord].
Defined.

Lemma Buff_adds_up_over_turns_witness :
  let run :=
    apply 0 ;;
    repeat_times 3 (trigger 1 (player_entity Player1) "turn_ended" []) in
  attack (minion_store (exec run Buff_every_turn) !!! 0) = 3%Z
  ∧ health (minion_store (exec run Buff_every_turn) !!! 0) = 3%Z.
Proof.
  pose proof (Buff_adds_up_over_turns 3 Buff_every_turn 0 0 0 "self" 1 1
                eq_refl eq_refl) as (_ & Ha & Hh & _).
  split; [exact Ha|exact Hh].
Defined.

Lemma HealAsDamage_flag_tracks_count_witness :
  counted "HealAsDamage" Player1 (exec (add_effect 0) one_HealAsDamage)
  = 1%Z
  ∧ heal_does_damage (get_player Player1
                        (exec (add_effect 0) one_HealAsDamage)) = true.
Proof.
  pose proof (HealAsDamage_flag_tracks_count one_HealAsDamage 0 0 eq_refl
                eq_refl) as [Hadd _].
  destruct (Hadd ltac:(vm_compute; discriminate)) as (_ & Hcount & Hflag).
  split; [exact Hcount|]. etrans; [exact Hflag|]. reflexivity.
Defined.

Lemma DoubleDeathrattle_unapply_in_reverse_order_witness :
  let run := add_effect 0 ;; add_effect 1 ;;
             remove_effect 1 ;; remove_effect 0 in
  outcome run two_DoubleDeathrattle = Ok tt
  ∧ listeners (player_entity Player1) "minion_died"
      (exec run two_DoubleDeathrattle) = [].
Proof.
  pose proof (DoubleDeathrattle_unapply_in_reverse_order
                two_DoubleDeathrattle 0 1 0 1 eq_refl eq_refl eq_refl eq_refl
                ltac:(constructor)) as (_ & _ & Hlast).
  split; [exact (f_equal fst Hlast)|exact (f_equal snd Hlast)].
Defined.

Lemma ChargeAura_unknown_selector_does_nothing_witness :
  apply 0 ChargeAura_unknown_players = (Ok tt, ChargeAura_unknown_players)
  ∧ unapply 0 ChargeAura_unknown_players
    = (Ok tt, ChargeAura_unknown_players).
Proof.
  apply (ChargeAura_unknown_selector_does_nothing ChargeAura_unknown_players
           0 0 "friend" (-1) [] [] eq_refl).
  intros Hin. by repeat (apply elem_of_cons in Hin as [?|Hin];
    [discriminate|]); apply elem_of_nil in Hin.
Defined.
